(** * OGR simple curves and the FlatGeobuf layer: a shallow embedding

    The development follows three translation units of the OGR vector
    library:

    - [ogr/ogrlinestring.cpp]: the point-array curve [OGRSimpleCurve]
      ([setNumPoints], [reversePoints], [Value], [transform], [segmentize],
      [get_LinearArea]) and [OGRLineString::isClockwise];
    - [ogr/ogrsf_frmts/flatgeobuf/ogrflatgeobuflayer.cpp]: the property
      stream decoder of [parseFeature], the feature writer [ICreateFeature]
      and the finalisation [CreateFinalFile].

    Conventions.  A C [double] is an IEEE-754 binary64 number, modelled by
    the primitive type [float]; every arithmetic operation rounds once, as
    for a build without contraction of multiply-add.  A C [int] is a [Z];
    every place where the source guards against overflow keeps its guard.
    A heap array is a [list]; a null pointer is [None].  Reading an array
    outside its bounds is undefined in the source; the model returns a
    default there and no theorem depends on it.  Calls that can fail for
    reasons outside the program (allocation, opening a file) take their
    outcome from an oracle given as a parameter. *)

From Stdlib Require Import ZArith Floats List Bool Lia String.
From Stdlib.Strings Require Import Byte.
From stdpp Require Import base list option.
Import ListNotations.

#[local] Open Scope Z_scope.
#[local] Set Warnings "-inexact-float".

(** ** Error codes ([ogr_core.h]) *)

Inductive OGRErr : Type :=
| OGRERR_NONE
| OGRERR_NOT_ENOUGH_DATA
| OGRERR_NOT_ENOUGH_MEMORY
| OGRERR_UNSUPPORTED_GEOMETRY_TYPE
| OGRERR_UNSUPPORTED_OPERATION
| OGRERR_CORRUPT_DATA
| OGRERR_FAILURE.

#[global] Instance OGRErr_eq_dec : EqDecision OGRErr.
Proof. solve_decision. Defined.

(** ** IEEE comparisons

    The source compares doubles with [<], [>], [<=], [>=], [==] and [!=];
    every one of them is false on a NaN operand except [!=]. *)

Definition flt (a b : float) : bool := PrimFloat.ltb a b.
Definition fgt (a b : float) : bool := PrimFloat.ltb b a.
Definition fle (a b : float) : bool := PrimFloat.leb a b.
Definition fge (a b : float) : bool := PrimFloat.leb b a.
Definition feq (a b : float) : bool := PrimFloat.eqb a b.
Definition fne (a b : float) : bool := negb (PrimFloat.eqb a b).

(** [static_cast<double>(n)] for an [int] [n]. *)
Definition double_of_int (n : Z) : float :=
  if n <? 0 then PrimFloat.opp (PrimFloat.of_uint63 (Uint63.of_Z (- n)))
  else PrimFloat.of_uint63 (Uint63.of_Z n).

Definition INT_MAX : Z := 2147483647.
Definition INT_MIN : Z := -2147483648.

(** The largest integer below a finite double ([floor]), as an integer. *)
Definition floor_Z (f : float) : option Z :=
  match Prim2SF f with
  | S754_zero _ => Some 0
  | S754_finite s m e =>
      let v := if s then Z.neg m else Z.pos m in
      Some (if 0 <=? e then v * 2 ^ e else v / 2 ^ (- e))
  | _ => None
  end.

(** Modelled from the spec: [DoubleToIntClamp], declared outside the
    translation units at hand, here composed with [floor]; the spec asks for
    the count of intermediate points to be "clamped to a sane maximum", and
    the helper's name says to the range of [int]: an infinity goes to the
    bound of its sign, a NaN to 0. *)
Definition DoubleToIntClamp_floor (f : float) : Z :=
  match floor_Z f with
  | Some z => Z.max INT_MIN (Z.min INT_MAX z)
  | None =>
      match Prim2SF f with
      | S754_infinity false => INT_MAX
      | S754_infinity true => INT_MIN
      | _ => 0
      end
  end.

(** * [OGRSimpleCurve] ([ogr/ogrlinestring.cpp]) *)

Module Curve.

(** ** The coordinate buffer *)

Record OGRRawPoint : Type := mkRawPoint { x : float; y : float }.

(** Modelled from the spec: [sizeof(OGRRawPoint)]; the struct is declared
    outside the translation unit, the spec describes each entry as "a
    2-double pair". *)
Definition sizeof_OGRRawPoint : Z := 16.
Definition sizeof_double : Z := 8.

(** Modelled from the spec: the bits of [flags] that record the presence
    of the Z and M planes ("Z-flag", "M-flag"); their values are declared in
    [ogr_geometry.h]. *)
Definition OGR_G_3D : Z := 2.
Definition OGR_G_MEASURED : Z := 4.

Record OGRSimpleCurve : Type := mkCurve {
  flags : Z;
  nPointCount : Z;
  m_nPointCapacity : Z;
  paoPoints : option (list OGRRawPoint);
  padfZ : option (list float);
  padfM : option (list float);
  (** the dynamic type, for the one virtual call the model needs
      ([WkbSize], overridden by the linear ring) *)
  isLinearRing : bool
}.

Definition has3D (c : OGRSimpleCurve) : bool := negb (Z.land (flags c) OGR_G_3D =? 0).
Definition hasM (c : OGRSimpleCurve) : bool := negb (Z.land (flags c) OGR_G_MEASURED =? 0).

Definition set_flags (f : Z) (c : OGRSimpleCurve) : OGRSimpleCurve :=
  mkCurve f (nPointCount c) (m_nPointCapacity c) (paoPoints c) (padfZ c) (padfM c) (isLinearRing c).
Definition set_nPointCount (n : Z) (c : OGRSimpleCurve) : OGRSimpleCurve :=
  mkCurve (flags c) n (m_nPointCapacity c) (paoPoints c) (padfZ c) (padfM c) (isLinearRing c).
Definition set_capacity (n : Z) (c : OGRSimpleCurve) : OGRSimpleCurve :=
  mkCurve (flags c) (nPointCount c) n (paoPoints c) (padfZ c) (padfM c) (isLinearRing c).
Definition set_paoPoints (p : option (list OGRRawPoint)) (c : OGRSimpleCurve) : OGRSimpleCurve :=
  mkCurve (flags c) (nPointCount c) (m_nPointCapacity c) p (padfZ c) (padfM c) (isLinearRing c).
Definition set_padfZ (p : option (list float)) (c : OGRSimpleCurve) : OGRSimpleCurve :=
  mkCurve (flags c) (nPointCount c) (m_nPointCapacity c) (paoPoints c) p (padfM c) (isLinearRing c).
Definition set_padfM (p : option (list float)) (c : OGRSimpleCurve) : OGRSimpleCurve :=
  mkCurve (flags c) (nPointCount c) (m_nPointCapacity c) (paoPoints c) (padfZ c) p (isLinearRing c).

Definition zeroPoint : OGRRawPoint := mkRawPoint 0%float 0%float.

(** [paoPoints[i]], [padfZ[i]], [padfM[i]] *)
Definition pt (c : OGRSimpleCurve) (i : nat) : OGRRawPoint :=
  nth i (default [] (paoPoints c)) zeroPoint.
Definition zAt (c : OGRSimpleCurve) (i : nat) : float :=
  nth i (default [] (padfZ c)) 0%float.
Definition mAt (c : OGRSimpleCurve) (i : nat) : float :=
  nth i (default [] (padfM c)) 0%float.

(** ** Allocation

    What the allocator was asked, in order: the log lets a statement speak
    of a release that comes before a reallocation. *)

Inductive Plane : Type := PlaneXY | PlaneZ | PlaneM.

Inductive HeapEvent : Type :=
| EvFree (p : Plane) (was_allocated : bool)
| EvRealloc (p : Plane) (from_null : bool) (nbytes : Z) (ok : bool).

Definition is_null {A} (p : option A) : bool := match p with None => true | Some _ => false end.

Section WithAllocator.

(** [alloc_ok n]: the allocator satisfies a request of [n] bytes.
    [junkP], [junkD]: what fresh memory holds. *)
Variable alloc_ok : Z -> bool.
Variable junkP : OGRRawPoint.
Variable junkD : float.

(** [VSI_REALLOC_VERBOSE(p, elt * n)]: the first elements survive. *)
Definition VSI_REALLOC {A} (junk : A) (p : option (list A)) (elt n : Z) : option (list A) :=
  if alloc_ok (elt * n) then Some (resize (Z.to_nat n) junk (default [] p)) else None.

(** [VSI_CALLOC_VERBOSE(elt, n)]: zero-filled. *)
Definition VSI_CALLOC (elt n : Z) : option (list float) :=
  if alloc_ok (elt * n) then Some (replicate (Z.to_nat n) 0%float) else None.

(** [memset(p + from, 0, sizeof * cnt)] *)
Definition zero_fill {A} (z : A) (from cnt : nat) (p : option (list A)) : option (list A) :=
  match p with
  | None => None
  | Some l => Some (take from l ++ replicate cnt z ++ drop (from + cnt) l)
  end.

Definition setNumPoints_limit : Z := Z.quot INT_MAX sizeof_OGRRawPoint.

(** The capacity [setNumPoints] aims for when it has to grow. *)
Definition nNewCapacity (c : OGRSimpleCurve) (nNewPointCount : Z) : Z :=
  if (nPointCount c =? 0)
     || (nNewPointCount >? setNumPoints_limit - Z.quot nNewPointCount 3)
  then nNewPointCount
  else nNewPointCount + Z.quot nNewPointCount 3.

(** The release of the arrays of a curve without points, before growing. *)
Definition free_if_empty (c : OGRSimpleCurve) : OGRSimpleCurve * list HeapEvent :=
  if (nPointCount c =? 0) && negb (is_null (paoPoints c))
  then (set_capacity 0 (set_padfM None (set_padfZ None (set_paoPoints None c))),
        [EvFree PlaneXY true;
         EvFree PlaneZ (negb (is_null (padfZ c)));
         EvFree PlaneM (negb (is_null (padfM c)))])
  else (c, []).

(** The three reallocations; [None] is the [return false] of the source,
    with the curve as the failed call leaves it. *)
Definition grow (c : OGRSimpleCurve) (cap : Z)
  : bool * OGRSimpleCurve * list HeapEvent :=
  let evXY ok := EvRealloc PlaneXY (is_null (paoPoints c)) (sizeof_OGRRawPoint * cap) ok in
  match VSI_REALLOC junkP (paoPoints c) sizeof_OGRRawPoint cap with
  | None => (false, c, [evXY false])
  | Some pts =>
      let c1 := set_paoPoints (Some pts) c in
      let evZ ok := EvRealloc PlaneZ (is_null (padfZ c1)) (sizeof_double * cap) ok in
      let stepZ :=
        if has3D c1 then
          match VSI_REALLOC junkD (padfZ c1) sizeof_double cap with
          | None => (false, c1, [evZ false])
          | Some z => (true, set_padfZ (Some z) c1, [evZ true])
          end
        else (true, c1, []) in
      match stepZ with
      | (false, c2, ev2) => (false, c2, evXY true :: ev2)
      | (true, c2, ev2) =>
          let evM ok := EvRealloc PlaneM (is_null (padfM c2)) (sizeof_double * cap) ok in
          if hasM c2 then
            match VSI_REALLOC junkD (padfM c2) sizeof_double cap with
            | None => (false, c2, evXY true :: ev2 ++ [evM false])
            | Some m => (true, set_capacity cap (set_padfM (Some m) c2),
                         evXY true :: ev2 ++ [evM true])
            end
          else (true, set_capacity cap c2, evXY true :: ev2)
      end
  end.

(** The zero-fill of the newly exposed elements. *)
Definition zeroize (c : OGRSimpleCurve) (nNewPointCount : Z) : OGRSimpleCurve :=
  let from := Z.to_nat (nPointCount c) in
  let cnt := Z.to_nat (nNewPointCount - nPointCount c) in
  let c1 := set_paoPoints (zero_fill zeroPoint from cnt (paoPoints c)) c in
  let c2 := if has3D c1 && negb (is_null (padfZ c1))
            then set_padfZ (zero_fill 0%float from cnt (padfZ c1)) c1 else c1 in
  if hasM c2 && negb (is_null (padfM c2))
  then set_padfM (zero_fill 0%float from cnt (padfM c2)) c2 else c2.

Definition setNumPoints (c : OGRSimpleCurve) (nNewPointCount : Z) (bZeroizeNewContent : bool)
  : bool * OGRSimpleCurve * list HeapEvent :=
  let finish c1 ev :=
    let c2 := if (nNewPointCount >? nPointCount c1) && bZeroizeNewContent
              then zeroize c1 nNewPointCount else c1 in
    (true, set_nPointCount nNewPointCount c2, ev) in
  if nNewPointCount >? m_nPointCapacity c then
    if nNewPointCount >? setNumPoints_limit then (false, c, [])
    else
      let cap := nNewCapacity c nNewPointCount in
      let '(c1, ev1) := free_if_empty c in
      match grow c1 cap with
      | (false, c2, ev2) => (false, c2, ev1 ++ ev2)
      | (true, c2, ev2) => finish c2 (ev1 ++ ev2)
      end
  else finish c [].

(** ** Dimensions *)

Definition Make2D (c : OGRSimpleCurve) : OGRSimpleCurve :=
  set_flags (Z.land (flags c) (Z.lnot OGR_G_3D)) (set_padfZ None c).

Definition Make3D (c : OGRSimpleCurve) : bool * OGRSimpleCurve :=
  match padfZ c with
  | None =>
      match VSI_CALLOC sizeof_double (Z.max 1 (m_nPointCapacity c)) with
      | None => (false, set_flags (Z.land (flags c) (Z.lnot OGR_G_3D)) c)
      | Some z => (true, set_flags (Z.lor (flags c) OGR_G_3D) (set_padfZ (Some z) c))
      end
  | Some _ => (true, set_flags (Z.lor (flags c) OGR_G_3D) c)
  end.

(** ** [setPoints(nPointsIn, padfX, padfY, padfZIn)] *)

Definition setPoints (c : OGRSimpleCurve) (nPointsIn : Z)
  (padfX padfY : list float) (padfZIn : option (list float)) : bool * OGRSimpleCurve :=
  let '(ok, c1) := match padfZIn with
                   | None => (true, Make2D c)
                   | Some _ => Make3D c
                   end in
  if negb ok then (false, c1)
  else
    match setNumPoints c1 nPointsIn false with
    | (false, c2, _) => (false, c2)
    | (true, c2, _) =>
        let n := Z.to_nat nPointsIn in
        let newpts := zip_with mkRawPoint (take n padfX) (take n padfY) in
        let c3 := set_paoPoints
                    (option_map (fun l => newpts ++ drop n l) (paoPoints c2)) c2 in
        match padfZ c3, padfZIn with
        | Some l, Some zin =>
            if nPointsIn =? 0 then (true, c3)
            else (true, set_padfZ (Some (take n zin ++ drop n l)) c3)
        | _, _ => (true, c3)
        end
    end.

End WithAllocator.

(** ** [reversePoints] *)

Definition swap {A} (i j : nat) (l : list A) : list A :=
  match l !! i, l !! j with
  | Some a, Some b => <[j := a]> (<[i := b]> l)
  | _, _ => l
  end.

(** [for (i = 0; i < nPointCount / 2; i++) std::swap(a[i], a[nPointCount - i - 1])] *)
Definition reverse_loop {A} (n half : nat) (l : list A) : list A :=
  fold_left (fun l i => swap i (n - i - 1) l) (seq 0 half) l.

Definition reversePoints (c : OGRSimpleCurve) : OGRSimpleCurve :=
  let n := Z.to_nat (nPointCount c) in
  let half := Z.to_nat (Z.quot (nPointCount c) 2) in
  mkCurve (flags c) (nPointCount c) (m_nPointCapacity c)
          (option_map (reverse_loop n half) (paoPoints c))
          (option_map (reverse_loop n half) (padfZ c))
          (option_map (reverse_loop n half) (padfM c))
          (isLinearRing c).

(** ** Points handed to the caller *)

Record OGRPoint : Type := mkPoint { ptX : float; ptY : float; ptZ : float; ptM : float }.

Definition setX (v : float) (p : OGRPoint) : OGRPoint := mkPoint v (ptY p) (ptZ p) (ptM p).
Definition setY (v : float) (p : OGRPoint) : OGRPoint := mkPoint (ptX p) v (ptZ p) (ptM p).
Definition setZ (v : float) (p : OGRPoint) : OGRPoint := mkPoint (ptX p) (ptY p) v (ptM p).
Definition setM (v : float) (p : OGRPoint) : OGRPoint := mkPoint (ptX p) (ptY p) (ptZ p) v.

Definition getPoint (c : OGRSimpleCurve) (i : nat) (poPoint : OGRPoint) : OGRPoint :=
  let p1 := setY (y (pt c i)) (setX (x (pt c i)) poPoint) in
  let p2 := if has3D c && negb (is_null (padfZ c)) then setZ (zAt c i) p1 else p1 in
  if hasM c && negb (is_null (padfM c)) then setM (mAt c i) p2 else p2.

Definition StartPoint (c : OGRSimpleCurve) (poPoint : OGRPoint) : OGRPoint :=
  getPoint c 0 poPoint.
Definition EndPoint (c : OGRSimpleCurve) (poPoint : OGRPoint) : OGRPoint :=
  getPoint c (Z.to_nat (nPointCount c - 1)) poPoint.

(** Modelled from the spec: [getCoordinateDimension], defined in the base
    geometry class; the spec interpolates "Z when 3D". *)
Definition getCoordinateDimension (c : OGRSimpleCurve) : Z := if has3D c then 3 else 2.

(** Modelled from the spec: [CoordinateDimension], defined in the base
    geometry class: one more for each of the Z and M planes. *)
Definition CoordinateDimension (c : OGRSimpleCurve) : Z :=
  2 + (if has3D c then 1 else 0) + (if hasM c then 1 else 0).

(** [OGRSimpleCurve::WkbSize]; the linear ring overrides it to return 0
    (the source of [get_LinearArea] relies on it: "if not a linearring,
    check it is closed"). *)
Definition WkbSize (c : OGRSimpleCurve) : Z :=
  if isLinearRing c then 0
  else 5 + 4 + 8 * nPointCount c * CoordinateDimension c.

#[local] Open Scope float_scope.

(** ** [get_Length] and [Value] *)

Definition segLength (c : OGRSimpleCurve) (i : nat) : float :=
  let dfDeltaX := x (pt c (i + 1)) - x (pt c i) in
  let dfDeltaY := y (pt c (i + 1)) - y (pt c i) in
  PrimFloat.sqrt (dfDeltaX * dfDeltaX + dfDeltaY * dfDeltaY).

Definition get_Length (c : OGRSimpleCurve) : float :=
  fold_left (fun dfLength i => dfLength + segLength c i)
            (seq 0 (Z.to_nat (nPointCount c - 1))) 0.

(** The point of segment [i] at [dfRatio]. *)
Definition interpolate (c : OGRSimpleCurve) (i : nat) (dfRatio : float) (poPoint : OGRPoint)
  : OGRPoint :=
  let p1 := setX (x (pt c i) * (1 - dfRatio) + x (pt c (i + 1)) * dfRatio) poPoint in
  let p2 := setY (y (pt c i) * (1 - dfRatio) + y (pt c (i + 1)) * dfRatio) p1 in
  if (getCoordinateDimension c =? 3)%Z
  then setZ (zAt c i * (1 - dfRatio) + zAt c (i + 1) * dfRatio) p2
  else p2.

(** The loop of [Value], [k] iterations from index [i]; [Some] is the
    [return] inside the loop. *)
Fixpoint Value_loop (c : OGRSimpleCurve) (dfDistance : float) (poPoint : OGRPoint)
  (k i : nat) (dfLength : float) : option OGRPoint :=
  match k with
  | O => None
  | S k' =>
      let dfSegLength := segLength c i in
      if fgt dfSegLength 0 then
        if fle dfLength dfDistance && fge (dfLength + dfSegLength) dfDistance
        then Some (interpolate c i ((dfDistance - dfLength) / dfSegLength) poPoint)
        else Value_loop c dfDistance poPoint k' (S i) (dfLength + dfSegLength)
      else Value_loop c dfDistance poPoint k' (S i) dfLength
  end.

Definition Value (c : OGRSimpleCurve) (dfDistance : float) (poPoint : OGRPoint) : OGRPoint :=
  if flt dfDistance 0 then StartPoint c poPoint
  else
    match Value_loop c dfDistance poPoint (Z.to_nat (nPointCount c - 1)) 0%nat 0 with
    | Some p => p
    | None => EndPoint c poPoint
    end.

(** ** [get_LinearArea] and [isClockwise] *)

(** The sum of Green's formula, as both functions accumulate it. *)
Definition greenSum (c : OGRSimpleCurve) : float :=
  let n := Z.to_nat (nPointCount c) in
  let dfAreaSum := x (pt c 0) * (y (pt c 1) - y (pt c (n - 1))) in
  let dfAreaSum :=
    fold_left (fun s i => s + x (pt c i) * (y (pt c (i + 1)) - y (pt c (i - 1))))
              (seq 1 (n - 2)) dfAreaSum in
  dfAreaSum + x (pt c (n - 1)) * (y (pt c 0) - y (pt c (n - 2))).

Definition get_LinearArea (c : OGRSimpleCurve) : float :=
  let n := Z.to_nat (nPointCount c) in
  if (nPointCount c <? 2)%Z
     || (negb (WkbSize c =? 0)%Z
         && (fne (x (pt c 0)) (x (pt c (n - 1))) || fne (y (pt c 0)) (y (pt c (n - 1)))))
  then 0
  else 0.5 * PrimFloat.abs (greenSum c).

(** One turn of the search for the lowest rightmost vertex: the state is
    the candidate [v] and [bUseFallback]. *)
Definition pivot_step (c : OGRSimpleCurve) (st : nat * bool) (i : nat) : nat * bool :=
  let '(v, bUseFallback) := st in
  if flt (y (pt c i)) (y (pt c v))
     || (feq (y (pt c i)) (y (pt c v)) && fgt (x (pt c i)) (x (pt c v)))
  then (i, false)
  else if feq (y (pt c i)) (y (pt c v)) && feq (x (pt c i)) (x (pt c v))
  then (v, true)
  else (v, bUseFallback).

Definition find_pivot (c : OGRSimpleCurve) : nat * bool :=
  fold_left (pivot_step c) (seq 1 (Z.to_nat (nPointCount c) - 2)) (0%nat, false).

Definition EPSILON : float := 1.0E-5.

Definition epsilonEqual (a b eps : float) : bool := flt (PrimFloat.abs (a - b)) eps.

(** The vertex before and the vertex after [v], the closing point left out. *)
Definition previous_vertex (c : OGRSimpleCurve) (v : nat) : nat :=
  let next := (Z.of_nat v - 1)%Z in
  Z.to_nat (if (next <? 0)%Z then (nPointCount c - 1 - 1)%Z else next).
Definition following_vertex (c : OGRSimpleCurve) (v : nat) : nat :=
  let next := (Z.of_nat v + 1)%Z in
  Z.to_nat (if (next >=? nPointCount c - 1)%Z then 0%Z else next).

Definition near_pivot (c : OGRSimpleCurve) (next v : nat) : bool :=
  epsilonEqual (x (pt c next)) (x (pt c v)) EPSILON
  && epsilonEqual (y (pt c next)) (y (pt c v)) EPSILON.

Definition crossproduct (c : OGRSimpleCurve) (v : nat) : float :=
  let dx0 := x (pt c (previous_vertex c v)) - x (pt c v) in
  let dy0 := y (pt c (previous_vertex c v)) - y (pt c v) in
  let dx1 := x (pt c (following_vertex c v)) - x (pt c v) in
  let dy1 := y (pt c (following_vertex c v)) - y (pt c v) in
  dx1 * dy0 - dx0 * dy1.

Definition isClockwise (c : OGRSimpleCurve) : bool :=
  if (nPointCount c <? 2)%Z then true
  else
    let '(v, bUseFallback) := find_pivot c in
    let bUseFallback := if near_pivot c (previous_vertex c v) v then true else bUseFallback in
    let bUseFallback := if near_pivot c (following_vertex c v) v then true else bUseFallback in
    if negb bUseFallback && fgt (crossproduct c v) 0 then false
    else if negb bUseFallback && flt (crossproduct c v) 0 then true
    else flt (greenSum c) 0.

(** ** [transform] *)

Section Transform.

Variable alloc_ok : Z -> bool.
Variable junkP : OGRRawPoint.
Variable junkD : float.

(** [poCT->Transform(nPointCount, x, y, z, nullptr, pabSuccess)]: the
    transformation is a collaborator; it rewrites the scratch array and
    fills one success flag per point. *)
Variable Transform : Z -> list float -> list float * list Z.

(** [CPLGetConfigOption("OGR_ENABLE_PARTIAL_REPROJECTION", nullptr)] and
    [CPLTestBool]. *)
Variable OGR_ENABLE_PARTIAL_REPROJECTION : option string.
Variable CPLTestBool : string -> bool.

Definition rd (l : list float) (i : nat) : float := nth i l 0.

(** The scratch array: the X, then the Y, then the Z of every point (zero
    without a Z array). *)
Definition fill_xyz (c : OGRSimpleCurve) : list float :=
  let n := Z.to_nat (nPointCount c) in
  map (fun i => x (pt c i)) (seq 0 n)
  ++ map (fun i => y (pt c i)) (seq 0 n)
  ++ map (fun i => if is_null (padfZ c) then 0 else zAt c i) (seq 0 n).

(** The loop that keeps the points that were transformed, [k] iterations
    from index [i]; [None] is its [return OGRERR_FAILURE].  The block that
    looks for one valid point only chooses whether a hint is printed. *)
Fixpoint compact (n : nat) (pabSuccess : list Z) (k i : nat) (xyz : list float) (j : nat)
  : option (list float * nat) :=
  match k with
  | O => Some (xyz, j)
  | S k' =>
      if negb (nth i pabSuccess 0%Z =? 0)%Z then
        let xyz := <[j := rd xyz i]> xyz in
        let xyz := <[(j + n)%nat := rd xyz (i + n)]> xyz in
        let xyz := <[(j + 2 * n)%nat := rd xyz (i + 2 * n)]> xyz in
        compact n pabSuccess k' (S i) xyz (S j)
      else
        match OGR_ENABLE_PARTIAL_REPROJECTION with
        | None => None
        | Some pszEnablePartialReprojection =>
            if negb (CPLTestBool pszEnablePartialReprojection) then None
            else compact n pabSuccess k' (S i) xyz j
        end
  end.

Definition transform (c : OGRSimpleCurve) : OGRErr * OGRSimpleCurve :=
  let n := Z.to_nat (nPointCount c) in
  if negb (alloc_ok (sizeof_double * nPointCount c * 3)
           && alloc_ok (4 * nPointCount c))%Z
  then (OGRERR_NOT_ENOUGH_MEMORY, c)
  else
    let '(xyz, pabSuccess) := Transform (nPointCount c) (fill_xyz c) in
    match compact n pabSuccess n 0 xyz 0 with
    | None => (OGRERR_FAILURE, c)
    | Some (xyz, j) =>
        if (j =? 0)%nat && negb (nPointCount c =? 0)%Z then (OGRERR_FAILURE, c)
        else
          let '(_, c') :=
            setPoints alloc_ok junkP junkD c (Z.of_nat j) xyz (drop n xyz)
                      (if is_null (padfZ c) then None else Some (drop (2 * n) xyz)) in
          (OGRERR_NONE, c')
    end.

End Transform.

(** ** [segmentize] *)

Section Segmentize.

Variable alloc_ok : Z -> bool.
Variable junkP : OGRRawPoint.
Variable junkD : float.

Definition REL_EPSILON_LENGTH_SQUARE : float := 1e-5.
Definition REL_EPSILON_ROUND : float := 1e-2.
Definition kMax : Z := Z.shiftl 2 26.

(** The test that puts the curve in its canonical direction. *)
Definition first_before_last (c : OGRSimpleCurve) : bool :=
  let n := Z.to_nat (nPointCount c) in
  flt (x (pt c 0)) (x (pt c (n - 1)))
  || (feq (x (pt c 0)) (x (pt c (n - 1))) && flt (y (pt c 0)) (y (pt c (n - 1)))).

(** [nIntermediatePoints] of segment [i], when the segment is to be cut. *)
Definition nIntermediatePoints (c : OGRSimpleCurve) (dfSquareMaxLength : float) (i : nat)
  : option Z :=
  let dfX := x (pt c (i + 1)) - x (pt c i) in
  let dfY := y (pt c (i + 1)) - y (pt c i) in
  let dfSquareDist := dfX * dfX + dfY * dfY in
  if fgt (dfSquareDist - dfSquareMaxLength) (REL_EPSILON_LENGTH_SQUARE * dfSquareMaxLength)
  then Some (DoubleToIntClamp_floor
               (PrimFloat.sqrt (dfSquareDist / dfSquareMaxLength) - REL_EPSILON_ROUND))
  else None.

(** First pass, [k] iterations from index [i]: the new number of points;
    [None] is its [return false]. *)
Fixpoint count_pass (c : OGRSimpleCurve) (dfSquareMaxLength : float) (k i : nat)
  (nNewPointCount : Z) : option Z :=
  match k with
  | O => Some nNewPointCount
  | S k' =>
      let nNewPointCount := (nNewPointCount + 1)%Z in
      if (Z.of_nat i =? nPointCount c - 1)%Z then Some nNewPointCount
      else
        match nIntermediatePoints c dfSquareMaxLength i with
        | Some m =>
            if (nNewPointCount >? kMax)%Z || (m >? kMax)%Z then None
            else count_pass c dfSquareMaxLength k' (S i) (nNewPointCount + m)%Z
        | None => count_pass c dfSquareMaxLength k' (S i) nNewPointCount
        end
  end.

(** A store into a new array. *)
Definition store {A} (idx : Z) (v : A) (l : list A) : list A :=
  if (idx <? 0)%Z then l else <[Z.to_nat idx := v]> l.
Definition store_opt {A} (idx : Z) (v : A) (p : option (list A)) : option (list A) :=
  option_map (store idx v) p.

(** The three new arrays of the second pass. *)
Definition NewArrays : Type :=
  (list OGRRawPoint * option (list float) * option (list float))%type.

(** The inner loop: [for (j = 1; j <= nIntermediatePoints; j++)]. *)
Definition fill_intermediate (c : OGRSimpleCurve) (i : nat) (m nNewPointCount : Z)
  (arr : NewArrays) : NewArrays :=
  let dfX := x (pt c (i + 1)) - x (pt c i) in
  let dfY := y (pt c (i + 1)) - y (pt c i) in
  let dfRatioX := dfX / (double_of_int m + 1) in
  let dfRatioY := dfY / (double_of_int m + 1) in
  fold_left
    (fun '(pts, zs, ms) j =>
       let newI := (nNewPointCount + Z.of_nat j - 1)%Z in
       (store newI (mkRawPoint (x (pt c i) + double_of_int (Z.of_nat j) * dfRatioX)
                               (y (pt c i) + double_of_int (Z.of_nat j) * dfRatioY)) pts,
        store_opt newI (zAt c i) zs,
        store_opt newI (mAt c i) ms))
    (seq 1 (Z.to_nat m)) arr.

(** Second pass, [k] iterations from index [i]. *)
Fixpoint fill_pass (c : OGRSimpleCurve) (dfSquareMaxLength : float) (k i : nat)
  (nNewPointCount : Z) (arr : NewArrays) : Z * NewArrays :=
  match k with
  | O => (nNewPointCount, arr)
  | S k' =>
      let '(pts, zs, ms) := arr in
      let arr := (store nNewPointCount (pt c i) pts,
                  store_opt nNewPointCount (zAt c i) zs,
                  store_opt nNewPointCount (mAt c i) ms) in
      let nNewPointCount := (nNewPointCount + 1)%Z in
      if (Z.of_nat i =? nPointCount c - 1)%Z then (nNewPointCount, arr)
      else
        match nIntermediatePoints c dfSquareMaxLength i with
        | Some m =>
            fill_pass c dfSquareMaxLength k' (S i) (nNewPointCount + m)%Z
                      (fill_intermediate c i m nNewPointCount arr)
        | None => fill_pass c dfSquareMaxLength k' (S i) nNewPointCount arr
        end
  end.

(** [VSI_MALLOC_VERBOSE(elt * n)] *)
Definition VSI_MALLOC {A} (junk : A) (elt n : Z) : option (list A) :=
  if alloc_ok (elt * n)%Z then Some (replicate (Z.to_nat n) junk) else None.

(** The body of [segmentize] once the direction is settled. *)
Definition segmentize_passes (c : OGRSimpleCurve) (dfMaxLength : float)
  : bool * OGRSimpleCurve :=
  let n := Z.to_nat (nPointCount c) in
  let dfSquareMaxLength := dfMaxLength * dfMaxLength in
  match count_pass c dfSquareMaxLength n 0 0 with
  | None => (false, c)
  | Some nNewPointCount =>
      if (nPointCount c =? nNewPointCount)%Z then (true, c)
      else
        match VSI_MALLOC junkP sizeof_OGRRawPoint nNewPointCount with
        | None => (false, c)
        | Some paoNewPoints =>
            let allocZ := if is_null (padfZ c) then Some None
                          else option_map Some (VSI_MALLOC junkD sizeof_double nNewPointCount) in
            match allocZ with
            | None => (false, c)
            | Some padfNewZ =>
                let allocM := if is_null (padfM c) then Some None
                              else option_map Some (VSI_MALLOC junkD sizeof_double nNewPointCount) in
                match allocM with
                | None => (false, c)
                | Some padfNewM =>
                    let '(nNew, (pts, zs, ms)) :=
                      fill_pass c dfSquareMaxLength n 0 0 (paoNewPoints, padfNewZ, padfNewM) in
                    (true, mkCurve (flags c) nNew nNew (Some pts) zs ms (isLinearRing c))
                end
            end
        end
  end.

(** [segmentize] calls itself once the points are reversed; [fuel] bounds
    the depth of the calls, and two levels are all a call ever uses. *)
Fixpoint segmentize_rec (fuel : nat) (c : OGRSimpleCurve) (dfMaxLength : float)
  : option (bool * OGRSimpleCurve) :=
  match fuel with
  | O => None
  | S fuel' =>
      if fle dfMaxLength 0 then Some (false, c)
      else if (nPointCount c <? 2)%Z then Some (true, c)
      else if first_before_last c then
        match segmentize_rec fuel' (reversePoints c) dfMaxLength with
        | Some (bRet, c') => Some (bRet, reversePoints c')
        | None => None
        end
      else Some (segmentize_passes c dfMaxLength)
  end.

Definition segmentize (c : OGRSimpleCurve) (dfMaxLength : float)
  : option (bool * OGRSimpleCurve) :=
  segmentize_rec 2 c dfMaxLength.

End Segmentize.

#[local] Close Scope float_scope.

(** ** The M plane, and the dimension setters *)

Definition RemoveM (c : OGRSimpleCurve) : OGRSimpleCurve :=
  set_flags (Z.land (flags c) (Z.lnot OGR_G_MEASURED)) (set_padfM None c).

(** [memcpy(dst, src, sizeof * n)]: the first [n] elements of [dst] become
    those of [src]. *)
Definition memcpy {A} (n : nat) (src dst : list A) : list A := take n src ++ drop n dst.

(** [memmove(p + dst, p + src, sizeof * cnt)] within one array. *)
Definition memmove {A} (dst src cnt : nat) (l : list A) : list A :=
  take dst l ++ take cnt (drop src l) ++ drop (dst + cnt) l.

Definition IsEmpty (c : OGRSimpleCurve) : bool := nPointCount c =? 0.

Definition CheckPointCount (iPoint : Z) : bool := negb (iPoint =? INT_MAX).

(** [getZ] and [getM]: the checked readers. *)
Definition getZ (c : OGRSimpleCurve) (iVertex : Z) : float :=
  if negb (is_null (padfZ c)) && (iVertex >=? 0) && (iVertex <? nPointCount c) && has3D c
  then zAt c (Z.to_nat iVertex) else 0%float.

Definition getM (c : OGRSimpleCurve) (iVertex : Z) : float :=
  if negb (is_null (padfM c)) && (iVertex >=? 0) && (iVertex <? nPointCount c) && hasM c
  then mAt c (Z.to_nat iVertex) else 0%float.

(** Modelled from the spec: [getX] and [getY] are inline members declared
    with the class, outside the translation unit; its documentation blocks
    describe them as the unchecked readers of [paoPoints] ("no internal
    range checking is performed"). *)
Definition getX (c : OGRSimpleCurve) (iVertex : Z) : float := x (pt c (Z.to_nat iVertex)).
Definition getY (c : OGRSimpleCurve) (iVertex : Z) : float := y (pt c (Z.to_nat iVertex)).

Section WithAllocatorMore.

Variable alloc_ok : Z -> bool.
Variable junkP : OGRRawPoint.
Variable junkD : float.
(** The default of the second parameter of [setNumPoints], given with the
    declaration of the class: the callers that leave it out get this value. *)
Variable bZeroizeNewContent_default : bool.

#[local] Abbreviation setNumPoints := (setNumPoints alloc_ok junkP junkD).
#[local] Abbreviation Make3D := (Make3D alloc_ok).

Definition AddM (c : OGRSimpleCurve) : bool * OGRSimpleCurve :=
  match padfM c with
  | None =>
      match VSI_CALLOC alloc_ok sizeof_double (Z.max 1 (m_nPointCapacity c)) with
      | None => (false, set_flags (Z.land (flags c) (Z.lnot OGR_G_MEASURED)) c)
      | Some m => (true, set_flags (Z.lor (flags c) OGR_G_MEASURED) (set_padfM (Some m) c))
      end
  | Some _ => (true, set_flags (Z.lor (flags c) OGR_G_MEASURED) c)
  end.

Definition setMeasured (c : OGRSimpleCurve) (bIsMeasured : bool) : bool * OGRSimpleCurve :=
  if bIsMeasured then AddM c else (true, RemoveM c).

Definition set3D (c : OGRSimpleCurve) (bIs3D : bool) : bool * OGRSimpleCurve :=
  if bIs3D then Make3D c else (true, Make2D c).

Definition flattenTo2D (c : OGRSimpleCurve) : OGRSimpleCurve :=
  snd (setMeasured (Make2D c) false).

Definition setCoordinateDimension (c : OGRSimpleCurve) (nNewDimension : Z)
  : bool * OGRSimpleCurve :=
  let c := snd (setMeasured c false) in
  if nNewDimension =? 2 then (true, Make2D c)
  else if nNewDimension =? 3 then Make3D c
  else (true, c).

Definition empty (c : OGRSimpleCurve) : OGRSimpleCurve :=
  snd (fst (setNumPoints c 0 bZeroizeNewContent_default)).

(** ** [setPoint], [setZ], [setM], [addPoint]

    The assignments [paoPoints[iPoint].x = xIn; paoPoints[iPoint].y = yIn]
    and [padfZ[iPoint] = zIn] are stores into the arrays; the guards
    [#ifdef DEBUG] are those of a debug build and are left out. *)

(** The block [if (iPoint >= nPointCount) { if (!CheckPointCount(iPoint) ||
    !setNumPoints(iPoint + 1)) return false; }] that the setters share. *)
Definition reach (c : OGRSimpleCurve) (iPoint : Z) : bool * OGRSimpleCurve :=
  if iPoint >=? nPointCount c then
    if negb (CheckPointCount iPoint) then (false, c)
    else
      match setNumPoints c (iPoint + 1) bZeroizeNewContent_default with
      | (ok, c', _) => (ok, c')
      end
  else (true, c).

(** [setPoint(iPoint, xIn, yIn)] *)
Definition setPoint_xy (c : OGRSimpleCurve) (iPoint : Z) (xIn yIn : float)
  : bool * OGRSimpleCurve :=
  let '(ok, c) :=
    if iPoint >=? nPointCount c then
      match reach c iPoint with
      | (false, c') => (false, c')
      | (true, c') => (negb (is_null (paoPoints c')), c')
      end
    else (true, c) in
  if negb ok then (false, c)
  else (true, set_paoPoints (store_opt iPoint (mkRawPoint xIn yIn) (paoPoints c)) c).

(** [setPoint(iPoint, xIn, yIn, zIn)] *)
Definition setPoint_xyz (c : OGRSimpleCurve) (iPoint : Z) (xIn yIn zIn : float)
  : bool * OGRSimpleCurve :=
  let '(ok, c) := if negb (has3D c) then Make3D c else (true, c) in
  if negb ok then (false, c)
  else
    let '(ok, c) := reach c iPoint in
    if negb ok then (false, c)
    else
      let c := set_paoPoints (store_opt iPoint (mkRawPoint xIn yIn) (paoPoints c)) c in
      (true, set_padfZ (store_opt iPoint zIn (padfZ c)) c).

(** [setPointM(iPoint, xIn, yIn, mIn)] *)
Definition setPointM (c : OGRSimpleCurve) (iPoint : Z) (xIn yIn mIn : float)
  : bool * OGRSimpleCurve :=
  let '(ok, c) := if negb (hasM c) then AddM c else (true, c) in
  if negb ok then (false, c)
  else
    let '(ok, c) := reach c iPoint in
    if negb ok then (false, c)
    else
      let c := set_paoPoints (store_opt iPoint (mkRawPoint xIn yIn) (paoPoints c)) c in
      (true, set_padfM (store_opt iPoint mIn (padfM c)) c).

(** [setPoint(iPoint, xIn, yIn, zIn, mIn)] *)
Definition setPoint_xyzm (c : OGRSimpleCurve) (iPoint : Z) (xIn yIn zIn mIn : float)
  : bool * OGRSimpleCurve :=
  let '(ok, c) := if negb (has3D c) then Make3D c else (true, c) in
  if negb ok then (false, c)
  else
    let '(ok, c) := if negb (hasM c) then AddM c else (true, c) in
    if negb ok then (false, c)
    else
      let '(ok, c) := reach c iPoint in
      if negb ok then (false, c)
      else
        let c := set_paoPoints (store_opt iPoint (mkRawPoint xIn yIn) (paoPoints c)) c in
        let c := set_padfZ (store_opt iPoint zIn (padfZ c)) c in
        (true, set_padfM (store_opt iPoint mIn (padfM c)) c).

(** [setPoint(iPoint, poPoint)] *)
Definition setPoint (c : OGRSimpleCurve) (iPoint : Z) (poPoint : OGRPoint)
  : bool * OGRSimpleCurve :=
  if has3D c && hasM c
  then setPoint_xyzm c iPoint (ptX poPoint) (ptY poPoint) (ptZ poPoint) (ptM poPoint)
  else if has3D c
  then setPoint_xyz c iPoint (ptX poPoint) (ptY poPoint) (ptZ poPoint)
  else if hasM c
  then setPointM c iPoint (ptX poPoint) (ptY poPoint) (ptM poPoint)
  else setPoint_xy c iPoint (ptX poPoint) (ptY poPoint).

(** [OGRSimpleCurve::setZ(iPoint, zIn)] and [OGRSimpleCurve::setM(iPoint, mIn)] *)
Definition curve_setZ (c : OGRSimpleCurve) (iPoint : Z) (zIn : float)
  : bool * OGRSimpleCurve :=
  let '(ok, c) := if getCoordinateDimension c =? 2 then Make3D c else (true, c) in
  if negb ok then (false, c)
  else
    let '(ok, c) := reach c iPoint in
    if negb ok then (false, c)
    else (true, set_padfZ (store_opt iPoint zIn (padfZ c)) c).

Definition curve_setM (c : OGRSimpleCurve) (iPoint : Z) (mIn : float)
  : bool * OGRSimpleCurve :=
  let '(ok, c) := if negb (hasM c) then AddM c else (true, c) in
  if negb ok then (false, c)
  else
    let '(ok, c) := reach c iPoint in
    if negb ok then (false, c)
    else (true, set_padfM (store_opt iPoint mIn (padfM c)) c).

(** [addPoint(x, y)], [addPoint(x, y, z)], [addPointM(x, y, m)],
    [addPoint(x, y, z, m)] *)
Definition addPoint_xy (c : OGRSimpleCurve) (xIn yIn : float) : bool * OGRSimpleCurve :=
  setPoint_xy c (nPointCount c) xIn yIn.
Definition addPoint_xyz (c : OGRSimpleCurve) (xIn yIn zIn : float) : bool * OGRSimpleCurve :=
  setPoint_xyz c (nPointCount c) xIn yIn zIn.
Definition addPointM (c : OGRSimpleCurve) (xIn yIn mIn : float) : bool * OGRSimpleCurve :=
  setPointM c (nPointCount c) xIn yIn mIn.
Definition addPoint_xyzm (c : OGRSimpleCurve) (xIn yIn zIn mIn : float)
  : bool * OGRSimpleCurve :=
  setPoint_xyzm c (nPointCount c) xIn yIn zIn mIn.

(** ** [setPoints(nPointsIn, paoPointsIn, padfZIn)] and [getPoints] *)

Definition setPoints_raw (c : OGRSimpleCurve) (nPointsIn : Z)
  (paoPointsIn : list OGRRawPoint) (padfZIn : option (list float)) : bool * OGRSimpleCurve :=
  match setNumPoints c nPointsIn false with
  | (false, c, _) => (false, c)
  | (true, c, _) =>
      let n := Z.to_nat nPointsIn in
      let c := if nPointsIn =? 0 then c
               else set_paoPoints (option_map (memcpy n paoPointsIn) (paoPoints c)) c in
      match padfZIn with
      | None => if getCoordinateDimension c >? 2 then (true, Make2D c) else (true, c)
      | Some zin =>
          match Make3D c with
          | (false, c) => (false, c)
          | (true, c) =>
              if nPointsIn =? 0 then (true, c)
              else (true, set_padfZ (option_map (memcpy n zin) (padfZ c)) c)
          end
      end
  end.

(** [setPointsM(nPointsIn, paoPointsIn, padfMIn)] *)
Definition setPointsM_raw (c : OGRSimpleCurve) (nPointsIn : Z)
  (paoPointsIn : list OGRRawPoint) (padfMIn : option (list float)) : bool * OGRSimpleCurve :=
  match setNumPoints c nPointsIn false with
  | (false, c, _) => (false, c)
  | (true, c, _) =>
      let n := Z.to_nat nPointsIn in
      let c := if nPointsIn =? 0 then c
               else set_paoPoints (option_map (memcpy n paoPointsIn) (paoPoints c)) c in
      match padfMIn with
      | None => if hasM c then (true, RemoveM c) else (true, c)
      | Some min =>
          match AddM c with
          | (false, c) => (false, c)
          | (true, c) =>
              if nPointsIn =? 0 then (true, c)
              else (true, set_padfM (option_map (memcpy n min) (padfM c)) c)
          end
      end
  end.

(** [getPoints(paoPointsOut, padfZOut)]: the two buffers of the caller
    after the call. *)
Definition getPoints (c : OGRSimpleCurve) (paoPointsOut : option (list OGRRawPoint))
  (padfZOut : option (list float)) : option (list OGRRawPoint) * option (list float) :=
  match paoPointsOut with
  | None => (paoPointsOut, padfZOut)
  | Some out =>
      if nPointCount c =? 0 then (paoPointsOut, padfZOut)
      else
        let n := Z.to_nat (nPointCount c) in
        (Some (memcpy n (default [] (paoPoints c)) out),
         match padfZOut with
         | None => None
         | Some zout =>
             match padfZ c with
             | Some z => Some (memcpy n z zout)
             | None => Some (replicate n 0%float ++ drop n zout)
             end
         end)
  end.

(** ** [removePoint] *)

Definition removePoint (c : OGRSimpleCurve) (nIndex : Z) : bool * OGRSimpleCurve :=
  if (nIndex <? 0) || (nIndex >=? nPointCount c) then (false, c)
  else
    let c :=
      if nIndex <? nPointCount c - 1 then
        let dst := Z.to_nat nIndex in
        let src := Z.to_nat (nIndex + 1) in
        let cnt := Z.to_nat (nPointCount c - 1 - nIndex) in
        mkCurve (flags c) (nPointCount c) (m_nPointCapacity c)
                (option_map (memmove dst src cnt) (paoPoints c))
                (option_map (memmove dst src cnt) (padfZ c))
                (option_map (memmove dst src cnt) (padfM c))
                (isLinearRing c)
      else c in
    (true, set_nPointCount (nPointCount c - 1) c).

(** ** [addSubLineString] *)

(** The stores [dst[i + nOldPoints] = src[nStartVertex - i]] of the copy
    in reverse, for [i] from 0 to [nPointsToAdd - 1]. *)
Definition copy_reversed {A} (d : A) (src : list A) (nStartVertex nOldPoints : Z)
  (nPointsToAdd : nat) (dst : list A) : list A :=
  fold_left (fun dst i => store (Z.of_nat i + nOldPoints)
                                (nth (Z.to_nat (nStartVertex - Z.of_nat i)) src d) dst)
            (seq 0 nPointsToAdd) dst.

(** [memcpy(dst + nOldPoints, src + nStartVertex, sizeof * nPointsToAdd)] *)
Definition copy_forward {A} (src : list A) (nStartVertex nOldPoints : Z)
  (nPointsToAdd : nat) (dst : list A) : list A :=
  take (Z.to_nat nOldPoints) dst
  ++ take nPointsToAdd (drop (Z.to_nat nStartVertex) src)
  ++ drop (Z.to_nat nOldPoints + nPointsToAdd) dst.

(** The copy of one array: forward when [nEndVertex >= nStartVertex],
    in reverse otherwise. *)
Definition copy_vertices {A} (d : A) (src : list A) (nStartVertex nEndVertex nOldPoints : Z)
  (nPointsToAdd : nat) : list A -> list A :=
  if nEndVertex >=? nStartVertex
  then copy_forward src nStartVertex nOldPoints nPointsToAdd
  else copy_reversed d src nStartVertex nOldPoints nPointsToAdd.

Definition addSubLineString (c poOtherLine : OGRSimpleCurve) (nStartVertex nEndVertex : Z)
  : OGRSimpleCurve :=
  let nOtherLineNumPoints := nPointCount poOtherLine in
  if nOtherLineNumPoints =? 0 then c
  else
    let nEndVertex := if nEndVertex =? -1 then nOtherLineNumPoints - 1 else nEndVertex in
    if (nStartVertex <? 0) || (nEndVertex <? 0)
       || (nStartVertex >=? nOtherLineNumPoints) || (nEndVertex >=? nOtherLineNumPoints)
    then c
    else
      let nOldPoints := nPointCount c in
      let nPointsToAdd := Z.abs (nEndVertex - nStartVertex) + 1 in
      match setNumPoints c (nPointsToAdd + nOldPoints) false with
      | (false, c, _) => c
      | (true, c, _) =>
          let copy {A} (d : A) (src : list A) : list A -> list A :=
            copy_vertices d src nStartVertex nEndVertex nOldPoints (Z.to_nat nPointsToAdd) in
          let c := set_paoPoints
                     (option_map (copy zeroPoint (default [] (paoPoints poOtherLine)))
                                 (paoPoints c)) c in
          let c :=
            match padfZ poOtherLine with
            | None => c
            | Some z =>
                let c := snd (Make3D c) in
                set_padfZ (option_map (copy 0%float z) (padfZ c)) c
            end in
          match padfM poOtherLine with
          | None => c
          | Some m =>
              let c := snd (AddM c) in
              set_padfM (option_map (copy 0%float m) (padfM c)) c
          end
      end.

End WithAllocatorMore.

(** ** [swapXY] *)

Definition swapXY (c : OGRSimpleCurve) : OGRSimpleCurve :=
  let n := Z.to_nat (nPointCount c) in
  set_paoPoints
    (option_map (fun l => map (fun p => mkRawPoint (y p) (x p)) (take n l) ++ drop n l)
                (paoPoints c)) c.

(** ** [getEnvelope] *)

Record OGREnvelope : Type := mkEnvelope { MinX : float; MaxX : float; MinY : float; MaxY : float }.

Record OGREnvelope3D : Type := mkEnvelope3D { env2D : OGREnvelope; MinZ : float; MaxZ : float }.

(** One turn of the loop over the points, from the second on. *)
Definition envelope_step (c : OGRSimpleCurve) (e : OGREnvelope) (iPoint : nat) : OGREnvelope :=
  let dfMaxX := if flt (MaxX e) (x (pt c iPoint)) then x (pt c iPoint) else MaxX e in
  let dfMaxY := if flt (MaxY e) (y (pt c iPoint)) then y (pt c iPoint) else MaxY e in
  let dfMinX := if fgt (MinX e) (x (pt c iPoint)) then x (pt c iPoint) else MinX e in
  let dfMinY := if fgt (MinY e) (y (pt c iPoint)) then y (pt c iPoint) else MinY e in
  mkEnvelope dfMinX dfMaxX dfMinY dfMaxY.

Definition getEnvelope (c : OGRSimpleCurve) : OGREnvelope :=
  if IsEmpty c then mkEnvelope 0 0 0 0
  else
    fold_left (envelope_step c) (seq 1 (Z.to_nat (nPointCount c) - 1))
              (mkEnvelope (x (pt c 0)) (x (pt c 0)) (y (pt c 0)) (y (pt c 0))).

Definition envelopeZ_step (c : OGRSimpleCurve) (mm : float * float) (iPoint : nat)
  : float * float :=
  let '(dfMinZ, dfMaxZ) := mm in
  let dfMinZ := if fgt dfMinZ (zAt c iPoint) then zAt c iPoint else dfMinZ in
  let dfMaxZ := if flt dfMaxZ (zAt c iPoint) then zAt c iPoint else dfMaxZ in
  (dfMinZ, dfMaxZ).

Definition getEnvelope3D (c : OGRSimpleCurve) : OGREnvelope3D :=
  if IsEmpty c || is_null (padfZ c) then mkEnvelope3D (getEnvelope c) 0 0
  else
    let '(dfMinZ, dfMaxZ) :=
      fold_left (envelopeZ_step c) (seq 1 (Z.to_nat (nPointCount c) - 1))
                (zAt c 0, zAt c 0) in
    mkEnvelope3D (getEnvelope c) dfMinZ dfMaxZ.

(** ** [OGRLineString::getGeometryType] and [Equals] *)

Inductive OGRwkbGeometryType : Type :=
| wkbLineString | wkbLineString25D | wkbLineStringM | wkbLineStringZM.

#[global] Instance OGRwkbGeometryType_eq_dec : EqDecision OGRwkbGeometryType.
Proof. solve_decision. Defined.

Definition getGeometryType (c : OGRSimpleCurve) : OGRwkbGeometryType :=
  if has3D c && hasM c then wkbLineStringZM
  else if hasM c then wkbLineStringM
  else if has3D c then wkbLineString25D
  else wkbLineString.

(** [Equals] of one line string with another; [poOther_is_this] is the
    outcome of the comparison of the two addresses. *)
Definition Equals (poOther_is_this : bool) (c poOther : OGRSimpleCurve) : bool :=
  if poOther_is_this then true
  else if negb (bool_decide (getGeometryType poOther = getGeometryType c)) then false
  else if IsEmpty c && IsEmpty poOther then true
  else if negb (nPointCount c =? nPointCount poOther) then false
  else
    forallb (fun iPoint =>
               negb (fne (getX c iPoint) (getX poOther iPoint)
                     || fne (getY c iPoint) (getY poOther iPoint)
                     || fne (getZ c iPoint) (getZ poOther iPoint)))
            (map Z.of_nat (seq 0 (Z.to_nat (nPointCount c)))).

(** ** The point iterator *)

Record OGRSimpleCurvePointIterator : Type := mkIterator {
  poSC : OGRSimpleCurve;
  iCurPoint : Z
}.

Definition getPointIterator (c : OGRSimpleCurve) : OGRSimpleCurvePointIterator :=
  mkIterator c 0.

Definition getNextPoint (it : OGRSimpleCurvePointIterator) (p : OGRPoint)
  : bool * OGRPoint * OGRSimpleCurvePointIterator :=
  if iCurPoint it >=? nPointCount (poSC it) then (false, p, it)
  else (true, getPoint (poSC it) (Z.to_nat (iCurPoint it)) p,
        mkIterator (poSC it) (iCurPoint it + 1)).

(** ** [get_Area] *)

Definition get_Area (c : OGRSimpleCurve) : float := get_LinearArea c.

End Curve.

(** * The FlatGeobuf layer ([ogr/ogrsf_frmts/flatgeobuf/ogrflatgeobuflayer.cpp]) *)

Module FlatGeobuf.

(** ** Bytes *)

Definition byteAt (data : list byte) (offset : Z) : Z :=
  Z.of_N (Byte.to_N (nth (Z.to_nat offset) data "000"%byte)).

(** The little-endian unsigned integer of [width] bytes at [offset]
    ([memcpy] followed by [CPL_LSBPTR16], [CPL_LSBPTR32] or [CPL_LSBPTR64]). *)
Definition read_le (data : list byte) (offset : Z) (width : nat) : Z :=
  fold_right (fun k acc => byteAt data (offset + Z.of_nat k) + 256 * acc) 0 (seq 0 width).

(** The value of the same bits read as a signed integer of [bits] bits. *)
Definition to_signed (bits v : Z) : Z :=
  if v <? 2 ^ (bits - 1) then v else v - 2 ^ bits.

Definition slice (data : list byte) (offset len : Z) : list byte :=
  take (Z.to_nat len) (drop (Z.to_nat offset) data).

(** ** Columns and fields *)

Inductive ColumnType : Type :=
| ColumnType_Byte | ColumnType_UByte | ColumnType_Bool
| ColumnType_Short | ColumnType_UShort
| ColumnType_Int | ColumnType_UInt
| ColumnType_Long | ColumnType_ULong
| ColumnType_Float | ColumnType_Double
| ColumnType_String | ColumnType_Json | ColumnType_DateTime | ColumnType_Binary.

#[global] Instance ColumnType_eq_dec : EqDecision ColumnType.
Proof. solve_decision. Defined.

(** Modelled from the spec: [CPLErrorInvalidSize], defined in a header
    outside the translation unit; it reports the message and returns the
    code of a corrupt record ("on decode error for a single field, the whole
    feature decode fails (CorruptData)"). *)
Definition CPLErrorInvalidSize (message : string) : OGRErr := OGRERR_CORRUPT_DATA.

Definition CPLErrorMemoryAllocation (message : string) : OGRErr := OGRERR_NOT_ENOUGH_MEMORY.
Definition CPLErrorIO (message : string) : OGRErr := OGRERR_FAILURE.

Section Decode.

(** The date and time members of a raw field, and the two parsers of the
    library that fill them. *)
Variable DateValue : Type.
Variable ParseDateTime : list byte -> option DateValue.
Variable OGRParseDate : list byte -> option DateValue.
(** [VSI_MALLOC_VERBOSE(n)] returns memory. *)
Variable alloc_ok : Z -> bool.

(** A raw field of a feature.  A field is created unset; a decoded value
    is kept with the member of the union that the source assigns: an [int],
    a 64-bit integer, a [double] (recorded by the number it is converted
    from), a string, a binary blob or a date. *)
Inductive OGRField : Type :=
| Field_Unset
| Field_Integer (v : Z)
| Field_Integer64 (v : Z)
| Field_Real_of_uint64 (v : Z)
| Field_Real_of_float (bits : Z)
| Field_Real_of_double (bits : Z)
| Field_String (s : list byte)
| Field_Binary (nCount : Z) (paData : list byte)
| Field_Date (d : DateValue).

(** Modelled from the spec: [OGR_RawField_IsUnset], defined with the raw
    field outside the translation unit: the "field-already-set check" of
    the decoder, true of a field that holds no value. *)
Definition OGR_RawField_IsUnset (f : OGRField) : bool :=
  match f with Field_Unset => true | _ => false end.

Definition uint32_wrap (v : Z) : Z := v mod 2 ^ 32.

Section WithRecord.

(** [m_poHeader->columns()], the flag [IsIgnored()] of every field
    definition, and the property bytes of the record. *)
Variable columns : option (list ColumnType).
Variable IsIgnored : nat -> bool.
Variable data : list byte.

Definition size : Z := Z.of_nat (length data).

(** The state of the loop: the cursor and the raw fields of the feature. *)
Definition DecodeState : Type := (Z * list OGRField)%type.

(** The body of the loop over the property tuples: a result on the left
    is the [return] of an error. *)
Definition parse_tuple (st : DecodeState) : OGRErr + DecodeState :=
  let '(offset, fields) := st in
  if offset + 2 >? size then inl (CPLErrorInvalidSize "property value")
  else
    let i := read_le data offset 2 in
    let offset := offset + 2 in
    match columns with
    | None => inl OGRERR_CORRUPT_DATA
    | Some cols =>
        if i >=? Z.of_nat (length cols) then inl OGRERR_CORRUPT_DATA
        else
          let type := nth (Z.to_nat i) cols ColumnType_Byte in
          let isIgnored := IsIgnored (Z.to_nat i) in
          let ogrField := nth (Z.to_nat i) fields Field_Unset in
          if negb (OGR_RawField_IsUnset ogrField) then inl OGRERR_CORRUPT_DATA
          else
            let assign v := if isIgnored then fields else <[Z.to_nat i := v]> fields in
            let fixed width message v :=
              if offset + width >? size then inl (CPLErrorInvalidSize message)
              else inr (offset + width, assign v) in
            match type with
            | ColumnType_Bool =>
                fixed 1 "bool value"%string (Field_Integer (read_le data offset 1))
            | ColumnType_Byte =>
                fixed 1 "byte value"%string
                      (Field_Integer (to_signed 8 (read_le data offset 1)))
            | ColumnType_UByte =>
                fixed 1 "ubyte value"%string (Field_Integer (read_le data offset 1))
            | ColumnType_Short =>
                fixed 2 "short value"%string
                      (Field_Integer (to_signed 16 (read_le data offset 2)))
            | ColumnType_UShort =>
                fixed 2 "ushort value"%string (Field_Integer (read_le data offset 2))
            | ColumnType_Int =>
                fixed 4 "int32 value"%string
                      (Field_Integer (to_signed 32 (read_le data offset 4)))
            | ColumnType_UInt =>
                fixed 4 "uint value"%string (Field_Integer64 (read_le data offset 4))
            | ColumnType_Long =>
                fixed 8 "int64 value"%string
                      (Field_Integer64 (to_signed 64 (read_le data offset 8)))
            | ColumnType_ULong =>
                fixed 8 "uint64 value"%string (Field_Real_of_uint64 (read_le data offset 8))
            | ColumnType_Float =>
                fixed 4 "float value"%string (Field_Real_of_float (read_le data offset 4))
            | ColumnType_Double =>
                fixed 8 "double value"%string (Field_Real_of_double (read_le data offset 8))
            | ColumnType_String | ColumnType_Json =>
                if offset + 4 >? size then inl (CPLErrorInvalidSize "string length")
                else
                  let len := read_le data offset 4 in
                  let offset := offset + 4 in
                  if len >? uint32_wrap (size - offset)
                  then inl (CPLErrorInvalidSize "string value")
                  else if isIgnored then inr (offset + len, fields)
                  else if negb (alloc_ok (uint32_wrap (len + 1)))
                  then inl (CPLErrorMemoryAllocation "string value")
                  else inr (offset + len,
                            <[Z.to_nat i := Field_String (slice data offset len)]> fields)
            | ColumnType_DateTime =>
                if offset + 4 >? size then inl (CPLErrorInvalidSize "datetime length ")
                else
                  let len := read_le data offset 4 in
                  let offset := offset + 4 in
                  if (len >? uint32_wrap (size - offset)) || (len >? 32)
                  then inl (CPLErrorInvalidSize "datetime value")
                  else if isIgnored then inr (offset + len, fields)
                  else
                    let str := slice data offset len in
                    let v := match ParseDateTime str with
                             | Some d => Field_Date d
                             | None =>
                                 match OGRParseDate str with
                                 | Some d => Field_Date d
                                 | None => Field_Unset
                                 end
                             end in
                    inr (offset + len, <[Z.to_nat i := v]> fields)
            | ColumnType_Binary =>
                if offset + 4 >? size then inl (CPLErrorInvalidSize "binary length")
                else
                  let len := read_le data offset 4 in
                  let offset := offset + 4 in
                  if (len >? INT_MAX) || (len >? uint32_wrap (size - offset))
                  then inl (CPLErrorInvalidSize "binary value")
                  else if isIgnored then inr (offset + len, fields)
                  else if negb (alloc_ok (if len =? 0 then 1 else len))
                  then inl (CPLErrorMemoryAllocation "string value")
                  else inr (offset + len,
                            <[Z.to_nat i := Field_Binary len (slice data offset len)]> fields)
            end
    end.

(** [while (offset + 1 < size)], the sum taken on 32 bits. *)
Definition more_tuples (st : DecodeState) : bool := uint32_wrap (fst st + 1) <? size.

(** The loop; [None] only when the fuel runs out. *)
Fixpoint parse_loop (fuel : nat) (st : DecodeState) : option (OGRErr * list OGRField) :=
  match fuel with
  | O => None
  | S fuel' =>
      if more_tuples st then
        match parse_tuple st with
        | inl err => Some (err, snd st)
        | inr st' => parse_loop fuel' st'
        end
      else Some (OGRERR_NONE, snd st)
  end.

(** The part of [parseFeature] that decodes the properties of a record
    into the raw fields of a new feature. *)
Definition parseProperties (fields : list OGRField) : option (OGRErr * list OGRField) :=
  if (0 <? size) && (size <? 3) then Some (CPLErrorInvalidSize "property value", fields)
  else parse_loop (S (length data)) (0, fields).

End WithRecord.

End Decode.



(** ** The file *)

Record OGREnvelope : Type := mkEnvelope { MinX : float; MinY : float; MaxX : float; MaxY : float }.

Record Header : Type := mkHeader {
  features_count : Z;
  envelope : option (list float);
  geometry_type : Z;
  index_node_size : Z
}.

(** What a file holds, in order: the magic bytes, the size-prefixed
    header, the packed index, the size-prefixed feature records. *)
Inductive Block : Type :=
| MagicBlock
| HeaderBlock (h : Header)
| IndexBlock (tree : list byte)
| FeatureBlock (record : list byte).

(** An open file: its blocks and the position of the next write. *)
Record VSILFILE : Type := mkFile { blocks : list Block; position : nat }.

Definition VSIFSeekL_start (f : VSILFILE) : VSILFILE := mkFile (blocks f) 0.

(** A write at the position: over the block that is there, or at the end. *)
Definition VSIFWriteL (b : Block) (f : VSILFILE) : VSILFILE :=
  mkFile (take (position f) (blocks f) ++ b :: drop (S (position f)) (blocks f))
         (S (position f)).

Record OGRGeometry : Type := mkGeometry {
  getGeometryType : Z;
  IsEmpty : bool;
  geometry_WkbSize : Z;
  getEnvelope : OGREnvelope
}.

Record FeatureItem : Type := mkItem { item_size : Z; item_offset : Z; nodeItem : OGREnvelope }.

(** ** The layer being written *)

Record Layer : Type := mkLayer {
  m_create : bool;
  m_bCreateSpatialIndexAtClose : bool;
  m_osFilename : string;
  m_geometryType : Z;
  m_eGType : Z;
  m_featuresCount : Z;
  m_writeOffset : Z;
  m_offsetAfterHeader : Z;
  m_maxFeatureSize : Z;
  m_indexNodeSize : Z;
  m_sExtent : option OGREnvelope;
  m_featureItems : list FeatureItem;
  m_poFpWrite : option VSILFILE;
  m_poFp : option VSILFILE
}.

Definition set_featuresCount (v : Z) (l : Layer) : Layer :=
  mkLayer (m_create l) (m_bCreateSpatialIndexAtClose l) (m_osFilename l) (m_geometryType l)
          (m_eGType l) v (m_writeOffset l) (m_offsetAfterHeader l) (m_maxFeatureSize l)
          (m_indexNodeSize l) (m_sExtent l) (m_featureItems l) (m_poFpWrite l) (m_poFp l).
Definition set_writeOffset (v : Z) (l : Layer) : Layer :=
  mkLayer (m_create l) (m_bCreateSpatialIndexAtClose l) (m_osFilename l) (m_geometryType l)
          (m_eGType l) (m_featuresCount l) v (m_offsetAfterHeader l) (m_maxFeatureSize l)
          (m_indexNodeSize l) (m_sExtent l) (m_featureItems l) (m_poFpWrite l) (m_poFp l).
Definition set_offsetAfterHeader (v : Z) (l : Layer) : Layer :=
  mkLayer (m_create l) (m_bCreateSpatialIndexAtClose l) (m_osFilename l) (m_geometryType l)
          (m_eGType l) (m_featuresCount l) (m_writeOffset l) v (m_maxFeatureSize l)
          (m_indexNodeSize l) (m_sExtent l) (m_featureItems l) (m_poFpWrite l) (m_poFp l).
Definition set_maxFeatureSize (v : Z) (l : Layer) : Layer :=
  mkLayer (m_create l) (m_bCreateSpatialIndexAtClose l) (m_osFilename l) (m_geometryType l)
          (m_eGType l) (m_featuresCount l) (m_writeOffset l) (m_offsetAfterHeader l) v
          (m_indexNodeSize l) (m_sExtent l) (m_featureItems l) (m_poFpWrite l) (m_poFp l).
Definition set_sExtent (v : option OGREnvelope) (l : Layer) : Layer :=
  mkLayer (m_create l) (m_bCreateSpatialIndexAtClose l) (m_osFilename l) (m_geometryType l)
          (m_eGType l) (m_featuresCount l) (m_writeOffset l) (m_offsetAfterHeader l)
          (m_maxFeatureSize l) (m_indexNodeSize l) v (m_featureItems l) (m_poFpWrite l)
          (m_poFp l).
Definition set_featureItems (v : list FeatureItem) (l : Layer) : Layer :=
  mkLayer (m_create l) (m_bCreateSpatialIndexAtClose l) (m_osFilename l) (m_geometryType l)
          (m_eGType l) (m_featuresCount l) (m_writeOffset l) (m_offsetAfterHeader l)
          (m_maxFeatureSize l) (m_indexNodeSize l) (m_sExtent l) v (m_poFpWrite l) (m_poFp l).
Definition set_poFpWrite (v : option VSILFILE) (l : Layer) : Layer :=
  mkLayer (m_create l) (m_bCreateSpatialIndexAtClose l) (m_osFilename l) (m_geometryType l)
          (m_eGType l) (m_featuresCount l) (m_writeOffset l) (m_offsetAfterHeader l)
          (m_maxFeatureSize l) (m_indexNodeSize l) (m_sExtent l) (m_featureItems l) v
          (m_poFp l).
Definition set_poFp (v : option VSILFILE) (l : Layer) : Layer :=
  mkLayer (m_create l) (m_bCreateSpatialIndexAtClose l) (m_osFilename l) (m_geometryType l)
          (m_eGType l) (m_featuresCount l) (m_writeOffset l) (m_offsetAfterHeader l)
          (m_maxFeatureSize l) (m_indexNodeSize l) (m_sExtent l) (m_featureItems l)
          (m_poFpWrite l) v.

(** The two files a writer holds. *)
Inductive Handle : Type := The_poFpWrite | The_poFp.

Definition file_of (which : Handle) (l : Layer) : option VSILFILE :=
  match which with The_poFpWrite => m_poFpWrite l | The_poFp => m_poFp l end.
Definition set_file (which : Handle) (f : option VSILFILE) (l : Layer) : Layer :=
  match which with The_poFpWrite => set_poFpWrite f l | The_poFp => set_poFp f l end.

Definition SupportsSeekWhileWriting (osFilename : string) : bool :=
  negb (String.prefix "/vsi" osFilename) || String.prefix "/vsimem/" osFilename.

Definition sizeof_magicbytes : Z := 8.

Section Writer.

(** The attribute values of a feature and their serialization (the loop
    over the fields at the head of [ICreateFeature]); [None] is its
    [return OGRERR_FAILURE]. *)
Variable FieldValues : Type.
Variable serializeFields : FieldValues -> option (list byte).
(** [GeometryType::Unknown] and [feature_max_buffer_size] *)
Variable GeometryType_Unknown : Z.
Variable feature_max_buffer_size : Z.
(** the geometry and the record as FlatBuffers lays them out *)
Variable GeometryWriter_write : OGRGeometry -> Z.
Variable CreateFeatureDirect : Z -> list byte -> list byte.
(** the number of bytes of a serialized header *)
Variable header_bytes : Header -> Z.
Variable Merge : OGREnvelope -> OGREnvelope -> OGREnvelope.
Variable default_envelope : OGREnvelope.
(** outcomes from outside: a write goes through, memory runs out, the
    final file can be created *)
Variable write_ok : bool.
Variable bad_alloc : bool.
Variable VSIFOpenL_ok : bool.
(** the second pass of [CreateFinalFile], which lays out the index and
    the sorted features *)
Variable second_pass : Layer -> bool * Layer.

Record OGRFeature : Type := mkFeature {
  GetGeometryRef : option OGRGeometry;
  fieldValues : FieldValues
}.

(** [writeHeader(poFp, featuresCount, extentVector)] *)
Definition writeHeader (which : Handle) (featuresCount : Z)
  (extentVector : option (list float)) (l : Layer) : Layer :=
  let header := mkHeader featuresCount extentVector (m_geometryType l) (m_indexNodeSize l) in
  let l := set_file which
             (option_map (fun f => VSIFWriteL (HeaderBlock header) (VSIFWriteL MagicBlock f))
                         (file_of which l)) l in
  set_writeOffset (m_writeOffset l + sizeof_magicbytes + header_bytes header) l.

(** The layer a writer starts from.

    Modelled from the spec: the members that the constructor leaves to
    their initialisers in the class declaration, which is outside the
    translation unit; a new writer has written nothing, so its counters are
    zero, its extent is not set, it has no index (node size 0) and no final
    file yet. *)
Definition new_writer (pszFilename : string) (eGType geometryType : Z)
  (bCreateSpatialIndexAtClose : bool) (poFpWrite : VSILFILE) : Layer :=
  mkLayer true bCreateSpatialIndexAtClose pszFilename geometryType eGType
          0 0 0 0 0 None [] (Some poFpWrite) None.

Definition ICreateFeature (l : Layer) (poNewFeature : OGRFeature) : OGRErr * Layer :=
  if negb (m_create l) then (OGRERR_FAILURE, l)
  else
    match serializeFields (fieldValues poNewFeature) with
    | None => (OGRERR_FAILURE, l)
    | Some properties =>
        let ogrGeometry := GetGeometryRef poNewFeature in
        if m_bCreateSpatialIndexAtClose l
           && match ogrGeometry with None => true | Some g => IsEmpty g end
        then (OGRERR_FAILURE, l)
        else if match ogrGeometry with
                | Some g => negb (m_geometryType l =? GeometryType_Unknown)
                            && negb (getGeometryType g =? m_eGType l)
                | None => false
                end
        then (OGRERR_FAILURE, l)
        else if bad_alloc then (OGRERR_FAILURE, l)
        else
          let too_big :=
            match ogrGeometry with
            | Some g => negb (IsEmpty g)
                        && (geometry_WkbSize g
                            >? feature_max_buffer_size - geometry_WkbSize g / 10)
            | None => false
            end in
          if too_big then (OGRERR_FAILURE, l)
          else
            let geometryOffset :=
              match ogrGeometry with
              | Some g => if IsEmpty g then 0 else GeometryWriter_write g
              | None => 0
              end in
            if Z.of_nat (length properties) >? feature_max_buffer_size - geometryOffset
            then (OGRERR_FAILURE, l)
            else
              let record := CreateFeatureDirect geometryOffset properties in
              let psEnvelope :=
                match ogrGeometry with Some g => getEnvelope g | None => default_envelope end in
              let l :=
                match ogrGeometry with
                | Some g =>
                    set_sExtent (Some (match m_sExtent l with
                                       | Some e => Merge e psEnvelope
                                       | None => psEnvelope
                                       end)) l
                | None => l
                end in
              let first :=
                if m_featuresCount l =? 0 then
                  match m_poFpWrite l with
                  | None => None
                  | Some _ =>
                      if negb (SupportsSeekWhileWriting (m_osFilename l))
                      then Some (writeHeader The_poFpWrite 0 None l)
                      else
                        let l := writeHeader The_poFpWrite 3735928559
                                   (Some (replicate 4 PrimFloat.nan)) l in
                        Some (set_offsetAfterHeader (m_writeOffset l) l)
                  end
                else Some l in
              match first with
              | None => (OGRERR_FAILURE, l)
              | Some l =>
                  let l := set_maxFeatureSize
                             (Z.max (m_maxFeatureSize l) (Z.of_nat (length record))) l in
                  if negb write_ok then (CPLErrorIO "writing feature", l)
                  else
                    let c := Z.of_nat (length record) in
                    let l := set_poFpWrite
                               (option_map (VSIFWriteL (FeatureBlock record)) (m_poFpWrite l))
                               l in
                    let l :=
                      if m_bCreateSpatialIndexAtClose l
                      then set_featureItems
                             (m_featureItems l
                              ++ [mkItem (Z.of_nat (length record)) (m_writeOffset l)
                                         psEnvelope]) l
                      else l in
                    let l := set_writeOffset (m_writeOffset l + c) l in
                    (OGRERR_NONE, set_featuresCount (m_featuresCount l + 1) l)
              end
    end.

Definition CreateFinalFile (l : Layer) : bool * Layer :=
  if negb (m_bCreateSpatialIndexAtClose l) then
    if match m_poFpWrite l with None => true | Some _ => false end
       || negb (SupportsSeekWhileWriting (m_osFilename l))
    then (true, l)
    else
      let l := set_poFpWrite (option_map VSIFSeekL_start (m_poFpWrite l)) l in
      let l := set_writeOffset 0 l in
      let extentVector :=
        match m_sExtent l with
        | None => replicate 4 PrimFloat.nan
        | Some e => [MinX e; MinY e; MaxX e; MaxY e]
        end in
      (true, writeHeader The_poFpWrite (m_featuresCount l) (Some extentVector) l)
  else if negb VSIFOpenL_ok then (false, set_poFp None l)
  else
    let l := set_poFp (Some (mkFile [] 0)) l in
    if (m_writeOffset l =? 0) || (m_featuresCount l =? 0)
    then (true, writeHeader The_poFp 0 None l)
    else second_pass l.

End Writer.

(** ** The layer being read *)

Record ReadLayer : Type := mkReadLayer {
  r_header : Header;
  (** the bytes of the file from the end of the header on, and the
      offset of the first feature among them *)
  r_bytes : list byte;
  r_offsetFeatures : Z;
  r_offset : Z;
  r_featuresCount : Z;
  r_featuresPos : Z;
  r_sExtent : option OGREnvelope;
  r_poFilterGeom : option OGREnvelope;
  r_queriedSpatialIndex : bool;
  r_ignoreSpatialFilter : bool;
  r_foundItems : list (Z * Z);
  (** the end-of-file indicator of the handle, and the errors reported
      through [CPLError] *)
  r_eof : bool;
  r_errors : list string
}.

Definition set_r_offset (v : Z) (r : ReadLayer) : ReadLayer :=
  mkReadLayer (r_header r) (r_bytes r) (r_offsetFeatures r) v (r_featuresCount r)
              (r_featuresPos r) (r_sExtent r) (r_poFilterGeom r) (r_queriedSpatialIndex r)
              (r_ignoreSpatialFilter r) (r_foundItems r) (r_eof r) (r_errors r).
Definition set_r_featuresPos (v : Z) (r : ReadLayer) : ReadLayer :=
  mkReadLayer (r_header r) (r_bytes r) (r_offsetFeatures r) (r_offset r) (r_featuresCount r)
              v (r_sExtent r) (r_poFilterGeom r) (r_queriedSpatialIndex r)
              (r_ignoreSpatialFilter r) (r_foundItems r) (r_eof r) (r_errors r).
Definition set_r_found (items : list (Z * Z)) (r : ReadLayer) : ReadLayer :=
  mkReadLayer (r_header r) (r_bytes r) (r_offsetFeatures r) (r_offset r)
              (Z.of_nat (length items)) (r_featuresPos r) (r_sExtent r) (r_poFilterGeom r)
              true (r_ignoreSpatialFilter r) items (r_eof r) (r_errors r).
Definition set_r_eof (v : bool) (r : ReadLayer) : ReadLayer :=
  mkReadLayer (r_header r) (r_bytes r) (r_offsetFeatures r) (r_offset r) (r_featuresCount r)
              (r_featuresPos r) (r_sExtent r) (r_poFilterGeom r) (r_queriedSpatialIndex r)
              (r_ignoreSpatialFilter r) (r_foundItems r) v (r_errors r).
Definition CPLError (message : string) (r : ReadLayer) : ReadLayer :=
  mkReadLayer (r_header r) (r_bytes r) (r_offsetFeatures r) (r_offset r) (r_featuresCount r)
              (r_featuresPos r) (r_sExtent r) (r_poFilterGeom r) (r_queriedSpatialIndex r)
              (r_ignoreSpatialFilter r) (r_foundItems r) (r_eof r) (r_errors r ++ [message]).

Definition isfinite (v : float) : bool := negb (PrimFloat.is_nan v || PrimFloat.is_infinity v).

(** The constructor of a layer over a header that was read. *)
Definition open_layer (poHeader : Header) (bytes : list byte) (offset : Z) : ReadLayer :=
  let extent :=
    match envelope poHeader with
    | Some [a; b; c; d] =>
        if isfinite a && isfinite b && isfinite c && isfinite d
        then Some (mkEnvelope a b c d) else None
    | _ => None
    end in
  mkReadLayer poHeader bytes offset offset (features_count poHeader) 0 extent None
              false false [] false [].

Definition block_bytes (b : Block) : list byte :=
  match b with
  | IndexBlock tree => tree
  | FeatureBlock record => record
  | _ => []
  end.

Section Reader.

Variable header_bytes : Header -> Z.
Variable header_max_buffer_size : Z.
Variable feature_max_buffer_size : Z.
Variable VerifyHeaderBuffer : Header -> bool.
Variable VerifyFeatureBuffer : list byte -> bool.
(** [PackedRTree::size(numItems)]; [None] when it throws. *)
Variable PackedRTree_size : Z -> option Z.
(** [PackedRTree::streamSearch]; [None] when reading a node fails. *)
Variable streamSearch : ReadLayer -> OGREnvelope -> option (list (Z * Z)).
(** The features, their decoding from a record (the geometry, then the
    properties as [parseProperties] has them), and the two filters. *)
Variable Feature : Type.
Variable new_feature : Feature.
Variable decode_record : list byte -> OGRErr + Feature.
Variable passes_filters : ReadLayer -> Feature -> bool.
Variable alloc_ok : Z -> bool.
Variable m_bVerifyBuffers : bool.

Definition too_many_features : Z := Z.min (Z.quot (2 ^ 64 - 1) 8) (100 * 1000 * 1000 * 1000).

(** [OGRFlatGeobufLayer::Open(pszFilename, fp, bVerifyBuffers)]: the
    layer, or the error reported. *)
Definition Open (fp : list Block) (bVerifyBuffers : bool) : string + ReadLayer :=
  match drop 1 fp with
  | HeaderBlock header :: rest =>
      if header_bytes header >? header_max_buffer_size
      then inl "Header size too large (> 10 MB)"%string
      else if negb (alloc_ok (header_bytes header))
      then inl "Failed to allocate memory for header"%string
      else if bVerifyBuffers && negb (VerifyHeaderBuffer header)
      then inl "Header failed consistency verification"%string
      else if features_count header >? too_many_features
      then inl "Too many features"%string
      else
        let bytes := concat (map block_bytes rest) in
        if index_node_size header >? 0 then
          match PackedRTree_size (features_count header) with
          | Some treeSize => inr (open_layer header bytes treeSize)
          | None => inl "Failed to calculate tree size"%string
          end
        else inr (open_layer header bytes 0)
  | _ => inl "Failed to read header size"%string
  end.

Definition envelope_contains (a b : OGREnvelope) : bool :=
  fle (MinX a) (MinX b) && fle (MinY a) (MinY b)
  && fge (MaxX a) (MaxX b) && fge (MaxY a) (MaxY b).

Definition readIndex (r : ReadLayer) : OGRErr * ReadLayer :=
  match r_poFilterGeom r with
  | None => (OGRERR_NONE, r)
  | Some filter =>
      if r_queriedSpatialIndex r then (OGRERR_NONE, r)
      else if match r_sExtent r with
              | Some extent => envelope_contains filter extent
              | None => false
              end
      then (OGRERR_NONE, r)
      else if index_node_size (r_header r) =? 0 then (OGRERR_NONE, r)
      else if features_count (r_header r) =? 0 then (OGRERR_NONE, r)
      else
        match PackedRTree_size (features_count (r_header r)) with
        | None => (OGRERR_FAILURE, CPLError "readIndex: Unexpected failure" r)
        | Some treeSize =>
            if (treeSize >? 0) && negb (r_ignoreSpatialFilter r) then
              match streamSearch r filter with
              | None => (OGRERR_FAILURE, CPLError "readIndex: Unexpected failure" r)
              | Some items => (OGRERR_NONE, set_r_found items r)
              end
            else (OGRERR_NONE, r)
        end
  end.

(** [parseFeature]: the next record of the file, decoded. *)
Definition parseFeature (r : ReadLayer) : OGRErr * Feature * ReadLayer :=
  let r :=
    if r_queriedSpatialIndex r && negb (r_ignoreSpatialFilter r)
    then set_r_offset (r_offsetFeatures r
                       + fst (nth (Z.to_nat (r_featuresPos r)) (r_foundItems r) (0, 0))) r
    else r in
  let fileSize := Z.of_nat (length (r_bytes r)) in
  if r_offset r + 4 >? fileSize
  then (OGRERR_NONE, new_feature, set_r_eof true r)
  else
    let featureSize := read_le (r_bytes r) (r_offset r) 4 in
    if (featureSize >? 100 * 1024 * 1024) && (featureSize >? feature_max_buffer_size)
    then (CPLErrorInvalidSize "feature", new_feature,
          CPLError "Invalid size detected: feature" r)
    else if (featureSize >? 100 * 1024 * 1024) && (r_offset r + featureSize >? fileSize)
    then (CPLErrorIO "reading feature size", new_feature,
          CPLError "Unexpected I/O failure: reading feature size" r)
    else if negb (alloc_ok featureSize)
    then (CPLErrorMemoryAllocation "feature buffer resize", new_feature,
          CPLError "Could not allocate memory: feature buffer resize" r)
    else if r_offset r + 4 + featureSize >? fileSize
    then (CPLErrorIO "reading feature", new_feature,
          CPLError "Unexpected I/O failure: reading feature" (set_r_eof true r))
    else
      let record := slice (r_bytes r) (r_offset r + 4) featureSize in
      let r := set_r_offset (r_offset r + featureSize + 4) r in
      if m_bVerifyBuffers && negb (VerifyFeatureBuffer record)
      then (OGRERR_CORRUPT_DATA, new_feature, CPLError "Buffer verification failed" r)
      else
        match decode_record record with
        | inl err => (err, new_feature, r)
        | inr feature => (OGRERR_NONE, feature, r)
        end.

(** [GetNextFeature]; the loop takes one turn for every record that the
    filters reject, and [fuel] bounds the turns. *)
Fixpoint GetNextFeature (fuel : nat) (r : ReadLayer) : option (option Feature * ReadLayer) :=
  match fuel with
  | O => None
  | S fuel' =>
      if (r_featuresCount r >? 0) && (r_featuresPos r >=? r_featuresCount r)
      then Some (None, r)
      else
        match readIndex r with
        | (OGRERR_NONE, r) =>
            if r_queriedSpatialIndex r && (r_featuresCount r =? 0) then Some (None, r)
            else
              match parseFeature r with
              | (OGRERR_NONE, feature, r) =>
                  if r_eof r then Some (None, r)
                  else
                    let r := set_r_featuresPos (r_featuresPos r + 1) r in
                    if passes_filters r feature then Some (Some feature, r)
                    else GetNextFeature fuel' r
              | (_, _, r) => Some (None, CPLError "Fatal error parsing feature" r)
              end
        | (_, r) => Some (None, r)
        end
  end.

End Reader.

(** ** Column types and field types *)

(** Modelled from the spec: the enumerations [OGRFieldType] and
    [OGRFieldSubType] of [ogr_core.h], which is outside the translation
    unit: the enumerators that [toColumnType] and [toOGRFieldType] name,
    and the remaining ones, which only the [default] branch meets. *)
Inductive OGRFieldType : Type :=
| OFTInteger | OFTIntegerList | OFTReal | OFTRealList | OFTString | OFTStringList
| OFTWideString | OFTWideStringList | OFTBinary | OFTDate | OFTTime | OFTDateTime
| OFTInteger64 | OFTInteger64List.

Inductive OGRFieldSubType : Type :=
| OFSTNone | OFSTBoolean | OFSTInt16 | OFSTFloat32 | OFSTJSON | OFSTUUID.

#[global] Instance OGRFieldType_eq_dec : EqDecision OGRFieldType.
Proof. solve_decision. Defined.
#[global] Instance OGRFieldSubType_eq_dec : EqDecision OGRFieldSubType.
Proof. solve_decision. Defined.

Section Columns.

(** [OGRFieldDefn::GetFieldTypeName], for the text of the warning. *)
Variable GetFieldTypeName : OGRFieldType -> string.

(** [toColumnType(pszFieldName, type, subType)]: the column type, and the
    warnings reported through [CPLError]. *)
Definition toColumnType (pszFieldName : string) (type : OGRFieldType)
  (subType : OGRFieldSubType) : ColumnType * list string :=
  match type with
  | OFTInteger =>
      (if bool_decide (subType = OFSTBoolean) then ColumnType_Bool
       else if bool_decide (subType = OFSTInt16) then ColumnType_Short
       else ColumnType_Int, [])
  | OFTInteger64 => (ColumnType_Long, [])
  | OFTReal =>
      (if bool_decide (subType = OFSTFloat32) then ColumnType_Float else ColumnType_Double, [])
  | OFTString => (ColumnType_String, [])
  | OFTDate => (ColumnType_DateTime, [])
  | OFTTime => (ColumnType_DateTime, [])
  | OFTDateTime => (ColumnType_DateTime, [])
  | OFTBinary => (ColumnType_Binary, [])
  | _ =>
      (ColumnType_String,
       [("toColumnType: " ++ pszFieldName ++ " field is of type " ++ GetFieldTypeName type
         ++ ", which is not handled natively. Falling back to String.")%string])
  end.

End Columns.

(** [toOGRFieldType(type, eSubType)]: the field type and the subtype it
    stores through its second argument. *)
Definition toOGRFieldType (type : ColumnType) : OGRFieldType * OGRFieldSubType :=
  match type with
  | ColumnType_Byte => (OFTInteger, OFSTNone)
  | ColumnType_UByte => (OFTInteger, OFSTNone)
  | ColumnType_Bool => (OFTInteger, OFSTBoolean)
  | ColumnType_Short => (OFTInteger, OFSTInt16)
  | ColumnType_UShort => (OFTInteger, OFSTNone)
  | ColumnType_Int => (OFTInteger, OFSTNone)
  | ColumnType_UInt => (OFTInteger64, OFSTNone)
  | ColumnType_Long => (OFTInteger64, OFSTNone)
  | ColumnType_ULong => (OFTReal, OFSTNone)
  | ColumnType_Float => (OFTReal, OFSTFloat32)
  | ColumnType_Double => (OFTReal, OFSTNone)
  | ColumnType_String => (OFTString, OFSTNone)
  | ColumnType_Json => (OFTString, OFSTNone)
  | ColumnType_DateTime => (OFTDateTime, OFSTNone)
  | ColumnType_Binary => (OFTBinary, OFSTNone)
  end.

(** ** The feature buffer *)

(** [m_featureBuf] and [m_featureBufSize]; the size is a [uint32_t]. *)
Record FeatureBuffer : Type := mkFeatureBuffer {
  m_featureBuf : option (list byte);
  m_featureBufSize : Z
}.

(** [ensureFeatureBuf(featureSize)].  [VSIMalloc] and [VSIRealloc] answer
    as [alloc_ok] says; memory that was not written yet holds [junk]. *)
Definition ensureFeatureBuf (alloc_ok : Z -> bool) (junk : byte) (b : FeatureBuffer)
  (featureSize : Z) : OGRErr * FeatureBuffer :=
  if m_featureBufSize b =? 0 then
    let newBufSize := Z.max (1024 * 32) featureSize in
    if alloc_ok newBufSize
    then (OGRERR_NONE,
          mkFeatureBuffer (Some (replicate (Z.to_nat newBufSize) junk)) newBufSize)
    else (CPLErrorMemoryAllocation "initial feature buffer",
          mkFeatureBuffer None (m_featureBufSize b))
  else if m_featureBufSize b <? featureSize then
    let newBufSize := Z.max (uint32_wrap (m_featureBufSize b * 2)) featureSize in
    if alloc_ok newBufSize
    then (OGRERR_NONE,
          mkFeatureBuffer
            (Some (resize (Z.to_nat newBufSize) junk (default [] (m_featureBuf b))))
            newBufSize)
    else (CPLErrorMemoryAllocation "feature buffer resize", b)
  else (OGRERR_NONE, b).

End FlatGeobuf.

(** * Vocabulary of the statements

    Definitions that the statements below use to say what the code is
    expected to compute; none of them is part of the code. *)

Section Vocabulary.
Import Curve.
#[local] Open Scope float_scope.

(** A curve of the given XY points, without Z or M. *)
Definition curve_of (ring : bool) (pts : list (float * float)) : OGRSimpleCurve :=
  mkCurve 0 (Z.of_nat (length pts)) (Z.of_nat (length pts))
          (Some (map (fun p => mkRawPoint (fst p) (snd p)) pts)) None None ring.

(** The shoelace sum in the words of the source's comment: the sum of
    [x(i) * (y(i+1) - y(i-1))] over every vertex, the indices taken around
    the ring, added in the order of the vertices. *)
Definition shoelace_term (c : OGRSimpleCurve) (i : nat) : float :=
  let n := Z.to_nat (nPointCount c) in
  x (pt c i) * (y (pt c ((i + 1) mod n)) - y (pt c ((i + n - 1) mod n))).

Definition shoelace (c : OGRSimpleCurve) : float :=
  fold_left (fun s i => s + shoelace_term c i)
            (seq 1 (Z.to_nat (nPointCount c) - 1)) (shoelace_term c 0).

(** The closure test of [get_LinearArea]. *)
Definition detectably_unclosed (c : OGRSimpleCurve) : bool :=
  let n := Z.to_nat (nPointCount c) in
  negb (isLinearRing c)
  && (fne (x (pt c 0)) (x (pt c (n - 1))) || fne (y (pt c 0)) (y (pt c (n - 1)))).

(** The rank of a number in the order of [SFcompare]: the class by sign
    and magnitude, then the exponent and the mantissa; none for a NaN. *)
Definition SFkey (f : spec_float) : option (Z * Z * Z) :=
  match f with
  | S754_nan => None
  | S754_zero _ => Some (0, 0, 0)%Z
  | S754_infinity s => Some (if s then (-2) else 2, 0, 0)%Z
  | S754_finite s m e => Some (if s then (-1, - e, Z.neg m) else (1, e, Z.pos m))%Z
  end.

Definition lexcmp (a b : Z * Z * Z) : comparison :=
  let '(a1, a2, a3) := a in
  let '(b1, b2, b3) := b in
  match (a1 ?= b1)%Z with
  | Eq => match (a2 ?= b2)%Z with Eq => (a3 ?= b3)%Z | r => r end
  | r => r
  end.

(** Vertex [i] lies lower than vertex [v], or as low and further right. *)
Definition better (c : OGRSimpleCurve) (i v : nat) : bool :=
  flt (y (pt c i)) (y (pt c v))
  || (feq (y (pt c i)) (y (pt c v)) && fgt (x (pt c i)) (x (pt c v))).

(** Vertices [i] and [v] have equal coordinates. *)
Definition same_place (c : OGRSimpleCurve) (i v : nat) : bool :=
  feq (y (pt c i)) (y (pt c v)) && feq (x (pt c i)) (x (pt c v)).

(** The pivot of [isClockwise] and the three reasons for its fallback. *)
Definition pivot (c : OGRSimpleCurve) : nat := fst (find_pivot c).
Definition fallback (c : OGRSimpleCurve) : bool :=
  snd (find_pivot c)
  || near_pivot c (previous_vertex c (pivot c)) (pivot c)
  || near_pivot c (following_vertex c (pivot c)) (pivot c).

(** A triangle whose side lengths exceed the range of a double; it is
    listed counter-clockwise. *)
Definition huge_triangle : list (float * float) :=
  [(-1.5e308, -1.5e308); (1.5e308, 0); (0, 1.5e308); (-1.5e308, -1.5e308)].

Definition unit_square : list (float * float) :=
  [(0, 0); (1, 0); (1, 1); (0, 1); (0, 0)].

(** The length [Value] has accumulated when it reaches segment [i]: the
    sum, in order, of the lengths of the segments before [i] that are not
    degenerate. *)
Definition accLength (c : OGRSimpleCurve) (i : nat) : float :=
  fold_left (fun a j => if fgt (segLength c j) 0 then a + segLength c j else a) (seq 0 i) 0.

(** Segment [i] is not degenerate and the distance falls within it. *)
Definition brackets (c : OGRSimpleCurve) (dfDistance : float) (i : nat) : bool :=
  fgt (segLength c i) 0
  && fle (accLength c i) dfDistance
  && fge (accLength c i + segLength c i) dfDistance.

(** The XY and Z of vertex [i] of a curve that has a Z array. *)
Definition is_vertex (c : OGRSimpleCurve) (i : nat) (p : OGRPoint) : Prop :=
  ptX p = x (pt c i) /\ ptY p = y (pt c i) /\ ptZ p = zAt c i.

(** A 3D curve of the given XY points and Z values. *)
Definition curve3D_of (pts : list (float * float)) (zs : list float) : OGRSimpleCurve :=
  mkCurve OGR_G_3D (Z.of_nat (length pts)) (Z.of_nat (length pts))
          (Some (map (fun p => mkRawPoint (fst p) (snd p)) pts)) (Some zs) None false.

(** The curve is consistent: the count is within the capacity. *)
Definition count_within_capacity (c : OGRSimpleCurve) : Prop :=
  (0 <= nPointCount c <= m_nPointCapacity c)%Z.

(** The allocated length of a plane; none for a null pointer. *)
Definition plane_capacity {A} (p : option (list A)) : option Z :=
  option_map (fun l => Z.of_nat (length l)) p.

(** The allocator grants the three requests of a growth to [cap]. *)
Definition grants (alloc_ok : Z -> bool) (c : OGRSimpleCurve) (cap : Z) : Prop :=
  alloc_ok (sizeof_OGRRawPoint * cap)%Z = true
  /\ (has3D c = true -> alloc_ok (sizeof_double * cap)%Z = true)
  /\ (hasM c = true -> alloc_ok (sizeof_double * cap)%Z = true).

(** A curve of one point with room for one. *)
Definition one_point_curve : OGRSimpleCurve :=
  mkCurve 0 1 1 (Some [mkRawPoint 1 2]) None None false.

(** A curve that was emptied and kept its arrays, with Z. *)
Definition emptied_curve : OGRSimpleCurve :=
  mkCurve OGR_G_3D 0 2 (Some [mkRawPoint 1 2; mkRawPoint 3 4]) (Some [5; 6]) None false.

(** The indices of the points that the transformation converted, in
    increasing order, among the first [n]. *)
Definition successes (pabSuccess : list Z) (n : nat) : list nat :=
  filter (fun t => nth t pabSuccess 0%Z <> 0%Z) (seq 0 n).

(** The start of the X, Y and Z planes within the scratch array. *)
Definition plane_offset (n o : nat) : Prop := o = 0%nat \/ o = n \/ o = (2 * n)%nat.

(** The override is set to a value that [CPLTestBool] reads as true. *)
Definition partial_reprojection_enabled (option_value : option string)
  (CPLTestBool : string -> bool) : bool :=
  match option_value with
  | Some s => CPLTestBool s
  | None => false
  end.

(** The curve owns its points: the count is within the capacity and
    within the XY array (and the Z array, when there is one). *)
Definition owns_points (c : OGRSimpleCurve) : Prop :=
  count_within_capacity c
  /\ (exists pts, paoPoints c = Some pts /\ (nPointCount c <= Z.of_nat (length pts))%Z)
  /\ (forall zs, padfZ c = Some zs -> (nPointCount c <= Z.of_nat (length zs))%Z).

(** A transformation for the examples: it shifts X by one and fails the
    points whose X is negative. *)
Definition shift_right (nCount : Z) (xyz : list float) : list float * list Z :=
  let n := Z.to_nat nCount in
  (map (fun v => v + 1) (take n xyz) ++ drop n xyz,
   map (fun v => if flt v 0 then 0%Z else 1%Z) (take n xyz)).

Definition always_on (s : string) : bool := true.

Definition four_points : OGRSimpleCurve :=
  curve_of false [(-1, 0); (2, 3); (-5, 1); (4, 4)].

(** The arrays of the curve hold its points: the XY array is there, and
    every array that is there is at least as long as the count. *)
Definition holds_points (c : OGRSimpleCurve) : Prop :=
  (exists pts, paoPoints c = Some pts /\ (Z.to_nat (nPointCount c) <= length pts)%nat)
  /\ (forall zs, padfZ c = Some zs -> (Z.to_nat (nPointCount c) <= length zs)%nat)
  /\ (forall ms, padfM c = Some ms -> (Z.to_nat (nPointCount c) <= length ms)%nat).

(** The canonical direction in the words of the specification: the curve
    is reversed "if its first vertex sorts after its last by (x, then y)". *)
Definition first_after_last (c : OGRSimpleCurve) : bool :=
  let n := Z.to_nat (nPointCount c) in
  fgt (x (pt c 0)) (x (pt c (n - 1)))
  || (feq (x (pt c 0)) (x (pt c (n - 1))) && fgt (y (pt c 0)) (y (pt c (n - 1)))).

Definition segmentize_as_specified (alloc_ok : Z -> bool) (c : OGRSimpleCurve)
  (dfMaxLength : float) : bool * OGRSimpleCurve :=
  if first_after_last c then
    let '(bRet, c') :=
      segmentize_passes alloc_ok zeroPoint 0 (reversePoints c) dfMaxLength in
    (bRet, reversePoints c')
  else segmentize_passes alloc_ok zeroPoint 0 c dfMaxLength.

(** The two end vertices differ in the order of the canonical direction. *)
Definition ends_differ (c : OGRSimpleCurve) : Prop :=
  first_before_last c = true \/ first_before_last (reversePoints c) = true.

Definition granted (n : Z) : bool := true.

(** The allocated lengths of the three new arrays of the second pass. *)
Definition arrays_length (arr : NewArrays) : nat * option nat * option nat :=
  let '(pts, zs, ms) := arr in
  (length pts, option_map (length (A:=float)) zs, option_map (length (A:=float)) ms).

(** Curves for the examples of [segmentize]. *)
Definition sloped_3D_line : OGRSimpleCurve :=
  curve3D_of [(0, 0); (10, 0)] [1; 2].
Definition there_and_back_3D : OGRSimpleCurve :=
  curve3D_of [(0, 0); (10, 0); (0, 0)] [1; 2; 3].
Definition long_line : OGRSimpleCurve := curve_of false [(0, 0); (10, 0)].
Definition bent_line : OGRSimpleCurve := curve_of false [(0, 0); (2.005, 0); (2.005, 7)].
Definition far_line : OGRSimpleCurve :=
  curve_of false [(0x1p53, 0); (0x1.0000000000002p53, 0)].

(** The number of points after [segmentize], and after running it again
    on its own result. *)
Definition count_after (c : OGRSimpleCurve) (dfMaxLength : float) : option Z :=
  match segmentize granted zeroPoint 0 c dfMaxLength with
  | Some (true, c') => Some (nPointCount c')
  | _ => None
  end.
Definition count_after_twice (c : OGRSimpleCurve) (dfMaxLength : float) : option Z :=
  match segmentize granted zeroPoint 0 c dfMaxLength with
  | Some (true, c') => count_after c' dfMaxLength
  | _ => None
  end.

End Vocabulary.

Section DecodeVocabulary.
Import FlatGeobuf.

Context {DateValue : Type}.
Variable ParseDateTime : list byte -> option DateValue.
Variable OGRParseDate : list byte -> option DateValue.
Variable alloc_ok : Z -> bool.
Variable columns : option (list ColumnType).
Variable IsIgnored : nat -> bool.
Variable data : list byte.

(** The column index that the tuple at [offset] starts with. *)
Definition tag (offset : Z) : Z := read_le data offset 2.

(** The decoder has gone through [k] tuples without an error. *)
Fixpoint run (k : nat) (st : DecodeState DateValue) : option (DecodeState DateValue) :=
  match k with
  | O => Some st
  | S k' =>
      if more_tuples DateValue data st then
        match parse_tuple DateValue ParseDateTime OGRParseDate alloc_ok columns IsIgnored data st
        with
        | inl _ => None
        | inr st' => run k' st'
        end
      else None
  end.

(** The tuple at [offset] leaves a value in its field: its column is not
    ignored, and if it is a date, one of the two parsers accepts it. *)
Definition keeps_value (offset : Z) : bool :=
  let i := Z.to_nat (tag offset) in
  negb (IsIgnored i)
  && match nth i (default [] columns) ColumnType_Byte with
     | ColumnType_DateTime =>
         let str := slice data (offset + 6) (read_le data (offset + 2) 4) in
         match ParseDateTime str, OGRParseDate str with
         | None, None => false
         | _, _ => true
         end
     | _ => true
     end.

End DecodeVocabulary.

(** Bytes written as numbers, and a decoder for the examples: no date
    type, parsers that reject everything, memory granted. *)
Definition bytes_of (l : list Z) : list byte :=
  map (fun z => default "000"%byte (Byte.of_N (Z.to_N z))) l.

Definition no_date (s : list byte) : option unit := None.

Definition decode_example (cols : list FlatGeobuf.ColumnType) (ignored : bool)
  (data : list byte) (fields : list (FlatGeobuf.OGRField unit))
  : option (OGRErr * list (FlatGeobuf.OGRField unit)) :=
  FlatGeobuf.parseProperties unit no_date no_date granted (Some cols) (fun _ => ignored)
                             data fields.

(** Column 0, an [Int], given twice: the values 1 and 2. *)
Definition twice_the_int : list byte :=
  bytes_of [0; 0; 1; 0; 0; 0; 0; 0; 2; 0; 0; 0].

(** Column 0, a [DateTime], given twice: the one-letter texts x and y. *)
Definition twice_the_date : list byte :=
  bytes_of [0; 0; 1; 0; 0; 0; 120; 0; 0; 1; 0; 0; 0; 121].

(** An [Int] in column 0, a string in column 1, and column 0 again. *)
Definition int_string_int : list byte :=
  bytes_of [0; 0; 1; 0; 0; 0; 1; 0; 2; 0; 0; 0; 97; 98; 0; 0; 2; 0; 0; 0].

(** A tuple for column 5 of a table of two columns. *)
Definition column_five : list byte := bytes_of [5; 0; 1; 0; 0; 0].

(** A writer that has written no feature: it is open for writing, its
    count is zero and it has no index. *)
Definition nothing_written (l : FlatGeobuf.Layer) : Prop :=
  FlatGeobuf.m_create l = true
  /\ FlatGeobuf.m_featuresCount l = 0
  /\ FlatGeobuf.m_indexNodeSize l = 0.

(** The file of a dataset without features: the magic bytes and a header
    that counts no feature, has no extent and no index, and nothing else. *)
Definition empty_dataset_file (geometryType : Z) : list FlatGeobuf.Block :=
  [FlatGeobuf.MagicBlock;
   FlatGeobuf.HeaderBlock (FlatGeobuf.mkHeader 0 None geometryType 0)].

(** Collaborators for the examples of the writer: no attribute, records
    of four bytes, headers of one hundred bytes. *)
Definition no_fields (v : unit) : option (list byte) := Some [].
Definition four_bytes (geometryOffset : Z) (properties : list byte) : list byte :=
  bytes_of [4; 0; 0; 0].
Definition hundred (h : FlatGeobuf.Header) : Z := 100.
Definition keep_first (a b : FlatGeobuf.OGREnvelope) : FlatGeobuf.OGREnvelope := a.
Definition unit_box : FlatGeobuf.OGREnvelope := FlatGeobuf.mkEnvelope 0 0 1 1.
Definition no_second_pass (l : FlatGeobuf.Layer) : bool * FlatGeobuf.Layer := (false, l).

Definition example_ICreateFeature :=
  FlatGeobuf.ICreateFeature unit no_fields 0 2147483648 (fun _ => 0) four_bytes hundred
                            keep_first unit_box true false.

(** A point, wkbPoint = 1, and a line, wkbLineString = 2. *)
Definition a_point : FlatGeobuf.OGRGeometry := FlatGeobuf.mkGeometry 1 false 21 unit_box.
Definition a_line : FlatGeobuf.OGRGeometry := FlatGeobuf.mkGeometry 2 false 41 unit_box.

Definition memory_file : string := "/vsimem/out.fgb".

Section Vocabulary2.
Import Curve.
#[local] Open Scope float_scope.


(** ** The content of a curve and the consistency of its buffer *)

(** The points, the Z values and the M values that the curve counts as
    its own: the first [nPointCount] entries of each array. *)
Definition points (c : OGRSimpleCurve) : list OGRRawPoint :=
  take (Z.to_nat (nPointCount c)) (default [] (paoPoints c)).
Definition Zvalues (c : OGRSimpleCurve) : list float :=
  take (Z.to_nat (nPointCount c)) (default [] (padfZ c)).
Definition Mvalues (c : OGRSimpleCurve) : list float :=
  take (Z.to_nat (nPointCount c)) (default [] (padfM c)).

(** An array that is there has at least [n] elements. *)
Definition room {A} (p : option (list A)) (n : Z) : Prop :=
  forall l, p = Some l -> (n <= Z.of_nat (length l))%Z.

(** The buffer is consistent: the count is within the capacity, every
    array that is there is as long as the capacity, a Z or M array is there
    only under its flag, and a buffer with capacity has the XY array and
    the arrays that the flags call for. *)
Definition well_formed (c : OGRSimpleCurve) : Prop :=
  (0 <= nPointCount c <= m_nPointCapacity c)%Z
  /\ room (paoPoints c) (m_nPointCapacity c)
  /\ room (padfZ c) (m_nPointCapacity c)
  /\ room (padfM c) (m_nPointCapacity c)
  /\ (is_null (padfZ c) = false -> has3D c = true)
  /\ (is_null (padfM c) = false -> hasM c = true)
  /\ ((0 < m_nPointCapacity c)%Z ->
      is_null (paoPoints c) = false
      /\ (has3D c = true -> is_null (padfZ c) = false)
      /\ (hasM c = true -> is_null (padfM c) = false)).

(** A curve without points and without arrays, as it is constructed. *)
Definition new_curve (flags : Z) : OGRSimpleCurve :=
  mkCurve flags 0%Z 0%Z None None None false.

(** What a reallocation to [cap] elements can leave of an array: the
    array as it was (the call did not reach it, or failed), or the array
    resized. *)
Definition grown {A} (junk : A) (cap : Z) (p p' : option (list A)) : Prop :=
  p' = p \/ p' = Some (resize (Z.to_nat cap) junk (default [] p)).

(** The points that an iterator hands out until it is exhausted, at most
    [fuel] of them, each call receiving the point of the call before. *)
Fixpoint drain (fuel : nat) (it : OGRSimpleCurvePointIterator) (p : OGRPoint)
  : list OGRPoint :=
  match fuel with
  | O => []
  | S fuel' =>
      match getNextPoint it p with
      | (true, p', it') => p' :: drain fuel' it' p'
      | (false, _, _) => []
      end
  end.

(** The entries of an array from index [s] to index [e], both included:
    in the order of the array when [s <= e], in the opposite order
    otherwise. *)
Definition sub_line {A} (s e : Z) (l : list A) : list A :=
  if e >=? s then take (Z.to_nat (e - s + 1)) (drop (Z.to_nat s) l)
  else reverse (take (Z.to_nat (s - e + 1)) (drop (Z.to_nat e) l)).

(** The values of a plane that a setter finds: those of the array when
    the curve has the dimension, zero for every point otherwise. *)
Definition values_or_zero (has : bool) (values : list float) (n : Z) : list float :=
  if has then values else replicate (Z.to_nat n) 0%float.

(** ** What [segmentize] leaves of a curve *)

(** The number of points that the passes put into segment [i]: none when
    the segment is not cut. *)
Definition cuts (c : OGRSimpleCurve) (dfSquareMaxLength : float) (i : nat) : Z :=
  default 0%Z (nIntermediatePoints c dfSquareMaxLength i).

(** The [j]-th point put into segment [i]. *)
Definition inserted (c : OGRSimpleCurve) (dfSquareMaxLength : float) (i j : nat)
  : OGRRawPoint :=
  let dfX := x (pt c (i + 1)) - x (pt c i) in
  let dfY := y (pt c (i + 1)) - y (pt c i) in
  let m := cuts c dfSquareMaxLength i in
  mkRawPoint (x (pt c i) + double_of_int (Z.of_nat j) * (dfX / (double_of_int m + 1)))
             (y (pt c i) + double_of_int (Z.of_nat j) * (dfY / (double_of_int m + 1))).

(** An array of the cut curve from vertex [i] on: every vertex but the
    last is followed by the entries of the points put into its segment,
    and the last vertex ends it; [f] gives the entry of a vertex and [g]
    the entry of a point put in. *)
Definition segmented_from {A} (c : OGRSimpleCurve) (dfSquareMaxLength : float)
  (f : nat -> A) (g : nat -> nat -> A) (i : nat) : list A :=
  let n := Z.to_nat (nPointCount c) in
  concat (map (fun i => f i :: map (g i) (seq 1 (Z.to_nat (cuts c dfSquareMaxLength i))))
              (seq i (n - 1 - i)))
  ++ [f (n - 1)%nat].

Definition segmented {A} (c : OGRSimpleCurve) (dfSquareMaxLength : float)
  (f : nat -> A) (g : nat -> nat -> A) : list A :=
  segmented_from c dfSquareMaxLength f g 0.

(** The stores of the second pass into one of the new arrays, [k]
    iterations from index [i]. *)
Fixpoint fill_plane {A} (c : OGRSimpleCurve) (dfSquareMaxLength : float)
  (f : nat -> A) (g : nat -> nat -> A) (k i : nat) (nNewPointCount : Z) (l : list A)
  : list A :=
  match k with
  | O => l
  | S k' =>
      let l := store nNewPointCount (f i) l in
      let nNewPointCount := (nNewPointCount + 1)%Z in
      if (Z.of_nat i =? nPointCount c - 1)%Z then l
      else
        match nIntermediatePoints c dfSquareMaxLength i with
        | Some m =>
            fill_plane c dfSquareMaxLength f g k' (S i) (nNewPointCount + m)%Z
              (fold_left (fun l j => store (nNewPointCount + Z.of_nat j - 1)%Z (g i j) l)
                         (seq 1 (Z.to_nat m)) l)
        | None => fill_plane c dfSquareMaxLength f g k' (S i) nNewPointCount l
        end
  end.
End Vocabulary2.

(** ** Vocabulary for the writer and the reader of FlatGeobuf files *)

Section WriterVocabulary.
Import FlatGeobuf.

Variable FieldValues : Type.
Variable serializeFields : FieldValues -> option (list byte).
Variable GeometryType_Unknown : Z.
Variable feature_max_buffer_size : Z.
Variable GeometryWriter_write : OGRGeometry -> Z.
Variable CreateFeatureDirect : Z -> list byte -> list byte.
Variable header_bytes : Header -> Z.
Variable Merge : OGREnvelope -> OGREnvelope -> OGREnvelope.
Variable default_envelope : OGREnvelope.
Variable write_ok : bool.
Variable bad_alloc : bool.

(** The record that [ICreateFeature] builds for a feature, and the
    envelope it takes for it. *)
Definition record_of (f : OGRFeature FieldValues) : list byte :=
  CreateFeatureDirect
    (match GetGeometryRef _ f with
     | Some g => if IsEmpty g then 0 else GeometryWriter_write g
     | None => 0
     end)
    (default [] (serializeFields (fieldValues _ f))).

Definition envelope_of (f : OGRFeature FieldValues) : OGREnvelope :=
  match GetGeometryRef _ f with Some g => getEnvelope g | None => default_envelope end.

(** [ICreateFeature] called for each feature of a list in turn: the
    codes returned and the layer at the end. *)
Fixpoint create_features (l : Layer) (fs : list (OGRFeature FieldValues))
  : list OGRErr * Layer :=
  match fs with
  | [] => ([], l)
  | f :: fs' =>
      let '(err, l1) :=
        ICreateFeature FieldValues serializeFields GeometryType_Unknown
                       feature_max_buffer_size GeometryWriter_write CreateFeatureDirect
                       header_bytes Merge default_envelope write_ok bad_alloc l f in
      let '(errs, l2) := create_features l1 fs' in
      (err :: errs, l2)
  end.

(** The features whose call returned [OGRERR_NONE]. *)
Fixpoint accepted (errs : list OGRErr) (fs : list (OGRFeature FieldValues))
  : list (OGRFeature FieldValues) :=
  match errs, fs with
  | err :: errs', f :: fs' =>
      if bool_decide (err = OGRERR_NONE) then f :: accepted errs' fs' else accepted errs' fs'
  | _, _ => []
  end.

(** The extent of the geometries of a list of features, merged in order. *)
Definition extent_after (e0 : option OGREnvelope) (fs : list (OGRFeature FieldValues))
  : option OGREnvelope :=
  fold_left (fun acc f =>
               match GetGeometryRef _ f with
               | Some g => Some (match acc with
                                 | Some e => Merge e (getEnvelope g)
                                 | None => getEnvelope g
                                 end)
               | None => acc
               end) fs e0.

Definition extent_vector (e : option OGREnvelope) : list float :=
  match e with
  | None => replicate 4 PrimFloat.nan
  | Some e => [MinX e; MinY e; MaxX e; MaxY e]
  end.

(** The header that the first feature makes the writer put down: a
    placeholder where the file can be rewritten, a header without count
    and extent where it cannot. *)
Definition first_header (osFilename : string) (geometryType : Z) : Header :=
  if SupportsSeekWhileWriting osFilename
  then mkHeader 3735928559 (Some (replicate 4 PrimFloat.nan)) geometryType 0
  else mkHeader 0 None geometryType 0.

(** The blocks of a file that starts with the header [h] and holds the
    records of the features. *)
Definition file_with (h : Header) (fs : list (OGRFeature FieldValues)) : list Block :=
  [MagicBlock; HeaderBlock h] ++ map FeatureBlock (map record_of fs).

(** The file while features are written: nothing before the first. *)
Definition file_so_far (osFilename : string) (geometryType : Z)
  (fs : list (OGRFeature FieldValues)) : list Block :=
  match fs with
  | [] => []
  | _ => file_with (first_header osFilename geometryType) fs
  end.

(** The number of bytes that the records of the features take. *)
Definition records_size (fs : list (OGRFeature FieldValues)) : Z :=
  fold_right (fun f acc => Z.of_nat (length (record_of f)) + acc) 0 fs.

(** The index items of features whose records lie one after the other
    from [offset] on. *)
Fixpoint items_from (offset : Z) (fs : list (OGRFeature FieldValues)) : list FeatureItem :=
  match fs with
  | [] => []
  | f :: fs' =>
      mkItem (Z.of_nat (length (record_of f))) offset (envelope_of f)
      :: items_from (offset + Z.of_nat (length (record_of f))) fs'
  end.

(** The offset at which the first record starts. *)
Definition records_offset (osFilename : string) (geometryType : Z) : Z :=
  sizeof_magicbytes + header_bytes (first_header osFilename geometryType).

(** The state of a writer that has accepted the features [fs], in this
    order, and nothing else: its counters, its extent, its index items and
    the file it writes to. *)
Definition has_written (osFilename : string) (geometryType : Z) (index : bool)
  (fs : list (OGRFeature FieldValues)) (l : Layer) : Prop :=
  m_create l = true
  /\ m_bCreateSpatialIndexAtClose l = index
  /\ m_osFilename l = osFilename
  /\ m_geometryType l = geometryType
  /\ m_indexNodeSize l = 0
  /\ m_featuresCount l = Z.of_nat (length fs)
  /\ m_sExtent l = extent_after None fs
  /\ m_featureItems l
     = (if index then items_from (records_offset osFilename geometryType) fs else [])
  /\ m_writeOffset l
     = match fs with
       | [] => 0
       | _ => records_offset osFilename geometryType + records_size fs
       end
  /\ m_maxFeatureSize l
     = fold_left (fun m f => Z.max m (Z.of_nat (length (record_of f)))) fs 0
  /\ exists file,
       m_poFpWrite l = Some file
       /\ blocks file = file_so_far osFilename geometryType fs
       /\ position file = length (blocks file).

End WriterVocabulary.

Section ReaderVocabulary.
Import FlatGeobuf.

Variable feature_max_buffer_size : Z.
Variable VerifyFeatureBuffer : list byte -> bool.
Variable PackedRTree_size : Z -> option Z.
Variable streamSearch : ReadLayer -> OGREnvelope -> option (list (Z * Z)).
Variable Feature : Type.
Variable new_feature : Feature.
Variable decode_record : list byte -> OGRErr + Feature.
Variable passes_filters : ReadLayer -> Feature -> bool.
Variable alloc_ok : Z -> bool.
Variable m_bVerifyBuffers : bool.

(** A record starts with its size: four bytes, little-endian, that count
    the bytes after them. *)
Definition size_prefixed (record : list byte) : Prop :=
  (4 <= length record)%nat
  /\ read_le record 0 4 = Z.of_nat (length record) - 4.

(** A record that the reader takes: it is size-prefixed, within the size
    limit, passes the verification when there is one, and decodes. *)
Definition readable (record : list byte) : Prop :=
  size_prefixed record
  /\ Z.of_nat (length record) - 4 <= Z.max (100 * 1024 * 1024) feature_max_buffer_size
  /\ alloc_ok (Z.of_nat (length record) - 4) = true
  /\ (m_bVerifyBuffers = true -> VerifyFeatureBuffer (drop 4 record) = true)
  /\ exists feature, decode_record (drop 4 record) = inr feature.

(** The feature of a record, for a record that decodes. *)
Definition feature_of (record : list byte) : Feature :=
  match decode_record (drop 4 record) with
  | inr feature => feature
  | inl _ => new_feature
  end.

(** [GetNextFeature] called until it returns no feature, at most [calls]
    times: the features returned and the layer at the end; none when a
    call runs out of fuel. *)
Fixpoint read_features (calls fuel : nat) (r : ReadLayer)
  : option (list Feature * ReadLayer) :=
  match calls with
  | O => Some ([], r)
  | S calls' =>
      match GetNextFeature feature_max_buffer_size VerifyFeatureBuffer PackedRTree_size
                           streamSearch Feature new_feature decode_record passes_filters
                           alloc_ok m_bVerifyBuffers fuel r with
      | None => None
      | Some (None, r') => Some ([], r')
      | Some (Some feature, r') =>
          match read_features calls' fuel r' with
          | Some (features, r'') => Some (feature :: features, r'')
          | None => None
          end
      end
  end.

(** The records that a reader reaches: all of them when the header counts
    no feature, as many as the header counts otherwise. *)
Definition reached (featuresCount : Z) (records : list (list byte)) : list (list byte) :=
  if featuresCount =? 0 then records else take (Z.to_nat featuresCount) records.

(** A reader without spatial filter that has gone through the first [k]
    records of a file and has met no error. *)
Definition at_record (featuresCount : Z) (records : list (list byte)) (k : nat)
  (r : ReadLayer) : Prop :=
  r_bytes r = concat records
  /\ r_offset r = Z.of_nat (length (concat (take k records)))
  /\ r_featuresPos r = Z.of_nat k
  /\ r_featuresCount r = featuresCount
  /\ r_eof r = false
  /\ r_poFilterGeom r = None
  /\ r_queriedSpatialIndex r = false
  /\ r_errors r = [].

End ReaderVocabulary.

(** The feature buffer is consistent: its size is a [uint32_t], a buffer
    that was allocated has that many bytes, and there is no buffer while
    the size is zero. *)
Definition buffer_consistent (b : FlatGeobuf.FeatureBuffer) : Prop :=
  0 <= FlatGeobuf.m_featureBufSize b < 2 ^ 32
  /\ match FlatGeobuf.m_featureBuf b with
     | Some bytes =>
         0 < FlatGeobuf.m_featureBufSize b
         /\ length bytes = Z.to_nat (FlatGeobuf.m_featureBufSize b)
     | None => FlatGeobuf.m_featureBufSize b = 0
     end.

(** The bytes of the buffer; none for a null pointer. *)
Definition buffer_bytes (b : FlatGeobuf.FeatureBuffer) : list byte :=
  default [] (FlatGeobuf.m_featureBuf b).

(** For the examples of the reader: two size-prefixed records, and a
    decoder that hands out the bytes of a record as they are. *)
Definition two_records : list (list byte) :=
  [bytes_of [1; 0; 0; 0; 7]; bytes_of [2; 0; 0; 0; 8; 9]].

Definition raw_feature (record : list byte) : OGRErr + list byte := inr record.

(** A record for the examples of the writer: a size prefix and the
    properties. *)
Definition prefixed (geometryOffset : Z) (properties : list byte) : list byte :=
  bytes_of [Z.of_nat (length properties); 0; 0; 0] ++ properties.

Definition as_given (properties : list byte) : option (list byte) := Some properties.

(** * Properties *)

(** ** Order facts for IEEE comparisons

    [SFcompare] orders the sign, then the exponent, then the mantissa: the
    facts below follow from that shape alone and hold for every operand,
    NaN included (a comparison with a NaN is false). *)

Lemma SFcompare_antisym (a b : spec_float) :
  SFcompare b a = option_map CompOpp (SFcompare a b).
Proof.
  destruct a as [sa|sa| |sa ma ea], b as [sb|sb| |sb mb eb]; simpl; try reflexivity;
    try (destruct sa; reflexivity); try (destruct sb; reflexivity);
    try (destruct sa, sb; reflexivity).
  destruct sa, sb; simpl; try reflexivity;
    change (PosDef.Pos.compare_cont Eq mb ma) with (Pos.compare mb ma);
    change (PosDef.Pos.compare_cont Eq ma mb) with (Pos.compare ma mb);
    rewrite (Z.compare_antisym ea eb), (Pos.compare_antisym ma mb);
    destruct (ea ?= eb)%Z; simpl; try reflexivity;
    destruct (ma ?= mb)%positive; reflexivity.
Qed.

Lemma flt_asym (a b : float) : flt a b = true -> flt b a = false.
Proof.
  unfold flt. rewrite !FloatAxioms.ltb_spec. unfold SFltb.
  rewrite (SFcompare_antisym (Prim2SF a) (Prim2SF b)).
  destruct (SFcompare (Prim2SF a) (Prim2SF b)) as [[ | | ]|]; simpl; congruence.
Qed.

Lemma feq_sym (a b : float) : feq a b = feq b a.
Proof.
  unfold feq. rewrite !FloatAxioms.eqb_spec. unfold SFeqb.
  rewrite (SFcompare_antisym (Prim2SF a) (Prim2SF b)).
  destruct (SFcompare (Prim2SF a) (Prim2SF b)) as [[ | | ]|]; reflexivity.
Qed.

Lemma flt_not_feq (a b : float) : flt a b = true -> feq a b = false.
Proof.
  unfold flt, feq. rewrite FloatAxioms.ltb_spec, FloatAxioms.eqb_spec. unfold SFltb, SFeqb.
  destruct (SFcompare (Prim2SF a) (Prim2SF b)) as [[ | | ]|]; simpl; congruence.
Qed.

Lemma SFcompare_key (a b : spec_float) :
  SFcompare a b = match SFkey a, SFkey b with
                  | Some ka, Some kb => Some (lexcmp ka kb)
                  | _, _ => None
                  end.
Proof.
  destruct a as [sa|sa| |sa ma ea], b as [sb|sb| |sb mb eb]; simpl; try reflexivity;
    try (destruct sa; reflexivity); try (destruct sb; reflexivity);
    try (destruct sa, sb; reflexivity).
  destruct sa, sb; simpl; try reflexivity.
  rewrite Z.compare_opp, (Z.compare_antisym ea eb).
  destruct (ea ?= eb)%Z; reflexivity.
Qed.

Lemma lexcmp_Lt (a b : Z * Z * Z) :
  lexcmp a b = Lt <->
  (a.1.1 < b.1.1 \/ (a.1.1 = b.1.1 /\ (a.1.2 < b.1.2 \/ (a.1.2 = b.1.2 /\ a.2 < b.2))))%Z.
Proof.
  destruct a as [[a1 a2] a3], b as [[b1 b2] b3]; simpl.
  destruct (Z.compare_spec a1 b1), (Z.compare_spec a2 b2), (Z.compare_spec a3 b3);
    split; intros; try discriminate; try lia; reflexivity.
Qed.

Lemma lexcmp_Eq (a b : Z * Z * Z) : lexcmp a b = Eq <-> a = b.
Proof.
  destruct a as [[a1 a2] a3], b as [[b1 b2] b3]; simpl.
  destruct (Z.compare_spec a1 b1), (Z.compare_spec a2 b2), (Z.compare_spec a3 b3);
    split; intros HH; try discriminate; try reflexivity;
    try (injection HH as -> -> ->; lia); subst; reflexivity.
Qed.

(** A comparison of two doubles, read on the ranks. *)
Lemma flt_key (a b : float) :
  flt a b = true <->
  exists ka kb, SFkey (Prim2SF a) = Some ka /\ SFkey (Prim2SF b) = Some kb /\ lexcmp ka kb = Lt.
Proof.
  unfold flt. rewrite FloatAxioms.ltb_spec. unfold SFltb. rewrite SFcompare_key.
  destruct (SFkey (Prim2SF a)) as [ka|], (SFkey (Prim2SF b)) as [kb|]; split.
  - destruct (lexcmp ka kb) eqn:E; try discriminate. intros _. exists ka, kb. auto.
  - intros (ka' & kb' & Ha & Hb & Hl). injection Ha as ->. injection Hb as ->.
    rewrite Hl. reflexivity.
  - discriminate.
  - intros (ka' & kb' & _ & [=] & _).
  - discriminate.
  - intros (ka' & kb' & [=] & _).
  - discriminate.
  - intros (ka' & kb' & [=] & _).
Qed.

Lemma feq_key (a b : float) :
  feq a b = true <->
  exists k, SFkey (Prim2SF a) = Some k /\ SFkey (Prim2SF b) = Some k.
Proof.
  unfold feq. rewrite FloatAxioms.eqb_spec. unfold SFeqb. rewrite SFcompare_key.
  destruct (SFkey (Prim2SF a)) as [ka|], (SFkey (Prim2SF b)) as [kb|]; split.
  - destruct (lexcmp ka kb) eqn:E; try discriminate. intros _.
    apply lexcmp_Eq in E. subst. exists kb. auto.
  - intros (k & Ha & Hb). injection Ha as ->. injection Hb as ->.
    replace (lexcmp k k) with Eq by (symmetry; apply lexcmp_Eq; reflexivity). reflexivity.
  - discriminate.
  - intros (k & _ & [=]).
  - discriminate.
  - intros (k & [=] & _).
  - discriminate.
  - intros (k & [=] & _).
Qed.

Lemma flt_trans (a b c : float) : flt a b = true -> flt b c = true -> flt a c = true.
Proof.
  rewrite !flt_key. intros (ka & kb & Ha & Hb & Hab) (kb' & kc & Hb' & Hc & Hbc).
  rewrite Hb in Hb'. injection Hb' as <-. exists ka, kc. repeat split; try assumption.
  apply lexcmp_Lt in Hab, Hbc. apply lexcmp_Lt. lia.
Qed.

Lemma feq_flt (a b c : float) : feq a b = true -> flt b c = true -> flt a c = true.
Proof.
  rewrite feq_key, !flt_key. intros (k & Ha & Hb) (kb & kc & Hb' & Hc & Hbc).
  rewrite Hb in Hb'. injection Hb' as <-. exists k, kc. auto.
Qed.

Lemma flt_feq (a b c : float) : flt a b = true -> feq b c = true -> flt a c = true.
Proof.
  rewrite feq_key, !flt_key. intros (ka & kb & Ha & Hb & Hab) (k & Hb' & Hc).
  rewrite Hb in Hb'. injection Hb' as <-. exists ka, kb. auto.
Qed.

Lemma feq_trans (a b c : float) : feq a b = true -> feq b c = true -> feq a c = true.
Proof.
  rewrite !feq_key. intros (k & Ha & Hb) (k' & Hb' & Hc).
  rewrite Hb in Hb'. injection Hb' as <-. exists k. auto.
Qed.

Lemma flt_irrefl (a : float) : flt a a = false.
Proof.
  destruct (flt a a) eqn:E; [|reflexivity].
  pose proof (flt_asym a a E). congruence.
Qed.

(** ** The area of a ring *)

Section LinearArea.
Import Curve.
#[local] Open Scope float_scope.

Lemma fold_left_ext_in {A B} (f g : A -> B -> A) (l : list B) (a : A) :
  (forall s i, In i l -> f s i = g s i) -> fold_left f l a = fold_left g l a.
Proof.
  revert a. induction l as [|b l IH]; intros a H; simpl; [reflexivity|].
  rewrite (H a b) by (left; reflexivity). apply IH. intros s i Hi. apply H. right. exact Hi.
Qed.

Lemma greenSum_shoelace (c : OGRSimpleCurve) :
  (2 <= nPointCount c)%Z -> greenSum c = shoelace c.
Proof.
  intros Hn. unfold greenSum, shoelace.
  set (n := Z.to_nat (nPointCount c)).
  assert (Hn2 : (2 <= n)%nat) by (unfold n; lia).
  assert (E : seq 1 (n - 1) = seq 1 (n - 2) ++ [(n - 1)%nat]).
  { replace (n - 1)%nat with ((n - 2) + 1)%nat at 1 by lia.
    rewrite seq_app. simpl. do 3 f_equal. lia. }
  rewrite E, fold_left_app. simpl.
  f_equal.
  - transitivity (fold_left (fun s i => s + shoelace_term c i) (seq 1 (n - 2))
                            (x (pt c 0) * (y (pt c 1) - y (pt c (n - 1))))).
    + apply fold_left_ext_in. intros s i Hi. apply in_seq in Hi.
      unfold shoelace_term. fold n.
      replace ((i + 1) mod n)%nat with (i + 1)%nat
        by (symmetry; apply Nat.mod_small; lia).
      replace ((i + n - 1) mod n)%nat with (i - 1)%nat; [reflexivity|].
      replace (i + n - 1)%nat with ((i - 1) + 1 * n)%nat by lia.
      rewrite Nat.Div0.mod_add. symmetry; apply Nat.mod_small; lia.
    + f_equal. unfold shoelace_term. fold n.
      replace ((0 + 1) mod n)%nat with 1%nat by (symmetry; apply Nat.mod_small; lia).
      replace ((0 + n - 1) mod n)%nat with (n - 1)%nat
        by (symmetry; apply Nat.mod_small; lia).
      reflexivity.
  - unfold shoelace_term. fold n.
    replace ((n - 1 + 1) mod n)%nat with 0%nat
      by (replace (n - 1 + 1)%nat with n by lia; symmetry; apply Nat.Div0.mod_same).
    replace ((n - 1 + n - 1) mod n)%nat with (n - 2)%nat; [reflexivity|].
    replace (n - 1 + n - 1)%nat with ((n - 2) + 1 * n)%nat by lia.
    rewrite Nat.Div0.mod_add. symmetry; apply Nat.mod_small; lia.
Qed.

Lemma WkbSize_line_nonzero (c : OGRSimpleCurve) :
  isLinearRing c = false -> (0 <= nPointCount c)%Z -> (WkbSize c =? 0)%Z = false.
Proof.
  intros Hr Hn. unfold WkbSize, CoordinateDimension. rewrite Hr.
  apply Z.eqb_neq. destruct (has3D c), (hasM c); lia.
Qed.

End LinearArea.

(** C7. [get_LinearArea] is zero for a curve of fewer than two points and
    for a curve that the closure test finds unclosed (a line string whose
    first and last points differ in X or in Y); for every other curve it is
    half the absolute value of the shoelace sum over the vertices; on the
    closed unit square it is 1.0, for a line string and for a linear ring. *)
Theorem get_LinearArea_shoelace :
  (forall c : Curve.OGRSimpleCurve,
      (Curve.nPointCount c < 2)%Z -> Curve.get_LinearArea c = 0%float)
  /\ (forall c : Curve.OGRSimpleCurve,
      detectably_unclosed c = true -> Curve.get_LinearArea c = 0%float)
  /\ (forall c : Curve.OGRSimpleCurve,
      (2 <= Curve.nPointCount c)%Z -> detectably_unclosed c = false ->
      Curve.get_LinearArea c = (0.5 * PrimFloat.abs (shoelace c))%float)
  /\ (forall ring : bool,
      Curve.get_LinearArea (curve_of ring [(0, 0); (1, 0); (1, 1); (0, 1); (0, 0)]%float)
      = 1.0%float).
Proof.
  repeat split.
  - intros c Hn. unfold Curve.get_LinearArea.
    apply Z.ltb_lt in Hn. rewrite Hn. reflexivity.
  - intros c Hu. unfold Curve.get_LinearArea, detectably_unclosed in *.
    apply andb_true_iff in Hu as [Hr Hu]. apply negb_true_iff in Hr.
    destruct (Curve.nPointCount c <? 2)%Z eqn:Hn; [reflexivity|].
    apply Z.ltb_ge in Hn.
    rewrite (WkbSize_line_nonzero c Hr) by lia. simpl. rewrite Hu. reflexivity.
  - intros c Hn Hu. unfold Curve.get_LinearArea, detectably_unclosed in *.
    replace (Curve.nPointCount c <? 2)%Z with false by (symmetry; apply Z.ltb_ge; lia).
    rewrite <- (greenSum_shoelace c Hn). simpl.
    destruct (Curve.isLinearRing c) eqn:Hr.
    + unfold Curve.WkbSize. rewrite Hr. reflexivity.
    + rewrite (WkbSize_line_nonzero c Hr) by lia. simpl in *. rewrite Hu. reflexivity.
  - intros [|]; vm_compute; reflexivity.
Qed.

Lemma get_LinearArea_shoelace_witness :
  Curve.get_LinearArea (curve_of false [(3, 4)]%float) = 0%float
  /\ Curve.get_LinearArea (curve_of false [(0, 0); (1, 0); (1, 1)]%float) = 0%float
  /\ Curve.get_LinearArea (curve_of false [(0, 0); (2, 0); (0, 2); (0, 0)]%float)
     = (0.5 * PrimFloat.abs
                (shoelace (curve_of false [(0, 0); (2, 0); (0, 2); (0, 0)]%float)))%float.
Proof.
  destruct get_LinearArea_shoelace as (H1 & H2 & H3 & _).
  split; [|split].
  - apply H1. vm_compute. reflexivity.
  - apply H2. vm_compute. reflexivity.
  - apply H3; vm_compute; [discriminate | reflexivity].
Defined.

(** ** Winding *)

(** C10. A curve of fewer than two points, the empty curve included, is
    reported clockwise: [isClockwise] answers TRUE. *)
Theorem isClockwise_degenerate (c : Curve.OGRSimpleCurve) :
  (Curve.nPointCount c < 2)%Z -> Curve.isClockwise c = true.
Proof.
  intros Hn. unfold Curve.isClockwise.
  apply Z.ltb_lt in Hn. rewrite Hn. reflexivity.
Qed.

Lemma isClockwise_degenerate_witness :
  ((Curve.nPointCount (curve_of false []) < 2)%Z
   /\ Curve.isClockwise (curve_of false []) = true)
  /\ ((Curve.nPointCount (curve_of true [(7, -3)]%float) < 2)%Z
      /\ Curve.isClockwise (curve_of true [(7, -3)]%float) = true).
Proof.
  split; (split; [vm_compute; reflexivity | apply isClockwise_degenerate; vm_compute; reflexivity]).
Defined.

Section Pivot.
Import Curve.

Lemma better_irrefl (c : OGRSimpleCurve) (i : nat) : better c i i = false.
Proof.
  unfold better, fgt. rewrite !flt_irrefl. rewrite andb_false_r. reflexivity.
Qed.

Lemma better_trans (c : OGRSimpleCurve) (i v u : nat) :
  better c i v = true -> better c v u = true -> better c i u = true.
Proof.
  unfold better, fgt. intros H1 H2.
  apply orb_true_iff in H1 as [H1|H1]; apply orb_true_iff in H2 as [H2|H2];
    try apply andb_true_iff in H1 as [H1 H1x]; try apply andb_true_iff in H2 as [H2 H2x];
    apply orb_true_iff.
  - left. eapply flt_trans; eassumption.
  - left. eapply flt_feq; eassumption.
  - left. eapply feq_flt; eassumption.
  - right. apply andb_true_iff. split.
    + eapply feq_trans; eassumption.
    + eapply flt_trans; eassumption.
Qed.

Lemma same_place_better (c : OGRSimpleCurve) (i v u : nat) :
  same_place c i v = true -> better c v u = true -> better c i u = true.
Proof.
  unfold same_place, better, fgt. intros H1 H2.
  apply andb_true_iff in H1 as [H1y H1x].
  apply orb_true_iff in H2 as [H2|H2]; apply orb_true_iff.
  - left. eapply feq_flt; eassumption.
  - apply andb_true_iff in H2 as [H2y H2x]. right. apply andb_true_iff. split.
    + eapply feq_trans; eassumption.
    + eapply flt_feq; [eassumption|]. rewrite feq_sym. assumption.
Qed.

(** What the search has established after its first [k] turns. *)
Lemma find_pivot_invariant (c : OGRSimpleCurve) (k : nat) :
  let st := fold_left (pivot_step c) (seq 1 k) (0%nat, false) in
  (st.1 <= k)%nat
  /\ (forall i, (i <= k)%nat -> better c i st.1 = false)
  /\ (forall i, (i < st.1)%nat -> same_place c i st.1 = false)
  /\ (st.2 = true <-> exists i, (st.1 < i <= k)%nat /\ same_place c i st.1 = true).
Proof.
  induction k as [|k IH].
  - simpl. split; [lia|]. split; [|split; [|split]].
    + intros i Hi. replace i with 0%nat by lia. apply better_irrefl.
    + intros i Hi. lia.
    + discriminate.
    + intros (i & Hi & _). lia.
  - rewrite seq_S, fold_left_app. simpl in *.
    destruct (fold_left (pivot_step c) (seq 1 k) (0%nat, false)) as [v fb]; simpl in *.
    destruct IH as (I1 & I2 & I3 & I4).
    fold (better c (S k) v). fold (same_place c (S k) v).
    destruct (better c (S k) v) eqn:Hb; simpl.
    + split; [lia|]. split; [|split; [|split]].
      * intros i Hi. destruct (better c i (S k)) eqn:Hi'; [|reflexivity].
        destruct (Nat.eq_dec i (S k)) as [->|Hne].
        -- rewrite better_irrefl in Hi'. discriminate.
        -- rewrite <- (I2 i) by lia. symmetry. eapply better_trans; eassumption.
      * intros i Hi. destruct (same_place c i (S k)) eqn:Hs; [|reflexivity].
        rewrite <- (I2 i) by lia. symmetry. eapply same_place_better; eassumption.
      * discriminate.
      * intros (i & Hi & _). lia.
    + destruct (same_place c (S k) v) eqn:Hs; simpl.
      * split; [lia|]. split; [|split; [|split]].
        -- intros i Hi. destruct (Nat.eq_dec i (S k)) as [->|Hne]; [assumption|].
           apply I2. lia.
        -- exact I3.
        -- intros _. exists (S k). split; [lia|assumption].
        -- reflexivity.
      * split; [lia|]. split; [|split; [|split]].
        -- intros i Hi. destruct (Nat.eq_dec i (S k)) as [->|Hne]; [assumption|].
           apply I2. lia.
        -- exact I3.
        -- intros Hfb. apply I4 in Hfb as (i & Hi & Hsi). exists i. split; [lia|assumption].
        -- intros (i & Hi & Hsi). apply I4.
           destruct (Nat.eq_dec i (S k)) as [->|Hne]; [congruence|].
           exists i. split; [lia|assumption].
Qed.

End Pivot.




(** ** Interpolation along the curve *)

Section ValueFacts.
Import Curve.
#[local] Open Scope float_scope.

Lemma accLength_S (c : OGRSimpleCurve) (i : nat) :
  accLength c (S i) =
  if fgt (segLength c i) 0 then accLength c i + segLength c i else accLength c i.
Proof. unfold accLength. rewrite seq_S, fold_left_app. reflexivity. Qed.

(** The loop returns at the first segment that brackets the distance. *)
Lemma Value_loop_first (c : OGRSimpleCurve) (d : float) (p : OGRPoint) (k i s : nat) :
  (s <= i < s + k)%nat ->
  brackets c d i = true ->
  (forall j, (s <= j < i)%nat -> brackets c d j = false) ->
  Value_loop c d p k s (accLength c s)
  = Some (interpolate c i ((d - accLength c i) / segLength c i) p).
Proof.
  revert s. induction k as [|k IH]; intros s Hi Hb Hfirst; [lia|].
  simpl. destruct (Nat.eq_dec s i) as [->|Hne].
  - unfold brackets in Hb.
    apply andb_true_iff in Hb as [Hb Hb3]. apply andb_true_iff in Hb as [Hb1 Hb2].
    rewrite Hb1, Hb2, Hb3. reflexivity.
  - assert (Hs : brackets c d s = false) by (apply Hfirst; lia).
    unfold brackets in Hs.
    destruct (fgt (segLength c s) 0) eqn:Hpos.
    + simpl in Hs. rewrite Hs.
      rewrite <- (IH (S s)); [|lia|exact Hb|intros j Hj; apply Hfirst; lia].
      rewrite accLength_S, Hpos. reflexivity.
    + rewrite <- (IH (S s)); [|lia|exact Hb|intros j Hj; apply Hfirst; lia].
      rewrite accLength_S, Hpos. reflexivity.
Qed.

Lemma Value_loop_none (c : OGRSimpleCurve) (d : float) (p : OGRPoint) (k s : nat) :
  (forall j, (s <= j < s + k)%nat -> brackets c d j = false) ->
  Value_loop c d p k s (accLength c s) = None.
Proof.
  revert s. induction k as [|k IH]; intros s Hnone; [reflexivity|].
  simpl. assert (Hs : brackets c d s = false) by (apply Hnone; lia).
  unfold brackets in Hs.
  destruct (fgt (segLength c s) 0) eqn:Hpos.
  - simpl in Hs. rewrite Hs.
    rewrite <- (IH (S s)); [|intros j Hj; apply Hnone; lia].
    rewrite accLength_S, Hpos. reflexivity.
  - rewrite <- (IH (S s)); [|intros j Hj; apply Hnone; lia].
    rewrite accLength_S, Hpos. reflexivity.
Qed.

End ValueFacts.




(** ** Growth of the coordinate buffer *)

Section Growth.
Import Curve.

Variable alloc_ok : Z -> bool.
Variable junkP : OGRRawPoint.
Variable junkD : float.

Lemma grow_granted (c : OGRSimpleCurve) (cap : Z) :
  grants alloc_ok c cap ->
  grow alloc_ok junkP junkD c cap
  = (true,
     mkCurve (flags c) (nPointCount c) cap
       (Some (resize (Z.to_nat cap) junkP (default [] (paoPoints c))))
       (if has3D c then Some (resize (Z.to_nat cap) junkD (default [] (padfZ c)))
        else padfZ c)
       (if hasM c then Some (resize (Z.to_nat cap) junkD (default [] (padfM c)))
        else padfM c)
       (isLinearRing c),
     EvRealloc PlaneXY (is_null (paoPoints c)) (sizeof_OGRRawPoint * cap) true
     :: (if has3D c
         then [EvRealloc PlaneZ (is_null (padfZ c)) (sizeof_double * cap) true] else [])
     ++ (if hasM c
         then [EvRealloc PlaneM (is_null (padfM c)) (sizeof_double * cap) true] else [])).
Proof.
  intros (Hxy & Hz & Hm). unfold grow, VSI_REALLOC. rewrite Hxy. cbv zeta.
  change (has3D (set_paoPoints ?p c)) with (has3D c).
  destruct (has3D c) eqn:H3.
  - specialize (Hz eq_refl). rewrite Hz.
    change (hasM (set_padfZ ?z (set_paoPoints ?p c))) with (hasM c).
    destruct (hasM c) eqn:HM.
    + reflexivity.
    + reflexivity.
  - change (hasM (set_paoPoints ?p c)) with (hasM c).
    destruct (hasM c) eqn:HM.
    + specialize (Hm eq_refl). rewrite Hm. reflexivity.
    + reflexivity.
Qed.

Lemma zero_fill_capacity {A} (z : A) (from cnt : nat) (p : option (list A)) (cap : Z) :
  plane_capacity p = Some cap -> (Z.of_nat (from + cnt) <= cap)%Z ->
  plane_capacity (zero_fill z from cnt p) = Some cap.
Proof.
  destruct p as [l|]; simpl; [|discriminate].
  intros [= <-] Hle. f_equal.
  rewrite !length_app, length_take, length_replicate, length_drop. lia.
Qed.

Lemma zeroize_fields (c : OGRSimpleCurve) (n : Z) :
  let c' := zeroize c n in
  flags c' = flags c /\ nPointCount c' = nPointCount c
  /\ m_nPointCapacity c' = m_nPointCapacity c.
Proof.
  unfold zeroize.
  change (has3D (set_paoPoints ?p c)) with (has3D c).
  destruct (has3D c && _); simpl;
    match goal with |- context [if ?b then _ else _] => destruct b end; simpl; auto.
Qed.

Lemma zeroize_capacity (c : OGRSimpleCurve) (n cap : Z) :
  (0 <= nPointCount c <= n)%Z -> (n <= cap)%Z ->
  let c' := zeroize c n in
  (plane_capacity (paoPoints c) = Some cap -> plane_capacity (paoPoints c') = Some cap)
  /\ (plane_capacity (padfZ c) = Some cap -> plane_capacity (padfZ c') = Some cap)
  /\ (plane_capacity (padfM c) = Some cap -> plane_capacity (padfM c') = Some cap).
Proof.
  intros Hc Hn. unfold zeroize.
  assert (Hlen : (Z.of_nat (Z.to_nat (nPointCount c) + Z.to_nat (n - nPointCount c)) <= cap)%Z)
    by lia.
  change (has3D (set_paoPoints ?p c)) with (has3D c).
  destruct (has3D c && _); simpl;
    match goal with |- context [if ?b then _ else _] => destruct b end; simpl;
    repeat split; intros H; try assumption; apply zero_fill_capacity; assumption.
Qed.

(** The outcome of a call that has to grow and is granted its memory. *)
Lemma setNumPoints_grows (c : OGRSimpleCurve) (n : Z) (bZero : bool) :
  count_within_capacity c ->
  (m_nPointCapacity c < n <= setNumPoints_limit)%Z ->
  grants alloc_ok c (nNewCapacity c n) ->
  exists c' log,
    setNumPoints alloc_ok junkP junkD c n bZero = (true, c', log)
    /\ nPointCount c' = n
    /\ m_nPointCapacity c' = nNewCapacity c n
    /\ flags c' = flags c
    /\ plane_capacity (paoPoints c') = Some (nNewCapacity c n)
    /\ (has3D c = true -> plane_capacity (padfZ c') = Some (nNewCapacity c n))
    /\ (hasM c = true -> plane_capacity (padfM c') = Some (nNewCapacity c n))
    /\ log = snd (free_if_empty c)
             ++ EvRealloc PlaneXY (is_null (paoPoints (fst (free_if_empty c))))
                          (sizeof_OGRRawPoint * nNewCapacity c n) true
             :: (if has3D c
                 then [EvRealloc PlaneZ (is_null (padfZ (fst (free_if_empty c))))
                                 (sizeof_double * nNewCapacity c n) true] else [])
             ++ (if hasM c
                 then [EvRealloc PlaneM (is_null (padfM (fst (free_if_empty c))))
                                 (sizeof_double * nNewCapacity c n) true] else []).
Proof.
  intros Hwf Hn Hg. unfold count_within_capacity in Hwf.
  set (cap := nNewCapacity c n) in *.
  assert (Hcap : (n <= cap)%Z).
  { unfold cap, nNewCapacity.
    destruct ((nPointCount c =? 0)%Z || _); [lia|].
    assert (0 <= n ÷ 3)%Z by (apply Z.quot_pos; lia). lia. }
  unfold setNumPoints.
  replace (n >? m_nPointCapacity c)%Z with true by (symmetry; apply Z.gtb_lt; lia).
  replace (n >? setNumPoints_limit)%Z with false
    by (symmetry; rewrite Z.gtb_ltb; apply Z.ltb_ge; lia).
  fold cap.
  destruct (free_if_empty c) as [c1 ev1] eqn:Hfree.
  assert (Hc1 : flags c1 = flags c /\ nPointCount c1 = nPointCount c
                /\ has3D c1 = has3D c /\ hasM c1 = hasM c).
  { unfold free_if_empty in Hfree.
    destruct ((nPointCount c =? 0)%Z && _); injection Hfree as <- <-; auto. }
  destruct Hc1 as (Hf1 & Hn1 & H31 & HM1).
  assert (Hg1 : grants alloc_ok c1 cap).
  { unfold grants in *. rewrite H31, HM1. exact Hg. }
  rewrite (grow_granted c1 cap Hg1). rewrite H31, HM1, Hn1. simpl.
  set (cg := mkCurve (flags c1) (nPointCount c) cap _ _ _ (isLinearRing c1)).
  assert (Hcg : plane_capacity (paoPoints cg) = Some cap
                /\ (has3D c = true -> plane_capacity (padfZ cg) = Some cap)
                /\ (hasM c = true -> plane_capacity (padfM cg) = Some cap)).
  { unfold cg; simpl. split; [|split].
    - f_equal. rewrite length_resize. lia.
    - intros ->. simpl. f_equal. rewrite length_resize. lia.
    - intros ->. simpl. f_equal. rewrite length_resize. lia. }
  destruct Hcg as (Hxy & Hz & Hm).
  destruct ((n >? nPointCount c)%Z && bZero) eqn:Hzero.
  - pose proof (zeroize_fields cg n) as (Hzf & Hzn & Hzc).
    pose proof (zeroize_capacity cg n cap) as (Hzxy & Hzz & Hzm);
      [unfold cg; simpl; lia|lia|].
    eexists _, _. split; [reflexivity|]. simpl.
    split; [reflexivity|]. split; [rewrite Hzc; reflexivity|].
    split; [rewrite Hzf; exact Hf1|].
    split; [apply Hzxy, Hxy|]. split; [intros H; apply Hzz, Hz, H|].
    split; [intros H; apply Hzm, Hm, H|]. reflexivity.
  - eexists _, _. split; [reflexivity|]. simpl.
    split; [reflexivity|]. split; [reflexivity|]. split; [exact Hf1|].
    split; [exact Hxy|]. split; [exact Hz|]. split; [exact Hm|]. reflexivity.
Qed.

End Growth.

(** C3, as the code has it.  A call [setNumPoints(n)] that has to grow the
    buffer ([n] above the capacity), stays within the limit of
    [INT_MAX / sizeof(OGRRawPoint)] points and is granted its memory
    succeeds with the count [n]; the new capacity is exactly [n] when the
    curve has no point (the first allocation is such a call) or when
    [n + n/3] would pass the limit, and [n + n/3] otherwise; the XY array
    and the Z and M arrays that the flags call for all have that capacity;
    and when the curve has no point but has arrays, the three arrays are
    released first and every allocation that follows starts from a null
    pointer. *)
Theorem setNumPoints_growth_policy
  (alloc_ok : Z -> bool) (junkP : Curve.OGRRawPoint) (junkD : float)
  (c : Curve.OGRSimpleCurve) (n : Z) (bZeroizeNewContent : bool) :
  count_within_capacity c ->
  (Curve.m_nPointCapacity c < n <= 134217727)%Z ->
  grants alloc_ok c (Curve.nNewCapacity c n) ->
  exists c' log,
    Curve.setNumPoints alloc_ok junkP junkD c n bZeroizeNewContent = (true, c', log)
    /\ Curve.nPointCount c' = n
    /\ Curve.m_nPointCapacity c'
       = (if (Curve.nPointCount c =? 0)%Z || (n >? 134217727 - n ÷ 3)%Z
          then n else n + n ÷ 3)%Z
    /\ plane_capacity (Curve.paoPoints c') = Some (Curve.m_nPointCapacity c')
    /\ (Curve.has3D c' = true ->
        plane_capacity (Curve.padfZ c') = Some (Curve.m_nPointCapacity c'))
    /\ (Curve.hasM c' = true ->
        plane_capacity (Curve.padfM c') = Some (Curve.m_nPointCapacity c'))
    /\ (Curve.nPointCount c = 0%Z -> Curve.paoPoints c <> None ->
        log = [Curve.EvFree Curve.PlaneXY true;
               Curve.EvFree Curve.PlaneZ (negb (Curve.is_null (Curve.padfZ c)));
               Curve.EvFree Curve.PlaneM (negb (Curve.is_null (Curve.padfM c)))]
              ++ Curve.EvRealloc Curve.PlaneXY true (16 * n) true
              :: (if Curve.has3D c
                  then [Curve.EvRealloc Curve.PlaneZ true (8 * n) true] else [])
              ++ (if Curve.hasM c
                  then [Curve.EvRealloc Curve.PlaneM true (8 * n) true] else [])).
Proof.
  intros Hwf Hn Hg.
  destruct (setNumPoints_grows alloc_ok junkP junkD c n bZeroizeNewContent Hwf Hn Hg)
    as (c' & log & Heq & Hcount & Hcap & Hflags & Hxy & Hz & Hm & Hlog).
  exists c', log.
  split; [exact Heq|]. split; [exact Hcount|].
  split; [rewrite Hcap; reflexivity|].
  rewrite Hcap.
  split; [exact Hxy|].
  split; [unfold Curve.has3D in *; rewrite Hflags; exact Hz|].
  split; [unfold Curve.hasM in *; rewrite Hflags; exact Hm|].
  intros H0 Hnn. rewrite Hlog.
  unfold Curve.free_if_empty, Curve.nNewCapacity. rewrite H0. simpl.
  destruct (Curve.paoPoints c) as [pts|]; [|congruence]. reflexivity.
Qed.

Lemma setNumPoints_growth_policy_witness :
  let ok := fun _ : Z => true in
  (exists c' log,
      Curve.setNumPoints ok Curve.zeroPoint 0%float one_point_curve 6 true = (true, c', log)
      /\ Curve.m_nPointCapacity c' = 8%Z
      /\ plane_capacity (Curve.paoPoints c') = Some 8%Z)
  /\ (exists c' log,
      Curve.setNumPoints ok Curve.zeroPoint 0%float emptied_curve 6 true = (true, c', log)
      /\ Curve.m_nPointCapacity c' = 6%Z
      /\ plane_capacity (Curve.padfZ c') = Some 6%Z
      /\ log = [Curve.EvFree Curve.PlaneXY true; Curve.EvFree Curve.PlaneZ true;
                Curve.EvFree Curve.PlaneM false;
                Curve.EvRealloc Curve.PlaneXY true 96 true;
                Curve.EvRealloc Curve.PlaneZ true 48 true]).
Proof.
  intros ok. split.
  - destruct (setNumPoints_growth_policy ok Curve.zeroPoint 0%float one_point_curve 6 true)
      as (c' & log & Heq & _ & Hcap & Hxy & _).
    + vm_compute. split; discriminate.
    + vm_compute. split; [reflexivity|discriminate].
    + vm_compute. repeat split; discriminate.
    + exists c', log. split; [exact Heq|]. split; [exact Hcap|]. rewrite Hxy, Hcap. reflexivity.
  - destruct (setNumPoints_growth_policy ok Curve.zeroPoint 0%float emptied_curve 6 true)
      as (c' & log & Heq & _ & Hcap & _ & Hz & _ & Hlog).
    + vm_compute. split; discriminate.
    + vm_compute. split; [reflexivity|discriminate].
    + vm_compute. repeat split; reflexivity.
    + exists c', log. split; [exact Heq|]. split; [exact Hcap|].
      split.
      * rewrite Hz, Hcap; [reflexivity|].
        pose proof Heq as Heq'. vm_compute in Heq'. injection Heq' as E _.
        rewrite <- E. reflexivity.
      * apply Hlog; [reflexivity|discriminate].
Defined.

(** C3 as stated fails at the overflow guard: a curve that holds one
    point grows to 100663296 points with a capacity of exactly 100663296,
    not 100663296 + 100663296/3 = 134217728, which is above the limit of
    134217727 points. *)
Lemma setNumPoints_guard_counterexample :
  let ok := fun _ : Z => true in
  let n := 100663296%Z in
  (Curve.m_nPointCapacity one_point_curve < n)%Z
  /\ (exists c' log,
         Curve.setNumPoints ok Curve.zeroPoint 0%float one_point_curve n false
         = (true, c', log)
         /\ Curve.m_nPointCapacity c' = n
         /\ Curve.m_nPointCapacity c' <> (n + n ÷ 3)%Z).
Proof.
  intros ok n. split; [vm_compute; reflexivity|].
  destruct (setNumPoints_grows ok Curve.zeroPoint 0%float one_point_curve n false)
    as (c' & log & Heq & _ & Hcap & _).
  - vm_compute. split; discriminate.
  - vm_compute. split; [reflexivity|discriminate].
  - vm_compute. repeat split; reflexivity.
  - exists c', log. split; [exact Heq|]. rewrite Hcap. vm_compute. split; [reflexivity|discriminate].
Qed.

(** ** The coordinate transformation *)

Lemma successes_S (pabSuccess : list Z) (i : nat) :
  successes pabSuccess (S i)
  = successes pabSuccess i ++ (if decide (nth i pabSuccess 0%Z <> 0%Z) then [i] else []).
Proof.
  unfold successes. rewrite seq_S, list.filter_app. reflexivity.
Qed.

Lemma successes_length (pabSuccess : list Z) (i : nat) : (length (successes pabSuccess i) <= i)%nat.
Proof.
  unfold successes. etransitivity; [apply length_filter|]. rewrite length_seq. lia.
Qed.

Lemma successes_bound (pabSuccess : list Z) (i a t : nat) :
  successes pabSuccess i !! a = Some t -> (t < i)%nat.
Proof.
  unfold successes. intros H. apply list_elem_of_lookup_2 in H.
  apply list_elem_of_filter in H as [_ H]. apply elem_of_seq in H. lia.
Qed.

Lemma rd_lookup (l : list float) (i : nat) :
  (i < length l)%nat -> l !! i = Some (Curve.rd l i).
Proof.
  intros H. unfold Curve.rd. destruct (nth_lookup_or_length l i 0%float); [assumption|lia].
Qed.

Section Compaction.
Import Curve.

Variable OGR_ENABLE_PARTIAL_REPROJECTION : option string.
Variable CPLTestBool : string -> bool.
Variable n : nat.
Variable pabSuccess : list Z.
(** the scratch array as the transformation leaves it *)
Variable orig : list float.
Hypothesis orig_length : length orig = (3 * n)%nat.

#[local] Abbreviation enabled :=
  (partial_reprojection_enabled OGR_ENABLE_PARTIAL_REPROJECTION CPLTestBool).
#[local] Abbreviation compact :=
  (compact OGR_ENABLE_PARTIAL_REPROJECTION CPLTestBool n pabSuccess).
#[local] Abbreviation plane_offset := (plane_offset n).

(** The three stores of one turn of the loop. *)
Lemma stores_lookup (xyz : list float) (i j : nat) :
  length xyz = (3 * n)%nat -> (j <= i < n)%nat ->
  let xyz1 := <[j := rd xyz i]> xyz in
  let xyz2 := <[(j + n)%nat := rd xyz1 (i + n)]> xyz1 in
  let xyz3 := <[(j + 2 * n)%nat := rd xyz2 (i + 2 * n)]> xyz2 in
  length xyz3 = (3 * n)%nat
  /\ forall o a, plane_offset o -> (a < n)%nat ->
       xyz3 !! (o + a)%nat = if decide (a = j) then xyz !! (o + i)%nat else xyz !! (o + a)%nat.
Proof.
  intros Hlen Hij xyz1 xyz2 xyz3.
  assert (L1 : length xyz1 = (3 * n)%nat) by (unfold xyz1; rewrite length_insert; exact Hlen).
  assert (L2 : length xyz2 = (3 * n)%nat) by (unfold xyz2; rewrite length_insert; exact L1).
  assert (L3 : length xyz3 = (3 * n)%nat) by (unfold xyz3; rewrite length_insert; exact L2).
  assert (R1 : rd xyz1 (i + n) = rd xyz (i + n)).
  { unfold rd, xyz1. rewrite !nth_lookup, list_lookup_insert_ne by lia. reflexivity. }
  assert (R2 : rd xyz2 (i + 2 * n) = rd xyz (i + 2 * n)).
  { unfold rd, xyz2, xyz1. rewrite !nth_lookup, !list_lookup_insert_ne by lia. reflexivity. }
  split; [exact L3|].
  intros o a Ho Ha. unfold xyz3. rewrite R2. unfold xyz2. rewrite R1. unfold xyz1.
  destruct (decide (a = j)) as [->|Hne].
  - destruct Ho as [-> | [-> | ->] ].
    + rewrite !list_lookup_insert_ne by lia.
      rewrite list_lookup_insert_eq by lia. symmetry. apply rd_lookup. lia.
    + rewrite list_lookup_insert_ne by lia.
      replace (n + j)%nat with (j + n)%nat by lia.
      rewrite list_lookup_insert_eq by (rewrite length_insert; lia).
      symmetry. replace (n + i)%nat with (i + n)%nat by lia. apply rd_lookup. lia.
    + replace (2 * n + j)%nat with (j + 2 * n)%nat by lia.
      rewrite list_lookup_insert_eq by (rewrite !length_insert; lia).
      symmetry. replace (2 * n + i)%nat with (i + 2 * n)%nat by lia. apply rd_lookup. lia.
  - destruct Ho as [-> | [-> | ->] ]; rewrite !list_lookup_insert_ne by lia; reflexivity.
Qed.

Lemma compact_S (k i j : nat) (xyz : list float) :
  compact (S k) i xyz j
  = if negb (nth i pabSuccess 0%Z =? 0)%Z then
      let xyz := <[j := rd xyz i]> xyz in
      let xyz := <[(j + n)%nat := rd xyz (i + n)]> xyz in
      let xyz := <[(j + 2 * n)%nat := rd xyz (i + 2 * n)]> xyz in
      compact k (S i) xyz (S j)
    else
      match OGR_ENABLE_PARTIAL_REPROJECTION with
      | None => None
      | Some pszEnablePartialReprojection =>
          if negb (CPLTestBool pszEnablePartialReprojection) then None
          else compact k (S i) xyz j
      end.
Proof. reflexivity. Qed.

(** The loop, from a state that holds the points kept so far. *)
Lemma compact_keeps (k i : nat) (xyz : list float) :
  (i + k = n)%nat ->
  length xyz = (3 * n)%nat ->
  (forall o a t, plane_offset o -> successes pabSuccess i !! a = Some t ->
                 xyz !! (o + a)%nat = orig !! (o + t)%nat) ->
  (forall o t, plane_offset o -> (i <= t < n)%nat -> xyz !! (o + t)%nat = orig !! (o + t)%nat) ->
  (enabled = true \/ forall t, (i <= t < n)%nat -> nth t pabSuccess 0%Z <> 0%Z) ->
  exists xyz',
    compact k i xyz (length (successes pabSuccess i))
    = Some (xyz', length (successes pabSuccess n))
    /\ length xyz' = (3 * n)%nat
    /\ forall o a t, plane_offset o -> successes pabSuccess n !! a = Some t ->
                     xyz' !! (o + a)%nat = orig !! (o + t)%nat.
Proof.
  revert i xyz. induction k as [|k IH]; intros i xyz Hik Hlen Hkept Hrest Hok.
  - replace i with n in * by lia. exists xyz. simpl. auto.
  - rewrite compact_S. pose proof (successes_length pabSuccess i) as Hj.
    destruct (Z.eqb_spec (nth i pabSuccess 0%Z) 0) as [Hz|Hnz]; cbn [negb]; cbv zeta.
    + assert (Hen : enabled = true).
      { destruct Hok as [Hen|Hall]; [exact Hen|]. exfalso. apply (Hall i); [lia|exact Hz]. }
      unfold partial_reprojection_enabled in Hen.
      destruct OGR_ENABLE_PARTIAL_REPROJECTION as [s|]; [|discriminate].
      rewrite Hen. cbn [negb].
      assert (HS : successes pabSuccess (S i) = successes pabSuccess i).
      { rewrite successes_S. destruct (decide _) as [Hd|Hd]; [congruence|].
        apply app_nil_r. }
      rewrite <- HS. apply IH; [lia|exact Hlen| | |].
      * rewrite HS. exact Hkept.
      * intros o t Ho Ht. apply Hrest; [exact Ho|lia].
      * left. unfold partial_reprojection_enabled. exact Hen.
    + assert (HS : successes pabSuccess (S i) = successes pabSuccess i ++ [i]).
      { rewrite successes_S. destruct (decide _) as [Hd|Hd]; [reflexivity|contradiction]. }
      destruct (stores_lookup xyz i (length (successes pabSuccess i)) Hlen) as [L3 Hlook];
        [lia|].
      cbv zeta in L3, Hlook.
      replace (S (length (successes pabSuccess i)))
        with (length (successes pabSuccess (S i)))
        by (rewrite HS, length_app; simpl; lia).
      apply IH; [lia|exact L3| | |].
      * intros o a t Ho Ha. rewrite HS in Ha.
        assert (Han : (a < n)%nat).
        { apply lookup_lt_Some in Ha. rewrite length_app in Ha. simpl in Ha. lia. }
        rewrite (Hlook o a Ho Han).
        destruct (decide (a = length (successes pabSuccess i))) as [->|Hne].
        -- rewrite lookup_app_r in Ha by lia. rewrite Nat.sub_diag in Ha.
           injection Ha as <-. apply Hrest; [exact Ho|lia].
        -- rewrite lookup_app_l in Ha.
           ++ apply Hkept; assumption.
           ++ apply lookup_lt_Some in Ha. rewrite length_app in Ha. simpl in Ha. lia.
      * intros o t Ho Ht. rewrite (Hlook o t Ho) by lia.
        destruct (decide _); [lia|]. apply Hrest; [exact Ho|lia].
      * destruct Hok as [Hen|Hall]; [left; exact Hen|].
        right. intros t Ht. apply Hall. lia.
Qed.

(** The loop gives up at the first failed point unless the override is on. *)
Lemma compact_fails (k i j : nat) (xyz : list float) :
  (i + k = n)%nat ->
  enabled = false ->
  (exists t, (i <= t < n)%nat /\ nth t pabSuccess 0%Z = 0%Z) ->
  compact k i xyz j = None.
Proof.
  revert i j xyz. induction k as [|k IH]; intros i j xyz Hik Hen (t & Ht & Hz); [lia|].
  rewrite compact_S.
  destruct (Z.eqb_spec (nth i pabSuccess 0%Z) 0) as [Hi|Hi]; cbn [negb]; cbv zeta.
  - unfold partial_reprojection_enabled in Hen.
    destruct OGR_ENABLE_PARTIAL_REPROJECTION as [s|]; [|reflexivity].
    rewrite Hen. reflexivity.
  - apply IH; [lia|exact Hen|]. exists t. split; [|exact Hz].
    destruct (Nat.eq_dec t i) as [->|Hne]; [contradiction|lia].
Qed.

End Compaction.

Section TransformFacts.
Import Curve.

Variable alloc_ok : Z -> bool.
Variable junkP : OGRRawPoint.
Variable junkD : float.
Variable Transform : Z -> list float -> list float * list Z.
Variable OGR_ENABLE_PARTIAL_REPROJECTION : option string.
Variable CPLTestBool : string -> bool.

#[local] Abbreviation enabled :=
  (partial_reprojection_enabled OGR_ENABLE_PARTIAL_REPROJECTION CPLTestBool).
#[local] Abbreviation transform :=
  (transform alloc_ok junkP junkD Transform OGR_ENABLE_PARTIAL_REPROJECTION CPLTestBool).

(** [setPoints] when the points fit the arrays that the curve has. *)
Lemma setPoints_in_place (c : OGRSimpleCurve) (j : nat) (xs ys zs : list float) :
  owns_points c ->
  (Z.of_nat j <= nPointCount c)%Z ->
  (j <= length xs)%nat -> (j <= length ys)%nat -> (j <= length zs)%nat ->
  exists c',
    setPoints alloc_ok junkP junkD c (Z.of_nat j) xs ys
              (if is_null (padfZ c) then None else Some zs) = (true, c')
    /\ nPointCount c' = Z.of_nat j
    /\ take j (default [] (paoPoints c')) = zip_with mkRawPoint (take j xs) (take j ys)
    /\ (padfZ c <> None -> take j (default [] (padfZ c')) = take j zs).
Proof.
  intros (Hwf & (pts & Hpts & Hlen) & Hzlen) Hj Hxs Hys Hzs.
  unfold count_within_capacity in Hwf.
  assert (Hnew : length (zip_with mkRawPoint (take j xs) (take j ys)) = j).
  { rewrite length_zip_with, !length_take. lia. }
  unfold setPoints. destruct (padfZ c) as [zl|] eqn:HZ; simpl.
  - unfold Make3D. rewrite HZ. simpl. unfold setNumPoints. simpl.
    replace (Z.of_nat j >? m_nPointCapacity c)%Z with false
      by (symmetry; rewrite Z.gtb_ltb; apply Z.ltb_ge; lia).
    rewrite andb_false_r. simpl. rewrite Hpts, HZ, Nat2Z.id. simpl.
    specialize (Hzlen zl eq_refl).
    destruct (Z.eqb_spec (Z.of_nat j) 0) as [H0|H0].
    + assert (j = 0)%nat by lia. subst j. eexists. split; [reflexivity|]. simpl.
      rewrite !take_0. auto.
    + eexists. split; [reflexivity|]. simpl. split; [reflexivity|]. split.
      * rewrite take_app_length'; [reflexivity|symmetry; exact Hnew].
      * intros _. rewrite take_app_length'; [reflexivity|]. rewrite length_take. lia.
  - unfold Make2D. simpl. unfold setNumPoints. simpl.
    replace (Z.of_nat j >? m_nPointCapacity c)%Z with false
      by (symmetry; rewrite Z.gtb_ltb; apply Z.ltb_ge; lia).
    rewrite andb_false_r. simpl. rewrite Hpts, Nat2Z.id. simpl.
    eexists. split; [reflexivity|]. simpl. split; [reflexivity|]. split.
    + rewrite take_app_length'; [reflexivity|symmetry; exact Hnew].
    + congruence.
Qed.

(** The points kept, read off the compacted scratch array. *)
Lemma kept_planes (n : nat) (pabSuccess : list Z) (orig xyz' : list float) :
  length orig = (3 * n)%nat -> length xyz' = (3 * n)%nat ->
  (forall o a t, plane_offset n o -> successes pabSuccess n !! a = Some t ->
                 xyz' !! (o + a)%nat = orig !! (o + t)%nat) ->
  let j := length (successes pabSuccess n) in
  zip_with mkRawPoint (take j xyz') (take j (drop n xyz'))
  = map (fun t => mkRawPoint (rd orig t) (rd orig (t + n))) (successes pabSuccess n)
  /\ take j (drop (2 * n) xyz')
     = map (fun t => rd orig (t + 2 * n)) (successes pabSuccess n).
Proof.
  intros Horig Hlen Hkept j.
  pose proof (successes_length pabSuccess n) as Hj. fold j in Hj.
  split; apply list_eq; intros a.
  - rewrite lookup_zip_with, list_lookup_fmap.
    destruct (successes pabSuccess n !! a) as [t|] eqn:Ha; simpl.
    + pose proof (successes_bound _ _ _ _ Ha) as Ht.
      assert (Haj : (a < j)%nat) by (apply lookup_lt_Some in Ha; exact Ha).
      rewrite !lookup_take_lt by exact Haj. rewrite lookup_drop.
      pose proof (Hkept 0%nat a t (or_introl eq_refl) Ha) as H0. simpl in H0. rewrite H0.
      rewrite (Hkept n a t) by (unfold plane_offset; auto). simpl.
      rewrite (rd_lookup orig t) by lia. simpl.
      replace (n + t)%nat with (t + n)%nat by lia.
      rewrite (rd_lookup orig (t + n)) by lia. reflexivity.
    + apply lookup_ge_None in Ha. rewrite !lookup_take_ge by exact Ha. reflexivity.
  - rewrite list_lookup_fmap.
    destruct (successes pabSuccess n !! a) as [t|] eqn:Ha.
    + pose proof (successes_bound _ _ _ _ Ha) as Ht.
      assert (Haj : (a < j)%nat) by (apply lookup_lt_Some in Ha; exact Ha).
      rewrite lookup_take_lt by exact Haj. rewrite lookup_drop.
      rewrite (Hkept (2 * n)%nat a t) by (unfold plane_offset; auto).
      replace (2 * n + t)%nat with (t + 2 * n)%nat by lia.
      rewrite (rd_lookup orig (t + 2 * n)) by lia. reflexivity.
    + apply lookup_ge_None in Ha. rewrite lookup_take_ge by exact Ha. reflexivity.
Qed.

End TransformFacts.


Lemma four_points_owned : owns_points four_points.
Proof.
  unfold owns_points, count_within_capacity. simpl. split; [lia|]. split.
  - eexists. split; [reflexivity|]. simpl. lia.
  - intros zs H. discriminate H.
Qed.


(** ** Reversal and segmentization *)

Section Reversal.
Import Curve.

Lemma swap_length {A} (i j : nat) (l : list A) : length (swap i j l) = length l.
Proof.
  unfold swap. destruct (l !! i), (l !! j); rewrite ?length_insert; reflexivity.
Qed.

Lemma swap_lookup {A} (i j p : nat) (l : list A) :
  (i < length l)%nat -> (j < length l)%nat ->
  swap i j l !! p
  = if decide (p = j) then l !! i else if decide (p = i) then l !! j else l !! p.
Proof.
  intros Hi Hj. unfold swap.
  destruct (lookup_lt_is_Some_2 l i Hi) as [a Ha].
  destruct (lookup_lt_is_Some_2 l j Hj) as [b Hb].
  rewrite Ha, Hb.
  destruct (decide (p = j)) as [->|Hpj].
  - rewrite list_lookup_insert_eq by (rewrite length_insert; exact Hj). reflexivity.
  - rewrite list_lookup_insert_ne by congruence.
    destruct (decide (p = i)) as [->|Hpi].
    + rewrite list_lookup_insert_eq by exact Hi. reflexivity.
    + rewrite list_lookup_insert_ne by congruence. reflexivity.
Qed.

Lemma reverse_loop_S {A} (n h : nat) (l : list A) :
  reverse_loop n (S h) l = swap h (n - h - 1) (reverse_loop n h l).
Proof. unfold reverse_loop. rewrite seq_S, fold_left_app. reflexivity. Qed.

(** After [h] swaps the two ends of the array are exchanged. *)
Lemma reverse_loop_partial {A} (n h : nat) (l : list A) :
  (2 * h <= n)%nat -> (n <= length l)%nat ->
  length (reverse_loop n h l) = length l
  /\ forall p, reverse_loop n h l !! p
               = if decide (p < h \/ n - h <= p < n)%nat then l !! (n - 1 - p)%nat else l !! p.
Proof.
  induction h as [|h IH]; intros Hh Hn.
  - split; [reflexivity|]. intros p. destruct (decide _) as [Hd|Hd]; [lia|reflexivity].
  - destruct IH as [IHlen IHlook]; [lia|exact Hn|].
    rewrite reverse_loop_S. split; [rewrite swap_length; exact IHlen|].
    intros p. rewrite swap_lookup by (rewrite IHlen; lia).
    rewrite !IHlook.
    repeat destruct (decide _); try lia; try reflexivity; f_equal; lia.
Qed.

Lemma reverse_loop_lookup {A} (n : nat) (l : list A) (p : nat) :
  (n <= length l)%nat ->
  reverse_loop n (n / 2) l !! p = if decide (p < n)%nat then l !! (n - 1 - p)%nat else l !! p.
Proof.
  intros Hn.
  assert (H2 : (2 * (n / 2) <= n /\ n <= 2 * (n / 2) + 1)%nat).
  { pose proof (Nat.div_mod_eq n 2). pose proof (Nat.mod_upper_bound n 2). lia. }
  destruct (reverse_loop_partial n (n / 2) l) as [_ Hlook]; [lia|exact Hn|].
  rewrite Hlook.
  repeat destruct (decide _); try lia; try reflexivity. f_equal. lia.
Qed.

Lemma reverse_loop_length {A} (n : nat) (l : list A) :
  (n <= length l)%nat -> length (reverse_loop n (n / 2) l) = length l.
Proof.
  intros Hn.
  assert (H2 : (2 * (n / 2) <= n)%nat) by (pose proof (Nat.div_mod_eq n 2); lia).
  apply reverse_loop_partial; assumption.
Qed.

Lemma reverse_loop_involutive {A} (n : nat) (l : list A) :
  (n <= length l)%nat ->
  reverse_loop n (n / 2) (reverse_loop n (n / 2) l) = l.
Proof.
  intros Hn. apply list_eq. intros p.
  rewrite reverse_loop_lookup by (rewrite reverse_loop_length; assumption).
  destruct (decide (p < n)%nat) as [Hp|Hp].
  - rewrite reverse_loop_lookup by exact Hn.
    destruct (decide _); [f_equal; lia|lia].
  - rewrite reverse_loop_lookup by exact Hn. destruct (decide _); [lia|reflexivity].
Qed.

(** The loop of swaps is the reversal of the first [n] elements. *)
Lemma reverse_loop_reverse {A} (n : nat) (l : list A) :
  (n <= length l)%nat ->
  reverse_loop n (n / 2) l = reverse (take n l) ++ drop n l.
Proof.
  intros Hn. apply list_eq. intros p.
  rewrite reverse_loop_lookup by exact Hn.
  assert (Ht : length (take n l) = n) by (rewrite length_take; lia).
  destruct (decide (p < n)%nat) as [Hp|Hp].
  - rewrite lookup_app_l by (rewrite length_reverse; lia).
    rewrite reverse_lookup by lia. rewrite Ht.
    rewrite lookup_take_lt by lia. f_equal. lia.
  - rewrite lookup_app_r by (rewrite length_reverse; lia).
    rewrite length_reverse, Ht, lookup_drop. f_equal. lia.
Qed.

Lemma half_count (c : OGRSimpleCurve) :
  Z.to_nat (nPointCount c ÷ 2) = (Z.to_nat (nPointCount c) / 2)%nat.
Proof.
  destruct (Z.le_gt_cases 0 (nPointCount c)) as [Hn|Hn].
  - rewrite Z.quot_div_nonneg by lia. rewrite Z2Nat.inj_div by lia. reflexivity.
  - assert (H : (nPointCount c ÷ 2 <= 0)%Z).
    { replace (nPointCount c) with (- - nPointCount c)%Z by lia.
      rewrite Z.quot_opp_l by lia.
      assert (0 <= - nPointCount c ÷ 2)%Z by (apply Z.quot_pos; lia). lia. }
    rewrite (Z2Nat.nonpos _ H), (Z2Nat.nonpos (nPointCount c)) by lia.
    reflexivity.
Qed.

Lemma reversePoints_holds (c : OGRSimpleCurve) :
  holds_points c -> holds_points (reversePoints c).
Proof.
  intros ((pts & Hpts & Hlen) & Hz & Hm).
  unfold holds_points, reversePoints. simpl. rewrite (half_count c).
  split; [|split].
  - rewrite Hpts. simpl. eexists. split; [reflexivity|].
    rewrite reverse_loop_length; assumption.
  - intros zs. destruct (padfZ c) as [zl|]; simpl; intros [= <-].
    specialize (Hz zl eq_refl). rewrite reverse_loop_length; assumption.
  - intros ms. destruct (padfM c) as [ml|]; simpl; intros [= <-].
    specialize (Hm ml eq_refl). rewrite reverse_loop_length; assumption.
Qed.

Lemma reversePoints_involutive (c : OGRSimpleCurve) :
  holds_points c -> reversePoints (reversePoints c) = c.
Proof.
  intros ((pts & Hpts & Hlen) & Hz & Hm).
  unfold reversePoints. simpl. rewrite (half_count c).
  assert (Ep : option_map (reverse_loop (Z.to_nat (nPointCount c)) (Z.to_nat (nPointCount c) / 2))
                 (option_map (reverse_loop (Z.to_nat (nPointCount c))
                                           (Z.to_nat (nPointCount c) / 2)) (paoPoints c))
               = paoPoints c).
  { rewrite Hpts. simpl. rewrite reverse_loop_involutive; [reflexivity|exact Hlen]. }
  assert (Ez : option_map (reverse_loop (Z.to_nat (nPointCount c)) (Z.to_nat (nPointCount c) / 2))
                 (option_map (reverse_loop (Z.to_nat (nPointCount c))
                                           (Z.to_nat (nPointCount c) / 2)) (padfZ c))
               = padfZ c).
  { destruct (padfZ c) as [zl|]; simpl; [|reflexivity].
    rewrite reverse_loop_involutive; [reflexivity|apply Hz; reflexivity]. }
  assert (Em : option_map (reverse_loop (Z.to_nat (nPointCount c)) (Z.to_nat (nPointCount c) / 2))
                 (option_map (reverse_loop (Z.to_nat (nPointCount c))
                                           (Z.to_nat (nPointCount c) / 2)) (padfM c))
               = padfM c).
  { destruct (padfM c) as [ml|]; simpl; [|reflexivity].
    rewrite reverse_loop_involutive; [reflexivity|apply Hm; reflexivity]. }
  rewrite Ep, Ez, Em. destruct c; reflexivity.
Qed.

(** The ends of the reversed curve. *)
Lemma reversePoints_ends (c : OGRSimpleCurve) :
  holds_points c -> (1 <= nPointCount c)%Z ->
  let n := Z.to_nat (nPointCount c) in
  pt (reversePoints c) 0 = pt c (n - 1) /\ pt (reversePoints c) (n - 1) = pt c 0.
Proof.
  intros ((pts & Hpts & Hlen) & _) H1 n.
  unfold pt, reversePoints. simpl. rewrite (half_count c), Hpts. simpl. fold n.
  rewrite !nth_lookup, !reverse_loop_lookup by exact Hlen.
  assert (0 < n)%nat by (unfold n; lia).
  destruct (decide (0 < n)%nat); [|lia].
  destruct (decide (n - 1 < n)%nat); [|lia].
  replace (n - 1 - 0)%nat with (n - 1)%nat by lia.
  replace (n - 1 - (n - 1))%nat with 0%nat by lia.
  split; reflexivity.
Qed.

End Reversal.

Section SegmentizeFacts.
Import Curve.

Variable alloc_ok : Z -> bool.
Variable junkP : OGRRawPoint.
Variable junkD : float.

Lemma first_before_last_reversed (c : OGRSimpleCurve) :
  holds_points c -> (1 <= nPointCount c)%Z ->
  first_before_last c = true -> first_before_last (reversePoints c) = false.
Proof.
  intros Hh H1 Hfb.
  destruct (reversePoints_ends c Hh H1) as [E0 En].
  unfold first_before_last in *.
  change (nPointCount (reversePoints c)) with (nPointCount c).
  rewrite E0, En.
  apply orb_true_iff in Hfb as [Hx|Hxy].
  - rewrite (flt_asym _ _ Hx).
    rewrite (feq_sym _ _), (flt_not_feq _ _ Hx). reflexivity.
  - apply andb_true_iff in Hxy as [Hx Hy].
    rewrite (flt_asym _ _ Hy), andb_false_r, orb_false_r.
    destruct (flt (x (pt c (Z.to_nat (nPointCount c) - 1))) (x (pt c 0))) eqn:Hlt;
      [|reflexivity].
    apply flt_not_feq in Hlt. rewrite feq_sym in Hlt. congruence.
Qed.

Lemma store_length {A} (idx : Z) (v : A) (l : list A) : length (store idx v l) = length l.
Proof. unfold store. destruct (idx <? 0)%Z; [reflexivity|apply length_insert]. Qed.

Lemma store_opt_length {A} (idx : Z) (v : A) (p : option (list A)) :
  option_map (length (A:=A)) (store_opt idx v p) = option_map (length (A:=A)) p.
Proof. destruct p; simpl; [rewrite store_length|]; reflexivity. Qed.

Lemma fill_intermediate_length (c : OGRSimpleCurve) (i : nat) (m cnt : Z) (arr : NewArrays) :
  arrays_length (fill_intermediate c i m cnt arr) = arrays_length arr.
Proof.
  unfold fill_intermediate. generalize (seq 1 (Z.to_nat m)). intros l. revert arr.
  induction l as [|j l IH]; intros arr; [reflexivity|].
  simpl. rewrite IH. destruct arr as [[pts zs] ms]. simpl.
  rewrite store_length, !store_opt_length. reflexivity.
Qed.

(** The two passes agree on the number of points, and the second pass
    stays within the arrays it was given. *)
Lemma fill_pass_sync (c : OGRSimpleCurve) (L2 : float) (k i : nat) (cnt N : Z)
  (arr : NewArrays) :
  count_pass c L2 k i cnt = Some N ->
  exists arr', fill_pass c L2 k i cnt arr = (N, arr')
               /\ arrays_length arr' = arrays_length arr.
Proof.
  revert i cnt arr. induction k as [|k IH]; intros i cnt arr Hc; simpl in *.
  - injection Hc as <-. exists arr. auto.
  - destruct arr as [[pts zs] ms].
    set (arr1 := (store cnt (pt c i) pts, store_opt cnt (zAt c i) zs,
                  store_opt cnt (mAt c i) ms)).
    assert (Hlen1 : arrays_length arr1 = arrays_length (pts, zs, ms)).
    { unfold arr1. simpl. rewrite store_length, !store_opt_length. reflexivity. }
    destruct (Z.of_nat i =? nPointCount c - 1)%Z.
    + injection Hc as <-. exists arr1. auto.
    + destruct (nIntermediatePoints c L2 i) as [m|].
      * destruct ((cnt + 1 >? kMax)%Z || (m >? kMax)%Z); [discriminate|].
        destruct (IH _ _ (fill_intermediate c i m (cnt + 1) arr1) Hc) as (arr' & E & Hl).
        exists arr'. split; [exact E|]. rewrite Hl, fill_intermediate_length. exact Hlen1.
      * destruct (IH _ _ arr1 Hc) as (arr' & E & Hl).
        exists arr'. split; [exact E|]. rewrite Hl. exact Hlen1.
Qed.

Lemma segmentize_passes_holds (c : OGRSimpleCurve) (L : float) :
  holds_points c ->
  holds_points (snd (segmentize_passes alloc_ok junkP junkD c L)).
Proof.
  intros Hh. unfold segmentize_passes.
  destruct (count_pass c _ _ 0 0) as [N|] eqn:Hc; [|exact Hh].
  destruct (nPointCount c =? N)%Z; [exact Hh|].
  unfold VSI_MALLOC.
  destruct (alloc_ok (sizeof_OGRRawPoint * N)); [|exact Hh].
  destruct (padfZ c) as [zl|] eqn:HZ; simpl.
  - destruct (alloc_ok (sizeof_double * N)); simpl; [|exact Hh].
    destruct (padfM c) as [ml|] eqn:HM; simpl.
    + destruct (fill_pass_sync c _ _ _ _ _
                  (replicate (Z.to_nat N) junkP, Some (replicate (Z.to_nat N) junkD),
                   Some (replicate (Z.to_nat N) junkD)) Hc) as ([[pts zs] ms] & E & Hl).
      rewrite E. simpl in *. injection Hl as Hp Hz Hm.
      repeat match goal with
             | H : context [length (replicate _ _)] |- _ => rewrite length_replicate in H
             end.
      destruct zs as [zs|]; [|discriminate]. destruct ms as [ms|]; [|discriminate].
      simpl in *. injection Hz as Hz. injection Hm as Hm.
      unfold holds_points. simpl. split; [eexists; split; [reflexivity|lia]|].
      split; intros ? [= <-]; lia.
    + destruct (fill_pass_sync c _ _ _ _ _
                  (replicate (Z.to_nat N) junkP, Some (replicate (Z.to_nat N) junkD),
                   None) Hc) as ([[pts zs] ms] & E & Hl).
      rewrite E. simpl in *. injection Hl as Hp Hz Hm.
      repeat match goal with
             | H : context [length (replicate _ _)] |- _ => rewrite length_replicate in H
             end.
      destruct zs as [zs|]; [|discriminate]. destruct ms as [ms|]; [discriminate|].
      simpl in *. injection Hz as Hz.
      unfold holds_points. simpl. split; [eexists; split; [reflexivity|lia]|].
      split; [intros ? [= <-]; lia|discriminate].
  - destruct (padfM c) as [ml|] eqn:HM; simpl.
    + destruct (alloc_ok (sizeof_double * N)); simpl; [|exact Hh].
      destruct (fill_pass_sync c _ _ _ _ _
                  (replicate (Z.to_nat N) junkP, None,
                   Some (replicate (Z.to_nat N) junkD)) Hc) as ([[pts zs] ms] & E & Hl).
      rewrite E. simpl in *. injection Hl as Hp Hz Hm.
      repeat match goal with
             | H : context [length (replicate _ _)] |- _ => rewrite length_replicate in H
             end.
      destruct zs as [zs|]; [discriminate|]. destruct ms as [ms|]; [|discriminate].
      simpl in *. injection Hm as Hm.
      unfold holds_points. simpl. split; [eexists; split; [reflexivity|lia]|].
      split; [discriminate|intros ? [= <-]; lia].
    + destruct (fill_pass_sync c _ _ _ _ _
                  (replicate (Z.to_nat N) junkP, None, None) Hc) as ([[pts zs] ms] & E & Hl).
      rewrite E. simpl in *. injection Hl as Hp Hz Hm.
      repeat match goal with
             | H : context [length (replicate _ _)] |- _ => rewrite length_replicate in H
             end.
      destruct zs as [zs|]; [discriminate|]. destruct ms as [ms|]; [discriminate|].
      unfold holds_points. simpl. split; [eexists; split; [reflexivity|lia]|].
      split; discriminate.
Qed.

End SegmentizeFacts.


Lemma sloped_3D_line_holds : holds_points sloped_3D_line.
Proof.
  unfold holds_points. simpl. split; [|split].
  - eexists. split; [reflexivity|]. simpl. lia.
  - intros zs [= <-]. simpl. lia.
  - intros ms H. discriminate H.
Qed.



(** ** The property stream *)

Section DecodeFacts.
Import FlatGeobuf.

Context {DateValue : Type}.
Variable ParseDateTime : list byte -> option DateValue.
Variable OGRParseDate : list byte -> option DateValue.
Variable alloc_ok : Z -> bool.
Variable cols : list ColumnType.
Variable IsIgnored : nat -> bool.
Variable data : list byte.

#[local] Abbreviation parse_tuple :=
  (parse_tuple DateValue ParseDateTime OGRParseDate alloc_ok (Some cols) IsIgnored data).
#[local] Abbreviation parse_loop :=
  (parse_loop DateValue ParseDateTime OGRParseDate alloc_ok (Some cols) IsIgnored data).
#[local] Abbreviation run := (run ParseDateTime OGRParseDate alloc_ok (Some cols) IsIgnored data).
#[local] Abbreviation size := (size data).
#[local] Abbreviation Unset := (Field_Unset DateValue).
#[local] Abbreviation IsUnset := (OGR_RawField_IsUnset DateValue).

Lemma read_le_nonneg (offset : Z) (width : nat) : 0 <= read_le data offset width.
Proof.
  unfold read_le. induction (seq 0 width) as [|k l IH]; simpl; [lia|].
  unfold byteAt at 1. lia.
Qed.

Lemma uint32_wrap_small (v : Z) : 0 <= v < 2 ^ 32 -> uint32_wrap v = v.
Proof. intros H. unfold uint32_wrap. apply Z.mod_small. exact H. Qed.

Lemma insert_nth_ne (i j : nat) (v : OGRField DateValue) (fields : list (OGRField DateValue)) :
  i <> j -> nth j (<[i := v]> fields) Unset = nth j fields Unset.
Proof. intros H. rewrite !nth_lookup, list_lookup_insert_ne by exact H. reflexivity. Qed.

Lemma insert_nth_eq (i : nat) (v : OGRField DateValue) (fields : list (OGRField DateValue)) :
  (i < length fields)%nat -> nth i (<[i := v]> fields) Unset = v.
Proof. intros H. rewrite nth_lookup, list_lookup_insert_eq by exact H. reflexivity. Qed.

(** What a tuple that decodes leaves behind: the cursor has moved on and
    stays within the stream; no field other than its own has changed, and
    its own was unset before. *)
Lemma parse_tuple_ok (offset : Z) (fields : list (OGRField DateValue))
  (st' : DecodeState DateValue) :
  size < 2 ^ 32 -> 0 <= offset ->
  parse_tuple (offset, fields) = inr st' ->
  let i := Z.to_nat (tag data offset) in
  offset + 3 <= fst st' <= size
  /\ length (snd st') = length fields
  /\ (tag data offset < Z.of_nat (length cols))
  /\ IsUnset (nth i fields Unset) = true
  /\ (forall j, j <> i -> nth j (snd st') Unset = nth j fields Unset)
  /\ (keeps_value ParseDateTime OGRParseDate (Some cols) IsIgnored data offset = true ->
      (i < length fields)%nat -> IsUnset (nth i (snd st') Unset) = false).
Proof.
  intros Hsize Hoff Hp i. unfold FlatGeobuf.parse_tuple in Hp.
  fold size in Hp. fold (tag data offset) in Hp.
  destruct (Z.gtb_spec (offset + 2) size) as [|H2]; [discriminate|].
  destruct (Z.geb_spec (tag data offset) (Z.of_nat (length cols))) as [|Hi]; [discriminate|].
  fold i in Hp.
  destruct (IsUnset (nth i fields Unset)) eqn:Hunset; [|discriminate]. simpl in Hp.
  pose proof (read_le_nonneg (offset + 2) 4) as Hlen0.
  assert (Hwrap : offset + 2 + 4 <= size ->
                  uint32_wrap (size - (offset + 2 + 4)) = size - (offset + 2 + 4)).
  { intros H. apply uint32_wrap_small. lia. }
  unfold keeps_value. fold i. simpl (default [] (Some cols)).
  destruct (nth i cols ColumnType_Byte) eqn:Htype;
    repeat match type of Hp with
      | context [if ?b then _ else _] =>
          let E := fresh "E" in destruct b eqn:E; try discriminate Hp
      end;
    try (injection Hp as <-); simpl;
    repeat match goal with
      | E : (_ >? _) = false |- _ => rewrite Z.gtb_ltb in E; apply Z.ltb_ge in E
      | E : (_ || _) = false |- _ => apply orb_false_iff in E as [? ?]
      | E : negb _ = false |- _ => apply negb_false_iff in E
      end;
    try rewrite Hwrap in * by lia;
    (split; [lia|]);
    (split; [rewrite ?length_insert; reflexivity|]);
    (split; [exact Hi|]);
    (split; [reflexivity|]);
    (split; [intros j Hj; try reflexivity; apply insert_nth_ne; congruence|]);
    intros Hk Hlt; try discriminate Hk;
    try (rewrite insert_nth_eq by exact Hlt; reflexivity).
  (* the date: a value is kept when a parser accepts it *)
  rewrite insert_nth_eq by exact Hlt. simpl in Hk.
  replace (offset + 2 + 4) with (offset + 6) by lia.
  destruct (ParseDateTime _); [reflexivity|].
  destruct (OGRParseDate _); [reflexivity|discriminate Hk].
Qed.

Lemma more_tuples_within (offset : Z) (fields : list (OGRField DateValue)) :
  size < 2 ^ 32 -> 0 <= offset -> offset + 2 <= size ->
  more_tuples DateValue data (offset, fields) = true.
Proof.
  intros Hsize Hoff H2. unfold more_tuples. simpl.
  rewrite uint32_wrap_small by (fold size; lia). apply Z.ltb_lt. fold size. lia.
Qed.

Lemma parse_tuple_rejects (offset : Z) (fields : list (OGRField DateValue)) :
  offset + 2 <= size ->
  Z.of_nat (length cols) <= tag data offset
  \/ IsUnset (nth (Z.to_nat (tag data offset)) fields Unset) = false ->
  parse_tuple (offset, fields) = inl OGRERR_CORRUPT_DATA.
Proof.
  intros H2 Hbad. unfold FlatGeobuf.parse_tuple. fold size. fold (tag data offset).
  destruct (Z.gtb_spec (offset + 2) size) as [|_]; [lia|].
  destruct (Z.geb_spec (tag data offset) (Z.of_nat (length cols))) as [|Hi]; [reflexivity|].
  destruct Hbad as [Hr|Hset]; [lia|]. rewrite Hset. reflexivity.
Qed.

Lemma run_S (k : nat) (st : DecodeState DateValue) :
  run (S k) st
  = if more_tuples DateValue data st then
      match parse_tuple st with
      | inl _ => None
      | inr st' => run k st'
      end
    else None.
Proof. reflexivity. Qed.

(** Along a run the cursor moves on, and a field that holds a value
    keeps it. *)
Lemma run_keeps (k : nat) (offset offset' : Z) (fields fields' : list (OGRField DateValue)) :
  size < 2 ^ 32 -> 0 <= offset ->
  run k (offset, fields) = Some (offset', fields') ->
  offset + 3 * Z.of_nat k <= offset'
  /\ (k = 0%nat \/ offset' <= size)
  /\ length fields' = length fields
  /\ (forall j, IsUnset (nth j fields Unset) = false ->
                nth j fields' Unset = nth j fields Unset).
Proof.
  intros Hsize. revert offset fields.
  induction k as [|k IH]; intros offset fields Hoff Hrun.
  - injection Hrun as <- <-. repeat split; auto; lia.
  - rewrite run_S in Hrun.
    destruct (more_tuples DateValue data (offset, fields)); [|discriminate].
    destruct (parse_tuple (offset, fields)) as [e|[o1 f1]] eqn:Hp; [discriminate|].
    destruct (parse_tuple_ok offset fields (o1, f1) Hsize Hoff Hp)
      as (Hadv & Hlen & _ & Hunset & Hother & _).
    simpl in Hadv, Hlen, Hother.
    destruct (IH o1 f1) as (Hadv' & Hin & Hlen' & Hkeep); [lia|exact Hrun|].
    assert (Hle : offset' <= size).
    { destruct Hin as [-> | H]; [|exact H].
      simpl in Hrun. injection Hrun as <- <-. lia. }
    split; [lia|]. split; [right; exact Hle|]. split; [congruence|].
    intros j Hj. rewrite Hkeep.
    + apply Hother. intros ->. congruence.
    + rewrite Hother; [exact Hj|]. intros ->. congruence.
Qed.

Lemma parse_loop_after_run (k fuel : nat) (st st' : DecodeState DateValue) :
  run k st = Some st' -> parse_loop (k + fuel) st = parse_loop fuel st'.
Proof.
  revert st. induction k as [|k IH]; intros st Hrun.
  - injection Hrun as <-. reflexivity.
  - rewrite run_S in Hrun. cbn [Nat.add FlatGeobuf.parse_loop].
    destruct (more_tuples DateValue data st); [|discriminate].
    destruct (parse_tuple st) as [e|st1]; [discriminate|]. apply IH. exact Hrun.
Qed.

(** The decoder stops with a corrupt record at a tuple it reaches whose
    column is out of range or already holds a value. *)
Lemma parseProperties_rejects (k : nat) (fields0 fields : list (OGRField DateValue))
  (offset : Z) :
  size < 2 ^ 32 ->
  run k (0, fields0) = Some (offset, fields) ->
  offset + 2 <= size ->
  Z.of_nat (length cols) <= tag data offset
  \/ IsUnset (nth (Z.to_nat (tag data offset)) fields Unset) = false ->
  parseProperties DateValue ParseDateTime OGRParseDate alloc_ok (Some cols) IsIgnored data
                  fields0
  = Some (OGRERR_CORRUPT_DATA, fields).
Proof.
  intros Hsize Hrun H2 Hbad.
  destruct (run_keeps k 0 offset fields0 fields Hsize (Z.le_refl 0) Hrun)
    as (Hadv & _ & _ & _).
  unfold parseProperties. fold size.
  destruct ((0 <? size) && (size <? 3)) eqn:Hsmall.
  - apply andb_true_iff in Hsmall as [_ H3]. apply Z.ltb_lt in H3.
    assert (k = 0%nat) by lia. subst k. injection Hrun as <- <-. reflexivity.
  - assert (Hk : (k <= length data)%nat) by (unfold FlatGeobuf.size in *; lia).
    replace (S (length data)) with (k + S (length data - k))%nat by lia.
    rewrite (parse_loop_after_run _ _ _ _ Hrun). cbn [FlatGeobuf.parse_loop].
    rewrite more_tuples_within by (try assumption; lia).
    rewrite parse_tuple_rejects by assumption. reflexivity.
Qed.

Lemma run_app (k1 k2 : nat) (st st1 st2 : DecodeState DateValue) :
  run k1 st = Some st1 -> run k2 st1 = Some st2 -> run (k1 + k2) st = Some st2.
Proof.
  revert st. induction k1 as [|k1 IH]; intros st H1 H2.
  - injection H1 as <-. exact H2.
  - rewrite run_S in H1. cbn [Nat.add]. rewrite run_S.
    destruct (more_tuples DateValue data st); [|discriminate].
    destruct (parse_tuple st) as [e|st']; [discriminate|]. apply IH; assumption.
Qed.

End DecodeFacts.

(** The decoder always returns: the fuel it is given is never used up. *)
Lemma parseProperties_total {DateValue : Type}
  (ParseDateTime OGRParseDate : list byte -> option DateValue) (alloc_ok : Z -> bool)
  (columns : option (list FlatGeobuf.ColumnType)) (IsIgnored : nat -> bool)
  (data : list byte) (fields : list (FlatGeobuf.OGRField DateValue)) :
  FlatGeobuf.size data < 2 ^ 32 ->
  exists r, FlatGeobuf.parseProperties DateValue ParseDateTime OGRParseDate alloc_ok
                                       columns IsIgnored data fields = Some r.
Proof.
  intros Hsize. unfold FlatGeobuf.parseProperties.
  destruct ((0 <? _) && _); [eexists; reflexivity|].
  assert (Hloop : forall fuel offset fs,
             0 <= offset <= FlatGeobuf.size data ->
             FlatGeobuf.size data - offset < Z.of_nat fuel ->
             exists r, FlatGeobuf.parse_loop DateValue ParseDateTime OGRParseDate alloc_ok
                                             columns IsIgnored data fuel (offset, fs) = Some r).
  { induction fuel as [|fuel IH]; intros offset fs Hoff Hfuel.
    - unfold FlatGeobuf.size in *. lia.
    - cbn [FlatGeobuf.parse_loop].
      destruct (FlatGeobuf.more_tuples DateValue data (offset, fs)); [|eexists; reflexivity].
      destruct (FlatGeobuf.parse_tuple _ _ _ _ _ _ _ (offset, fs)) as [e|[o1 f1]] eqn:Hp;
        [eexists; reflexivity|].
      destruct columns as [cols|].
      + destruct (parse_tuple_ok ParseDateTime OGRParseDate alloc_ok cols IsIgnored data
                                 offset fs (o1, f1) Hsize (proj1 Hoff) Hp) as (Hadv & _).
        simpl in Hadv. apply IH; lia.
      + unfold FlatGeobuf.parse_tuple in Hp.
        destruct (offset + 2 >? FlatGeobuf.size data); discriminate Hp. }
  apply Hloop; unfold FlatGeobuf.size; lia.
Qed.




(** ** The writer *)

Section WriterFacts.
Import FlatGeobuf.

Variable FieldValues : Type.
Variable serializeFields : FieldValues -> option (list byte).
Variable GeometryType_Unknown : Z.
Variable feature_max_buffer_size : Z.
Variable GeometryWriter_write : OGRGeometry -> Z.
Variable CreateFeatureDirect : Z -> list byte -> list byte.
Variable header_bytes : Header -> Z.
Variable Merge : OGREnvelope -> OGREnvelope -> OGREnvelope.
Variable default_envelope : OGREnvelope.
Variable write_ok : bool.
Variable bad_alloc : bool.

#[local] Abbreviation ICreateFeature :=
  (ICreateFeature FieldValues serializeFields GeometryType_Unknown feature_max_buffer_size
                  GeometryWriter_write CreateFeatureDirect header_bytes Merge default_envelope
                  write_ok bad_alloc).

Lemma writeHeader_fields (which : Handle) (n : Z) (e : option (list float)) (l : Layer) :
  let l' := writeHeader header_bytes which n e l in
  m_create l' = m_create l
  /\ m_bCreateSpatialIndexAtClose l' = m_bCreateSpatialIndexAtClose l
  /\ m_featuresCount l' = m_featuresCount l
  /\ m_indexNodeSize l' = m_indexNodeSize l.
Proof. destruct which; simpl; auto. Qed.

(** A call that fails leaves the count of features as it was, and no call
    touches the node size of the index. *)
Lemma ICreateFeature_counts (l l' : Layer) (f : OGRFeature FieldValues) (err : OGRErr) :
  ICreateFeature l f = (err, l') ->
  m_create l' = m_create l
  /\ m_indexNodeSize l' = m_indexNodeSize l
  /\ (err <> OGRERR_NONE -> m_featuresCount l' = m_featuresCount l).
Proof.
  unfold FlatGeobuf.ICreateFeature.
  repeat match goal with
    | |- context [if ?b then _ else _] => destruct b
    | |- context [match ?o with Some _ => _ | None => _ end] => destruct o
    end;
    intros [= <- <-]; simpl; repeat split; try reflexivity; try congruence.
Qed.

End WriterFacts.






(** ** The buffer of a curve under [setNumPoints] *)

Section Buffer.
Import Curve.

Variable alloc_ok : Z -> bool.
Variable junkP : OGRRawPoint.
Variable junkD : float.

#[local] Abbreviation setNumPoints := (setNumPoints alloc_ok junkP junkD).
#[local] Abbreviation grow := (grow alloc_ok junkP junkD).

Lemma room_default {A} (p : option (list A)) (n : Z) :
  room p n -> is_null p = false -> n <= Z.of_nat (length (default [] p)).
Proof. destruct p as [l|]; [|discriminate]. intros H _. apply (H l eq_refl). Qed.

Lemma room_le {A} (p : option (list A)) (n m : Z) : room p n -> m <= n -> room p m.
Proof. intros H Hle l Hl. specialize (H l Hl). lia. Qed.

Lemma room_null {A} (n : Z) : room (A:=A) None n.
Proof. intros l [=]. Qed.

Lemma take_resize_keep {A} (k m : nat) (junk : A) (l : list A) :
  (k <= length l)%nat -> (k <= m)%nat -> take k (resize m junk l) = take k l.
Proof.
  intros Hk Hm. rewrite resize_spec, take_app_le by (rewrite length_take; lia).
  rewrite take_take. f_equal. lia.
Qed.

Lemma grown_room {A} (junk : A) (cap k : Z) (p p' : option (list A)) :
  grown junk cap p p' -> room p k -> k <= cap -> room p' k.
Proof.
  intros [-> | ->] Hr Hk; [exact Hr|].
  intros l [= <-]. rewrite length_resize. lia.
Qed.

Lemma grown_prefix {A} (junk : A) (cap : Z) (k : nat) (p p' : option (list A)) :
  grown junk cap p p' -> (k <= length (default [] p))%nat -> Z.of_nat k <= cap ->
  take k (default [] p') = take k (default [] p).
Proof.
  intros [-> | ->] Hk Hc; [reflexivity|]. simpl. apply take_resize_keep; lia.
Qed.

Lemma grown_not_null {A} (junk : A) (cap : Z) (p p' : option (list A)) :
  grown junk cap p p' -> is_null p = false -> is_null p' = false.
Proof. intros [-> | ->] H; [exact H|reflexivity]. Qed.

(** The three reallocations, whatever the allocator answers. *)
Lemma grow_spec (c : OGRSimpleCurve) (cap : Z) :
  exists ok c' log,
    grow c cap = (ok, c', log)
    /\ flags c' = flags c /\ nPointCount c' = nPointCount c
    /\ isLinearRing c' = isLinearRing c
    /\ grown junkP cap (paoPoints c) (paoPoints c')
    /\ grown junkD cap (padfZ c) (padfZ c')
    /\ grown junkD cap (padfM c) (padfM c')
    /\ (has3D c = false -> padfZ c' = padfZ c)
    /\ (hasM c = false -> padfM c' = padfM c)
    /\ (if ok
        then m_nPointCapacity c' = cap
             /\ is_null (paoPoints c') = false
             /\ room (paoPoints c') cap
             /\ (has3D c = true -> is_null (padfZ c') = false /\ room (padfZ c') cap)
             /\ (hasM c = true -> is_null (padfM c') = false /\ room (padfM c') cap)
        else m_nPointCapacity c' = m_nPointCapacity c).
Proof.
  unfold grow, VSI_REALLOC, grown, room.
  destruct (alloc_ok (sizeof_OGRRawPoint * cap)) eqn:Hxy; cbv zeta.
  2: { eexists _, _, _. split; [reflexivity|]. simpl. repeat split; auto. }
  change (has3D (set_paoPoints ?p c)) with (has3D c).
  destruct (has3D c) eqn:H3;
    [destruct (alloc_ok (sizeof_double * cap)) eqn:Hz|];
    try change (hasM (set_padfZ ?z (set_paoPoints ?p c))) with (hasM c);
    try change (hasM (set_paoPoints ?p c)) with (hasM c);
    try (destruct (hasM c) eqn:HM; [try destruct (alloc_ok (sizeof_double * cap)) eqn:Hm|]);
    (eexists _, _, _; split; [reflexivity|]); simpl;
    repeat match goal with
           | |- _ /\ _ => split
           | |- _ -> _ => intro
           | |- forall _, _ => intro
           end;
    try reflexivity; try discriminate; try (left; reflexivity); try (right; reflexivity);
    try (match goal with H : Some _ = Some _ |- _ => injection H as <- end;
         rewrite length_resize; lia).
Qed.

(** The zero-fill of [cnt] elements from [from]. *)
Lemma zero_fill_null {A} (z : A) (from cnt : nat) (p : option (list A)) :
  is_null (zero_fill z from cnt p) = is_null p.
Proof. destruct p; reflexivity. Qed.

Lemma zero_fill_length {A} (z : A) (from cnt : nat) (l : list A) :
  (from + cnt <= length l)%nat ->
  length (take from l ++ replicate cnt z ++ drop (from + cnt) l) = length l.
Proof. intros H. rewrite !length_app, length_take, length_replicate, length_drop. lia. Qed.

Lemma zero_fill_room {A} (z : A) (from cnt : nat) (p : option (list A)) (k : Z) :
  room p k -> Z.of_nat (from + cnt) <= k -> room (zero_fill z from cnt p) k.
Proof.
  destruct p as [l|]; simpl; [|intros _ _; apply room_null].
  intros Hr Hk l' [= <-]. specialize (Hr l eq_refl).
  rewrite zero_fill_length by lia. exact Hr.
Qed.

Lemma zero_fill_prefix {A} (z : A) (from cnt j : nat) (p : option (list A)) :
  (j <= from)%nat -> (from <= length (default [] p))%nat ->
  take j (default [] (zero_fill z from cnt p)) = take j (default [] p).
Proof.
  destruct p as [l|]; simpl; [|reflexivity].
  intros Hj Hf. rewrite take_app_le by (rewrite length_take; lia).
  rewrite take_take. f_equal. lia.
Qed.

Lemma zero_fill_zero {A} (z d : A) (from cnt i : nat) (p : option (list A)) :
  is_null p = false -> (from <= length (default [] p))%nat ->
  (from <= i < from + cnt)%nat ->
  nth i (default [] (zero_fill z from cnt p)) d = z.
Proof.
  destruct p as [l|]; [|discriminate]. simpl. intros _ Hf Hi.
  rewrite app_nth2 by (rewrite length_take; lia).
  rewrite length_take, Nat.min_l by lia.
  rewrite app_nth1 by (rewrite length_replicate; lia).
  apply nth_lookup_Some, lookup_replicate_2. lia.
Qed.

Lemma zeroize_planes (c : OGRSimpleCurve) (n : Z) :
  (is_null (padfZ c) = false -> has3D c = true) ->
  (is_null (padfM c) = false -> hasM c = true) ->
  zeroize c n
  = mkCurve (flags c) (nPointCount c) (m_nPointCapacity c)
      (zero_fill zeroPoint (Z.to_nat (nPointCount c)) (Z.to_nat (n - nPointCount c))
                 (paoPoints c))
      (zero_fill 0%float (Z.to_nat (nPointCount c)) (Z.to_nat (n - nPointCount c)) (padfZ c))
      (zero_fill 0%float (Z.to_nat (nPointCount c)) (Z.to_nat (n - nPointCount c)) (padfM c))
      (isLinearRing c).
Proof.
  intros Fz Fm. unfold zeroize.
  change (has3D (set_paoPoints ?p c)) with (has3D c).
  change (padfZ (set_paoPoints ?p c)) with (padfZ c).
  destruct (padfZ c) as [zs|] eqn:Hz; simpl.
  - rewrite (Fz eq_refl). simpl.
    change (hasM (set_padfZ ?z (set_paoPoints ?p c))) with (hasM c).
    destruct (padfM c) as [ms|] eqn:Hm; simpl.
    + rewrite (Fm eq_refl). simpl. unfold set_padfM, set_padfZ, set_paoPoints. simpl.
      rewrite ?Hz, ?Hm. reflexivity.
    + rewrite andb_false_r. unfold set_padfZ, set_paoPoints. simpl. rewrite ?Hz, ?Hm.
      reflexivity.
  - rewrite andb_false_r.
    change (hasM (set_paoPoints ?p c)) with (hasM c).
    change (padfM (set_paoPoints ?p c)) with (padfM c).
    destruct (padfM c) as [ms|] eqn:Hm; simpl.
    + rewrite (Fm eq_refl). simpl. unfold set_padfM, set_paoPoints. simpl.
      rewrite ?Hz, ?Hm. reflexivity.
    + rewrite andb_false_r. unfold set_paoPoints. simpl. rewrite ?Hz, ?Hm. reflexivity.
Qed.

(** The counted arrays reach their count. *)
Lemma well_formed_lengths (c : OGRSimpleCurve) :
  well_formed c ->
  (Z.to_nat (nPointCount c) <= length (default [] (paoPoints c)))%nat
  /\ (has3D c = true -> Z.to_nat (nPointCount c) <= length (default [] (padfZ c)))%nat
  /\ (hasM c = true -> Z.to_nat (nPointCount c) <= length (default [] (padfM c)))%nat
  /\ (has3D c = false -> padfZ c = None)
  /\ (hasM c = false -> padfM c = None).
Proof.
  intros (Hcnt & Rxy & Rz & Rm & Fz & Fm & Hcap).
  assert (H0 : nPointCount c = 0 \/ 0 < m_nPointCapacity c) by lia.
  split; [|split; [|split; [|split]]].
  - destruct H0 as [-> | H0]; [simpl; lia|].
    destruct (Hcap H0) as (Hx & _). pose proof (room_default _ _ Rxy Hx). lia.
  - intros H3. destruct H0 as [-> | H0]; [simpl; lia|].
    destruct (Hcap H0) as (_ & Hz & _). pose proof (room_default _ _ Rz (Hz H3)). lia.
  - intros HM. destruct H0 as [-> | H0]; [simpl; lia|].
    destruct (Hcap H0) as (_ & _ & Hm). pose proof (room_default _ _ Rm (Hm HM)). lia.
  - intros H3. destruct (padfZ c); [|reflexivity]. specialize (Fz eq_refl). congruence.
  - intros HM. destruct (padfM c); [|reflexivity]. specialize (Fm eq_refl). congruence.
Qed.

(** The end of [setNumPoints]: the zero-fill and the new count, within
    the capacity. *)
Lemma finish_spec (c : OGRSimpleCurve) (n : Z) (bZero : bool) :
  well_formed c -> 0 <= n <= m_nPointCapacity c ->
  let c' := set_nPointCount n
              (if (n >? nPointCount c) && bZero then zeroize c n else c) in
  well_formed c'
  /\ flags c' = flags c /\ isLinearRing c' = isLinearRing c
  /\ m_nPointCapacity c' = m_nPointCapacity c /\ nPointCount c' = n
  /\ (forall k, (k <= Z.to_nat (nPointCount c))%nat ->
        take k (default [] (paoPoints c')) = take k (default [] (paoPoints c))
        /\ take k (default [] (padfZ c')) = take k (default [] (padfZ c))
        /\ take k (default [] (padfM c')) = take k (default [] (padfM c)))
  /\ (bZero = true -> forall i, nPointCount c <= Z.of_nat i < n ->
        pt c' i = zeroPoint
        /\ (has3D c = true -> zAt c' i = 0%float)
        /\ (hasM c = true -> mAt c' i = 0%float)).
Proof.
  intros Hwf Hn.
  pose proof (well_formed_lengths c Hwf) as (Lxy & Lz & Lm & Nz & Nm).
  destruct Hwf as (Hcnt & Rxy & Rz & Rm & Fz & Fm & Hcap).
  destruct ((n >? nPointCount c) && bZero) eqn:Hzero.
  - apply andb_prop in Hzero as (Hgt & ->). apply Z.gtb_lt in Hgt.
    rewrite (zeroize_planes c n Fz Fm). cbv zeta. unfold set_nPointCount. simpl.
    set (from := Z.to_nat (nPointCount c)). set (cnt := Z.to_nat (n - nPointCount c)).
    assert (Hfc : Z.of_nat (from + cnt) <= m_nPointCapacity c) by (unfold from, cnt; lia).
    assert (Hpos : 0 < m_nPointCapacity c) by lia.
    destruct (Hcap Hpos) as (Hx & Hz & Hm).
    split.
    { unfold well_formed, has3D, hasM. simpl. rewrite !zero_fill_null.
      split; [lia|]. split; [apply zero_fill_room; assumption|].
      split; [apply zero_fill_room; assumption|].
      split; [apply zero_fill_room; assumption|].
      split; [exact Fz|]. split; [exact Fm|]. intros _. exact (Hcap Hpos). }
    split; [reflexivity|]. split; [reflexivity|]. split; [reflexivity|].
    split; [reflexivity|]. split.
    { intros k Hk. split; [|split].
      - apply zero_fill_prefix; [exact Hk|exact Lxy].
      - destruct (has3D c) eqn:H3.
        + apply zero_fill_prefix; [exact Hk|exact (Lz eq_refl)].
        + rewrite (Nz eq_refl). reflexivity.
      - destruct (hasM c) eqn:HM.
        + apply zero_fill_prefix; [exact Hk|exact (Lm eq_refl)].
        + rewrite (Nm eq_refl). reflexivity. }
    intros _ i Hi. unfold pt, zAt, mAt. simpl.
    assert (Hi' : (from <= i < from + cnt)%nat) by (unfold from, cnt; lia).
    split; [|split].
    + apply zero_fill_zero; [exact Hx|exact Lxy|exact Hi'].
    + intros H3. apply zero_fill_zero; [exact (Hz H3)|exact (Lz H3)|exact Hi'].
    + intros HM. apply zero_fill_zero; [exact (Hm HM)|exact (Lm HM)|exact Hi'].
  - cbv zeta. unfold set_nPointCount. simpl.
    split.
    { unfold well_formed, has3D, hasM. simpl.
      split; [lia|]. split; [exact Rxy|]. split; [exact Rz|]. split; [exact Rm|].
      split; [exact Fz|]. split; [exact Fm|]. exact Hcap. }
    split; [reflexivity|]. split; [reflexivity|]. split; [reflexivity|].
    split; [reflexivity|]. split; [intros k _; auto|].
    intros -> i Hi. rewrite andb_true_r in Hzero.
    rewrite Z.gtb_ltb in Hzero. apply Z.ltb_ge in Hzero. lia.
Qed.

Lemma flags_has (c c' : OGRSimpleCurve) :
  flags c' = flags c -> has3D c' = has3D c /\ hasM c' = hasM c.
Proof. unfold has3D, hasM. intros ->. auto. Qed.

Lemma nNewCapacity_ge (c : OGRSimpleCurve) (n : Z) : 0 <= n -> n <= nNewCapacity c n.
Proof.
  intros Hn. unfold nNewCapacity.
  destruct ((nPointCount c =? 0) || _); [lia|].
  assert (0 <= n ÷ 3) by (apply Z.quot_pos; lia). lia.
Qed.

Lemma free_if_empty_spec (c : OGRSimpleCurve) :
  well_formed c ->
  let c1 := fst (free_if_empty c) in
  well_formed c1
  /\ flags c1 = flags c /\ nPointCount c1 = nPointCount c
  /\ isLinearRing c1 = isLinearRing c
  /\ m_nPointCapacity c1 <= m_nPointCapacity c
  /\ (forall k, (k <= Z.to_nat (nPointCount c))%nat ->
        take k (default [] (paoPoints c1)) = take k (default [] (paoPoints c))
        /\ take k (default [] (padfZ c1)) = take k (default [] (padfZ c))
        /\ take k (default [] (padfM c1)) = take k (default [] (padfM c))).
Proof.
  intros Hwf. unfold free_if_empty.
  destruct ((nPointCount c =? 0) && negb (is_null (paoPoints c))) eqn:Hfree; simpl.
  - apply andb_prop in Hfree as (H0 & _). apply Z.eqb_eq in H0.
    destruct Hwf as (Hcnt & _).
    split.
    { unfold well_formed, has3D, hasM. simpl.
      split; [lia|]. split; [apply room_null|]. split; [apply room_null|].
      split; [apply room_null|]. split; [discriminate|]. split; [discriminate|]. lia. }
    split; [reflexivity|]. split; [reflexivity|]. split; [reflexivity|].
    split; [lia|]. intros k Hk. rewrite H0 in Hk.
    replace k with 0%nat by lia. auto.
  - split; [exact Hwf|]. split; [reflexivity|]. split; [reflexivity|].
    split; [reflexivity|]. split; [lia|]. auto.
Qed.

(** [setNumPoints], whatever the allocator answers: the buffer stays
    consistent, the points that were counted stay where they are, a call
    that fails leaves the count, and a call within the capacity succeeds
    without the allocator. *)
Lemma setNumPoints_spec (c : OGRSimpleCurve) (n : Z) (bZero : bool) :
  well_formed c -> 0 <= n ->
  exists ok c' log,
    setNumPoints c n bZero = (ok, c', log)
    /\ well_formed c'
    /\ flags c' = flags c /\ isLinearRing c' = isLinearRing c
    /\ nPointCount c' = (if ok then n else nPointCount c)
    /\ (forall k, (k <= Z.to_nat (nPointCount c))%nat ->
          take k (default [] (paoPoints c')) = take k (default [] (paoPoints c))
          /\ take k (default [] (padfZ c')) = take k (default [] (padfZ c))
          /\ take k (default [] (padfM c')) = take k (default [] (padfM c)))
    /\ (ok = true -> bZero = true -> forall i, nPointCount c <= Z.of_nat i < n ->
          pt c' i = zeroPoint
          /\ (has3D c = true -> zAt c' i = 0%float)
          /\ (hasM c = true -> mAt c' i = 0%float))
    /\ (n <= m_nPointCapacity c ->
          ok = true /\ log = [] /\ m_nPointCapacity c' = m_nPointCapacity c)
    /\ (m_nPointCapacity c < n -> ok = true -> m_nPointCapacity c' = nNewCapacity c n)
    /\ (n <= setNumPoints_limit -> grants alloc_ok c (nNewCapacity c n) -> ok = true).
Proof.
  intros Hwf Hn. unfold Curve.setNumPoints.
  destruct (n >? m_nPointCapacity c) eqn:Hgt.
  2: { rewrite Z.gtb_ltb in Hgt. apply Z.ltb_ge in Hgt.
       destruct (finish_spec c n bZero Hwf) as (W & F & R & C & N & P & Zr); [lia|].
       eexists true, _, _. split; [reflexivity|].
       split; [exact W|]. split; [exact F|]. split; [exact R|]. split; [exact N|].
       split; [exact P|]. split; [intros _; exact Zr|].
       split; [intros _; split; [reflexivity|split; [reflexivity|exact C]]|].
       split; [lia|]. reflexivity. }
  apply Z.gtb_lt in Hgt.
  destruct (n >? setNumPoints_limit) eqn:Hlim.
  { apply Z.gtb_lt in Hlim.
    eexists false, _, _. split; [reflexivity|].
    split; [exact Hwf|]. split; [reflexivity|]. split; [reflexivity|].
    split; [reflexivity|]. split; [auto|]. split; [discriminate|].
    split; [lia|]. split; [discriminate|]. lia. }
  rewrite Z.gtb_ltb in Hlim. apply Z.ltb_ge in Hlim.
  set (cap := nNewCapacity c n).
  pose proof (nNewCapacity_ge c n Hn) as Hcap. fold cap in Hcap.
  pose proof (free_if_empty_spec c Hwf) as (W1 & F1 & N1 & R1 & C1 & P1).
  destruct (free_if_empty c) as [c1 ev1] eqn:Hfree. cbn [fst] in *.
  destruct (flags_has c c1 F1) as (H31 & HM1).
  pose proof (well_formed_lengths c1 W1) as (Lxy & Lz & Lm & Nz & Nm).
  destruct (grow_spec c1 cap)
    as (ok & c2 & ev2 & Hg & F2 & N2 & R2 & Gxy & Gz & Gm & Kz & Km & Hok).
  rewrite Hg.
  destruct (flags_has c1 c2 F2) as (H32 & HM2).
  assert (Ppre : forall k, (k <= Z.to_nat (nPointCount c))%nat ->
             take k (default [] (paoPoints c2)) = take k (default [] (paoPoints c))
             /\ take k (default [] (padfZ c2)) = take k (default [] (padfZ c))
             /\ take k (default [] (padfM c2)) = take k (default [] (padfM c))).
  { intros k Hk. destruct (P1 k Hk) as (E1 & E2 & E3). rewrite <- E1, <- E2, <- E3.
    destruct W1 as (Hcnt1 & _).
    split; [|split].
    - apply (grown_prefix junkP cap); [exact Gxy|lia|lia].
    - destruct (has3D c1) eqn:H3.
      + apply (grown_prefix junkD cap); [exact Gz|specialize (Lz eq_refl); lia|lia].
      + rewrite (Kz eq_refl). reflexivity.
    - destruct (hasM c1) eqn:HM.
      + apply (grown_prefix junkD cap); [exact Gm|specialize (Lm eq_refl); lia|lia].
      + rewrite (Km eq_refl). reflexivity. }
  destruct W1 as (Hcnt1 & Rxy1 & Rz1 & Rm1 & Fz1 & Fm1 & Hcap1).
  destruct ok.
  - destruct Hok as (C2 & X2 & RX2 & Z2 & M2).
    assert (W2 : well_formed c2).
    { unfold well_formed. rewrite C2, N2, H32, HM2.
      split; [lia|]. split; [exact RX2|].
      split.
      { destruct (has3D c1) eqn:H3; [apply (Z2 eq_refl)|].
        rewrite (Kz eq_refl), (Nz eq_refl). apply room_null. }
      split.
      { destruct (hasM c1) eqn:HM; [apply (M2 eq_refl)|].
        rewrite (Km eq_refl), (Nm eq_refl). apply room_null. }
      split.
      { destruct (has3D c1) eqn:H3; [reflexivity|].
        rewrite (Kz eq_refl), (Nz eq_refl). discriminate. }
      split.
      { destruct (hasM c1) eqn:HM; [reflexivity|].
        rewrite (Km eq_refl), (Nm eq_refl). discriminate. }
      intros _. split; [exact X2|]. split; intros H; [apply (Z2 H)|apply (M2 H)]. }
    destruct (finish_spec c2 n bZero W2) as (W & F & R & C & N & P & Zr); [lia|].
    eexists true, _, _. split; [reflexivity|].
    split; [exact W|]. split; [congruence|]. split; [congruence|]. split; [exact N|].
    split.
    { intros k Hk. destruct (Ppre k Hk) as (E1 & E2 & E3).
      destruct (P k) as (Q1 & Q2 & Q3); [rewrite N2, N1; exact Hk|].
      rewrite Q1, Q2, Q3. auto. }
    split.
    { intros _ Hb i Hi. rewrite <- H31, <- H32, <- HM1, <- HM2.
      apply (Zr Hb i). rewrite N2, N1. exact Hi. }
    split; [lia|]. split; [intros _ _; rewrite C; exact C2|]. reflexivity.
  - assert (W2 : well_formed c2).
    { unfold well_formed. rewrite Hok, N2, H32, HM2.
      split; [exact Hcnt1|].
      split; [apply (grown_room junkP cap _ _ _ Gxy Rxy1); lia|].
      split; [apply (grown_room junkD cap _ _ _ Gz Rz1); lia|].
      split; [apply (grown_room junkD cap _ _ _ Gm Rm1); lia|].
      split.
      { destruct (has3D c1) eqn:H3; [reflexivity|]. rewrite (Kz eq_refl). exact Fz1. }
      split.
      { destruct (hasM c1) eqn:HM; [reflexivity|]. rewrite (Km eq_refl). exact Fm1. }
      intros Hpos. destruct (Hcap1 Hpos) as (A1 & A2 & A3).
      split; [apply (grown_not_null junkP cap _ _ Gxy A1)|].
      split; intros H.
      + apply (grown_not_null junkD cap _ _ Gz (A2 H)).
      + apply (grown_not_null junkD cap _ _ Gm (A3 H)). }
    eexists false, _, _. split; [reflexivity|].
    split; [exact W2|]. split; [congruence|]. split; [congruence|].
    split; [congruence|]. split; [exact Ppre|]. split; [discriminate|].
    split; [lia|]. split; [discriminate|].
    intros _ Hgr. exfalso.
    assert (Hg1 : grants alloc_ok c1 cap).
    { unfold grants in *. rewrite H31, HM1. exact Hgr. }
    rewrite (grow_granted alloc_ok junkP junkD c1 cap Hg1) in Hg. discriminate.
Qed.

Lemma well_formed_curve_of (ring : bool) (pts : list (float * float)) :
  well_formed (curve_of ring pts).
Proof.
  unfold well_formed, curve_of, has3D, hasM. simpl.
  split; [lia|]. split; [intros l [= <-]; rewrite length_map; lia|].
  split; [apply room_null|]. split; [apply room_null|].
  split; [discriminate|]. split; [discriminate|].
  intros _. split; [reflexivity|]. split; discriminate.
Qed.

Lemma well_formed_curve3D_of (pts : list (float * float)) (zs : list float) :
  length zs = length pts -> well_formed (curve3D_of pts zs).
Proof.
  intros Hl. unfold well_formed, curve3D_of, has3D, hasM. simpl.
  split; [lia|]. split; [intros l [= <-]; rewrite length_map; lia|].
  split; [intros l [= <-]; lia|]. split; [apply room_null|].
  split; [reflexivity|]. split; [discriminate|].
  intros _. split; [reflexivity|]. split; [reflexivity|discriminate].
Qed.

Lemma well_formed_new_curve (f : Z) : well_formed (new_curve f).
Proof.
  unfold well_formed, new_curve. simpl.
  split; [lia|]. split; [apply room_null|]. split; [apply room_null|].
  split; [apply room_null|]. split; [discriminate|]. split; [discriminate|]. lia.
Qed.

End Buffer.

(** ** The flags and the presence of the Z and M arrays *)

Section Dimensions.
Import Curve.

Variable alloc_ok : Z -> bool.

#[local] Abbreviation Make3D := (Make3D alloc_ok).
#[local] Abbreviation AddM := (AddM alloc_ok).

Lemma land_pow2_testbit (f : Z) (k : Z) :
  0 <= k -> negb (Z.land f (2 ^ k) =? 0) = Z.testbit f k.
Proof.
  intros Hk. destruct (Z.testbit f k) eqn:Hb.
  - apply negb_true_iff, Z.eqb_neq. intros H0.
    assert (Hk' : Z.testbit (Z.land f (2 ^ k)) k = true)
      by (rewrite Z.land_spec, Hb, Z.pow2_bits_true; [reflexivity|exact Hk]).
    rewrite H0, Z.bits_0 in Hk'. discriminate.
  - apply negb_false_iff, Z.eqb_eq, Z.bits_inj'. intros n Hn.
    rewrite Z.land_spec, Z.bits_0, Z.pow2_bits_eqb by exact Hk.
    destruct (Z.eqb_spec k n) as [<-|]; [rewrite Hb; reflexivity|apply andb_false_r].
Qed.

Lemma has3D_testbit (c : OGRSimpleCurve) : has3D c = Z.testbit (flags c) 1.
Proof. apply (land_pow2_testbit (flags c) 1). lia. Qed.

Lemma hasM_testbit (c : OGRSimpleCurve) : hasM c = Z.testbit (flags c) 2.
Proof. apply (land_pow2_testbit (flags c) 2). lia. Qed.

Lemma flags_set3D (f : Z) (c : OGRSimpleCurve) :
  flags c = Z.lor f OGR_G_3D ->
  has3D c = true /\ Z.testbit (flags c) 2 = Z.testbit f 2.
Proof.
  intros E. rewrite has3D_testbit, E, !Z.lor_spec. split.
  - change (Z.testbit OGR_G_3D 1) with true. apply orb_true_r.
  - change (Z.testbit OGR_G_3D 2) with false. apply orb_false_r.
Qed.

Lemma flags_clear3D (f : Z) (c : OGRSimpleCurve) :
  flags c = Z.land f (Z.lnot OGR_G_3D) ->
  has3D c = false /\ Z.testbit (flags c) 2 = Z.testbit f 2.
Proof.
  intros E. rewrite has3D_testbit, E, !Z.land_spec, !Z.lnot_spec by lia. split.
  - change (Z.testbit OGR_G_3D 1) with true. apply andb_false_r.
  - change (Z.testbit OGR_G_3D 2) with false. apply andb_true_r.
Qed.

Lemma flags_setM (f : Z) (c : OGRSimpleCurve) :
  flags c = Z.lor f OGR_G_MEASURED ->
  hasM c = true /\ Z.testbit (flags c) 1 = Z.testbit f 1.
Proof.
  intros E. rewrite hasM_testbit, E, !Z.lor_spec. split.
  - change (Z.testbit OGR_G_MEASURED 2) with true. apply orb_true_r.
  - change (Z.testbit OGR_G_MEASURED 1) with false. apply orb_false_r.
Qed.

Lemma flags_clearM (f : Z) (c : OGRSimpleCurve) :
  flags c = Z.land f (Z.lnot OGR_G_MEASURED) ->
  hasM c = false /\ Z.testbit (flags c) 1 = Z.testbit f 1.
Proof.
  intros E. rewrite hasM_testbit, E, !Z.land_spec, !Z.lnot_spec by lia. split.
  - change (Z.testbit OGR_G_MEASURED 2) with true. apply andb_false_r.
  - change (Z.testbit OGR_G_MEASURED 1) with false. apply andb_true_r.
Qed.

Lemma room_replicate {A} (v : A) (cap : Z) :
  room (Some (replicate (Z.to_nat (Z.max 1 cap)) v)) cap.
Proof. intros l [= <-]. rewrite length_replicate. lia. Qed.

(** [Make2D] and [RemoveM] drop one array and its flag. *)
Lemma Make2D_spec (c : OGRSimpleCurve) :
  well_formed c ->
  let c' := Make2D c in
  well_formed c'
  /\ has3D c' = false /\ hasM c' = hasM c /\ padfZ c' = None
  /\ nPointCount c' = nPointCount c /\ m_nPointCapacity c' = m_nPointCapacity c
  /\ paoPoints c' = paoPoints c /\ padfM c' = padfM c
  /\ isLinearRing c' = isLinearRing c.
Proof.
  intros (Hcnt & Rxy & Rz & Rm & Fz & Fm & Hcap). cbv zeta.
  destruct (flags_clear3D (flags c) (Make2D c) eq_refl) as (H3 & HM).
  rewrite <- hasM_testbit in HM. rewrite <- (hasM_testbit c) in HM.
  split.
  { unfold well_formed. rewrite H3, HM. simpl.
    split; [exact Hcnt|]. split; [exact Rxy|]. split; [apply room_null|].
    split; [exact Rm|]. split; [discriminate|]. split; [exact Fm|].
    intros Hpos. destruct (Hcap Hpos) as (A1 & A2 & A3).
    split; [exact A1|]. split; [discriminate|exact A3]. }
  repeat split; assumption.
Qed.

Lemma RemoveM_spec (c : OGRSimpleCurve) :
  well_formed c ->
  let c' := RemoveM c in
  well_formed c'
  /\ hasM c' = false /\ has3D c' = has3D c /\ padfM c' = None
  /\ nPointCount c' = nPointCount c /\ m_nPointCapacity c' = m_nPointCapacity c
  /\ paoPoints c' = paoPoints c /\ padfZ c' = padfZ c
  /\ isLinearRing c' = isLinearRing c.
Proof.
  intros (Hcnt & Rxy & Rz & Rm & Fz & Fm & Hcap). cbv zeta.
  destruct (flags_clearM (flags c) (RemoveM c) eq_refl) as (HM & H3).
  rewrite <- has3D_testbit in H3. rewrite <- (has3D_testbit c) in H3.
  split.
  { unfold well_formed. rewrite H3, HM. simpl.
    split; [exact Hcnt|]. split; [exact Rxy|]. split; [exact Rz|].
    split; [apply room_null|]. split; [exact Fz|]. split; [discriminate|].
    intros Hpos. destruct (Hcap Hpos) as (A1 & A2 & A3).
    split; [exact A1|]. split; [exact A2|discriminate]. }
  repeat split; assumption.
Qed.

(** [Make3D] and [AddM] allocate a zero-filled array when there is none. *)
Lemma Make3D_spec (c : OGRSimpleCurve) :
  well_formed c ->
  exists ok c',
    Make3D c = (ok, c')
    /\ well_formed c'
    /\ hasM c' = hasM c
    /\ nPointCount c' = nPointCount c /\ m_nPointCapacity c' = m_nPointCapacity c
    /\ paoPoints c' = paoPoints c /\ padfM c' = padfM c
    /\ isLinearRing c' = isLinearRing c
    /\ (if ok
        then has3D c' = true
             /\ padfZ c' = match padfZ c with
                           | Some zs => Some zs
                           | None => Some (replicate (Z.to_nat (Z.max 1 (m_nPointCapacity c)))
                                                     0%float)
                           end
        else has3D c' = false /\ padfZ c' = None /\ padfZ c = None)
    /\ (alloc_ok (sizeof_double * Z.max 1 (m_nPointCapacity c)) = true -> ok = true).
Proof.
  intros (Hcnt & Rxy & Rz & Rm & Fz & Fm & Hcap). unfold Curve.Make3D, VSI_CALLOC.
  destruct (padfZ c) as [zs|] eqn:Hz.
  - eexists true, _. split; [reflexivity|].
    destruct (flags_set3D (flags c) (set_flags (Z.lor (flags c) OGR_G_3D) c) eq_refl)
      as (H3 & HM).
    rewrite <- hasM_testbit in HM. rewrite <- (hasM_testbit c) in HM.
    split.
    { unfold well_formed. rewrite H3, HM. simpl. rewrite Hz.
      split; [exact Hcnt|]. split; [exact Rxy|]. split; [exact Rz|].
      split; [exact Rm|]. split; [reflexivity|]. split; [exact Fm|].
      intros Hpos. destruct (Hcap Hpos) as (A1 & A2 & A3).
      split; [exact A1|]. split; [reflexivity|exact A3]. }
    simpl. rewrite Hz. repeat split; auto.
  - destruct (alloc_ok (sizeof_double * Z.max 1 (m_nPointCapacity c))) eqn:Ha.
    + eexists true, _. split; [reflexivity|].
      match goal with |- well_formed ?c' /\ _ =>
        destruct (flags_set3D (flags c) c' eq_refl) as (H3 & HM) end.
      rewrite <- hasM_testbit in HM. rewrite <- (hasM_testbit c) in HM.
      split.
      { unfold well_formed. rewrite H3, HM. simpl.
        split; [exact Hcnt|]. split; [exact Rxy|]. split; [apply room_replicate|].
        split; [exact Rm|]. split; [reflexivity|]. split; [exact Fm|].
        intros Hpos. destruct (Hcap Hpos) as (A1 & A2 & A3).
        split; [exact A1|]. split; [reflexivity|exact A3]. }
      simpl. repeat split; auto.
    + eexists false, _. split; [reflexivity|].
      match goal with |- well_formed ?c' /\ _ =>
        destruct (flags_clear3D (flags c) c' eq_refl) as (H3 & HM) end.
      rewrite <- hasM_testbit in HM. rewrite <- (hasM_testbit c) in HM.
      split.
      { unfold well_formed. rewrite H3, HM. simpl. rewrite Hz.
        split; [exact Hcnt|]. split; [exact Rxy|]. split; [apply room_null|].
        split; [exact Rm|]. split; [discriminate|]. split; [exact Fm|].
        intros Hpos. destruct (Hcap Hpos) as (A1 & A2 & A3).
        split; [exact A1|]. split; [discriminate|exact A3]. }
      simpl. rewrite Hz. repeat split; auto; discriminate.
Qed.

Lemma AddM_spec (c : OGRSimpleCurve) :
  well_formed c ->
  exists ok c',
    AddM c = (ok, c')
    /\ well_formed c'
    /\ has3D c' = has3D c
    /\ nPointCount c' = nPointCount c /\ m_nPointCapacity c' = m_nPointCapacity c
    /\ paoPoints c' = paoPoints c /\ padfZ c' = padfZ c
    /\ isLinearRing c' = isLinearRing c
    /\ (if ok
        then hasM c' = true
             /\ padfM c' = match padfM c with
                           | Some ms => Some ms
                           | None => Some (replicate (Z.to_nat (Z.max 1 (m_nPointCapacity c)))
                                                     0%float)
                           end
        else hasM c' = false /\ padfM c' = None /\ padfM c = None)
    /\ (alloc_ok (sizeof_double * Z.max 1 (m_nPointCapacity c)) = true -> ok = true).
Proof.
  intros (Hcnt & Rxy & Rz & Rm & Fz & Fm & Hcap). unfold Curve.AddM, VSI_CALLOC.
  destruct (padfM c) as [ms|] eqn:Hm.
  - eexists true, _. split; [reflexivity|].
    destruct (flags_setM (flags c) (set_flags (Z.lor (flags c) OGR_G_MEASURED) c) eq_refl)
      as (HM & H3).
    rewrite <- has3D_testbit in H3. rewrite <- (has3D_testbit c) in H3.
    split.
    { unfold well_formed. rewrite H3, HM. simpl. rewrite Hm.
      split; [exact Hcnt|]. split; [exact Rxy|]. split; [exact Rz|].
      split; [exact Rm|]. split; [exact Fz|]. split; [reflexivity|].
      intros Hpos. destruct (Hcap Hpos) as (A1 & A2 & A3).
      split; [exact A1|]. split; [exact A2|reflexivity]. }
    simpl. rewrite Hm. repeat split; auto.
  - destruct (alloc_ok (sizeof_double * Z.max 1 (m_nPointCapacity c))) eqn:Ha.
    + eexists true, _. split; [reflexivity|].
      match goal with |- well_formed ?c' /\ _ =>
        destruct (flags_setM (flags c) c' eq_refl) as (HM & H3) end.
      rewrite <- has3D_testbit in H3. rewrite <- (has3D_testbit c) in H3.
      split.
      { unfold well_formed. rewrite H3, HM. simpl.
        split; [exact Hcnt|]. split; [exact Rxy|]. split; [exact Rz|].
        split; [apply room_replicate|]. split; [exact Fz|]. split; [reflexivity|].
        intros Hpos. destruct (Hcap Hpos) as (A1 & A2 & A3).
        split; [exact A1|]. split; [exact A2|reflexivity]. }
      simpl. repeat split; auto.
    + eexists false, _. split; [reflexivity|].
      match goal with |- well_formed ?c' /\ _ =>
        destruct (flags_clearM (flags c) c' eq_refl) as (HM & H3) end.
      rewrite <- has3D_testbit in H3. rewrite <- (has3D_testbit c) in H3.
      split.
      { unfold well_formed. rewrite H3, HM. simpl. rewrite Hm.
        split; [exact Hcnt|]. split; [exact Rxy|]. split; [exact Rz|].
        split; [apply room_null|]. split; [exact Fz|]. split; [discriminate|].
        intros Hpos. destruct (Hcap Hpos) as (A1 & A2 & A3).
        split; [exact A1|]. split; [exact A2|discriminate]. }
      simpl. rewrite Hm. repeat split; auto; discriminate.
Qed.

End Dimensions.

(** ** Stores into the arrays *)

Section Stores.
Import Curve.

Lemma store_opt_null {A} (idx : Z) (v : A) (p : option (list A)) :
  is_null (store_opt idx v p) = is_null p.
Proof. destruct p; reflexivity. Qed.

Lemma store_opt_room {A} (idx : Z) (v : A) (p : option (list A)) (n : Z) :
  room p n -> room (store_opt idx v p) n.
Proof.
  destruct p as [l|]; simpl; [|intros _; apply room_null].
  intros Hr l' [= <-]. rewrite store_length. apply (Hr l eq_refl).
Qed.

(** A store within the counted part changes that one entry. *)
Lemma store_opt_take {A} (idx : Z) (v : A) (p : option (list A)) (n : nat) :
  0 <= idx -> (Z.to_nat idx < n)%nat ->
  take n (default [] (store_opt idx v p)) = <[Z.to_nat idx := v]> (take n (default [] p)).
Proof.
  intros H0 Hn. destruct p as [l|]; simpl; [|rewrite take_nil; reflexivity].
  unfold store. replace (idx <? 0) with false by (symmetry; apply Z.ltb_ge; exact H0).
  apply take_insert_lt. exact Hn.
Qed.

(** A store at the count leaves the counted part. *)
Lemma store_opt_take_before {A} (idx : Z) (v : A) (p : option (list A)) (n : nat) :
  (n <= Z.to_nat idx)%nat ->
  take n (default [] (store_opt idx v p)) = take n (default [] p).
Proof.
  intros Hn. destruct p as [l|]; simpl; [|reflexivity].
  unfold store. destruct (idx <? 0); [reflexivity|].
  apply take_insert_ge. exact Hn.
Qed.

Lemma well_formed_store (c : OGRSimpleCurve) (i : Z) (p : OGRRawPoint) :
  well_formed c -> well_formed (set_paoPoints (store_opt i p (paoPoints c)) c).
Proof.
  intros (Hcnt & Rxy & Rz & Rm & Fz & Fm & Hcap).
  unfold well_formed, has3D, hasM. simpl. rewrite store_opt_null.
  split; [exact Hcnt|]. split; [apply store_opt_room; exact Rxy|].
  split; [exact Rz|]. split; [exact Rm|]. split; [exact Fz|]. split; [exact Fm|].
  exact Hcap.
Qed.

Lemma well_formed_storeZ (c : OGRSimpleCurve) (i : Z) (v : float) :
  well_formed c -> well_formed (set_padfZ (store_opt i v (padfZ c)) c).
Proof.
  intros (Hcnt & Rxy & Rz & Rm & Fz & Fm & Hcap).
  unfold well_formed, has3D, hasM. simpl. rewrite store_opt_null.
  split; [exact Hcnt|]. split; [exact Rxy|].
  split; [apply store_opt_room; exact Rz|]. split; [exact Rm|].
  split; [exact Fz|]. split; [exact Fm|]. exact Hcap.
Qed.

Lemma well_formed_storeM (c : OGRSimpleCurve) (i : Z) (v : float) :
  well_formed c -> well_formed (set_padfM (store_opt i v (padfM c)) c).
Proof.
  intros (Hcnt & Rxy & Rz & Rm & Fz & Fm & Hcap).
  unfold well_formed, has3D, hasM. simpl. rewrite store_opt_null.
  split; [exact Hcnt|]. split; [exact Rxy|]. split; [exact Rz|].
  split; [apply store_opt_room; exact Rm|].
  split; [exact Fz|]. split; [exact Fm|]. exact Hcap.
Qed.

End Stores.

Section Setters.
Import Curve.

Variable alloc_ok : Z -> bool.
Variable junkP : OGRRawPoint.
Variable junkD : float.
Variable bZeroizeNewContent_default : bool.

#[local] Abbreviation reach := (reach alloc_ok junkP junkD bZeroizeNewContent_default).

(** The growth that the setters ask for when the index is at or past the
    count. *)
Lemma reach_spec (c : OGRSimpleCurve) (iPoint : Z) :
  well_formed c -> 0 <= iPoint ->
  exists ok c',
    reach c iPoint = (ok, c')
    /\ well_formed c'
    /\ flags c' = flags c /\ isLinearRing c' = isLinearRing c
    /\ nPointCount c' = (if ok then Z.max (nPointCount c) (iPoint + 1) else nPointCount c)
    /\ (forall k, (k <= Z.to_nat (nPointCount c))%nat ->
          take k (default [] (paoPoints c')) = take k (default [] (paoPoints c))
          /\ take k (default [] (padfZ c')) = take k (default [] (padfZ c))
          /\ take k (default [] (padfM c')) = take k (default [] (padfM c)))
    /\ (ok = true -> bZeroizeNewContent_default = true ->
        forall i, nPointCount c <= Z.of_nat i < iPoint ->
          pt c' i = zeroPoint
          /\ (has3D c = true -> zAt c' i = 0%float)
          /\ (hasM c = true -> mAt c' i = 0%float))
    /\ (iPoint < m_nPointCapacity c -> iPoint < INT_MAX ->
        ok = true /\ m_nPointCapacity c' = m_nPointCapacity c)
    /\ (iPoint < setNumPoints_limit -> grants alloc_ok c (nNewCapacity c (iPoint + 1)) ->
        ok = true)
    /\ (ok = false -> nPointCount c <= iPoint).
Proof.
  intros Hwf H0. unfold Curve.reach.
  destruct (iPoint >=? nPointCount c) eqn:Hge.
  2: { rewrite Z.geb_leb in Hge. apply Z.leb_gt in Hge.
       eexists true, c. split; [reflexivity|]. split; [exact Hwf|].
       split; [reflexivity|]. split; [reflexivity|]. split; [simpl; lia|].
       split; [auto|]. split; [intros _ _ i Hi; lia|].
       split; [auto|]. split; [auto|]. discriminate. }
  rewrite Z.geb_leb in Hge. apply Z.leb_le in Hge.
  unfold CheckPointCount.
  destruct (Z.eqb_spec iPoint INT_MAX) as [Hmax|Hmax]; simpl.
  { eexists false, c. split; [reflexivity|]. split; [exact Hwf|].
    split; [reflexivity|]. split; [reflexivity|]. split; [reflexivity|].
    split; [auto|]. split; [discriminate|].
    destruct Hwf as (Hcnt & _).
    split; [intros Hc Hi; lia|].
    split; [intros Hl; unfold setNumPoints_limit, INT_MAX, sizeof_OGRRawPoint in *;
            rewrite Hmax in Hl; vm_compute in Hl; discriminate|].
    intros _. exact Hge. }
  destruct (setNumPoints_spec alloc_ok junkP junkD c (iPoint + 1)
              bZeroizeNewContent_default Hwf)
    as (ok & c' & log & E & W & F & R & N & P & Zr & Hin & _ & Hgr); [lia|].
  rewrite E. eexists ok, c'. split; [reflexivity|]. split; [exact W|].
  split; [exact F|]. split; [exact R|].
  split; [rewrite N; destruct ok; [lia|reflexivity]|].
  split; [exact P|].
  split; [intros Hok Hb i Hi; apply (Zr Hok Hb i); lia|].
  split; [intros Hc _; destruct Hin as (A & _ & B); [lia|]; split; assumption|].
  split; [intros Hl Hg; apply Hgr; [lia|exact Hg]|].
  intros _. exact Hge.
Qed.

Lemma points_length (c : OGRSimpleCurve) :
  well_formed c -> length (points c) = Z.to_nat (nPointCount c).
Proof.
  intros Hwf. destruct (well_formed_lengths c Hwf) as (L & _).
  unfold points. rewrite length_take. lia.
Qed.

Lemma Zvalues_length (c : OGRSimpleCurve) :
  well_formed c -> has3D c = true -> length (Zvalues c) = Z.to_nat (nPointCount c).
Proof.
  intros Hwf H3. destruct (well_formed_lengths c Hwf) as (_ & L & _).
  unfold Zvalues. rewrite length_take. specialize (L H3). lia.
Qed.

Lemma Mvalues_length (c : OGRSimpleCurve) :
  well_formed c -> hasM c = true -> length (Mvalues c) = Z.to_nat (nPointCount c).
Proof.
  intros Hwf HM. destruct (well_formed_lengths c Hwf) as (_ & _ & L & _).
  unfold Mvalues. rewrite length_take. specialize (L HM). lia.
Qed.

Lemma insert_last {A} (l l0 : list A) (n : nat) (v : A) :
  length l = S n -> take n l = l0 -> <[n := v]> l = l0 ++ [v].
Proof.
  intros Hl <-. rewrite <- (take_drop n l) at 1.
  rewrite insert_app_r_alt by (rewrite length_take; lia).
  rewrite length_take, Nat.min_l, Nat.sub_diag by lia.
  destruct (drop n l) as [|q [|q' rest]] eqn:Hd.
  - apply (f_equal length) in Hd. rewrite length_drop in Hd. simpl in Hd. lia.
  - reflexivity.
  - apply (f_equal length) in Hd. rewrite length_drop in Hd. simpl in Hd. lia.
Qed.

(** The points of a curve that was grown by one. *)
Lemma grown_by_one (c c1 : OGRSimpleCurve) :
  well_formed c -> well_formed c1 ->
  nPointCount c1 = nPointCount c + 1 ->
  take (Z.to_nat (nPointCount c)) (default [] (paoPoints c1))
  = take (Z.to_nat (nPointCount c)) (default [] (paoPoints c)) ->
  length (points c1) = S (Z.to_nat (nPointCount c))
  /\ take (Z.to_nat (nPointCount c)) (points c1) = points c.
Proof.
  intros Hwf W1 N1 P. destruct Hwf as (Hcnt & _).
  split; [rewrite (points_length c1 W1), N1; lia|].
  unfold points at 1. rewrite take_take, N1, Nat.min_l by lia. exact P.
Qed.

Lemma prefix_lookup {A} (l l' : list A) (k j : nat) :
  take k l' = take k l -> (j < k)%nat -> l' !! j = l !! j.
Proof.
  intros E Hj. rewrite <- (lookup_take_lt l' k j Hj), <- (lookup_take_lt l k j Hj), E.
  reflexivity.
Qed.

Lemma nth_lookup_in {A} (l : list A) (j : nat) (d v : A) :
  (j < length l)%nat -> nth j l d = v -> l !! j = Some v.
Proof.
  intros Hj <-. destruct (lookup_lt_is_Some_2 l j Hj) as (q & Hq).
  rewrite Hq. f_equal. symmetry. apply nth_lookup_Some. exact Hq.
Qed.

(** The first step of the setters that take a Z: the curve gets a Z
    array, zero-filled, when it has none. *)
Lemma first_Make3D (c : OGRSimpleCurve) :
  well_formed c ->
  exists ok0 c0,
    (if negb (has3D c) then Make3D alloc_ok c else (true, c)) = (ok0, c0)
    /\ well_formed c0
    /\ nPointCount c0 = nPointCount c
    /\ m_nPointCapacity c0 = m_nPointCapacity c
    /\ paoPoints c0 = paoPoints c
    /\ padfM c0 = padfM c
    /\ (ok0 = true ->
        has3D c0 = true
        /\ take (Z.to_nat (nPointCount c)) (default [] (padfZ c0))
           = (if has3D c then Zvalues c
              else replicate (Z.to_nat (nPointCount c)) 0%float))
    /\ ((forall n, alloc_ok n = true) -> ok0 = true).
Proof.
  intros Hwf. pose proof Hwf as (Hcnt & _).
  destruct (has3D c) eqn:H3; cbn [negb].
  - exists true, c. split; [reflexivity|]. split; [exact Hwf|]. repeat split; auto.
  - destruct (Make3D_spec alloc_ok c Hwf)
      as (ok0 & c0 & E0 & W0 & HM0 & N0 & C0 & X0 & M0 & R0 & Hok & Hgr).
    exists ok0, c0. split; [exact E0|]. split; [exact W0|]. split; [exact N0|].
    split; [exact C0|]. split; [exact X0|]. split; [exact M0|].
    split; [|intros Ha; apply Hgr, Ha].
    intros ->. destruct Hok as (H30 & Z0). split; [exact H30|].
    destruct (well_formed_lengths c Hwf) as (_ & _ & _ & Nz & _).
    rewrite Z0, (Nz H3). simpl. rewrite take_replicate. f_equal. lia.
Qed.

(** [getZ] within the count, read on the Z values. *)
Lemma getZ_lookup (c : OGRSimpleCurve) (j : Z) :
  well_formed c -> 0 <= j < nPointCount c ->
  getZ c j = default 0%float
               ((if has3D c then Zvalues c
                 else replicate (Z.to_nat (nPointCount c)) 0%float) !! Z.to_nat j).
Proof.
  intros Hwf Hj. pose proof Hwf as (Hcnt & _ & _ & _ & Fz & _ & Hcap).
  unfold getZ.
  replace (j >=? 0) with true by (symmetry; rewrite Z.geb_leb; apply Z.leb_le; lia).
  replace (j <? nPointCount c) with true by (symmetry; apply Z.ltb_lt; lia).
  destruct (has3D c) eqn:H3.
  - destruct (Hcap ltac:(lia)) as (_ & Hz & _). rewrite (Hz eq_refl). cbn [negb andb].
    unfold zAt, Zvalues. rewrite lookup_take_lt by lia. apply nth_lookup.
  - rewrite !andb_false_r. rewrite lookup_replicate_2 by lia. reflexivity.
Qed.

End Setters.

(** ** [removePoint] *)

Section Removal.
Import Curve.
#[local] Open Scope nat_scope.

Lemma memmove_length {A} (i cnt : nat) (l : list A) :
  (S i + cnt <= length l)%nat -> length (memmove i (S i) cnt l) = length l.
Proof.
  intros H. unfold memmove.
  rewrite !length_app, !length_take, !length_drop. lia.
Qed.

Lemma memmove_delete {A} (i n : nat) (l : list A) :
  (i < n)%nat -> (n <= length l)%nat ->
  take (n - 1) (memmove i (S i) (n - 1 - i) l) = delete i (take n l).
Proof.
  intros Hi Hn. unfold memmove.
  rewrite app_assoc, take_app_le
    by (rewrite length_app, !length_take, length_drop; lia).
  rewrite firstn_all2 by (rewrite length_app, !length_take, length_drop; lia).
  rewrite delete_take_drop, take_take, Nat.min_l by lia.
  f_equal. rewrite take_drop_commute. f_equal. f_equal. lia.
Qed.

Lemma delete_last_take {A} (n : nat) (l : list A) :
  (0 < n)%nat -> take (n - 1) l = delete (n - 1) (take n l).
Proof.
  intros Hn. rewrite delete_take_drop, take_take, Nat.min_l by lia.
  replace (S (n - 1)) with n by lia.
  rewrite drop_ge by (rewrite length_take; lia). rewrite app_nil_r. reflexivity.
Qed.

(** One array through the removal of the element at [i] among [n]. *)
Lemma removed_plane {A} (i n : nat) (p : option (list A)) (cap : Z) :
  i < n -> (Z.of_nat n <= cap)%Z -> room p cap ->
  let p' := if (i <? n - 1)%nat then option_map (memmove i (S i) (n - 1 - i)) p else p in
  room p' cap
  /\ is_null p' = is_null p
  /\ take (n - 1) (default [] p') = delete i (take n (default [] p)).
Proof.
  intros Hi Hn Hr. cbv zeta.
  destruct p as [l|].
  2: { destruct (i <? n - 1)%nat; simpl; (split; [apply room_null|]);
         (split; [reflexivity|]); rewrite !take_nil; reflexivity. }
  specialize (Hr l eq_refl).
  destruct (Nat.ltb_spec i (n - 1)) as [Hlt|Hge]; simpl.
  - split; [intros l' [= <-]; rewrite memmove_length; lia|].
    split; [reflexivity|]. apply memmove_delete; lia.
  - split; [intros l' [= <-]; lia|]. split; [reflexivity|].
    replace i with (n - 1)%nat by lia. apply delete_last_take. lia.
Qed.

End Removal.

(** ** The order of the doubles that are not NaN

    [v == v] is false of a NaN alone, so [feq v v = true] says that [v] is
    a number. *)

Lemma fle_flt_feq (a b : float) : fle a b = flt a b || feq a b.
Proof.
  unfold fle, flt, feq.
  rewrite FloatAxioms.leb_spec, FloatAxioms.ltb_spec, FloatAxioms.eqb_spec.
  unfold SFleb, SFltb, SFeqb.
  destruct (SFcompare (Prim2SF a) (Prim2SF b)) as [[ | | ]|]; reflexivity.
Qed.

Lemma lexcmp_antisym (a b : Z * Z * Z) : lexcmp b a = CompOpp (lexcmp a b).
Proof.
  destruct a as [[a1 a2] a3], b as [[b1 b2] b3]. unfold lexcmp.
  rewrite (Z.compare_antisym a1 b1), (Z.compare_antisym a2 b2), (Z.compare_antisym a3 b3).
  destruct (a1 ?= b1); simpl; try reflexivity.
  destruct (a2 ?= b2); simpl; reflexivity.
Qed.

Lemma flt_total (a b : float) :
  feq a a = true -> feq b b = true -> flt a b = false -> fle b a = true.
Proof.
  intros Ha Hb Hlt. rewrite fle_flt_feq.
  apply feq_key in Ha as (ka & Ka & _). apply feq_key in Hb as (kb & Kb & _).
  destruct (lexcmp ka kb) eqn:E.
  - apply lexcmp_Eq in E. subst kb.
    replace (feq b a) with true; [apply orb_true_r|].
    symmetry. apply feq_key. exists ka. auto.
  - assert (flt a b = true) by (apply flt_key; exists ka, kb; auto). congruence.
  - replace (flt b a) with true; [reflexivity|].
    symmetry. apply flt_key. exists kb, ka. repeat split; try assumption.
    rewrite lexcmp_antisym, E. reflexivity.
Qed.

Lemma fle_refl (a : float) : feq a a = true -> fle a a = true.
Proof. intros H. rewrite fle_flt_feq, H. apply orb_true_r. Qed.

Lemma flt_fle (a b : float) : flt a b = true -> fle a b = true.
Proof. intros H. rewrite fle_flt_feq, H. reflexivity. Qed.

Lemma fle_flt_trans (a b c : float) : fle a b = true -> flt b c = true -> flt a c = true.
Proof.
  rewrite fle_flt_feq. intros Hab Hbc. apply orb_prop in Hab as [H|H].
  - apply (flt_trans a b c H Hbc).
  - apply (feq_flt a b c H Hbc).
Qed.

Lemma flt_fle_trans (a b c : float) : flt a b = true -> fle b c = true -> flt a c = true.
Proof.
  rewrite fle_flt_feq. intros Hab Hbc. apply orb_prop in Hbc as [H|H].
  - apply (flt_trans a b c Hab H).
  - apply (flt_feq a b c Hab H).
Qed.

Lemma flt_number (a b : float) : flt a b = true -> feq a a = true /\ feq b b = true.
Proof.
  intros H. apply flt_key in H as (ka & kb & Ka & Kb & _).
  split; apply feq_key; eauto.
Qed.

Lemma nan_flt (a b : float) : feq a a = false -> flt a b = false /\ flt b a = false.
Proof.
  intros Hn. split.
  - destruct (flt a b) eqn:E; [|reflexivity]. apply flt_number in E as (E & _). congruence.
  - destruct (flt b a) eqn:E; [|reflexivity]. apply flt_number in E as (_ & E). congruence.
Qed.

(** The running maximum and the running minimum of a loop that compares
    with [<] and [>]: over numbers, the result bounds every value seen and
    is one of them. *)
Lemma running_max_spec (f : nat -> float) (l : list nat) (m0 : float) :
  feq m0 m0 = true -> (forall i, In i l -> feq (f i) (f i) = true) ->
  let m := fold_left (fun m i => if flt m (f i) then f i else m) l m0 in
  fle m0 m = true
  /\ (forall i, In i l -> fle (f i) m = true)
  /\ (m = m0 \/ exists i, In i l /\ m = f i)
  /\ feq m m = true.
Proof.
  revert m0. induction l as [|j l IH]; intros m0 H0 Hl; cbv zeta.
  - simpl. split; [apply fle_refl, H0|]. split; [intros i []|]. split; [left; reflexivity|].
    exact H0.
  - simpl. set (m1 := if flt m0 (f j) then f j else m0).
    assert (Hj : feq (f j) (f j) = true) by (apply Hl; left; reflexivity).
    assert (H1 : feq m1 m1 = true) by (unfold m1; destruct (flt m0 (f j)); assumption).
    destruct (IH m1 H1) as (A & B & C & D); [intros i Hi; apply Hl; right; exact Hi|].
    assert (L0 : fle m0 m1 = true).
    { unfold m1. destruct (flt m0 (f j)) eqn:E; [apply flt_fle, E|apply fle_refl, H0]. }
    assert (Lj : fle (f j) m1 = true).
    { unfold m1. destruct (flt m0 (f j)) eqn:E; [apply fle_refl, Hj|].
      apply flt_total; assumption. }
    assert (Htr : forall a, fle a m1 = true ->
                       fle a (fold_left (fun m i => if flt m (f i) then f i else m) l m1)
                       = true).
    { intros a Ha. rewrite fle_flt_feq in A.
      apply orb_prop in A as [A|A].
      - rewrite fle_flt_feq. rewrite (fle_flt_trans _ _ _ Ha A). reflexivity.
      - rewrite fle_flt_feq in Ha. apply orb_prop in Ha as [Ha|Ha].
        + rewrite fle_flt_feq, (flt_feq _ _ _ Ha A). reflexivity.
        + rewrite fle_flt_feq, (feq_trans _ _ _ Ha A). apply orb_true_r. }
    split; [apply Htr, L0|].
    split; [intros i [<-|Hi]; [apply Htr, Lj|apply B, Hi]|].
    split; [|exact D].
    destruct C as [C|(i & Hi & C)].
    + rewrite C. unfold m1. destruct (flt m0 (f j)); [right; exists j; split; [left|]|left];
        reflexivity.
    + right. exists i. split; [right; exact Hi|exact C].
Qed.

Lemma running_min_spec (f : nat -> float) (l : list nat) (m0 : float) :
  feq m0 m0 = true -> (forall i, In i l -> feq (f i) (f i) = true) ->
  let m := fold_left (fun m i => if fgt m (f i) then f i else m) l m0 in
  fle m m0 = true
  /\ (forall i, In i l -> fle m (f i) = true)
  /\ (m = m0 \/ exists i, In i l /\ m = f i)
  /\ feq m m = true.
Proof.
  revert m0. induction l as [|j l IH]; intros m0 H0 Hl; cbv zeta.
  - simpl. split; [apply fle_refl, H0|]. split; [intros i []|]. split; [left; reflexivity|].
    exact H0.
  - simpl. set (m1 := if fgt m0 (f j) then f j else m0).
    assert (Hj : feq (f j) (f j) = true) by (apply Hl; left; reflexivity).
    assert (H1 : feq m1 m1 = true) by (unfold m1; destruct (fgt m0 (f j)); assumption).
    destruct (IH m1 H1) as (A & B & C & D); [intros i Hi; apply Hl; right; exact Hi|].
    assert (L0 : fle m1 m0 = true).
    { unfold m1. change (fgt m0 (f j)) with (flt (f j) m0). destruct (flt (f j) m0) eqn:E; [apply flt_fle, E|apply fle_refl, H0]. }
    assert (Lj : fle m1 (f j) = true).
    { unfold m1. change (fgt m0 (f j)) with (flt (f j) m0). destruct (flt (f j) m0) eqn:E; [apply fle_refl, Hj|].
      apply flt_total; assumption. }
    assert (Htr : forall a, fle m1 a = true ->
                       fle (fold_left (fun m i => if fgt m (f i) then f i else m) l m1) a
                       = true).
    { intros a Ha. rewrite fle_flt_feq in A.
      apply orb_prop in A as [A|A].
      - rewrite fle_flt_feq. rewrite (flt_fle_trans _ _ _ A Ha). reflexivity.
      - rewrite fle_flt_feq in Ha. apply orb_prop in Ha as [Ha|Ha].
        + rewrite fle_flt_feq, (feq_flt _ _ _ A Ha). reflexivity.
        + rewrite fle_flt_feq, (feq_trans _ _ _ A Ha). apply orb_true_r. }
    split; [apply Htr, L0|].
    split; [intros i [<-|Hi]; [apply Htr, Lj|apply B, Hi]|].
    split; [|exact D].
    destruct C as [C|(i & Hi & C)].
    + rewrite C. unfold m1. destruct (fgt m0 (f j)); [right; exists j; split; [left|]|left];
        reflexivity.
    + right. exists i. split; [right; exact Hi|exact C].
Qed.

(** A NaN at the start stays: every comparison with it is false. *)
Lemma running_nan (f : nat -> float) (l : list nat) (m0 : float) :
  feq m0 m0 = false ->
  fold_left (fun m i => if flt m (f i) then f i else m) l m0 = m0
  /\ fold_left (fun m i => if fgt m (f i) then f i else m) l m0 = m0.
Proof.
  intros Hn. induction l as [|j l (IH1 & IH2)]; [split; reflexivity|].
  simpl. change (fgt m0 (f j)) with (flt (f j) m0).
  destruct (nan_flt m0 (f j) Hn) as (-> & ->). auto.
Qed.

(** ** [getEnvelope]: the four bounds as four loops *)

Section Envelope.
Import Curve.

Lemma envelope_fold (c : OGRSimpleCurve) (l : list nat) (e : OGREnvelope) :
  let e' := fold_left (envelope_step c) l e in
  MinX e' = fold_left (fun m i => if fgt m (x (pt c i)) then x (pt c i) else m) l (MinX e)
  /\ MaxX e' = fold_left (fun m i => if flt m (x (pt c i)) then x (pt c i) else m) l (MaxX e)
  /\ MinY e' = fold_left (fun m i => if fgt m (y (pt c i)) then y (pt c i) else m) l (MinY e)
  /\ MaxY e' = fold_left (fun m i => if flt m (y (pt c i)) then y (pt c i) else m) l (MaxY e).
Proof.
  revert e. induction l as [|j l IH]; intros e; cbv zeta; [simpl; auto|].
  simpl. destruct (IH (envelope_step c e j)) as (A & B & C & D).
  rewrite A, B, C, D. unfold envelope_step. simpl. auto.
Qed.

Lemma envelopeZ_fold (c : OGRSimpleCurve) (l : list nat) (mm : float * float) :
  let mm' := fold_left (envelopeZ_step c) l mm in
  fst mm' = fold_left (fun m i => if fgt m (zAt c i) then zAt c i else m) l (fst mm)
  /\ snd mm' = fold_left (fun m i => if flt m (zAt c i) then zAt c i else m) l (snd mm).
Proof.
  revert mm. induction l as [|j l IH]; intros [a b]; cbv zeta; [simpl; auto|].
  cbn [fold_left]. destruct (IH (envelopeZ_step c (a, b) j)) as (A & B).
  rewrite A, B. unfold envelopeZ_step. cbn [fst snd]. auto.
Qed.

(** The running minimum and maximum over all the vertices. *)
Lemma bounds_over (f : nat -> float) (n : nat) :
  (0 < n)%nat -> (forall i, (i < n)%nat -> feq (f i) (f i) = true) ->
  let lo := fold_left (fun m i => if fgt m (f i) then f i else m) (seq 1 (n - 1)) (f 0%nat) in
  let hi := fold_left (fun m i => if flt m (f i) then f i else m) (seq 1 (n - 1)) (f 0%nat) in
  (forall i, (i < n)%nat -> fle lo (f i) = true /\ fle (f i) hi = true)
  /\ (exists i, (i < n)%nat /\ lo = f i)
  /\ (exists i, (i < n)%nat /\ hi = f i).
Proof.
  intros Hn Hnum. cbv zeta.
  assert (Hin : forall i, In i (seq 1 (n - 1)) -> feq (f i) (f i) = true)
    by (intros i Hi; apply in_seq in Hi; apply Hnum; lia).
  destruct (running_min_spec f (seq 1 (n - 1)) (f 0%nat) (Hnum 0%nat Hn) Hin)
    as (A1 & B1 & C1 & _).
  destruct (running_max_spec f (seq 1 (n - 1)) (f 0%nat) (Hnum 0%nat Hn) Hin)
    as (A2 & B2 & C2 & _).
  split; [|split].
  - intros i Hi. destruct i as [|i].
    + split; assumption.
    + split; [apply B1|apply B2]; apply in_seq; lia.
  - destruct C1 as [C1|(i & Hi & C1)].
    + exists 0%nat. split; [exact Hn|exact C1].
    + exists i. apply in_seq in Hi. split; [lia|exact C1].
  - destruct C2 as [C2|(i & Hi & C2)].
    + exists 0%nat. split; [exact Hn|exact C2].
    + exists i. apply in_seq in Hi. split; [lia|exact C2].
Qed.

End Envelope.

(** ** [swapXY] and [reversePoints] on the counted points *)

Section Exchange.
Import Curve.

Lemma swapXY_pt (c : OGRSimpleCurve) (i : nat) :
  (i < Z.to_nat (nPointCount c))%nat ->
  pt (swapXY c) i = mkRawPoint (y (pt c i)) (x (pt c i)).
Proof.
  intros Hi. unfold pt, swapXY. cbn [paoPoints set_paoPoints].
  destruct (paoPoints c) as [l|]; simpl; [|destruct i; reflexivity].
  set (n := Z.to_nat (nPointCount c)) in *.
  destruct (Nat.lt_ge_cases i (length l)) as [Hl|Hl].
  - rewrite app_nth1 by (rewrite length_map, length_take; lia).
    change zeroPoint with ((fun p => mkRawPoint (y p) (x p)) zeroPoint) at 1.
    rewrite map_nth. f_equal; f_equal;
      rewrite !nth_lookup, lookup_take_lt by lia; reflexivity.
  - rewrite (nth_overflow l) by lia.
    rewrite nth_overflow; [reflexivity|].
    rewrite length_app, length_map, length_take, length_drop. lia.
Qed.

Lemma swapXY_twice_list (n : nat) (l : list OGRRawPoint) :
  let g l := map (fun p => mkRawPoint (y p) (x p)) (take n l) ++ drop n l in
  g (g l) = l.
Proof.
  cbv zeta.
  assert (Hsw : forall l' : list OGRRawPoint,
             map (fun p => mkRawPoint (y p) (x p)) (map (fun p => mkRawPoint (y p) (x p)) l')
             = l').
  { intros l'. rewrite map_map. rewrite <- (map_id l') at 2. apply map_ext.
    intros [a b]. reflexivity. }
  destruct (Nat.le_gt_cases n (length l)) as [Hn|Hn].
  - rewrite take_app_length' by (rewrite length_map, length_take; lia).
    rewrite drop_app_length' by (rewrite length_map, length_take; lia).
    rewrite Hsw. apply take_drop.
  - rewrite (take_ge l), (drop_ge l), app_nil_r by lia.
    rewrite take_ge, drop_ge, app_nil_r by (rewrite length_map; lia).
    apply Hsw.
Qed.

(** One array through [reversePoints]. *)
Lemma reversed_plane {A} (n : nat) (p : option (list A)) (cap : Z) :
  Z.of_nat n <= cap -> room p cap ->
  let p' := option_map (reverse_loop n (n / 2)) p in
  room p' cap
  /\ is_null p' = is_null p
  /\ take n (default [] p') = reverse (take n (default [] p))
  /\ option_map (reverse_loop n (n / 2)) p' = p.
Proof.
  intros Hn Hr. cbv zeta. destruct p as [l|]; simpl.
  2: { split; [apply room_null|]. split; [reflexivity|]. rewrite take_nil. auto. }
  specialize (Hr l eq_refl).
  assert (Hl : (n <= length l)%nat) by lia.
  split; [intros l' [= <-]; rewrite reverse_loop_length; lia|].
  split; [reflexivity|]. split.
  - rewrite reverse_loop_reverse by exact Hl.
    apply take_app_length'. rewrite length_reverse, length_take. lia.
  - rewrite reverse_loop_involutive by exact Hl. reflexivity.
Qed.

End Exchange.

(** ** Copies into and out of the arrays *)

Section Copies.
Import Curve.

Lemma memcpy_plane {A} (n : nat) (src : list A) (p : option (list A)) (cap : Z) :
  (n <= length src)%nat -> Z.of_nat n <= cap -> room p cap ->
  let p' := option_map (memcpy n src) p in
  room p' cap
  /\ is_null p' = is_null p
  /\ (is_null p = false -> take n (default [] p') = take n src).
Proof.
  intros Hs Hn Hr. cbv zeta. destruct p as [l|]; simpl.
  2: { split; [apply room_null|]. split; [reflexivity|discriminate]. }
  specialize (Hr l eq_refl). unfold memcpy.
  split; [intros l' [= <-]; rewrite length_app, length_take, length_drop; lia|].
  split; [reflexivity|]. intros _.
  apply take_app_length'. rewrite length_take. lia.
Qed.

End Copies.

(** ** Setters that take an M *)

Section Measures.
Import Curve.

Variable alloc_ok : Z -> bool.

(** The first step of the setters that take an M: the curve gets an M
    array, zero-filled, when it has none. *)
Lemma first_AddM (c : OGRSimpleCurve) :
  well_formed c ->
  exists ok0 c0,
    (if negb (hasM c) then AddM alloc_ok c else (true, c)) = (ok0, c0)
    /\ well_formed c0
    /\ nPointCount c0 = nPointCount c
    /\ m_nPointCapacity c0 = m_nPointCapacity c
    /\ paoPoints c0 = paoPoints c
    /\ padfZ c0 = padfZ c
    /\ has3D c0 = has3D c
    /\ (ok0 = true ->
        hasM c0 = true
        /\ take (Z.to_nat (nPointCount c)) (default [] (padfM c0))
           = (if hasM c then Mvalues c
              else replicate (Z.to_nat (nPointCount c)) 0%float))
    /\ ((forall n, alloc_ok n = true) -> ok0 = true).
Proof.
  intros Hwf. pose proof Hwf as (Hcnt & _).
  destruct (hasM c) eqn:HM; cbn [negb].
  - exists true, c. split; [reflexivity|]. split; [exact Hwf|]. repeat split; auto.
  - destruct (AddM_spec alloc_ok c Hwf)
      as (ok0 & c0 & E0 & W0 & H30 & N0 & C0 & X0 & Z0 & R0 & Hok & Hgr).
    exists ok0, c0. split; [exact E0|]. split; [exact W0|]. split; [exact N0|].
    split; [exact C0|]. split; [exact X0|]. split; [exact Z0|]. split; [exact H30|].
    split; [|intros Ha; apply Hgr, Ha].
    intros ->. destruct Hok as (HM0 & M0). split; [exact HM0|].
    destruct (well_formed_lengths c Hwf) as (_ & _ & _ & _ & Nm).
    rewrite M0, (Nm HM). simpl. rewrite take_replicate. f_equal. lia.
Qed.

(** [getM] within the count, read on the M values. *)
Lemma getM_lookup (c : OGRSimpleCurve) (j : Z) :
  well_formed c -> 0 <= j < nPointCount c ->
  getM c j = default 0%float
               ((if hasM c then Mvalues c
                 else replicate (Z.to_nat (nPointCount c)) 0%float) !! Z.to_nat j).
Proof.
  intros Hwf Hj. pose proof Hwf as (Hcnt & _ & _ & _ & _ & Fm & Hcap).
  unfold getM.
  replace (j >=? 0) with true by (symmetry; rewrite Z.geb_leb; apply Z.leb_le; lia).
  replace (j <? nPointCount c) with true by (symmetry; apply Z.ltb_lt; lia).
  destruct (hasM c) eqn:HM.
  - destruct (Hcap ltac:(lia)) as (_ & _ & Hm). rewrite (Hm eq_refl). cbn [negb andb].
    unfold mAt, Mvalues. rewrite lookup_take_lt by lia. apply nth_lookup.
  - rewrite !andb_false_r. rewrite lookup_replicate_2 by lia. reflexivity.
Qed.

End Measures.

(** ** Copies of a range of vertices *)

Section SubLine.
Import Curve.

(** The stores of the copy in reverse, one after the other. *)
Lemma copy_reversed_spec {A} (d : A) (src : list A) (s old : Z) (k : nat) (dst : list A) :
  0 <= old -> (Z.to_nat old + k <= length dst)%nat ->
  copy_reversed d src s old k dst
  = take (Z.to_nat old) dst
    ++ map (fun i => nth (Z.to_nat (s - Z.of_nat i)) src d) (seq 0 k)
    ++ drop (Z.to_nat old + k) dst.
Proof.
  intros Hold. unfold copy_reversed. induction k as [|k IH]; intros Hlen.
  - simpl. rewrite Nat.add_0_r, take_drop. reflexivity.
  - rewrite seq_S, fold_left_app, map_app. cbn [fold_left map Nat.add].
    rewrite IH by lia. unfold store.
    replace (Z.of_nat k + old <? 0) with false by (symmetry; apply Z.ltb_ge; lia).
    replace (Z.to_nat (Z.of_nat k + old)) with (Z.to_nat old + k)%nat by lia.
    rewrite insert_app_r_alt by (rewrite length_take; lia).
    rewrite length_take, Nat.min_l by lia.
    rewrite insert_app_r_alt by (rewrite length_map, length_seq; lia).
    rewrite length_map, length_seq.
    replace (Z.to_nat old + k - Z.to_nat old - k)%nat with 0%nat by lia.
    destruct (drop (Z.to_nat old + k) dst) as [|q rest] eqn:Hd.
    { apply (f_equal length) in Hd. rewrite length_drop in Hd. simpl in Hd. lia. }
    cbn [insert list_insert]. rewrite <- app_assoc. cbn [app].
    do 3 f_equal.
    replace (Z.to_nat old + S k)%nat with (Z.to_nat old + k + 1)%nat by lia.
    rewrite <- drop_drop, Hd. reflexivity.
Qed.

(** The entries from [s] down over [k] places are the range that ends at
    [s], reversed. *)
Lemma descending_range {A} (d : A) (src : list A) (s : Z) (k : nat) :
  0 <= s -> (k <= Z.to_nat s + 1)%nat -> (Z.to_nat s < length src)%nat ->
  map (fun i => nth (Z.to_nat (s - Z.of_nat i)) src d) (seq 0 k)
  = reverse (take k (drop (Z.to_nat s + 1 - k) src)).
Proof.
  intros Hs. induction k as [|k IH]; intros Hk Hlen; [reflexivity|].
  rewrite seq_S, map_app, IH by lia. cbn [map Nat.add].
  replace (Z.to_nat s + 1 - S k)%nat with (Z.to_nat s - k)%nat by lia.
  replace (Z.to_nat s + 1 - k)%nat with (S (Z.to_nat s - k)) by lia.
  destruct (lookup_lt_is_Some_2 src (Z.to_nat s - k) ltac:(lia)) as (q & Hq).
  rewrite (drop_S _ _ _ Hq). cbn [take]. rewrite reverse_cons. do 2 f_equal.
  replace (Z.to_nat (s - Z.of_nat k)) with (Z.to_nat s - k)%nat by lia.
  apply nth_lookup_Some. exact Hq.
Qed.

(** The first [old + k] entries of an array after the copy of the range
    from [s] to [e] behind its first [old] entries. *)
Lemma copy_vertices_spec {A} (d : A) (src : list A) (s e old : Z) (dst : list A) :
  let k := Z.to_nat (Z.abs (e - s) + 1) in
  0 <= old -> 0 <= s -> 0 <= e ->
  (Z.to_nat s < length src)%nat -> (Z.to_nat e < length src)%nat ->
  (Z.to_nat old + k <= length dst)%nat ->
  length (copy_vertices d src s e old k dst) = length dst
  /\ take (Z.to_nat old + k) (copy_vertices d src s e old k dst)
     = take (Z.to_nat old) dst ++ sub_line s e src.
Proof.
  intros k Hold Hs He Hsl Hel Hlen. unfold copy_vertices, sub_line.
  destruct (Z.geb_spec e s) as [Hge|Hlt].
  - unfold copy_forward.
    assert (Hk : k = Z.to_nat (e - s + 1)) by (unfold k; lia).
    assert (Hsub : length (take k (drop (Z.to_nat s) src)) = k).
    { rewrite length_take, length_drop. lia. }
    split.
    + rewrite !length_app, Hsub, length_take, length_drop. lia.
    + rewrite app_assoc, take_app_length'.
      * rewrite Hk. reflexivity.
      * rewrite length_app, Hsub, length_take. lia.
  - rewrite copy_reversed_spec by assumption.
    assert (Hk : k = Z.to_nat (s - e + 1)) by (unfold k; lia).
    rewrite descending_range by lia.
    assert (Hsub : length (reverse (take k (drop (Z.to_nat s + 1 - k) src))) = k).
    { rewrite length_reverse, length_take, length_drop. lia. }
    split.
    + rewrite !length_app, Hsub, length_take, length_drop. lia.
    + rewrite app_assoc, take_app_length'.
      * rewrite Hk.
        replace (Z.to_nat s + 1 - Z.to_nat (s - e + 1))%nat with (Z.to_nat e) by lia.
        reflexivity.
      * rewrite length_app, Hsub, length_take. lia.
Qed.

(** A range within the count is a range of the counted entries. *)
Lemma sub_line_take {A} (s e : Z) (n : nat) (l : list A) :
  0 <= s -> 0 <= e -> (Z.to_nat s < n)%nat -> (Z.to_nat e < n)%nat ->
  sub_line s e (take n l) = sub_line s e l.
Proof.
  intros Hs He Hsn Hen. unfold sub_line.
  destruct (Z.geb_spec e s).
  - rewrite skipn_firstn_comm, take_take. f_equal. lia.
  - rewrite skipn_firstn_comm, take_take. do 2 f_equal. lia.
Qed.

Lemma sub_line_length {A} (s e : Z) (l : list A) :
  0 <= s -> 0 <= e -> (Z.to_nat s < length l)%nat -> (Z.to_nat e < length l)%nat ->
  length (sub_line s e l) = Z.to_nat (Z.abs (e - s) + 1).
Proof.
  intros Hs He Hsl Hel. unfold sub_line.
  destruct (Z.geb_spec e s).
  - rewrite length_take, length_drop. lia.
  - rewrite length_reverse, length_take, length_drop. lia.
Qed.

(** The copy into an array of a curve. *)
Lemma copy_plane {A} (d : A) (src : list A) (s e old : Z) (p : option (list A)) (cap : Z) :
  let k := Z.to_nat (Z.abs (e - s) + 1) in
  0 <= old -> 0 <= s -> 0 <= e ->
  (Z.to_nat s < length src)%nat -> (Z.to_nat e < length src)%nat ->
  old + Z.of_nat k <= cap -> room p cap ->
  let p' := option_map (copy_vertices d src s e old k) p in
  room p' cap
  /\ is_null p' = is_null p
  /\ (is_null p = false ->
      take (Z.to_nat old + k) (default [] p')
      = take (Z.to_nat old) (default [] p) ++ sub_line s e src).
Proof.
  intros k Hold Hs He Hsl Hel Hcap Hr. cbv zeta. destruct p as [l|]; simpl.
  2: { split; [apply room_null|]. split; [reflexivity|discriminate]. }
  specialize (Hr l eq_refl).
  destruct (copy_vertices_spec d src s e old l Hold Hs He Hsl Hel ltac:(fold k; lia))
    as (Hlen & Htake).
  fold k in Hlen, Htake.
  split; [intros l' [= <-]; rewrite Hlen; exact Hr|].
  split; [reflexivity|]. intros _. exact Htake.
Qed.

(** An array replaced by one of the same kind keeps the curve
    consistent. *)
Lemma well_formed_set_paoPoints (c : OGRSimpleCurve) (p : option (list OGRRawPoint)) :
  well_formed c -> room p (m_nPointCapacity c) -> is_null p = is_null (paoPoints c) ->
  well_formed (set_paoPoints p c).
Proof.
  intros (Hcnt & Rxy & Rz & Rm & Fz & Fm & Hcap) Hr Hn.
  unfold well_formed, has3D, hasM.
  cbn [nPointCount m_nPointCapacity flags paoPoints padfZ padfM set_paoPoints].
  rewrite Hn.
  split; [exact Hcnt|]. split; [exact Hr|]. split; [exact Rz|]. split; [exact Rm|].
  split; [exact Fz|]. split; [exact Fm|]. exact Hcap.
Qed.

Lemma well_formed_set_padfZ (c : OGRSimpleCurve) (p : option (list float)) :
  well_formed c -> room p (m_nPointCapacity c) -> is_null p = is_null (padfZ c) ->
  well_formed (set_padfZ p c).
Proof.
  intros (Hcnt & Rxy & Rz & Rm & Fz & Fm & Hcap) Hr Hn.
  unfold well_formed, has3D, hasM.
  cbn [nPointCount m_nPointCapacity flags paoPoints padfZ padfM set_padfZ].
  rewrite Hn.
  split; [exact Hcnt|]. split; [exact Rxy|]. split; [exact Hr|]. split; [exact Rm|].
  split; [exact Fz|]. split; [exact Fm|]. exact Hcap.
Qed.

Lemma well_formed_set_padfM (c : OGRSimpleCurve) (p : option (list float)) :
  well_formed c -> room p (m_nPointCapacity c) -> is_null p = is_null (padfM c) ->
  well_formed (set_padfM p c).
Proof.
  intros (Hcnt & Rxy & Rz & Rm & Fz & Fm & Hcap) Hr Hn.
  unfold well_formed, has3D, hasM.
  cbn [nPointCount m_nPointCapacity flags paoPoints padfZ padfM set_padfM].
  rewrite Hn.
  split; [exact Hcnt|]. split; [exact Rxy|]. split; [exact Rz|]. split; [exact Hr|].
  split; [exact Fz|]. split; [exact Fm|]. exact Hcap.
Qed.

Variable alloc_ok : Z -> bool.

(** The Z values after the copy of a range of the other line: the curve
    gets a Z array when the other line has one. *)
Lemma subline_Z_step (c2 other : OGRSimpleCurve) (s e old : Z) :
  let k := Z.to_nat (Z.abs (e - s) + 1) in
  well_formed c2 -> well_formed other -> 0 <= old ->
  0 <= s < nPointCount other -> 0 <= e < nPointCount other ->
  nPointCount c2 = old + Z.of_nat k ->
  let c3 := match padfZ other with
            | None => c2
            | Some z =>
                let c := snd (Make3D alloc_ok c2) in
                set_padfZ (option_map (copy_vertices 0%float z s e old k) (padfZ c)) c
            end in
  let before := if has3D c2 then take (Z.to_nat old) (default [] (padfZ c2))
                else replicate (Z.to_nat old) 0%float in
  well_formed c3
  /\ nPointCount c3 = nPointCount c2
  /\ m_nPointCapacity c3 = m_nPointCapacity c2
  /\ paoPoints c3 = paoPoints c2
  /\ padfM c3 = padfM c2
  /\ hasM c3 = hasM c2
  /\ (has3D c2 = true -> has3D c3 = true)
  /\ (has3D c3 = true -> has3D c2 = true \/ has3D other = true)
  /\ (has3D c3 = true -> take (Z.to_nat old) (default [] (padfZ c3)) = before)
  /\ (has3D other = true -> has3D c3 = true ->
      take (Z.to_nat old + k) (default [] (padfZ c3))
      = before ++ sub_line s e (Zvalues other))
  /\ ((forall n, alloc_ok n = true) -> has3D other = true -> has3D c3 = true).
Proof.
  intros k W2 Wo Hold Hs He N2 c3 before.
  pose proof W2 as (Hcnt2 & _ & Rz2 & _ & Fz2 & _ & Hcap2).
  pose proof Wo as (Hcnto & _ & _ & _ & Fzo & _ & Hcapo).
  destruct (well_formed_lengths c2 W2) as (_ & Lz2 & _ & Nz2 & _).
  destruct (well_formed_lengths other Wo) as (_ & Lzo & _ & Nzo & _).
  destruct (padfZ other) as [z|] eqn:Hzo.
  - (* the other line has a Z array *)
    assert (H3o : has3D other = true) by (apply Fzo; reflexivity).
    specialize (Lzo H3o). simpl in Lzo.
    assert (Hsub : sub_line s e (Zvalues other) = sub_line s e z).
    { unfold Zvalues. rewrite Hzo. simpl. apply sub_line_take; lia. }
    destruct (Make3D_spec alloc_ok c2 W2)
      as (ok & cm & E & Wm & HMm & Nm & Cm & Xm & Mm & Rm & Hok & Hgr).
    subst c3. rewrite E. cbn [snd]. cbv zeta.
    pose proof Wm as (_ & _ & Rzm & _).
    destruct (copy_plane 0%float z s e old (padfZ cm) (m_nPointCapacity cm)
                Hold ltac:(lia) ltac:(lia) ltac:(lia) ltac:(lia) ltac:(fold k; lia) Rzm)
      as (Rz3 & Nz3 & Pz3).
    fold k in Rz3, Nz3, Pz3.
    set (p' := option_map (copy_vertices 0%float z s e old k) (padfZ cm)) in *.
    split; [apply well_formed_set_padfZ; assumption|].
    split; [exact Nm|]. split; [exact Cm|]. split; [exact Xm|]. split; [exact Mm|].
    split; [exact HMm|].
    change (has3D (set_padfZ p' cm)) with (has3D cm).
    cbn [padfZ set_padfZ].
    destruct ok.
    + destruct Hok as (H3m & Zm).
      assert (Hnn : is_null (padfZ cm) = false).
      { rewrite Zm. destruct (padfZ c2); reflexivity. }
      assert (Hbefore : take (Z.to_nat old) (default [] (padfZ cm)) = before).
      { unfold before. rewrite Zm. destruct (has3D c2) eqn:H32.
        - destruct (Hcap2 ltac:(lia)) as (_ & Hz & _). specialize (Hz eq_refl).
          destruct (padfZ c2); [reflexivity|discriminate].
        - rewrite (Nz2 eq_refl). simpl. rewrite take_replicate. f_equal. lia. }
      specialize (Pz3 Hnn). rewrite Hbefore in Pz3.
      assert (Hlen : length before = Z.to_nat old).
      { rewrite <- Hbefore, length_take.
        pose proof (room_default _ _ Rzm Hnn). lia. }
      split; [intros _; exact H3m|].
      split; [intros _; right; exact H3o|].
      split.
      { intros _.
        replace (take (Z.to_nat old) (default [] p'))
          with (take (Z.to_nat old) (take (Z.to_nat old + k) (default [] p')))
          by (rewrite take_take; f_equal; lia).
        rewrite Pz3. apply take_app_length'. symmetry. exact Hlen. }
      split; [intros _ _; rewrite Pz3, Hsub; reflexivity|].
      intros _ _. exact H3m.
    + destruct Hok as (H3m & Zm & Z2).
      assert (H32 : has3D c2 = false).
      { destruct (has3D c2) eqn:H32; [|reflexivity].
        destruct (Hcap2 ltac:(lia)) as (_ & Hz & _). specialize (Hz eq_refl).
        rewrite Z2 in Hz. discriminate. }
      rewrite H3m, H32.
      split; [discriminate|]. split; [discriminate|]. split; [discriminate|].
      split; [discriminate|].
      intros Ha _. specialize (Hgr (Ha _)). discriminate.
  - (* the other line has none *)
    assert (H3o : has3D other = false).
    { destruct (has3D other) eqn:H; [|reflexivity].
      destruct (Hcapo ltac:(lia)) as (_ & Hz & _). specialize (Hz eq_refl). discriminate. }
    subst c3 before.
    split; [exact W2|]. repeat (split; [reflexivity|]).
    split; [auto|]. split; [auto|].
    split; [intros ->; reflexivity|].
    split; [congruence|]. congruence.
Qed.

(** The M values after the copy of a range of the other line: the curve
    gets an M array when the other line has one. *)
Lemma subline_M_step (c2 other : OGRSimpleCurve) (s e old : Z) :
  let k := Z.to_nat (Z.abs (e - s) + 1) in
  well_formed c2 -> well_formed other -> 0 <= old ->
  0 <= s < nPointCount other -> 0 <= e < nPointCount other ->
  nPointCount c2 = old + Z.of_nat k ->
  let c3 := match padfM other with
            | None => c2
            | Some z =>
                let c := snd (AddM alloc_ok c2) in
                set_padfM (option_map (copy_vertices 0%float z s e old k) (padfM c)) c
            end in
  let before := if hasM c2 then take (Z.to_nat old) (default [] (padfM c2))
                else replicate (Z.to_nat old) 0%float in
  well_formed c3
  /\ nPointCount c3 = nPointCount c2
  /\ m_nPointCapacity c3 = m_nPointCapacity c2
  /\ paoPoints c3 = paoPoints c2
  /\ padfZ c3 = padfZ c2
  /\ has3D c3 = has3D c2
  /\ (hasM c2 = true -> hasM c3 = true)
  /\ (hasM c3 = true -> hasM c2 = true \/ hasM other = true)
  /\ (hasM c3 = true -> take (Z.to_nat old) (default [] (padfM c3)) = before)
  /\ (hasM other = true -> hasM c3 = true ->
      take (Z.to_nat old + k) (default [] (padfM c3))
      = before ++ sub_line s e (Mvalues other))
  /\ ((forall n, alloc_ok n = true) -> hasM other = true -> hasM c3 = true).
Proof.
  intros k W2 Wo Hold Hs He N2 c3 before.
  pose proof W2 as (Hcnt2 & _ & _ & Rz2 & _ & Fz2 & Hcap2).
  pose proof Wo as (Hcnto & _ & _ & _ & _ & Fzo & Hcapo).
  destruct (well_formed_lengths c2 W2) as (_ & _ & Lz2 & _ & Nz2).
  destruct (well_formed_lengths other Wo) as (_ & _ & Lzo & _ & Nzo).
  destruct (padfM other) as [z|] eqn:Hzo.
  - (* the other line has a Z array *)
    assert (H3o : hasM other = true) by (apply Fzo; reflexivity).
    specialize (Lzo H3o). simpl in Lzo.
    assert (Hsub : sub_line s e (Mvalues other) = sub_line s e z).
    { unfold Mvalues. rewrite Hzo. simpl. apply sub_line_take; lia. }
    destruct (AddM_spec alloc_ok c2 W2)
      as (ok & cm & E & Wm & HMm & Nm & Cm & Xm & Mm & Rm & Hok & Hgr).
    subst c3. rewrite E. cbn [snd]. cbv zeta.
    pose proof Wm as (_ & _ & _ & Rzm & _).
    destruct (copy_plane 0%float z s e old (padfM cm) (m_nPointCapacity cm)
                Hold ltac:(lia) ltac:(lia) ltac:(lia) ltac:(lia) ltac:(fold k; lia) Rzm)
      as (Rz3 & Nz3 & Pz3).
    fold k in Rz3, Nz3, Pz3.
    set (p' := option_map (copy_vertices 0%float z s e old k) (padfM cm)) in *.
    split; [apply well_formed_set_padfM; assumption|].
    split; [exact Nm|]. split; [exact Cm|]. split; [exact Xm|]. split; [exact Mm|].
    split; [exact HMm|].
    change (hasM (set_padfM p' cm)) with (hasM cm).
    cbn [padfM set_padfM].
    destruct ok.
    + destruct Hok as (H3m & Zm).
      assert (Hnn : is_null (padfM cm) = false).
      { rewrite Zm. destruct (padfM c2); reflexivity. }
      assert (Hbefore : take (Z.to_nat old) (default [] (padfM cm)) = before).
      { unfold before. rewrite Zm. destruct (hasM c2) eqn:H32.
        - destruct (Hcap2 ltac:(lia)) as (_ & _ & Hz). specialize (Hz eq_refl).
          destruct (padfM c2); [reflexivity|discriminate].
        - rewrite (Nz2 eq_refl). simpl. rewrite take_replicate. f_equal. lia. }
      specialize (Pz3 Hnn). rewrite Hbefore in Pz3.
      assert (Hlen : length before = Z.to_nat old).
      { rewrite <- Hbefore, length_take.
        pose proof (room_default _ _ Rzm Hnn). lia. }
      split; [intros _; exact H3m|].
      split; [intros _; right; exact H3o|].
      split.
      { intros _.
        replace (take (Z.to_nat old) (default [] p'))
          with (take (Z.to_nat old) (take (Z.to_nat old + k) (default [] p')))
          by (rewrite take_take; f_equal; lia).
        rewrite Pz3. apply take_app_length'. symmetry. exact Hlen. }
      split; [intros _ _; rewrite Pz3, Hsub; reflexivity|].
      intros _ _. exact H3m.
    + destruct Hok as (H3m & Zm & Z2).
      assert (H32 : hasM c2 = false).
      { destruct (hasM c2) eqn:H32; [|reflexivity].
        destruct (Hcap2 ltac:(lia)) as (_ & _ & Hz). specialize (Hz eq_refl).
        rewrite Z2 in Hz. discriminate. }
      rewrite H3m, H32.
      split; [discriminate|]. split; [discriminate|]. split; [discriminate|].
      split; [discriminate|].
      intros Ha _. specialize (Hgr (Ha _)). discriminate.
  - (* the other line has none *)
    assert (H3o : hasM other = false).
    { destruct (hasM other) eqn:H; [|reflexivity].
      destruct (Hcapo ltac:(lia)) as (_ & _ & Hz). specialize (Hz eq_refl). discriminate. }
    subst c3 before.
    split; [exact W2|]. repeat (split; [reflexivity|]).
    split; [auto|]. split; [auto|].
    split; [intros ->; reflexivity|].
    split; [congruence|]. congruence.
Qed.

End SubLine.

(** ** The edges of [segmentize] *)

Section SegmentizeEdges.
Import Curve.

Variable alloc_ok : Z -> bool.
Variable junkP : OGRRawPoint.
Variable junkD : float.

#[local] Abbreviation passes := (segmentize_passes alloc_ok junkP junkD).

(** A NaN is the float that differs from itself, and it goes through a
    product and a difference. *)
Lemma nan_SF (a : float) : feq a a = false <-> Prim2SF a = S754_nan.
Proof.
  split.
  - intros H. destruct (Prim2SF a) eqn:E; try reflexivity; exfalso;
      assert (feq a a = true)
        by (apply feq_key; rewrite E; eexists; split; reflexivity);
      congruence.
  - intros H. destruct (feq a a) eqn:E; [|reflexivity].
    apply feq_key in E as (k & Hk & _). rewrite H in Hk. discriminate.
Qed.

Lemma nan_mul (a b : float) :
  feq a a = false \/ feq b b = false -> feq (a * b) (a * b) = false.
Proof.
  rewrite !nan_SF, FloatAxioms.mul_spec. intros [H|H]; rewrite H.
  - reflexivity.
  - destruct (Prim2SF a); reflexivity.
Qed.

Lemma nan_sub (a b : float) :
  feq a a = false \/ feq b b = false -> feq (a - b) (a - b) = false.
Proof.
  rewrite !nan_SF, FloatAxioms.sub_spec. intros [H|H]; rewrite H.
  - reflexivity.
  - destruct (Prim2SF a); reflexivity.
Qed.

(** No segment is cut when the maximal length is a NaN. *)
Lemma nIntermediatePoints_nan (c : OGRSimpleCurve) (L : float) (i : nat) :
  feq L L = false -> nIntermediatePoints c (L * L) i = None.
Proof.
  intros HL. unfold nIntermediatePoints. cbv zeta.
  match goal with
  | |- (if fgt ?a ?b then _ else _) = None =>
      change (fgt a b) with (flt b a);
      assert (Hn : feq a a = false)
        by (apply nan_sub; right; apply nan_mul; left; exact HL);
      rewrite (proj2 (nan_flt a b Hn))
  end.
  reflexivity.
Qed.

(** The first pass over a curve none of whose segments is cut counts the
    points of the curve. *)
Lemma count_pass_uncut (c : OGRSimpleCurve) (L2 : float) (k i : nat) (cnt : Z) :
  (forall j, nIntermediatePoints c L2 j = None) ->
  (Z.of_nat i < nPointCount c)%Z -> (nPointCount c - Z.of_nat i <= Z.of_nat k)%Z ->
  count_pass c L2 k i cnt = Some (cnt + (nPointCount c - Z.of_nat i))%Z.
Proof.
  intros Hnone. revert i cnt. induction k as [|k IH]; intros i cnt Hi Hk; [lia|].
  cbn [count_pass].
  destruct (Z.eqb_spec (Z.of_nat i) (nPointCount c - 1)) as [E|E].
  - f_equal. lia.
  - rewrite Hnone, IH by lia. f_equal. lia.
Qed.

Lemma segmentize_passes_uncut (c : OGRSimpleCurve) (L : float) :
  (forall j, nIntermediatePoints c (L * L) j = None) -> (2 <= nPointCount c)%Z ->
  passes c L = (true, c).
Proof.
  intros Hnone Hn. unfold segmentize_passes.
  rewrite (count_pass_uncut c (L * L) _ 0 0 Hnone) by lia.
  replace (nPointCount c =? 0 + (nPointCount c - Z.of_nat 0))%Z with true
    by (symmetry; apply Z.eqb_eq; lia).
  reflexivity.
Qed.

(** The two passes return the curve they were given when they fail, and
    never touch the flags. *)
Lemma segmentize_passes_failure (c : OGRSimpleCurve) (L : float) :
  (fst (passes c L) = false -> snd (passes c L) = c)
  /\ flags (snd (passes c L)) = flags c
  /\ isLinearRing (snd (passes c L)) = isLinearRing c.
Proof.
  unfold segmentize_passes.
  destruct (count_pass c _ _ 0 0) as [N|]; [|auto].
  destruct (nPointCount c =? N)%Z; [auto|].
  destruct (VSI_MALLOC alloc_ok junkP _ _); [|auto].
  destruct (if is_null (padfZ c) then _ else _); [|auto].
  destruct (if is_null (padfM c) then _ else _); [|auto].
  destruct (fill_pass c _ _ 0 0 _) as [nNew [[pts zs] ms]]. simpl.
  split; [discriminate|]. auto.
Qed.

(** [segmentize] as a function of the two passes. *)
Lemma segmentize_shape (c : OGRSimpleCurve) (L : float) :
  holds_points c ->
  segmentize alloc_ok junkP junkD c L
  = Some (if fle L 0 then (false, c)
          else if (nPointCount c <? 2)%Z then (true, c)
          else if first_before_last c
          then (fst (passes (reversePoints c) L),
                reversePoints (snd (passes (reversePoints c) L)))
          else passes c L).
Proof.
  intros Hh. unfold segmentize. change 2%nat with (S (S 0)).
  cbn [segmentize_rec].
  destruct (fle L 0) eqn:HL; [reflexivity|].
  destruct (nPointCount c <? 2)%Z eqn:Hn; [reflexivity|].
  destruct (first_before_last c) eqn:Hfb; [|reflexivity].
  change (nPointCount (reversePoints c)) with (nPointCount c).
  rewrite Hn.
  apply Z.ltb_ge in Hn.
  rewrite (first_before_last_reversed c Hh) by (try lia; exact Hfb).
  destruct (passes (reversePoints c) L). reflexivity.
Qed.

End SegmentizeEdges.

(** ** The second pass of [segmentize] *)

Section SegmentizeFill.
Import Curve.

Variable c : OGRSimpleCurve.
Variable L2 : float.

#[local] Abbreviation n := (Z.to_nat (nPointCount c)).

(** The stores of the inner loop, array by array. *)
Lemma fill_intermediate_planes (i : nat) (m cnt : Z) (pts : list OGRRawPoint)
  (zs ms : option (list float)) :
  nIntermediatePoints c L2 i = Some m ->
  fill_intermediate c i m cnt (pts, zs, ms)
  = (fold_left (fun l j => store (cnt + Z.of_nat j - 1) (inserted c L2 i j) l)
               (seq 1 (Z.to_nat m)) pts,
     option_map (fold_left (fun l j => store (cnt + Z.of_nat j - 1) (zAt c i) l)
                           (seq 1 (Z.to_nat m))) zs,
     option_map (fold_left (fun l j => store (cnt + Z.of_nat j - 1) (mAt c i) l)
                           (seq 1 (Z.to_nat m))) ms).
Proof.
  intros Hm. unfold fill_intermediate.
  assert (Hins : forall j,
             mkRawPoint
               (x (pt c i) + double_of_int (Z.of_nat j)
                             * ((x (pt c (i + 1)) - x (pt c i)) / (double_of_int m + 1)))
               (y (pt c i) + double_of_int (Z.of_nat j)
                             * ((y (pt c (i + 1)) - y (pt c i)) / (double_of_int m + 1)))
             = inserted c L2 i j).
  { intros j. unfold inserted, cuts. rewrite Hm. reflexivity. }
  revert pts zs ms. induction (seq 1 (Z.to_nat m)) as [|j l IH]; intros pts zs ms.
  - destruct zs, ms; reflexivity.
  - cbn [fold_left]. rewrite IH, Hins. destruct zs, ms; reflexivity.
Qed.

(** The second pass, array by array. *)
Lemma fill_pass_planes (k i : nat) (cnt : Z) (pts : list OGRRawPoint)
  (zs ms : option (list float)) :
  snd (fill_pass c L2 k i cnt (pts, zs, ms))
  = (fill_plane c L2 (pt c) (inserted c L2) k i cnt pts,
     option_map (fill_plane c L2 (zAt c) (fun i _ => zAt c i) k i cnt) zs,
     option_map (fill_plane c L2 (mAt c) (fun i _ => mAt c i) k i cnt) ms).
Proof.
  revert i cnt pts zs ms. induction k as [|k IH]; intros i cnt pts zs ms.
  - destruct zs, ms; reflexivity.
  - cbn [fill_pass fill_plane].
    destruct (Z.of_nat i =? nPointCount c - 1)%Z; [destruct zs, ms; reflexivity|].
    destruct (nIntermediatePoints c L2 i) as [m|] eqn:Hm.
    + rewrite (fill_intermediate_planes i m _ _ _ _ Hm), IH.
      destruct zs, ms; reflexivity.
    + rewrite IH. destruct zs, ms; reflexivity.
Qed.

Hypothesis cuts_nonneg :
  forall i m, (i + 1 < n)%nat -> nIntermediatePoints c L2 i = Some m -> (0 <= m)%Z.

Lemma cuts_ge (i : nat) : (i + 1 < n)%nat -> (0 <= cuts c L2 i)%Z.
Proof.
  intros Hi.
  unfold cuts. destruct (nIntermediatePoints c L2 i) as [m|] eqn:E; [|simpl; lia].
  exact (cuts_nonneg i m Hi E).
Qed.

Section Plane.

Context {A : Type}.
Variable f : nat -> A.
Variable g : nat -> nat -> A.

#[local] Abbreviation body := (segmented_from c L2 f g).

Lemma store_at (cnt : Z) (v : A) (l : list A) :
  (0 <= cnt)%Z -> (Z.to_nat cnt < length l)%nat ->
  store cnt v l = take (Z.to_nat cnt) l ++ [v] ++ drop (Z.to_nat cnt + 1) l.
Proof.
  intros H0 Hlen. unfold store.
  replace (cnt <? 0)%Z with false by (symmetry; apply Z.ltb_ge; exact H0).
  rewrite <- (take_drop (Z.to_nat cnt) l) at 1.
  rewrite insert_app_r_alt by (rewrite length_take; lia).
  rewrite length_take, Nat.min_l, Nat.sub_diag by lia.
  destruct (drop (Z.to_nat cnt) l) as [|q rest] eqn:Hd.
  { apply (f_equal length) in Hd. rewrite length_drop in Hd. simpl in Hd. lia. }
  cbn [insert list_insert app]. do 2 f_equal.
  rewrite <- drop_drop, Hd. reflexivity.
Qed.

(** The stores of the inner loop put their entries one after the
    other. *)
Lemma stores_block (h : nat -> A) (cnt : Z) (m : nat) (l : list A) :
  (0 <= cnt)%Z -> (Z.to_nat cnt + m <= length l)%nat ->
  fold_left (fun l j => store (cnt + Z.of_nat j - 1) (h j) l) (seq 1 m) l
  = take (Z.to_nat cnt) l ++ map h (seq 1 m) ++ drop (Z.to_nat cnt + m) l.
Proof.
  intros H0. induction m as [|m IH]; intros Hlen.
  - simpl. rewrite Nat.add_0_r, take_drop. reflexivity.
  - rewrite seq_S, fold_left_app, map_app. cbn [fold_left map Nat.add].
    rewrite IH by lia. unfold store.
    replace (cnt + Z.of_nat (S m) - 1 <? 0)%Z with false by (symmetry; apply Z.ltb_ge; lia).
    replace (Z.to_nat (cnt + Z.of_nat (S m) - 1)) with (Z.to_nat cnt + m)%nat by lia.
    rewrite insert_app_r_alt by (rewrite length_take; lia).
    rewrite length_take, Nat.min_l by lia.
    rewrite insert_app_r_alt by (rewrite length_map, length_seq; lia).
    rewrite length_map, length_seq.
    replace (Z.to_nat cnt + m - Z.to_nat cnt - m)%nat with 0%nat by lia.
    destruct (drop (Z.to_nat cnt + m) l) as [|q rest] eqn:Hd.
    { apply (f_equal length) in Hd. rewrite length_drop in Hd. simpl in Hd. lia. }
    cbn [insert list_insert]. rewrite <- app_assoc. cbn [app].
    do 3 f_equal.
    replace (Z.to_nat cnt + S m)%nat with (Z.to_nat cnt + m + 1)%nat by lia.
    rewrite <- drop_drop, Hd. reflexivity.
Qed.

Lemma body_last (i : nat) : (i + 1 = n)%nat -> body i = [f i].
Proof.
  intros Hi. unfold segmented_from.
  replace (n - 1 - i)%nat with 0%nat by lia. simpl. do 2 f_equal. lia.
Qed.

Lemma body_step (i : nat) :
  (i + 1 < n)%nat ->
  body i = (f i :: map (g i) (seq 1 (Z.to_nat (cuts c L2 i)))) ++ body (S i).
Proof.
  intros Hi. unfold segmented_from.
  replace (n - 1 - i)%nat with (S (n - 1 - S i)) by lia.
  cbn [seq map concat]. rewrite <- app_assoc. reflexivity.
Qed.

(** The second pass lays out the array from its position on and leaves
    the rest of it alone. *)
Lemma fill_plane_spec (k i : nat) (cnt : Z) (l : list A) :
  (i < n)%nat -> (n - i <= k)%nat -> (0 <= cnt)%Z ->
  (Z.to_nat cnt + length (body i) <= length l)%nat ->
  fill_plane c L2 f g k i cnt l
  = take (Z.to_nat cnt) l ++ body i ++ drop (Z.to_nat cnt + length (body i)) l.
Proof.
  revert i cnt l. induction k as [|k IH]; intros i cnt l Hi Hk H0 Hlen; [lia|].
  cbn [fill_plane].
  destruct (Z.eqb_spec (Z.of_nat i) (nPointCount c - 1)) as [E|E].
  - rewrite body_last in * by lia. simpl in Hlen.
    apply store_at; [exact H0|lia].
  - rewrite body_step in * by lia.
    set (m := Z.to_nat (cuts c L2 i)) in *.
    set (blk := f i :: map (g i) (seq 1 m)) in *.
    rewrite length_app in Hlen.
    assert (Hblk : length blk = S m)
      by (unfold blk; simpl; rewrite length_map, length_seq; reflexivity).
    (* the array after the stores of this turn *)
    assert (Hstores :
             fold_left (fun l j => store (cnt + 1 + Z.of_nat j - 1) (g i j) l) (seq 1 m)
                       (store cnt (f i) l)
             = take (Z.to_nat cnt) l ++ blk ++ drop (Z.to_nat cnt + S m) l).
    { rewrite stores_block; [|lia|rewrite store_length; lia].
      replace (Z.to_nat (cnt + 1)) with (Z.to_nat cnt + 1)%nat by lia.
      rewrite store_at by lia.
      rewrite (app_assoc (take (Z.to_nat cnt) l) [f i]).
      rewrite take_app_length' by (rewrite length_app, length_take; simpl; lia).
      rewrite drop_app_ge by (rewrite length_app, length_take; simpl; lia).
      rewrite length_app, length_take, drop_drop. cbn [length].
      unfold blk. rewrite <- !app_assoc. cbn [app].
      do 3 f_equal. f_equal. lia. }
    set (l2 := take (Z.to_nat cnt) l ++ blk ++ drop (Z.to_nat cnt + S m) l) in *.
    assert (Hl2 : length l2 = length l).
    { unfold l2. rewrite !length_app, length_take, length_drop, Hblk. lia. }
    assert (Hnext : Z.to_nat (cnt + 1 + cuts c L2 i) = (Z.to_nat cnt + S m)%nat)
      by (pose proof (cuts_ge i ltac:(lia)); unfold m; lia).
    assert (Hgoal : fill_plane c L2 f g k (S i) (cnt + 1 + cuts c L2 i) l2
                    = take (Z.to_nat cnt) l ++ (blk ++ body (S i))
                      ++ drop (Z.to_nat cnt + (length blk + length (body (S i)))) l).
    { rewrite IH; [|lia|lia|pose proof (cuts_ge i ltac:(lia)); lia|rewrite Hnext, Hl2; lia].
      rewrite Hnext.
      assert (E1 : take (Z.to_nat cnt + S m) l2 = take (Z.to_nat cnt) l ++ blk).
      { unfold l2. rewrite (app_assoc (take (Z.to_nat cnt) l) blk).
        apply take_app_length'. rewrite length_app, length_take, Hblk. lia. }
      assert (E2 : drop (Z.to_nat cnt + S m + length (body (S i))) l2
                   = drop (Z.to_nat cnt + (length blk + length (body (S i)))) l).
      { unfold l2. rewrite (app_assoc (take (Z.to_nat cnt) l) blk).
        rewrite drop_app_ge by (rewrite length_app, length_take, Hblk; lia).
        rewrite length_app, length_take, Hblk, drop_drop. f_equal. lia. }
      rewrite E1, E2, <- !app_assoc. reflexivity. }
    rewrite length_app.
    destruct (nIntermediatePoints c L2 i) as [mi|] eqn:Hm.
    + assert (Hc : cuts c L2 i = mi) by (unfold cuts; rewrite Hm; reflexivity).
      rewrite <- Hc. fold m. rewrite Hstores. exact Hgoal.
    + assert (Hc : cuts c L2 i = 0%Z) by (unfold cuts; rewrite Hm; reflexivity).
      assert (Hm0 : m = 0%nat) by (unfold m; rewrite Hc; reflexivity).
      rewrite Hm0 in Hstores. cbn [seq fold_left] in Hstores.
      rewrite Hstores. fold l2. rewrite Hc, Z.add_0_r in Hgoal. exact Hgoal.
Qed.

End Plane.

(** An array that is as long as the curve has points was not cut. *)
Lemma body_uncut {A} (f : nat -> A) (g : nat -> nat -> A) (i : nat) :
  (i < n)%nat ->
  (n - i <= length (segmented_from c L2 f g i))%nat
  /\ (length (segmented_from c L2 f g i) = n - i ->
      segmented_from c L2 f g i = map f (seq i (n - i)))%nat.
Proof.
  intros Hi. remember (n - 1 - i)%nat as d eqn:Hd. revert i Hi Hd.
  induction d as [|d IH]; intros i Hi Hd.
  - rewrite body_last by lia. replace (n - i)%nat with 1%nat by lia.
    split; [simpl; lia|reflexivity].
  - rewrite body_step by lia. destruct (IH (S i) ltac:(lia) ltac:(lia)) as (Hge & Heq).
    rewrite length_app. cbn [length]. rewrite length_map, length_seq.
    split; [lia|]. intros Hlen.
    assert (Hm : Z.to_nat (cuts c L2 i) = 0%nat) by lia.
    rewrite Hm, Heq by lia. cbn [seq map app].
    replace (n - i)%nat with (S (n - S i)) by lia. reflexivity.
Qed.

(** The first pass counts what the second pass lays out. *)
Lemma count_pass_total {A} (f : nat -> A) (g : nat -> nat -> A) (k i : nat) (cnt N : Z) :
  (i < n)%nat -> (n - i <= k)%nat ->
  count_pass c L2 k i cnt = Some N ->
  N = (cnt + Z.of_nat (length (segmented_from c L2 f g i)))%Z.
Proof.
  revert i cnt. induction k as [|k IH]; intros i cnt Hi Hk Hc; [lia|].
  cbn [count_pass] in Hc.
  destruct (Z.eqb_spec (Z.of_nat i) (nPointCount c - 1)) as [E|E].
  - injection Hc as <-. rewrite body_last by lia. simpl. lia.
  - rewrite body_step by lia. rewrite length_app. cbn [length].
    rewrite length_map, length_seq.
    pose proof (cuts_ge i ltac:(lia)) as Hge. unfold cuts in *.
    destruct (nIntermediatePoints c L2 i) as [m|] eqn:Hm; simpl in Hge |- *.
    + destruct ((cnt + 1 >? kMax)%Z || (m >? kMax)%Z); [discriminate|].
      apply IH in Hc; lia.
    + apply IH in Hc; lia.
Qed.

End SegmentizeFill.

(** X1.  [setNumPoints(n)] on a consistent curve, whatever the allocator
    answers: the curve stays consistent; a call that fails leaves the count
    and every point, Z and M value of the curve; a call that succeeds sets
    the count to [n] and keeps the points that both counts cover; with
    [bZeroizeNewContent] the points it adds are zero; and a call within the
    capacity always succeeds, asks the allocator for nothing and keeps the
    capacity. *)
Theorem setNumPoints_keeps_the_points
  (alloc_ok : Z -> bool) (junkP : Curve.OGRRawPoint) (junkD : float)
  (c : Curve.OGRSimpleCurve) (n : Z) (bZeroizeNewContent : bool) :
  well_formed c -> 0 <= n ->
  exists ok c' log,
    Curve.setNumPoints alloc_ok junkP junkD c n bZeroizeNewContent = (ok, c', log)
    /\ well_formed c'
    /\ (ok = false ->
        Curve.nPointCount c' = Curve.nPointCount c
        /\ points c' = points c /\ Zvalues c' = Zvalues c /\ Mvalues c' = Mvalues c)
    /\ (ok = true ->
        Curve.nPointCount c' = n
        /\ (let k := Z.to_nat (Z.min n (Curve.nPointCount c)) in
            take k (points c') = take k (points c)
            /\ take k (Zvalues c') = take k (Zvalues c)
            /\ take k (Mvalues c') = take k (Mvalues c))
        /\ (bZeroizeNewContent = true ->
            forall i, Curve.nPointCount c <= Z.of_nat i < n ->
              points c' !! i = Some Curve.zeroPoint))
    /\ (n <= Curve.m_nPointCapacity c ->
        ok = true /\ log = [] /\ Curve.m_nPointCapacity c' = Curve.m_nPointCapacity c).
Proof.
  intros Hwf Hn.
  destruct (setNumPoints_spec alloc_ok junkP junkD c n bZeroizeNewContent Hwf Hn)
    as (ok & c' & log & E & W & F & R & N & P & Zr & Hin & _ & _).
  exists ok, c', log. split; [exact E|]. split; [exact W|].
  split; [|split; [|exact Hin]].
  - intros ->. split; [exact N|]. unfold points, Zvalues, Mvalues. rewrite N.
    destruct (P (Z.to_nat (Curve.nPointCount c))) as (P1 & P2 & P3); [lia|]. auto.
  - intros ->. split; [exact N|]. split.
    + cbv zeta. unfold points, Zvalues, Mvalues. rewrite N, !take_take.
      destruct (P (Z.to_nat (Z.min n (Curve.nPointCount c)))) as (P1 & P2 & P3); [lia|].
      replace (Z.to_nat (Z.min n (Curve.nPointCount c)) `min` Z.to_nat n)%nat
        with (Z.to_nat (Z.min n (Curve.nPointCount c))) by lia.
      replace (Z.to_nat (Z.min n (Curve.nPointCount c))
               `min` Z.to_nat (Curve.nPointCount c))%nat
        with (Z.to_nat (Z.min n (Curve.nPointCount c))) by lia.
      auto.
    + intros Hb i Hi. destruct (Zr eq_refl Hb i Hi) as (Hp & _).
      unfold points. rewrite N, lookup_take_lt by lia.
      destruct (well_formed_lengths c' W) as (L & _). rewrite N in L.
      unfold Curve.pt in Hp. rewrite <- Hp.
      destruct (lookup_lt_is_Some_2 (default [] (Curve.paoPoints c')) i) as (q & Hq);
        [lia|].
      rewrite Hq. f_equal. symmetry. apply nth_lookup_Some. exact Hq.
Qed.

Lemma setNumPoints_keeps_the_points_witness :
  exists ok c' log,
    Curve.setNumPoints granted Curve.zeroPoint 0%float four_points 2 true = (ok, c', log)
    /\ well_formed c'
    /\ (ok = false ->
        Curve.nPointCount c' = Curve.nPointCount four_points
        /\ points c' = points four_points /\ Zvalues c' = Zvalues four_points
        /\ Mvalues c' = Mvalues four_points)
    /\ (ok = true ->
        Curve.nPointCount c' = 2
        /\ (let k := Z.to_nat (Z.min 2 (Curve.nPointCount four_points)) in
            take k (points c') = take k (points four_points)
            /\ take k (Zvalues c') = take k (Zvalues four_points)
            /\ take k (Mvalues c') = take k (Mvalues four_points))
        /\ (true = true ->
            forall i, Curve.nPointCount four_points <= Z.of_nat i < 2 ->
              points c' !! i = Some Curve.zeroPoint))
    /\ (2 <= Curve.m_nPointCapacity four_points ->
        ok = true /\ log = [] /\ Curve.m_nPointCapacity c' = Curve.m_nPointCapacity four_points).
Proof.
  apply (setNumPoints_keeps_the_points granted Curve.zeroPoint 0%float four_points 2 true).
  - apply well_formed_curve_of.
  - lia.
Defined.

(** X2.  [addPoint(x, y)] on a consistent curve: when it succeeds the
    count is one more and the points are the former points followed by
    [(x, y)], the Z and M values of the former points being kept; when it
    fails the count, the points and their Z and M values are as before; the
    curve stays consistent either way, and the call succeeds when the count
    is below the limit of [setNumPoints] and the allocator grants what the
    growth asks for. *)
Theorem addPoint_xy_appends
  (alloc_ok : Z -> bool) (junkP : Curve.OGRRawPoint) (junkD : float)
  (bZeroizeNewContent_default : bool) (c : Curve.OGRSimpleCurve) (xIn yIn : float) :
  well_formed c ->
  exists ok c',
    Curve.addPoint_xy alloc_ok junkP junkD bZeroizeNewContent_default c xIn yIn = (ok, c')
    /\ well_formed c'
    /\ (ok = true ->
        Curve.nPointCount c' = Curve.nPointCount c + 1
        /\ points c' = points c ++ [Curve.mkRawPoint xIn yIn]
        /\ take (Z.to_nat (Curve.nPointCount c)) (Zvalues c') = Zvalues c
        /\ take (Z.to_nat (Curve.nPointCount c)) (Mvalues c') = Mvalues c)
    /\ (ok = false ->
        Curve.nPointCount c' = Curve.nPointCount c
        /\ points c' = points c /\ Zvalues c' = Zvalues c /\ Mvalues c' = Mvalues c)
    /\ (Curve.nPointCount c < Curve.setNumPoints_limit ->
        grants alloc_ok c (Curve.nNewCapacity c (Curve.nPointCount c + 1)) ->
        ok = true).
Proof.
  intros Hwf. pose proof Hwf as (Hcnt & _).
  unfold Curve.addPoint_xy, Curve.setPoint_xy.
  replace (Curve.nPointCount c >=? Curve.nPointCount c) with true
    by (symmetry; rewrite Z.geb_leb; apply Z.leb_le; lia).
  destruct (reach_spec alloc_ok junkP junkD bZeroizeNewContent_default c
              (Curve.nPointCount c) Hwf)
    as (ok & c1 & E & W1 & F1 & R1 & N1 & P & _ & _ & Hgr & _); [lia|].
  rewrite E.
  destruct (P (Z.to_nat (Curve.nPointCount c))) as (P1 & P2 & P3); [lia|].
  destruct ok.
  - replace (Z.max (Curve.nPointCount c) (Curve.nPointCount c + 1))
      with (Curve.nPointCount c + 1) in N1 by lia.
    assert (Hx : Curve.is_null (Curve.paoPoints c1) = false).
    { destruct W1 as (Hc1 & _ & _ & _ & _ & _ & Hcap). apply Hcap. lia. }
    rewrite Hx. cbn [negb].
    eexists true, _. split; [reflexivity|].
    split; [apply well_formed_store; exact W1|].
    split; [|split; [discriminate|intros; reflexivity]].
    intros _. split; [exact N1|].
    destruct (grown_by_one c c1 Hwf W1 N1 P1) as (Hlen & Hpre).
    split; [|split].
    + unfold points at 1. cbn [Curve.nPointCount Curve.set_paoPoints Curve.paoPoints].
      rewrite store_opt_take by lia.
      change (take (Z.to_nat (Curve.nPointCount c1)) (default [] (Curve.paoPoints c1)))
        with (points c1).
      apply insert_last; [exact Hlen|exact Hpre].
    + unfold Zvalues at 1. cbn [Curve.nPointCount Curve.set_paoPoints Curve.padfZ].
      rewrite take_take, N1, Nat.min_l by lia. exact P2.
    + unfold Mvalues at 1. cbn [Curve.nPointCount Curve.set_paoPoints Curve.padfM].
      rewrite take_take, N1, Nat.min_l by lia. exact P3.
  - cbn [negb]. eexists false, _. split; [reflexivity|]. split; [exact W1|].
    split; [discriminate|]. split; [|exact Hgr].
    intros _. split; [exact N1|]. unfold points, Zvalues, Mvalues. rewrite N1. auto.
Qed.

Lemma addPoint_xy_appends_witness :
  exists ok c',
    Curve.addPoint_xy granted Curve.zeroPoint 0%float true four_points 7%float 8%float
    = (ok, c')
    /\ well_formed c'
    /\ (ok = true ->
        Curve.nPointCount c' = Curve.nPointCount four_points + 1
        /\ points c' = points four_points ++ [Curve.mkRawPoint 7%float 8%float]
        /\ take (Z.to_nat (Curve.nPointCount four_points)) (Zvalues c') = Zvalues four_points
        /\ take (Z.to_nat (Curve.nPointCount four_points)) (Mvalues c') = Mvalues four_points)
    /\ (ok = false ->
        Curve.nPointCount c' = Curve.nPointCount four_points
        /\ points c' = points four_points /\ Zvalues c' = Zvalues four_points
        /\ Mvalues c' = Mvalues four_points)
    /\ (Curve.nPointCount four_points < Curve.setNumPoints_limit ->
        grants granted four_points
               (Curve.nNewCapacity four_points (Curve.nPointCount four_points + 1)) ->
        ok = true).
Proof.
  apply (addPoint_xy_appends granted Curve.zeroPoint 0%float true four_points
                             7%float 8%float).
  apply well_formed_curve_of.
Defined.

(** X3.  [setPoint(iPoint, x, y)] with [iPoint >= 0] on a consistent
    curve.  When it succeeds, the count is the larger of the former count
    and [iPoint + 1], the point at [iPoint] is [(x, y)], every other former
    point and every former Z and M value is kept, and, when the default of
    [bZeroizeNewContent] is true, the points between the former count and
    [iPoint] are zero.  It fails only at or past the count, and then the
    count and the content are as before.  Within the count it always
    succeeds and keeps the capacity. *)
Theorem setPoint_xy_sets
  (alloc_ok : Z -> bool) (junkP : Curve.OGRRawPoint) (junkD : float)
  (bZeroizeNewContent_default : bool) (c : Curve.OGRSimpleCurve) (iPoint : Z)
  (xIn yIn : float) :
  well_formed c -> 0 <= iPoint ->
  exists ok c',
    Curve.setPoint_xy alloc_ok junkP junkD bZeroizeNewContent_default c iPoint xIn yIn
    = (ok, c')
    /\ well_formed c'
    /\ (ok = true ->
        Curve.nPointCount c' = Z.max (Curve.nPointCount c) (iPoint + 1)
        /\ points c' !! Z.to_nat iPoint = Some (Curve.mkRawPoint xIn yIn)
        /\ (forall j, j <> Z.to_nat iPoint -> (j < Z.to_nat (Curve.nPointCount c))%nat ->
              points c' !! j = points c !! j)
        /\ (bZeroizeNewContent_default = true ->
            forall j, Curve.nPointCount c <= Z.of_nat j < iPoint ->
              points c' !! j = Some Curve.zeroPoint)
        /\ take (Z.to_nat (Curve.nPointCount c)) (Zvalues c') = Zvalues c
        /\ take (Z.to_nat (Curve.nPointCount c)) (Mvalues c') = Mvalues c)
    /\ (ok = false ->
        Curve.nPointCount c <= iPoint
        /\ Curve.nPointCount c' = Curve.nPointCount c
        /\ points c' = points c /\ Zvalues c' = Zvalues c /\ Mvalues c' = Mvalues c)
    /\ (iPoint < Curve.nPointCount c ->
        ok = true /\ Curve.m_nPointCapacity c' = Curve.m_nPointCapacity c).
Proof.
  intros Hwf H0. pose proof Hwf as (Hcnt & _).
  assert (Hstored : forall c1 : Curve.OGRSimpleCurve,
             well_formed c1 -> iPoint < Curve.nPointCount c1 ->
             points (Curve.set_paoPoints
                       (Curve.store_opt iPoint (Curve.mkRawPoint xIn yIn)
                                        (Curve.paoPoints c1)) c1)
             = <[Z.to_nat iPoint := Curve.mkRawPoint xIn yIn]> (points c1)).
  { intros c1 W1 Hi. unfold points.
    cbn [Curve.nPointCount Curve.set_paoPoints Curve.paoPoints].
    apply store_opt_take; lia. }
  unfold Curve.setPoint_xy.
  destruct (iPoint >=? Curve.nPointCount c) eqn:Hge.
  - rewrite Z.geb_leb in Hge. apply Z.leb_le in Hge.
    destruct (reach_spec alloc_ok junkP junkD bZeroizeNewContent_default c iPoint Hwf H0)
      as (ok & c1 & E & W1 & F1 & R1 & N1 & P & Zr & _ & _ & _).
    rewrite E.
    destruct (P (Z.to_nat (Curve.nPointCount c))) as (P1 & P2 & P3); [lia|].
    destruct ok.
    + assert (Hx : Curve.is_null (Curve.paoPoints c1) = false).
      { destruct W1 as (Hc1 & _ & _ & _ & _ & _ & Hcap). apply Hcap. lia. }
      rewrite Hx. cbn [negb].
      eexists true, _. split; [reflexivity|].
      split; [apply well_formed_store; exact W1|].
      split; [|split; [discriminate|lia]].
      intros _. split; [exact N1|].
      rewrite (Hstored c1 W1) by lia.
      pose proof (points_length c1 W1) as Hlen.
      destruct (well_formed_lengths c1 W1) as (L1 & _).
      split; [apply list_lookup_insert_eq; lia|].
      split.
      { intros j Hj Hjc. rewrite list_lookup_insert_ne by lia.
        unfold points. rewrite !lookup_take_lt by lia.
        apply (prefix_lookup _ _ (Z.to_nat (Curve.nPointCount c))); [exact P1|exact Hjc]. }
      split.
      { intros Hb j Hj. rewrite list_lookup_insert_ne by lia.
        unfold points. rewrite lookup_take_lt by lia.
        destruct (Zr eq_refl Hb j Hj) as (Hp & _).
        apply (nth_lookup_in _ _ Curve.zeroPoint); [lia|exact Hp]. }
      split.
      * unfold Zvalues at 1. cbn [Curve.nPointCount Curve.set_paoPoints Curve.padfZ].
        rewrite take_take, Nat.min_l by lia. exact P2.
      * unfold Mvalues at 1. cbn [Curve.nPointCount Curve.set_paoPoints Curve.padfM].
        rewrite take_take, Nat.min_l by lia. exact P3.
    + cbn [negb]. eexists false, _. split; [reflexivity|]. split; [exact W1|].
      split; [discriminate|]. split; [|lia].
      intros _. split; [exact Hge|]. split; [exact N1|].
      unfold points, Zvalues, Mvalues. rewrite N1. auto.
  - rewrite Z.geb_leb in Hge. apply Z.leb_gt in Hge. cbn [negb].
    eexists true, _. split; [reflexivity|].
    split; [apply well_formed_store; exact Hwf|].
    split; [|split; [discriminate|intros _; split; reflexivity]].
    intros _. split; [cbn [Curve.nPointCount Curve.set_paoPoints]; lia|].
    rewrite (Hstored c Hwf Hge).
    pose proof (points_length c Hwf) as Hlen.
    split; [apply list_lookup_insert_eq; lia|].
    split; [intros j Hj _; apply list_lookup_insert_ne; lia|].
    split; [intros _ j Hj; lia|].
    unfold Zvalues, Mvalues. cbn [Curve.nPointCount Curve.set_paoPoints Curve.padfZ Curve.padfM].
    rewrite !take_take, !Nat.min_id. auto.
Qed.

Lemma setPoint_xy_sets_witness :
  exists ok c',
    Curve.setPoint_xy granted Curve.zeroPoint 0%float true four_points 6 7%float 8%float
    = (ok, c')
    /\ well_formed c'
    /\ (ok = true ->
        Curve.nPointCount c' = Z.max (Curve.nPointCount four_points) (6 + 1)
        /\ points c' !! Z.to_nat 6 = Some (Curve.mkRawPoint 7%float 8%float)
        /\ (forall j, j <> Z.to_nat 6 -> (j < Z.to_nat (Curve.nPointCount four_points))%nat ->
              points c' !! j = points four_points !! j)
        /\ (true = true ->
            forall j, Curve.nPointCount four_points <= Z.of_nat j < 6 ->
              points c' !! j = Some Curve.zeroPoint)
        /\ take (Z.to_nat (Curve.nPointCount four_points)) (Zvalues c') = Zvalues four_points
        /\ take (Z.to_nat (Curve.nPointCount four_points)) (Mvalues c') = Mvalues four_points)
    /\ (ok = false ->
        Curve.nPointCount four_points <= 6
        /\ Curve.nPointCount c' = Curve.nPointCount four_points
        /\ points c' = points four_points /\ Zvalues c' = Zvalues four_points
        /\ Mvalues c' = Mvalues four_points)
    /\ (6 < Curve.nPointCount four_points ->
        ok = true /\ Curve.m_nPointCapacity c' = Curve.m_nPointCapacity four_points).
Proof.
  apply (setPoint_xy_sets granted Curve.zeroPoint 0%float true four_points 6
                          7%float 8%float).
  - apply well_formed_curve_of.
  - lia.
Defined.

(** X4.  [addPoint(x, y, z)] on a consistent curve.  When it succeeds the
    curve is 3D, the points are the former points followed by [(x, y)], and
    the Z values are the former Z values followed by [z]; a curve that had
    no Z array gets the Z value zero for each of its former points.  The M
    values of the former points are kept.  When it fails, the count, the
    points and the M values are as before.  It succeeds when the count is
    below the limit of [setNumPoints] and the allocator grants every
    request. *)
Theorem addPoint_xyz_appends
  (alloc_ok : Z -> bool) (junkP : Curve.OGRRawPoint) (junkD : float)
  (bZeroizeNewContent_default : bool) (c : Curve.OGRSimpleCurve) (xIn yIn zIn : float) :
  well_formed c ->
  exists ok c',
    Curve.addPoint_xyz alloc_ok junkP junkD bZeroizeNewContent_default c xIn yIn zIn
    = (ok, c')
    /\ well_formed c'
    /\ (ok = true ->
        Curve.has3D c' = true
        /\ Curve.nPointCount c' = Curve.nPointCount c + 1
        /\ points c' = points c ++ [Curve.mkRawPoint xIn yIn]
        /\ Zvalues c'
           = (if Curve.has3D c then Zvalues c
              else replicate (Z.to_nat (Curve.nPointCount c)) 0%float) ++ [zIn]
        /\ take (Z.to_nat (Curve.nPointCount c)) (Mvalues c') = Mvalues c)
    /\ (ok = false ->
        Curve.nPointCount c' = Curve.nPointCount c
        /\ points c' = points c /\ Mvalues c' = Mvalues c)
    /\ (Curve.nPointCount c < Curve.setNumPoints_limit ->
        (forall n, alloc_ok n = true) -> ok = true).
Proof.
  intros Hwf. pose proof Hwf as (Hcnt & _).
  unfold Curve.addPoint_xyz, Curve.setPoint_xyz.
  (* the curve after the first step, with a Z array *)
  assert (Hfirst :
            exists ok0 c0,
              (if negb (Curve.has3D c) then Curve.Make3D alloc_ok c else (true, c))
              = (ok0, c0)
              /\ well_formed c0
              /\ Curve.nPointCount c0 = Curve.nPointCount c
              /\ Curve.m_nPointCapacity c0 = Curve.m_nPointCapacity c
              /\ Curve.paoPoints c0 = Curve.paoPoints c
              /\ Curve.padfM c0 = Curve.padfM c
              /\ (ok0 = true ->
                  Curve.has3D c0 = true
                  /\ take (Z.to_nat (Curve.nPointCount c)) (default [] (Curve.padfZ c0))
                     = (if Curve.has3D c then Zvalues c
                        else replicate (Z.to_nat (Curve.nPointCount c)) 0%float))
              /\ ((forall n, alloc_ok n = true) -> ok0 = true)).
  { destruct (Curve.has3D c) eqn:H3; cbn [negb].
    - exists true, c. split; [reflexivity|]. split; [exact Hwf|]. repeat split; auto.
    - destruct (Make3D_spec alloc_ok c Hwf)
        as (ok0 & c0 & E0 & W0 & HM0 & N0 & C0 & X0 & M0 & R0 & Hok & Hgr).
      exists ok0, c0. split; [exact E0|]. split; [exact W0|]. split; [exact N0|].
      split; [exact C0|]. split; [exact X0|]. split; [exact M0|].
      split; [|intros Ha; apply Hgr, Ha].
      intros ->. destruct Hok as (H30 & Z0). split; [exact H30|].
      destruct (well_formed_lengths c Hwf) as (_ & _ & _ & Nz & _).
      rewrite Z0, (Nz H3). simpl. rewrite take_replicate. f_equal. lia. }
  destruct Hfirst as (ok0 & c0 & E0 & W0 & N0 & C0 & X0 & M0 & Hok0 & Hgr0).
  rewrite E0.
  destruct ok0; cbn [negb].
  2: { eexists false, _. split; [reflexivity|]. split; [exact W0|].
       split; [discriminate|]. split.
       - intros _. split; [exact N0|]. unfold points, Mvalues. rewrite N0, X0, M0. auto.
       - intros _ Ha. apply Hgr0, Ha. }
  destruct (Hok0 eq_refl) as (H30 & Z0). rewrite <- N0.
  destruct (reach_spec alloc_ok junkP junkD bZeroizeNewContent_default c0
              (Curve.nPointCount c0) W0)
    as (ok & c1 & E & W1 & F1 & R1 & N1 & P & _ & _ & Hgr & _); [lia|].
  rewrite E.
  destruct (P (Z.to_nat (Curve.nPointCount c0))) as (P1 & P2 & P3); [lia|].
  destruct (flags_has c0 c1 F1) as (H31 & HM1).
  destruct ok; cbn [negb].
  - replace (Z.max (Curve.nPointCount c0) (Curve.nPointCount c0 + 1))
      with (Curve.nPointCount c0 + 1) in N1 by lia.
    eexists true, _. split; [reflexivity|].
    split; [apply well_formed_storeZ, well_formed_store; exact W1|].
    split; [|split; [discriminate|intros; reflexivity]].
    intros _.
    split; [unfold Curve.has3D in *; cbn [Curve.flags Curve.set_padfZ Curve.set_paoPoints];
            congruence|].
    split; [cbn [Curve.nPointCount Curve.set_padfZ Curve.set_paoPoints]; lia|].
    destruct (grown_by_one c0 c1 W0 W1 N1 P1) as (Hlen & Hpre).
    split; [|split].
    + unfold points at 1.
      cbn [Curve.nPointCount Curve.set_padfZ Curve.set_paoPoints Curve.paoPoints].
      rewrite store_opt_take by lia.
      change (take (Z.to_nat (Curve.nPointCount c1)) (default [] (Curve.paoPoints c1)))
        with (points c1).
      apply insert_last; [exact Hlen|].
      rewrite Hpre. unfold points. rewrite N0, X0. reflexivity.
    + unfold Zvalues at 1.
      cbn [Curve.nPointCount Curve.set_padfZ Curve.set_paoPoints Curve.padfZ].
      rewrite store_opt_take by lia.
      apply insert_last.
      * change (length (Zvalues c1) = S (Z.to_nat (Curve.nPointCount c0))).
        rewrite (Zvalues_length c1 W1) by congruence. lia.
      * rewrite take_take, Nat.min_l by lia. rewrite P2, N0. exact Z0.
    + unfold Mvalues at 1.
      cbn [Curve.nPointCount Curve.set_padfZ Curve.set_paoPoints Curve.padfM].
      rewrite take_take, Nat.min_l by lia.
      rewrite P3. unfold Mvalues. rewrite N0, M0. reflexivity.
  - eexists false, _. split; [reflexivity|]. split; [exact W1|].
    split; [discriminate|]. split.
    + intros _. split; [congruence|]. unfold points, Mvalues.
      rewrite N1, P1, P3, N0, X0, M0. auto.
    + intros Hl Ha. apply Hgr; [lia|].
      unfold grants. repeat split; intros; apply Ha.
Qed.

Lemma addPoint_xyz_appends_witness :
  exists ok c',
    Curve.addPoint_xyz granted Curve.zeroPoint 0%float true four_points
                       7%float 8%float 9%float
    = (ok, c')
    /\ well_formed c'
    /\ (ok = true ->
        Curve.has3D c' = true
        /\ Curve.nPointCount c' = Curve.nPointCount four_points + 1
        /\ points c' = points four_points ++ [Curve.mkRawPoint 7%float 8%float]
        /\ Zvalues c'
           = (if Curve.has3D four_points then Zvalues four_points
              else replicate (Z.to_nat (Curve.nPointCount four_points)) 0%float)
             ++ [9%float]
        /\ take (Z.to_nat (Curve.nPointCount four_points)) (Mvalues c') = Mvalues four_points)
    /\ (ok = false ->
        Curve.nPointCount c' = Curve.nPointCount four_points
        /\ points c' = points four_points /\ Mvalues c' = Mvalues four_points)
    /\ (Curve.nPointCount four_points < Curve.setNumPoints_limit ->
        (forall n, granted n = true) -> ok = true).
Proof.
  apply (addPoint_xyz_appends granted Curve.zeroPoint 0%float true four_points
                              7%float 8%float 9%float).
  apply well_formed_curve_of.
Defined.

(** X5.  [setZ(iPoint, z)] with [iPoint >= 0] on a consistent curve, read
    back with [getZ].  When it succeeds, [getZ(iPoint)] is [z], [getZ] of
    every other former vertex is what it was (zero for a curve that had no
    Z), the former points are kept and the count is the larger of the
    former count and [iPoint + 1].  When it fails, the count and the points
    are as before.  [getZ] of an index outside the count is zero. *)
Theorem setZ_then_getZ
  (alloc_ok : Z -> bool) (junkP : Curve.OGRRawPoint) (junkD : float)
  (bZeroizeNewContent_default : bool) (c : Curve.OGRSimpleCurve) (iPoint : Z)
  (zIn : float) :
  well_formed c -> 0 <= iPoint ->
  exists ok c',
    Curve.curve_setZ alloc_ok junkP junkD bZeroizeNewContent_default c iPoint zIn = (ok, c')
    /\ well_formed c'
    /\ (ok = true ->
        Curve.getZ c' iPoint = zIn
        /\ (forall j, 0 <= j < Curve.nPointCount c -> j <> iPoint ->
              Curve.getZ c' j = Curve.getZ c j)
        /\ Curve.nPointCount c' = Z.max (Curve.nPointCount c) (iPoint + 1)
        /\ take (Z.to_nat (Curve.nPointCount c)) (points c') = points c)
    /\ (ok = false ->
        Curve.nPointCount c' = Curve.nPointCount c /\ points c' = points c)
    /\ (forall j, j < 0 \/ Curve.nPointCount c' <= j -> Curve.getZ c' j = 0%float).
Proof.
  intros Hwf H0. pose proof Hwf as (Hcnt & _).
  assert (Hout : forall (c' : Curve.OGRSimpleCurve) j,
             j < 0 \/ Curve.nPointCount c' <= j -> Curve.getZ c' j = 0%float).
  { intros c' j Hj. unfold Curve.getZ.
    destruct (Z.geb_spec j 0) as [Ha|Ha]; [|rewrite andb_false_r; reflexivity].
    destruct (Z.ltb_spec j (Curve.nPointCount c')) as [Hb|Hb]; [lia|].
    rewrite andb_false_r. reflexivity. }
  unfold Curve.curve_setZ.
  replace (Curve.getCoordinateDimension c =? 2) with (negb (Curve.has3D c))
    by (unfold Curve.getCoordinateDimension; destruct (Curve.has3D c); reflexivity).
  destruct (first_Make3D alloc_ok c Hwf)
    as (ok0 & c0 & E0 & W0 & N0 & C0 & X0 & M0 & Hok0 & _).
  rewrite E0.
  destruct ok0; cbn [negb].
  2: { eexists false, _. split; [reflexivity|]. split; [exact W0|].
       split; [discriminate|]. split; [|apply Hout].
       intros _. split; [exact N0|]. unfold points. rewrite N0, X0. reflexivity. }
  destruct (Hok0 eq_refl) as (H30 & Z0).
  destruct (reach_spec alloc_ok junkP junkD bZeroizeNewContent_default c0 iPoint W0 H0)
    as (ok & c1 & E & W1 & F1 & R1 & N1 & P & _).
  rewrite E.
  destruct (P (Z.to_nat (Curve.nPointCount c0))) as (P1 & P2 & P3); [lia|].
  destruct (flags_has c0 c1 F1) as (H31 & HM1).
  destruct ok; cbn [negb].
  - eexists true, _. split; [reflexivity|].
    split; [apply well_formed_storeZ; exact W1|].
    split; [|split; [discriminate|apply Hout]].
    intros _.
    set (c' := Curve.set_padfZ (Curve.store_opt iPoint zIn (Curve.padfZ c1)) c1).
    assert (W' : well_formed c') by (apply well_formed_storeZ; exact W1).
    assert (H3' : Curve.has3D c' = true)
      by (unfold c', Curve.has3D in *; cbn [Curve.flags Curve.set_padfZ]; congruence).
    assert (N' : Curve.nPointCount c' = Z.max (Curve.nPointCount c) (iPoint + 1))
      by (unfold c'; cbn [Curve.nPointCount Curve.set_padfZ]; lia).
    assert (HZ' : Zvalues c' = <[Z.to_nat iPoint := zIn]> (Zvalues c1)).
    { unfold Zvalues, c'. cbn [Curve.nPointCount Curve.set_padfZ Curve.padfZ].
      apply store_opt_take; lia. }
    pose proof (Zvalues_length c1 W1 ltac:(congruence)) as Hlen1.
    split.
    { rewrite (getZ_lookup c' iPoint W') by lia. rewrite H3', HZ'.
      rewrite list_lookup_insert_eq by lia. reflexivity. }
    split.
    { intros j Hj Hne.
      rewrite (getZ_lookup c' j W') by lia. rewrite (getZ_lookup c j Hwf) by lia.
      rewrite H3', HZ', list_lookup_insert_ne by lia.
      rewrite <- Z0. unfold Zvalues. rewrite !lookup_take_lt by lia.
      f_equal. apply (prefix_lookup _ _ (Z.to_nat (Curve.nPointCount c0))); [exact P2|lia]. }
    split; [exact N'|].
    unfold points, c'. cbn [Curve.nPointCount Curve.set_padfZ Curve.paoPoints].
    rewrite take_take, Nat.min_l by lia. rewrite <- N0, P1, N0, X0. reflexivity.
  - eexists false, _. split; [reflexivity|]. split; [exact W1|].
    split; [discriminate|]. split; [|apply Hout].
    intros _. split; [congruence|]. unfold points. rewrite N1, P1, N0, X0. reflexivity.
Qed.

Lemma setZ_then_getZ_witness :
  exists ok c',
    Curve.curve_setZ granted Curve.zeroPoint 0%float true four_points 1 9%float = (ok, c')
    /\ well_formed c'
    /\ (ok = true ->
        Curve.getZ c' 1 = 9%float
        /\ (forall j, 0 <= j < Curve.nPointCount four_points -> j <> 1 ->
              Curve.getZ c' j = Curve.getZ four_points j)
        /\ Curve.nPointCount c' = Z.max (Curve.nPointCount four_points) (1 + 1)
        /\ take (Z.to_nat (Curve.nPointCount four_points)) (points c') = points four_points)
    /\ (ok = false ->
        Curve.nPointCount c' = Curve.nPointCount four_points
        /\ points c' = points four_points)
    /\ (forall j, j < 0 \/ Curve.nPointCount c' <= j -> Curve.getZ c' j = 0%float).
Proof.
  apply (setZ_then_getZ granted Curve.zeroPoint 0%float true four_points 1 9%float).
  - apply well_formed_curve_of.
  - lia.
Defined.

(** X6.  [removePoint(nIndex)] on a consistent curve.  An index below
    zero or at or past the count is refused and the curve is left as it is.
    An index within the count is accepted: the count is one less, the
    points, the Z values and the M values are the former ones with the
    entry at [nIndex] deleted, the capacity is kept and the curve stays
    consistent. *)
Theorem removePoint_deletes (c : Curve.OGRSimpleCurve) (nIndex : Z) :
  well_formed c ->
  (nIndex < 0 \/ Curve.nPointCount c <= nIndex -> Curve.removePoint c nIndex = (false, c))
  /\ (0 <= nIndex < Curve.nPointCount c ->
      exists c',
        Curve.removePoint c nIndex = (true, c')
        /\ well_formed c'
        /\ Curve.nPointCount c' = Curve.nPointCount c - 1
        /\ Curve.m_nPointCapacity c' = Curve.m_nPointCapacity c
        /\ points c' = delete (Z.to_nat nIndex) (points c)
        /\ Zvalues c' = delete (Z.to_nat nIndex) (Zvalues c)
        /\ Mvalues c' = delete (Z.to_nat nIndex) (Mvalues c)).
Proof.
  intros (Hcnt & Rxy & Rz & Rm & Fz & Fm & Hcap). unfold Curve.removePoint. split.
  - intros Hout.
    destruct (Z.ltb_spec nIndex 0) as [Ha|Ha]; [reflexivity|].
    destruct (Z.geb_spec nIndex (Curve.nPointCount c)) as [Hb|Hb]; [reflexivity|lia].
  - intros Hin.
    replace (nIndex <? 0) with false by (symmetry; apply Z.ltb_ge; lia).
    replace (nIndex >=? Curve.nPointCount c) with false
      by (symmetry; rewrite Z.geb_leb; apply Z.leb_gt; lia).
    cbn [orb].
    set (i := Z.to_nat nIndex). set (n := Z.to_nat (Curve.nPointCount c)).
    assert (Hi : (i < n)%nat) by (unfold i, n; lia).
    assert (Hn : Z.of_nat n <= Curve.m_nPointCapacity c) by (unfold n; lia).
    replace (Z.to_nat (nIndex + 1)) with (S i) by (unfold i; lia).
    replace (Z.to_nat (Curve.nPointCount c - 1 - nIndex)) with (n - 1 - i)%nat
      by (unfold i, n; lia).
    replace (nIndex <? Curve.nPointCount c - 1) with (i <? n - 1)%nat
      by (unfold i, n; destruct (Nat.ltb_spec (Z.to_nat nIndex)
                                               (Z.to_nat (Curve.nPointCount c) - 1));
          symmetry; [apply Z.ltb_lt|apply Z.ltb_ge]; lia).
    destruct (removed_plane i n (Curve.paoPoints c) _ Hi Hn Rxy) as (Rx' & Nx' & Px').
    destruct (removed_plane i n (Curve.padfZ c) _ Hi Hn Rz) as (Rz' & Nz' & Pz').
    destruct (removed_plane i n (Curve.padfM c) _ Hi Hn Rm) as (Rm' & Nm' & Pm').
    eexists. split; [reflexivity|].
    destruct (i <? n - 1)%nat;
      cbn [Curve.set_nPointCount Curve.nPointCount Curve.m_nPointCapacity Curve.flags
           Curve.paoPoints Curve.padfZ Curve.padfM Curve.isLinearRing] in *;
      (split;
       [unfold well_formed, Curve.has3D, Curve.hasM;
        cbn [Curve.set_nPointCount Curve.nPointCount Curve.m_nPointCapacity Curve.flags
             Curve.paoPoints Curve.padfZ Curve.padfM Curve.isLinearRing];
        rewrite ?Nx', ?Nz', ?Nm';
        split; [lia|]; split; [assumption|]; split; [assumption|]; split; [assumption|];
        split; [exact Fz|]; split; [exact Fm|]; exact Hcap|]);
      (split; [reflexivity|]); (split; [reflexivity|]);
      unfold points, Zvalues, Mvalues;
      cbn [Curve.set_nPointCount Curve.nPointCount Curve.paoPoints Curve.padfZ Curve.padfM];
      replace (Z.to_nat (Curve.nPointCount c - 1)) with (n - 1)%nat by (unfold n; lia);
      fold n; auto.
Qed.

Lemma removePoint_deletes_witness :
  (1 < 0 \/ Curve.nPointCount four_points <= 1 -> Curve.removePoint four_points 1
                                                  = (false, four_points))
  /\ (0 <= 1 < Curve.nPointCount four_points ->
      exists c',
        Curve.removePoint four_points 1 = (true, c')
        /\ well_formed c'
        /\ Curve.nPointCount c' = Curve.nPointCount four_points - 1
        /\ Curve.m_nPointCapacity c' = Curve.m_nPointCapacity four_points
        /\ points c' = delete (Z.to_nat 1) (points four_points)
        /\ Zvalues c' = delete (Z.to_nat 1) (Zvalues four_points)
        /\ Mvalues c' = delete (Z.to_nat 1) (Mvalues four_points)).
Proof.
  apply (removePoint_deletes four_points 1). apply well_formed_curve_of.
Defined.

(** X7.  [getEnvelope] of a curve.  An empty curve gives the envelope
    (0, 0, 0, 0).  For a curve with points whose coordinates are numbers
    (none is a NaN), [MinX] and [MaxX] bound the X of every vertex, [MinY]
    and [MaxY] the Y of every vertex, and each of the four is the
    coordinate of some vertex.  When the X of the first vertex is a NaN,
    [MinX] and [MaxX] are that NaN whatever the other vertices are. *)
Theorem getEnvelope_bounds (c : Curve.OGRSimpleCurve) :
  let n := Z.to_nat (Curve.nPointCount c) in
  let e := Curve.getEnvelope c in
  let X i := Curve.x (Curve.pt c i) in
  let Y i := Curve.y (Curve.pt c i) in
  (Curve.nPointCount c = 0 -> e = Curve.mkEnvelope 0 0 0 0)
  /\ (0 < Curve.nPointCount c ->
      (forall i, (i < n)%nat -> feq (X i) (X i) = true /\ feq (Y i) (Y i) = true) ->
      (forall i, (i < n)%nat ->
         fle (Curve.MinX e) (X i) = true /\ fle (X i) (Curve.MaxX e) = true
         /\ fle (Curve.MinY e) (Y i) = true /\ fle (Y i) (Curve.MaxY e) = true)
      /\ (exists i, (i < n)%nat /\ Curve.MinX e = X i)
      /\ (exists i, (i < n)%nat /\ Curve.MaxX e = X i)
      /\ (exists i, (i < n)%nat /\ Curve.MinY e = Y i)
      /\ (exists i, (i < n)%nat /\ Curve.MaxY e = Y i))
  /\ (0 < Curve.nPointCount c -> feq (X 0%nat) (X 0%nat) = false ->
      Curve.MinX e = X 0%nat /\ Curve.MaxX e = X 0%nat).
Proof.
  cbv zeta. unfold Curve.getEnvelope, Curve.IsEmpty. split; [|split].
  - intros ->. reflexivity.
  - intros Hpos Hnum.
    replace (Curve.nPointCount c =? 0) with false by (symmetry; apply Z.eqb_neq; lia).
    match goal with |- context [fold_left (Curve.envelope_step c) ?l ?e0] =>
      destruct (envelope_fold c l e0) as (A & B & C & D) end.
    cbn [Curve.MinX Curve.MaxX Curve.MinY Curve.MaxY] in A, B, C, D.
    rewrite A, B, C, D.
    destruct (bounds_over (fun i => Curve.x (Curve.pt c i)) (Z.to_nat (Curve.nPointCount c)))
      as (X1 & X2 & X3); [lia|intros i Hi; apply (Hnum i Hi)|].
    destruct (bounds_over (fun i => Curve.y (Curve.pt c i)) (Z.to_nat (Curve.nPointCount c)))
      as (Y1 & Y2 & Y3); [lia|intros i Hi; apply (Hnum i Hi)|].
    split; [|auto].
    intros i Hi. destruct (X1 i Hi), (Y1 i Hi). auto.
  - intros Hpos Hnan.
    replace (Curve.nPointCount c =? 0) with false by (symmetry; apply Z.eqb_neq; lia).
    match goal with |- context [fold_left (Curve.envelope_step c) ?l ?e0] =>
      destruct (envelope_fold c l e0) as (A & B & _ & _) end.
    cbn [Curve.MinX Curve.MaxX] in A, B. rewrite A, B.
    destruct (running_nan (fun i => Curve.x (Curve.pt c i))
                          (seq 1 (Z.to_nat (Curve.nPointCount c) - 1)) _ Hnan) as (M1 & M2).
    auto.
Qed.

Lemma getEnvelope_bounds_witness :
  let c := curve_of false [(-1, 0); (2, 3); (-5, 1); (4, 4)]%float in
  let e := Curve.getEnvelope c in
  e = Curve.mkEnvelope (-5) 4 0 4
  /\ forall i, (i < 4)%nat ->
       fle (Curve.MinX e) (Curve.x (Curve.pt c i)) = true
       /\ fle (Curve.x (Curve.pt c i)) (Curve.MaxX e) = true
       /\ fle (Curve.MinY e) (Curve.y (Curve.pt c i)) = true
       /\ fle (Curve.y (Curve.pt c i)) (Curve.MaxY e) = true.
Proof.
  intros c e. split; [reflexivity|].
  destruct (getEnvelope_bounds c) as (_ & H & _).
  apply H; [reflexivity|].
  intros [|[|[|[|i]]]] Hi; try (split; reflexivity). simpl in Hi. lia.
Defined.

(** X8.  [getEnvelope] with an [OGREnvelope3D]: the X and Y bounds are
    those of the 2D envelope; [MinZ] and [MaxZ] are zero for an empty curve
    and for a curve without a Z array; for a curve with points and a Z array
    whose Z values are numbers they bound the Z of every vertex and each is
    the Z of some vertex. *)
Theorem getEnvelope3D_bounds (c : Curve.OGRSimpleCurve) :
  let n := Z.to_nat (Curve.nPointCount c) in
  let e := Curve.getEnvelope3D c in
  Curve.env2D e = Curve.getEnvelope c
  /\ (Curve.nPointCount c = 0 \/ Curve.padfZ c = None ->
      Curve.MinZ e = 0%float /\ Curve.MaxZ e = 0%float)
  /\ (0 < Curve.nPointCount c -> Curve.padfZ c <> None ->
      (forall i, (i < n)%nat -> feq (Curve.zAt c i) (Curve.zAt c i) = true) ->
      (forall i, (i < n)%nat ->
         fle (Curve.MinZ e) (Curve.zAt c i) = true /\ fle (Curve.zAt c i) (Curve.MaxZ e) = true)
      /\ (exists i, (i < n)%nat /\ Curve.MinZ e = Curve.zAt c i)
      /\ (exists i, (i < n)%nat /\ Curve.MaxZ e = Curve.zAt c i)).
Proof.
  cbv zeta. unfold Curve.getEnvelope3D, Curve.IsEmpty.
  destruct (fold_left (Curve.envelopeZ_step c)
              (seq 1 (Z.to_nat (Curve.nPointCount c) - 1))
              (Curve.zAt c 0, Curve.zAt c 0)) as [lo hi] eqn:Hfold.
  pose proof (envelopeZ_fold c (seq 1 (Z.to_nat (Curve.nPointCount c) - 1))
                             (Curve.zAt c 0, Curve.zAt c 0)) as (A & B).
  rewrite Hfold in A, B. cbn [fst snd] in A, B.
  split; [|split].
  - destruct ((Curve.nPointCount c =? 0) || Curve.is_null (Curve.padfZ c)); reflexivity.
  - intros [H0 | Hz].
    + rewrite H0. simpl. auto.
    + rewrite Hz. rewrite orb_true_r. simpl. auto.
  - intros Hpos Hz Hnum.
    replace (Curve.nPointCount c =? 0) with false by (symmetry; apply Z.eqb_neq; lia).
    destruct (Curve.padfZ c) as [zs|] eqn:Ez; [|congruence].
    cbn [Curve.is_null orb Curve.MinZ Curve.MaxZ].
    destruct (bounds_over (fun i => Curve.zAt c i) (Z.to_nat (Curve.nPointCount c)))
      as (Z1 & Z2 & Z3); [lia|exact Hnum|].
    rewrite A, B. auto.
Qed.

Lemma getEnvelope3D_bounds_witness :
  let c := curve3D_of [(0, 0); (10, 0); (0, 0)]%float [1; 3; 2]%float in
  let e := Curve.getEnvelope3D c in
  Curve.MinZ e = 1%float /\ Curve.MaxZ e = 3%float
  /\ forall i, (i < 3)%nat ->
       fle (Curve.MinZ e) (Curve.zAt c i) = true /\ fle (Curve.zAt c i) (Curve.MaxZ e) = true.
Proof.
  intros c e. split; [reflexivity|]. split; [reflexivity|].
  destruct (getEnvelope3D_bounds c) as (_ & _ & H).
  apply H; [reflexivity|discriminate|].
  intros [|[|[|i]]] Hi; try reflexivity. simpl in Hi. lia.
Defined.

(** X9.  [swapXY] on a curve whose count is not negative exchanges the X
    and the Y of every counted point and nothing else: applied twice it
    gives the curve back, and the envelope of the swapped curve is the
    envelope of the curve with its X and Y bounds exchanged. *)
Theorem swapXY_exchanges (c : Curve.OGRSimpleCurve) :
  0 <= Curve.nPointCount c ->
  Curve.swapXY (Curve.swapXY c) = c
  /\ (forall i, (i < Z.to_nat (Curve.nPointCount c))%nat ->
        Curve.pt (Curve.swapXY c) i
        = Curve.mkRawPoint (Curve.y (Curve.pt c i)) (Curve.x (Curve.pt c i)))
  /\ Zvalues (Curve.swapXY c) = Zvalues c
  /\ Mvalues (Curve.swapXY c) = Mvalues c
  /\ Curve.getEnvelope (Curve.swapXY c)
     = (let e := Curve.getEnvelope c in
        Curve.mkEnvelope (Curve.MinY e) (Curve.MaxY e) (Curve.MinX e) (Curve.MaxX e)).
Proof.
  intros Hcount. split; [|split; [|split; [|split]]].
  - destruct c as [f n cap p z m r]. unfold Curve.swapXY, Curve.set_paoPoints.
    cbn [Curve.nPointCount Curve.paoPoints Curve.flags
         Curve.m_nPointCapacity Curve.padfZ Curve.padfM Curve.isLinearRing].
    f_equal. destruct p as [l|]; [|reflexivity]. cbn [option_map]. f_equal.
    apply (swapXY_twice_list (Z.to_nat n) l).
  - intros i Hi. apply swapXY_pt. exact Hi.
  - reflexivity.
  - reflexivity.
  - cbv zeta. unfold Curve.getEnvelope, Curve.IsEmpty.
    change (Curve.nPointCount (Curve.swapXY c)) with (Curve.nPointCount c).
    destruct (Z.eqb_spec (Curve.nPointCount c) 0) as [H0|H0]; [reflexivity|].
    set (l := seq 1 (Z.to_nat (Curve.nPointCount c) - 1)).
    assert (Hl : forall i, In i l -> (i < Z.to_nat (Curve.nPointCount c))%nat)
      by (intros i Hi; apply in_seq in Hi; lia).
    assert (H0' : Curve.pt (Curve.swapXY c) 0%nat
                  = Curve.mkRawPoint (Curve.y (Curve.pt c 0%nat)) (Curve.x (Curve.pt c 0%nat)))
      by (apply swapXY_pt; lia).
    rewrite H0'. cbn [Curve.x Curve.y].
    match goal with |- fold_left _ l ?e1 = _ =>
      destruct (envelope_fold (Curve.swapXY c) l e1) as (A & B & C & D) end.
    match goal with |- _ = Curve.mkEnvelope (Curve.MinY (fold_left _ l ?e2)) _ _ _ =>
      destruct (envelope_fold c l e2) as (A' & B' & C' & D') end.
    cbn [Curve.MinX Curve.MaxX Curve.MinY Curve.MaxY] in *.
    rewrite A', B', C', D'.
    match goal with |- ?e = _ => destruct e as [a1 a2 a3 a4] end.
    cbn [Curve.MinX Curve.MaxX Curve.MinY Curve.MaxY] in *.
    rewrite A, B, C, D. clear A B C D A' B' C' D'.
    f_equal; apply fold_left_ext_in; intros s i Hi;
      rewrite (swapXY_pt c i (Hl i Hi)); reflexivity.
Qed.

Lemma swapXY_exchanges_witness :
  Curve.swapXY (Curve.swapXY four_points) = four_points
  /\ points (Curve.swapXY four_points)
     = map (fun p => Curve.mkRawPoint (fst p) (snd p)) [(0, -1); (3, 2); (1, -5); (4, 4)]%float
  /\ Curve.getEnvelope (Curve.swapXY four_points) = Curve.mkEnvelope 0 4 (-5) 4.
Proof.
  destruct (swapXY_exchanges four_points) as (H & _ & _ & _ & E); [simpl; lia|].
  split; [exact H|]. split; [reflexivity|]. rewrite E. reflexivity.
Defined.

(** X10.  [reversePoints] on a consistent curve: the points, the Z values
    and the M values are each the former ones in the opposite order, the
    count, the capacity and the consistency are kept, and a second call
    gives the curve back. *)
Theorem reversePoints_reverses (c : Curve.OGRSimpleCurve) :
  well_formed c ->
  let c' := Curve.reversePoints c in
  well_formed c'
  /\ Curve.nPointCount c' = Curve.nPointCount c
  /\ Curve.m_nPointCapacity c' = Curve.m_nPointCapacity c
  /\ points c' = reverse (points c)
  /\ Zvalues c' = reverse (Zvalues c)
  /\ Mvalues c' = reverse (Mvalues c)
  /\ Curve.reversePoints c' = c.
Proof.
  intros (Hcnt & Rxy & Rz & Rm & Fz & Fm & Hcap). cbv zeta.
  set (n := Z.to_nat (Curve.nPointCount c)).
  assert (Hn : Z.of_nat n <= Curve.m_nPointCapacity c) by (unfold n; lia).
  destruct (reversed_plane n (Curve.paoPoints c) _ Hn Rxy) as (Rx' & Nx' & Px' & Ix').
  destruct (reversed_plane n (Curve.padfZ c) _ Hn Rz) as (Rz' & Nz' & Pz' & Iz').
  destruct (reversed_plane n (Curve.padfM c) _ Hn Rm) as (Rm' & Nm' & Pm' & Im').
  unfold Curve.reversePoints.
  cbn [Curve.nPointCount Curve.m_nPointCapacity Curve.flags Curve.paoPoints Curve.padfZ
       Curve.padfM Curve.isLinearRing].
  rewrite (half_count c). fold n.
  split.
  { unfold well_formed, Curve.has3D, Curve.hasM.
    cbn [Curve.nPointCount Curve.m_nPointCapacity Curve.flags Curve.paoPoints Curve.padfZ
         Curve.padfM Curve.isLinearRing].
    rewrite Nx', Nz', Nm'.
    split; [exact Hcnt|]. split; [exact Rx'|]. split; [exact Rz'|]. split; [exact Rm'|].
    split; [exact Fz|]. split; [exact Fm|]. exact Hcap. }
  split; [reflexivity|]. split; [reflexivity|].
  unfold points, Zvalues, Mvalues.
  cbn [Curve.nPointCount Curve.paoPoints Curve.padfZ Curve.padfM]. fold n.
  split; [exact Px'|]. split; [exact Pz'|]. split; [exact Pm'|].
  rewrite Ix', Iz', Im'. destruct c; reflexivity.
Qed.

Lemma reversePoints_reverses_witness :
  let c' := Curve.reversePoints sloped_3D_line in
  well_formed c'
  /\ Curve.nPointCount c' = Curve.nPointCount sloped_3D_line
  /\ Curve.m_nPointCapacity c' = Curve.m_nPointCapacity sloped_3D_line
  /\ points c' = reverse (points sloped_3D_line)
  /\ Zvalues c' = reverse (Zvalues sloped_3D_line)
  /\ Mvalues c' = reverse (Mvalues sloped_3D_line)
  /\ Curve.reversePoints c' = sloped_3D_line.
Proof.
  apply (reversePoints_reverses sloped_3D_line).
  apply well_formed_curve3D_of. reflexivity.
Defined.

Lemma forallb_pointwise {A} (f g : A -> bool) (l : list A) :
  (forall v, f v = g v) -> forallb f l = forallb g l.
Proof. intros H. induction l as [|v l IH]; simpl; [reflexivity|]. rewrite H, IH. reflexivity. Qed.

(** X11.  [Equals] between line strings is symmetric and transitive, and
    it does not look at the M values; it is not reflexive between two
    objects: a curve whose first X is a NaN differs from a copy of itself
    (the comparison of an object with itself is answered by the addresses
    alone). *)
Theorem Equals_symmetric_transitive (a b c : Curve.OGRSimpleCurve) :
  (forall same, Curve.Equals same a b = Curve.Equals same b a)
  /\ (Curve.Equals false a b = true -> Curve.Equals false b c = true ->
      Curve.Equals false a c = true)
  /\ (forall ms, Curve.Equals false a (Curve.set_padfM ms b) = Curve.Equals false a b)
  /\ (0 < Curve.nPointCount a -> feq (Curve.getX a 0) (Curve.getX a 0) = false ->
      Curve.Equals false a a = false)
  /\ Curve.Equals true a a = true.
Proof.
  assert (Hne : forall u v, fne u v = fne v u)
    by (intros u v; unfold fne; change (PrimFloat.eqb u v) with (feq u v);
        change (PrimFloat.eqb v u) with (feq v u); rewrite feq_sym; reflexivity).
  assert (Hpoint : forall (p q : Curve.OGRSimpleCurve) i,
             negb (fne (Curve.getX p i) (Curve.getX q i)
                   || fne (Curve.getY p i) (Curve.getY q i)
                   || fne (Curve.getZ p i) (Curve.getZ q i)) = true
             <-> feq (Curve.getX p i) (Curve.getX q i) = true
                 /\ feq (Curve.getY p i) (Curve.getY q i) = true
                 /\ feq (Curve.getZ p i) (Curve.getZ q i) = true).
  { intros p q i. unfold fne.
    change PrimFloat.eqb with feq.
    destruct (feq (Curve.getX p i) (Curve.getX q i)),
             (feq (Curve.getY p i) (Curve.getY q i)),
             (feq (Curve.getZ p i) (Curve.getZ q i)); simpl; intuition congruence. }
  split; [|split; [|split; [|split]]].
  - intros same. unfold Curve.Equals. destruct same; [reflexivity|].
    destruct (decide (Curve.getGeometryType b = Curve.getGeometryType a)) as [Hg|Hg].
    + rewrite (bool_decide_eq_true_2 _ Hg), (bool_decide_eq_true_2 _ (eq_sym Hg)).
      cbn [negb]. rewrite (andb_comm (Curve.IsEmpty a)).
      destruct (Curve.IsEmpty b && Curve.IsEmpty a); [reflexivity|].
      rewrite (Z.eqb_sym (Curve.nPointCount a)).
      destruct (Z.eqb_spec (Curve.nPointCount b) (Curve.nPointCount a)) as [Hn|Hn];
        [|reflexivity].
      cbn [negb]. rewrite Hn. apply forallb_pointwise. intros i.
      rewrite (Hne (Curve.getX a i)), (Hne (Curve.getY a i)), (Hne (Curve.getZ a i)).
      reflexivity.
    + rewrite (bool_decide_eq_false_2 _ Hg).
      rewrite bool_decide_eq_false_2 by (intros E; apply Hg; symmetry; exact E).
      reflexivity.
  - unfold Curve.Equals, Curve.IsEmpty.
    destruct (decide (Curve.getGeometryType b = Curve.getGeometryType a)) as [Hab|Hab];
      [rewrite (bool_decide_eq_true_2 _ Hab)|rewrite (bool_decide_eq_false_2 _ Hab);
                                              discriminate].
    destruct (decide (Curve.getGeometryType c = Curve.getGeometryType b)) as [Hbc|Hbc];
      [rewrite (bool_decide_eq_true_2 _ Hbc)|rewrite (bool_decide_eq_false_2 _ Hbc);
                                              intros _; discriminate].
    rewrite bool_decide_eq_true_2 by congruence. cbn [negb].
    destruct (Z.eqb_spec (Curve.nPointCount a) 0) as [Ha|Ha],
             (Z.eqb_spec (Curve.nPointCount b) 0) as [Hb|Hb],
             (Z.eqb_spec (Curve.nPointCount c) 0) as [Hc|Hc]; cbn [andb];
      try reflexivity;
      destruct (Z.eqb_spec (Curve.nPointCount a) (Curve.nPointCount b)) as [Eab|Eab];
      destruct (Z.eqb_spec (Curve.nPointCount b) (Curve.nPointCount c)) as [Ebc|Ebc];
      destruct (Z.eqb_spec (Curve.nPointCount a) (Curve.nPointCount c)) as [Eac|Eac];
      cbn [negb]; try discriminate; try (intros _; discriminate); try lia;
      try (intros; exfalso; lia).
    all: rewrite !forallb_forall; intros H1 H2 i Hi;
      apply Hpoint; rewrite Eab in Hi;
      pose proof (proj1 (Hpoint a b i) (H1 i ltac:(rewrite Eab; exact Hi))) as (X1 & Y1 & Z1);
      pose proof (proj1 (Hpoint b c i) (H2 i Hi)) as (X2 & Y2 & Z2);
      repeat split; eapply feq_trans; eassumption.
  - intros ms. unfold Curve.Equals, Curve.getGeometryType, Curve.IsEmpty, Curve.getX,
      Curve.getY, Curve.getZ, Curve.pt, Curve.zAt, Curve.has3D, Curve.hasM.
    reflexivity.
  - intros Hpos Hnan. unfold Curve.Equals, Curve.IsEmpty.
    rewrite bool_decide_eq_true_2 by reflexivity.
    replace (Curve.nPointCount a =? 0) with false by (symmetry; apply Z.eqb_neq; lia).
    rewrite Z.eqb_refl. cbn [negb andb].
    destruct (Z.to_nat (Curve.nPointCount a)) as [|k] eqn:Ek; [lia|].
    cbn [seq map forallb]. change (Z.of_nat 0) with 0.
    unfold fne at 1. change (PrimFloat.eqb (Curve.getX a 0) (Curve.getX a 0))
      with (feq (Curve.getX a 0) (Curve.getX a 0)).
    rewrite Hnan. reflexivity.
  - reflexivity.
Qed.

Lemma getPoint_absorbs (c : Curve.OGRSimpleCurve) (i j : nat) (p : Curve.OGRPoint) :
  Curve.getPoint c i (Curve.getPoint c j p) = Curve.getPoint c i p.
Proof.
  unfold Curve.getPoint.
  destruct (Curve.has3D c && negb (Curve.is_null (Curve.padfZ c)));
    destruct (Curve.hasM c && negb (Curve.is_null (Curve.padfM c)));
    destruct p; reflexivity.
Qed.

Lemma drain_from (c : Curve.OGRSimpleCurve) (p q : Curve.OGRPoint) (fuel k : nat) :
  (forall i, Curve.getPoint c i q = Curve.getPoint c i p) ->
  drain fuel (Curve.mkIterator c (Z.of_nat k)) q
  = map (fun i => Curve.getPoint c i p)
        (seq k (Nat.min fuel (Z.to_nat (Curve.nPointCount c) - k))).
Proof.
  revert k q. induction fuel as [|fuel IH]; intros k q Hq; [reflexivity|].
  cbn [drain]. unfold Curve.getNextPoint. cbn [Curve.iCurPoint Curve.poSC].
  destruct (Z.geb_spec (Z.of_nat k) (Curve.nPointCount c)) as [Hge|Hlt].
  - replace (Z.to_nat (Curve.nPointCount c) - k)%nat with 0%nat by lia.
    rewrite Nat.min_0_r. reflexivity.
  - replace (Nat.min (S fuel) (Z.to_nat (Curve.nPointCount c) - k))
      with (S (Nat.min fuel (Z.to_nat (Curve.nPointCount c) - S k))) by lia.
    cbn [seq map]. rewrite Nat2Z.id, Hq. f_equal.
    replace (Z.of_nat k + 1) with (Z.of_nat (S k)) by lia.
    apply IH. intros i. apply getPoint_absorbs.
Qed.

(** X12.  The point iterator of a curve hands out the vertices in order,
    one for each call, as [getPoint] gives them; once the count is reached
    it answers FALSE, leaves the point of the caller alone, and stays
    exhausted. *)
Theorem point_iterator_enumerates (c : Curve.OGRSimpleCurve) (p : Curve.OGRPoint)
  (fuel : nat) :
  drain fuel (Curve.getPointIterator c) p
  = map (fun i => Curve.getPoint c i p)
        (seq 0 (Nat.min fuel (Z.to_nat (Curve.nPointCount c))))
  /\ (forall it q, Curve.nPointCount (Curve.poSC it) <= Curve.iCurPoint it ->
        Curve.getNextPoint it q = (false, q, it)).
Proof.
  split.
  - unfold Curve.getPointIterator. change 0 with (Z.of_nat 0).
    rewrite (drain_from c p p fuel 0) by reflexivity.
    rewrite Nat.sub_0_r. reflexivity.
  - intros it q H. unfold Curve.getNextPoint.
    replace (Curve.iCurPoint it >=? Curve.nPointCount (Curve.poSC it)) with true
      by (symmetry; rewrite Z.geb_leb; apply Z.leb_le; exact H).
    reflexivity.
Qed.

(** X13.  [setPoints(nPointsIn, paoPointsIn, padfZIn)] with at least one
    point, read back with [getPoints(paoPointsOut, padfZOut)].  When the
    call succeeds the count is [nPointsIn], the points are the first
    [nPointsIn] of [paoPointsIn], the curve is 3D exactly when [padfZIn] is
    given and its Z values are then the first [nPointsIn] of [padfZIn];
    [getPoints] writes these points over the start of [paoPointsOut], and
    over the start of [padfZOut] the Z values, or zeros when the curve has
    none.  The call succeeds when the count is within the limit of
    [setNumPoints] and the allocator grants every request; the curve stays
    consistent either way. *)
Theorem setPoints_then_getPoints
  (alloc_ok : Z -> bool) (junkP : Curve.OGRRawPoint) (junkD : float)
  (c : Curve.OGRSimpleCurve) (nPointsIn : Z) (paoPointsIn : list Curve.OGRRawPoint)
  (padfZIn : option (list float)) (paoPointsOut : list Curve.OGRRawPoint)
  (padfZOut : list float) :
  let n := Z.to_nat nPointsIn in
  well_formed c -> 0 < nPointsIn -> (n <= length paoPointsIn)%nat ->
  (forall zs, padfZIn = Some zs -> (n <= length zs)%nat) ->
  exists ok c',
    Curve.setPoints_raw alloc_ok junkP junkD c nPointsIn paoPointsIn padfZIn = (ok, c')
    /\ well_formed c'
    /\ (ok = true ->
        Curve.nPointCount c' = nPointsIn
        /\ points c' = take n paoPointsIn
        /\ Curve.has3D c' = negb (Curve.is_null padfZIn)
        /\ Zvalues c' = take n (default [] padfZIn)
        /\ Curve.getPoints c' (Some paoPointsOut) (Some padfZOut)
           = (Some (take n paoPointsIn ++ drop n paoPointsOut),
              Some (match padfZIn with
                    | Some zs => take n zs
                    | None => replicate n 0%float
                    end ++ drop n padfZOut)))
    /\ (nPointsIn <= Curve.setNumPoints_limit -> (forall k, alloc_ok k = true) -> ok = true).
Proof.
  intros n Hwf Hpos Hpts Hzs. unfold Curve.setPoints_raw.
  destruct (setNumPoints_spec alloc_ok junkP junkD c nPointsIn false Hwf)
    as (ok & c1 & log & E & W1 & F1 & R1 & N1 & _ & _ & _ & _ & Hgr); [lia|].
  rewrite E. destruct ok.
  2: { eexists false, _. split; [reflexivity|]. split; [exact W1|].
       split; [discriminate|]. intros Hl Ha. apply Hgr; [exact Hl|].
       unfold grants. repeat split; intros; apply Ha. }
  replace (nPointsIn =? 0) with false by (symmetry; apply Z.eqb_neq; lia).
  fold n.
  (* the XY array after the copy *)
  pose proof W1 as (Hcnt1 & Rxy1 & Rz1 & Rm1 & Fz1 & Fm1 & Hcap1).
  assert (Hn : Z.of_nat n <= Curve.m_nPointCapacity c1) by (unfold n; lia).
  destruct (Hcap1 ltac:(lia)) as (Nx1 & Nz1 & Nm1).
  destruct (memcpy_plane n paoPointsIn (Curve.paoPoints c1) _ Hpts Hn Rxy1)
    as (Rx2 & Nx2 & Px2).
  set (c2 := Curve.set_paoPoints
               (option_map (Curve.memcpy n paoPointsIn) (Curve.paoPoints c1)) c1).
  assert (W2 : well_formed c2).
  { unfold well_formed, c2, Curve.has3D, Curve.hasM.
    cbn [Curve.nPointCount Curve.m_nPointCapacity Curve.flags Curve.paoPoints Curve.padfZ
         Curve.padfM Curve.set_paoPoints]. rewrite Nx2.
    split; [exact Hcnt1|]. split; [exact Rx2|]. split; [exact Rz1|]. split; [exact Rm1|].
    split; [exact Fz1|]. split; [exact Fm1|]. exact Hcap1. }
  assert (P2 : take n (default [] (Curve.paoPoints c2)) = take n paoPointsIn)
    by (apply Px2, Nx1).
  assert (N2 : Curve.nPointCount c2 = nPointsIn) by exact N1.
  assert (Hget : forall c' : Curve.OGRSimpleCurve,
             Curve.nPointCount c' = nPointsIn ->
             take n (default [] (Curve.paoPoints c')) = take n paoPointsIn ->
             Curve.getPoints c' (Some paoPointsOut) (Some padfZOut)
             = (Some (take n paoPointsIn ++ drop n paoPointsOut),
                Some (match Curve.padfZ c' with
                      | Some z => take n z
                      | None => replicate n 0%float
                      end ++ drop n padfZOut))).
  { intros c' Nc Pc. unfold Curve.getPoints. rewrite Nc.
    replace (nPointsIn =? 0) with false by (symmetry; apply Z.eqb_neq; lia).
    fold n. unfold Curve.memcpy. rewrite Pc.
    destruct (Curve.padfZ c'); reflexivity. }
  destruct padfZIn as [zin|].
  - destruct (Make3D_spec alloc_ok c2 W2)
      as (ok3 & c3 & E3 & W3 & HM3 & N3 & C3 & X3 & M3 & R3 & Hok3 & Hgr3).
    rewrite E3. destruct ok3.
    2: { eexists false, _. split; [reflexivity|]. split; [exact W3|].
         split; [discriminate|]. intros _ Ha. apply Hgr3, Ha. }
    destruct Hok3 as (H33 & Z3).
    pose proof W3 as (Hcnt3 & Rxy3 & Rz3 & Rm3 & Fz3 & Fm3 & Hcap3).
    destruct (Hcap3 ltac:(lia)) as (Nx3 & Nz3 & Nm3).
    destruct (memcpy_plane n zin (Curve.padfZ c3) (Curve.m_nPointCapacity c3)
                           (Hzs zin eq_refl) ltac:(lia) Rz3)
      as (Rz4 & Nz4 & Pz4).
    eexists true, _. split; [reflexivity|].
    set (c4 := Curve.set_padfZ (option_map (Curve.memcpy n zin) (Curve.padfZ c3)) c3).
    assert (W4 : well_formed c4).
    { unfold well_formed, c4, Curve.has3D, Curve.hasM.
      cbn [Curve.nPointCount Curve.m_nPointCapacity Curve.flags Curve.paoPoints Curve.padfZ
           Curve.padfM Curve.set_padfZ]. rewrite Nz4.
      split; [exact Hcnt3|]. split; [exact Rxy3|]. split; [exact Rz4|]. split; [exact Rm3|].
      split; [exact Fz3|]. split; [exact Fm3|]. exact Hcap3. }
    split; [exact W4|]. split; [|intros; reflexivity].
    intros _.
    assert (N4 : Curve.nPointCount c4 = nPointsIn) by (unfold c4; simpl; congruence).
    assert (P4 : take n (default [] (Curve.paoPoints c4)) = take n paoPointsIn)
      by (unfold c4; cbn [Curve.paoPoints Curve.set_padfZ]; rewrite X3; exact P2).
    assert (Z4 : take n (default [] (Curve.padfZ c4)) = take n zin)
      by (apply Pz4, Nz3, H33).
    split; [exact N4|]. split; [unfold points; rewrite N4; exact P4|].
    split; [exact H33|]. split; [unfold Zvalues; rewrite N4; exact Z4|].
    rewrite (Hget c4 N4 P4).
    destruct (Curve.padfZ c4) as [z4|] eqn:Ez4.
    + simpl in Z4. rewrite Z4. reflexivity.
    + unfold c4 in Ez4. cbn [Curve.padfZ Curve.set_padfZ] in Ez4.
      destruct (Curve.padfZ c3); [discriminate|].
      specialize (Nz3 H33). discriminate.
  - destruct (Z.gtb_spec (Curve.getCoordinateDimension c2) 2) as [Hd|Hd].
    + destruct (Make2D_spec c2 W2) as (W3 & H33 & HM3 & Z3 & N3 & C3 & X3 & M3 & R3).
      eexists true, _. split; [reflexivity|]. split; [exact W3|].
      split; [|intros; reflexivity]. intros _.
      assert (N4 : Curve.nPointCount (Curve.Make2D c2) = nPointsIn) by congruence.
      assert (P4 : take n (default [] (Curve.paoPoints (Curve.Make2D c2)))
                   = take n paoPointsIn) by (rewrite X3; exact P2).
      split; [exact N4|]. split; [unfold points; rewrite N4; exact P4|].
      split; [exact H33|].
      split; [unfold Zvalues; rewrite Z3; simpl; rewrite !take_nil; reflexivity|].
      rewrite (Hget _ N4 P4), Z3. reflexivity.
    + assert (H32 : Curve.has3D c2 = false).
      { unfold Curve.getCoordinateDimension in Hd. destruct (Curve.has3D c2); [lia|].
        reflexivity. }
      destruct (well_formed_lengths c2 W2) as (_ & _ & _ & Nz & _).
      eexists true, _. split; [reflexivity|]. split; [exact W2|].
      split; [|intros; reflexivity]. intros _.
      split; [exact N2|]. split; [unfold points; rewrite N2; exact P2|].
      split; [exact H32|].
      split; [unfold Zvalues; rewrite (Nz H32); simpl; rewrite !take_nil; reflexivity|].
      rewrite (Hget _ N2 P2), (Nz H32). reflexivity.
Qed.

Lemma setPoints_then_getPoints_witness :
  let pts := [Curve.mkRawPoint 1 2; Curve.mkRawPoint 3 4; Curve.mkRawPoint 5 6]%float in
  exists ok c',
    Curve.setPoints_raw granted Curve.zeroPoint 0%float four_points 2 pts
                        (Some [7; 8; 9]%float) = (ok, c')
    /\ well_formed c'
    /\ (ok = true ->
        Curve.nPointCount c' = 2
        /\ points c' = take 2 pts
        /\ Curve.has3D c' = true
        /\ Zvalues c' = [7; 8]%float
        /\ Curve.getPoints c' (Some [Curve.zeroPoint; Curve.zeroPoint; Curve.zeroPoint])
                           (Some [0; 0; 0]%float)
           = (Some (take 2 pts ++ [Curve.zeroPoint]), Some [7; 8; 0]%float))
    /\ (2 <= Curve.setNumPoints_limit -> (forall k, granted k = true) -> ok = true).
Proof.
  intros pts.
  apply (setPoints_then_getPoints granted Curve.zeroPoint 0%float four_points 2 pts
           (Some [7; 8; 9]%float) [Curve.zeroPoint; Curve.zeroPoint; Curve.zeroPoint]
           [0; 0; 0]%float).
  - apply well_formed_curve_of.
  - lia.
  - simpl. lia.
  - intros zs [= <-]. simpl. lia.
Defined.

(** X14.  [setCoordinateDimension(n)] on a consistent curve always removes
    the M values and keeps the points.  With [n = 2] it also removes the Z
    values; with [n = 3] it gives the curve a Z array, zero for every point
    of a curve that had none, or fails when that array cannot be allocated,
    leaving the curve 2D; with any other [n] it returns true and leaves the
    Z values as they are: a request for four dimensions yields no M.
    [flattenTo2D] is the case [n = 2]. *)
Theorem setCoordinateDimension_drops_M
  (alloc_ok : Z -> bool) (c : Curve.OGRSimpleCurve) (nNewDimension : Z) :
  well_formed c ->
  exists ok c',
    Curve.setCoordinateDimension alloc_ok c nNewDimension = (ok, c')
    /\ well_formed c'
    /\ Curve.hasM c' = false /\ Curve.padfM c' = None
    /\ Curve.nPointCount c' = Curve.nPointCount c /\ points c' = points c
    /\ (nNewDimension = 2 ->
        ok = true /\ Curve.has3D c' = false /\ Curve.padfZ c' = None
        /\ c' = Curve.flattenTo2D alloc_ok c)
    /\ (nNewDimension = 3 ->
        (ok = true ->
         Curve.has3D c' = true
         /\ Zvalues c' = (if Curve.has3D c then Zvalues c
                          else replicate (Z.to_nat (Curve.nPointCount c)) 0%float))
        /\ (ok = false -> Curve.has3D c' = false /\ Curve.padfZ c' = None)
        /\ (alloc_ok (Curve.sizeof_double * Z.max 1 (Curve.m_nPointCapacity c)) = true ->
            ok = true))
    /\ (nNewDimension <> 2 -> nNewDimension <> 3 ->
        ok = true /\ Curve.has3D c' = Curve.has3D c /\ Curve.padfZ c' = Curve.padfZ c).
Proof.
  intros Hwf. pose proof Hwf as (Hcnt & _).
  unfold Curve.setCoordinateDimension, Curve.setMeasured. cbn [snd].
  destruct (RemoveM_spec c Hwf) as (W1 & HM1 & H31 & M1 & N1 & C1 & X1 & Z1 & R1).
  set (c1 := Curve.RemoveM c) in *.
  destruct (Z.eqb_spec nNewDimension 2) as [E2|E2].
  - destruct (Make2D_spec c1 W1) as (W2 & H32 & HM2 & Z2 & N2 & C2 & X2 & M2 & R2).
    eexists true, _. split; [reflexivity|]. split; [exact W2|].
    split; [congruence|]. split; [congruence|]. split; [congruence|].
    split; [unfold points; rewrite N2, X2, N1, X1; reflexivity|].
    split; [|split; [lia|lia]].
    intros _. split; [reflexivity|]. split; [exact H32|]. split; [exact Z2|].
    unfold Curve.flattenTo2D, Curve.setMeasured. cbn [snd].
    unfold c1, Curve.Make2D, Curve.RemoveM, Curve.set_flags, Curve.set_padfZ,
      Curve.set_padfM. simpl. f_equal.
    apply Z.bits_inj'. intros k Hk.
    rewrite !Z.land_spec. destruct (Z.testbit (Curve.flags c) k); simpl; [|reflexivity].
    apply andb_comm.
  - destruct (Z.eqb_spec nNewDimension 3) as [E3|E3].
    + destruct (Make3D_spec alloc_ok c1 W1)
        as (ok & c2 & E & W2 & HM2 & N2 & C2 & X2 & M2 & R2 & Hok & Hgr).
      rewrite E. eexists ok, c2. split; [reflexivity|]. split; [exact W2|].
      split; [congruence|]. split; [congruence|]. split; [congruence|].
      split; [unfold points; rewrite N2, X2, N1, X1; reflexivity|].
      split; [lia|]. split; [|lia]. intros _.
      split; [|split].
      * intros ->. destruct Hok as (H32 & Z2). split; [exact H32|].
        unfold Zvalues. rewrite N2, N1, Z2, Z1.
        destruct (well_formed_lengths c Hwf) as (_ & _ & _ & Nz & _).
        destruct (Curve.has3D c) eqn:H3.
        -- pose proof Hwf as (_ & _ & _ & _ & _ & _ & Hcap).
           destruct (Curve.padfZ c) as [zs|] eqn:Ez; [reflexivity|].
           simpl. rewrite take_replicate, take_nil.
           destruct (Z.to_nat (Curve.nPointCount c)) eqn:En; [reflexivity|].
           destruct (Hcap ltac:(lia)) as (_ & A & _). specialize (A H3).
           discriminate.
        -- rewrite (Nz eq_refl). simpl. rewrite take_replicate. f_equal.
           change (Curve.m_nPointCapacity c1) with (Curve.m_nPointCapacity c) in *. lia.
      * intros ->. destruct Hok as (H32 & Z2 & _). auto.
      * rewrite C1 in Hgr. exact Hgr.
    + eexists true, _. split; [reflexivity|]. split; [exact W1|].
      split; [exact HM1|]. split; [exact M1|]. split; [exact N1|].
      split; [unfold points; rewrite N1, X1; reflexivity|].
      split; [lia|]. split; [lia|]. intros _ _. auto.
Qed.

Lemma setCoordinateDimension_drops_M_witness :
  exists ok c',
    Curve.setCoordinateDimension granted sloped_3D_line 4 = (ok, c')
    /\ well_formed c'
    /\ Curve.hasM c' = false /\ Curve.padfM c' = None
    /\ Curve.nPointCount c' = Curve.nPointCount sloped_3D_line
    /\ points c' = points sloped_3D_line
    /\ (4 = 2 ->
        ok = true /\ Curve.has3D c' = false /\ Curve.padfZ c' = None
        /\ c' = Curve.flattenTo2D granted sloped_3D_line)
    /\ (4 = 3 ->
        (ok = true ->
         Curve.has3D c' = true
         /\ Zvalues c' = (if Curve.has3D sloped_3D_line then Zvalues sloped_3D_line
                          else replicate (Z.to_nat (Curve.nPointCount sloped_3D_line)) 0%float))
        /\ (ok = false -> Curve.has3D c' = false /\ Curve.padfZ c' = None)
        /\ (granted (Curve.sizeof_double * Z.max 1 (Curve.m_nPointCapacity sloped_3D_line))
            = true -> ok = true))
    /\ (4 <> 2 -> 4 <> 3 ->
        ok = true /\ Curve.has3D c' = Curve.has3D sloped_3D_line
        /\ Curve.padfZ c' = Curve.padfZ sloped_3D_line).
Proof.
  apply (setCoordinateDimension_drops_M granted sloped_3D_line 4).
  apply well_formed_curve3D_of. reflexivity.
Defined.

(** X22.  [addPoint(x, y, z, m)] on a consistent curve.  When it
    succeeds the curve is 3D and measured, the points are the former points
    followed by [(x, y)], the Z values are the former Z values followed by
    [z] and the M values are the former M values followed by [m]; a curve
    that had no Z array, or no M array, gets the value zero for each of its
    former points.  When it fails the count and the points are as before.
    It succeeds when the count is below the limit of [setNumPoints] and the
    allocator grants every request. *)
Theorem addPoint_xyzm_appends
  (alloc_ok : Z -> bool) (junkP : Curve.OGRRawPoint) (junkD : float)
  (bZeroizeNewContent_default : bool) (c : Curve.OGRSimpleCurve)
  (xIn yIn zIn mIn : float) :
  well_formed c ->
  exists ok c',
    Curve.addPoint_xyzm alloc_ok junkP junkD bZeroizeNewContent_default c xIn yIn zIn mIn
    = (ok, c')
    /\ well_formed c'
    /\ (ok = true ->
        Curve.has3D c' = true /\ Curve.hasM c' = true
        /\ Curve.nPointCount c' = Curve.nPointCount c + 1
        /\ points c' = points c ++ [Curve.mkRawPoint xIn yIn]
        /\ Zvalues c'
           = (if Curve.has3D c then Zvalues c
              else replicate (Z.to_nat (Curve.nPointCount c)) 0%float) ++ [zIn]
        /\ Mvalues c'
           = (if Curve.hasM c then Mvalues c
              else replicate (Z.to_nat (Curve.nPointCount c)) 0%float) ++ [mIn])
    /\ (ok = false ->
        Curve.nPointCount c' = Curve.nPointCount c /\ points c' = points c)
    /\ (Curve.nPointCount c < Curve.setNumPoints_limit ->
        (forall n, alloc_ok n = true) -> ok = true).
Proof.
  intros Hwf. pose proof Hwf as (Hcnt & _).
  unfold Curve.addPoint_xyzm, Curve.setPoint_xyzm.
  destruct (first_Make3D alloc_ok c Hwf)
    as (ok0 & c0 & E0 & W0 & N0 & C0 & X0 & M0 & Hok0 & Hgr0).
  rewrite E0. destruct ok0; cbn [negb].
  2: { eexists false, _. split; [reflexivity|]. split; [exact W0|].
       split; [discriminate|]. split.
       - intros _. split; [exact N0|]. unfold points. rewrite N0, X0. reflexivity.
       - intros _ Ha. apply Hgr0, Ha. }
  destruct (Hok0 eq_refl) as (H30 & Z0).
  destruct (first_AddM alloc_ok c0 W0)
    as (ok1 & c1 & E1 & W1 & N1 & C1 & X1 & Z1 & H31 & Hok1 & Hgr1).
  rewrite E1. destruct ok1; cbn [negb].
  2: { eexists false, _. split; [reflexivity|]. split; [exact W1|].
       split; [discriminate|]. split.
       - intros _. split; [congruence|]. unfold points. rewrite N1, X1, N0, X0. reflexivity.
       - intros _ Ha. apply Hgr1, Ha. }
  destruct (Hok1 eq_refl) as (HM1 & M1).
  assert (HMc : Curve.hasM c0 = Curve.hasM c /\ Mvalues c0 = Mvalues c).
  { unfold Mvalues. rewrite N0, M0. split; [|reflexivity].
    destruct (Curve.has3D c) eqn:H3; cbn [negb] in E0.
    - injection E0 as <-. reflexivity.
    - destruct (Make3D_spec alloc_ok c Hwf) as (ok & c' & E & _ & HM & _).
      rewrite E in E0. injection E0 as _ <-. exact HM. }
  destruct HMc as (HMc & Mvc).
  replace (Curve.nPointCount c) with (Curve.nPointCount c1) by congruence.
  destruct (reach_spec alloc_ok junkP junkD bZeroizeNewContent_default c1
              (Curve.nPointCount c1) W1)
    as (ok & c2 & E & W2 & F2 & R2 & N2 & P & _ & _ & Hgr & _); [lia|].
  rewrite E.
  destruct (P (Z.to_nat (Curve.nPointCount c1))) as (P1 & P2 & P3); [lia|].
  destruct (flags_has c1 c2 F2) as (H32 & HM2).
  destruct ok; cbn [negb].
  - replace (Z.max (Curve.nPointCount c1) (Curve.nPointCount c1 + 1))
      with (Curve.nPointCount c1 + 1) in N2 by lia.
    eexists true, _. split; [reflexivity|].
    split; [apply well_formed_storeM, well_formed_storeZ, well_formed_store; exact W2|].
    split; [|split; [discriminate|intros; reflexivity]].
    intros _.
    split; [unfold Curve.has3D in *;
            cbn [Curve.flags Curve.set_padfM Curve.set_padfZ Curve.set_paoPoints];
            congruence|].
    split; [unfold Curve.hasM in *;
            cbn [Curve.flags Curve.set_padfM Curve.set_padfZ Curve.set_paoPoints];
            congruence|].
    split; [cbn [Curve.nPointCount Curve.set_padfM Curve.set_padfZ Curve.set_paoPoints];
            lia|].
    destruct (grown_by_one c1 c2 W1 W2 N2 P1) as (Hlen & Hpre).
    split; [|split].
    + unfold points at 1.
      cbn [Curve.nPointCount Curve.set_padfM Curve.set_padfZ Curve.set_paoPoints
           Curve.paoPoints].
      rewrite store_opt_take by lia.
      change (take (Z.to_nat (Curve.nPointCount c2)) (default [] (Curve.paoPoints c2)))
        with (points c2).
      apply insert_last; [exact Hlen|].
      rewrite Hpre. unfold points. rewrite N1, X1, N0, X0. reflexivity.
    + unfold Zvalues at 1.
      cbn [Curve.nPointCount Curve.set_padfM Curve.set_padfZ Curve.set_paoPoints
           Curve.padfZ].
      rewrite store_opt_take by lia.
      apply insert_last.
      * change (length (Zvalues c2) = S (Z.to_nat (Curve.nPointCount c1))).
        rewrite (Zvalues_length c2 W2) by congruence. lia.
      * rewrite take_take, Nat.min_l by lia. rewrite P2, Z1, N1, N0. exact Z0.
    + unfold Mvalues at 1.
      cbn [Curve.nPointCount Curve.set_padfM Curve.set_padfZ Curve.set_paoPoints
           Curve.padfM].
      rewrite store_opt_take by lia.
      apply insert_last.
      * change (length (Mvalues c2) = S (Z.to_nat (Curve.nPointCount c1))).
        rewrite (Mvalues_length c2 W2) by congruence. lia.
      * rewrite take_take, Nat.min_l by lia. rewrite P3, N1, M1, HMc, Mvc, N0.
        reflexivity.
  - eexists false, _. split; [reflexivity|]. split; [exact W2|].
    split; [discriminate|]. split.
    + intros _. split; [congruence|]. unfold points.
      rewrite N2, P1, N1, X1, N0, X0. reflexivity.
    + intros Hl Ha. apply Hgr; [lia|].
      unfold grants. repeat split; intros; apply Ha.
Qed.

Lemma addPoint_xyzm_appends_witness :
  exists ok c',
    Curve.addPoint_xyzm granted Curve.zeroPoint 0%float true sloped_3D_line
                        7%float 8%float 9%float 10%float
    = (ok, c')
    /\ ok = true
    /\ points c' = points sloped_3D_line ++ [Curve.mkRawPoint 7%float 8%float]
    /\ Zvalues c' = Zvalues sloped_3D_line ++ [9%float]
    /\ Mvalues c' = [0%float; 0%float; 10%float].
Proof.
  destruct (addPoint_xyzm_appends granted Curve.zeroPoint 0%float true sloped_3D_line
              7%float 8%float 9%float 10%float)
    as (ok & c' & E & _ & Hok & _ & Hgr).
  - apply well_formed_curve3D_of. reflexivity.
  - assert (Ht : ok = true) by (apply Hgr; [vm_compute; reflexivity|reflexivity]).
    destruct (Hok Ht) as (_ & _ & _ & Hp & Hz & Hm).
    exists ok, c'. split; [exact E|]. split; [exact Ht|]. split; [exact Hp|].
    split; [exact Hz|exact Hm].
Defined.

(** X23.  [setM(iPoint, m)] with [iPoint >= 0] on a consistent curve,
    read back with [getM].  When it succeeds the curve is measured,
    [getM(iPoint)] is [m], [getM] of every other former vertex is what it
    was (zero for a curve that had no M), [getZ] of every former vertex and
    the former points are kept, and the count is the larger of the former
    count and [iPoint + 1].  When it fails, the count and the points are as
    before.  [getM] of an index outside the count is zero. *)
Theorem setM_then_getM
  (alloc_ok : Z -> bool) (junkP : Curve.OGRRawPoint) (junkD : float)
  (bZeroizeNewContent_default : bool) (c : Curve.OGRSimpleCurve) (iPoint : Z)
  (mIn : float) :
  well_formed c -> 0 <= iPoint ->
  exists ok c',
    Curve.curve_setM alloc_ok junkP junkD bZeroizeNewContent_default c iPoint mIn = (ok, c')
    /\ well_formed c'
    /\ (ok = true ->
        Curve.hasM c' = true
        /\ Curve.getM c' iPoint = mIn
        /\ (forall j, 0 <= j < Curve.nPointCount c -> j <> iPoint ->
              Curve.getM c' j = Curve.getM c j)
        /\ (forall j, 0 <= j < Curve.nPointCount c -> Curve.getZ c' j = Curve.getZ c j)
        /\ Curve.nPointCount c' = Z.max (Curve.nPointCount c) (iPoint + 1)
        /\ take (Z.to_nat (Curve.nPointCount c)) (points c') = points c)
    /\ (ok = false ->
        Curve.nPointCount c' = Curve.nPointCount c /\ points c' = points c)
    /\ (forall j, j < 0 \/ Curve.nPointCount c' <= j -> Curve.getM c' j = 0%float).
Proof.
  intros Hwf H0. pose proof Hwf as (Hcnt & _).
  assert (Hout : forall (c' : Curve.OGRSimpleCurve) j,
             j < 0 \/ Curve.nPointCount c' <= j -> Curve.getM c' j = 0%float).
  { intros c' j Hj. unfold Curve.getM.
    destruct (Z.geb_spec j 0) as [Ha|Ha]; [|rewrite andb_false_r; reflexivity].
    destruct (Z.ltb_spec j (Curve.nPointCount c')) as [Hb|Hb]; [lia|].
    rewrite andb_false_r. reflexivity. }
  unfold Curve.curve_setM.
  destruct (first_AddM alloc_ok c Hwf)
    as (ok0 & c0 & E0 & W0 & N0 & C0 & X0 & Z0 & H30 & Hok0 & _).
  rewrite E0.
  destruct ok0; cbn [negb].
  2: { eexists false, _. split; [reflexivity|]. split; [exact W0|].
       split; [discriminate|]. split; [|apply Hout].
       intros _. split; [exact N0|]. unfold points. rewrite N0, X0. reflexivity. }
  destruct (Hok0 eq_refl) as (HM0 & M0).
  destruct (reach_spec alloc_ok junkP junkD bZeroizeNewContent_default c0 iPoint W0 H0)
    as (ok & c1 & E & W1 & F1 & R1 & N1 & P & _).
  rewrite E.
  destruct (P (Z.to_nat (Curve.nPointCount c0))) as (P1 & P2 & P3); [lia|].
  destruct (flags_has c0 c1 F1) as (H31 & HM1).
  destruct ok; cbn [negb].
  - eexists true, _. split; [reflexivity|].
    split; [apply well_formed_storeM; exact W1|].
    split; [|split; [discriminate|apply Hout]].
    intros _.
    set (c' := Curve.set_padfM (Curve.store_opt iPoint mIn (Curve.padfM c1)) c1).
    assert (W' : well_formed c') by (apply well_formed_storeM; exact W1).
    assert (HM' : Curve.hasM c' = true)
      by (unfold c', Curve.hasM in *; cbn [Curve.flags Curve.set_padfM]; congruence).
    assert (H3' : Curve.has3D c' = Curve.has3D c)
      by (unfold c', Curve.has3D in *; cbn [Curve.flags Curve.set_padfM]; congruence).
    assert (N' : Curve.nPointCount c' = Z.max (Curve.nPointCount c) (iPoint + 1))
      by (unfold c'; cbn [Curve.nPointCount Curve.set_padfM]; lia).
    assert (HMv : Mvalues c' = <[Z.to_nat iPoint := mIn]> (Mvalues c1)).
    { unfold Mvalues, c'. cbn [Curve.nPointCount Curve.set_padfM Curve.padfM].
      apply store_opt_take; lia. }
    pose proof (Mvalues_length c1 W1 ltac:(congruence)) as Hlen1.
    split; [exact HM'|].
    split.
    { rewrite (getM_lookup c' iPoint W') by lia. rewrite HM', HMv.
      rewrite list_lookup_insert_eq by lia. reflexivity. }
    split.
    { intros j Hj Hne.
      rewrite (getM_lookup c' j W') by lia. rewrite (getM_lookup c j Hwf) by lia.
      rewrite HM', HMv, list_lookup_insert_ne by lia.
      rewrite <- M0. unfold Mvalues. rewrite !lookup_take_lt by lia.
      f_equal. apply (prefix_lookup _ _ (Z.to_nat (Curve.nPointCount c0))); [exact P3|lia]. }
    split.
    { intros j Hj.
      rewrite (getZ_lookup c' j W') by lia. rewrite (getZ_lookup c j Hwf) by lia.
      rewrite H3'. destruct (Curve.has3D c); [|rewrite !lookup_replicate_2 by lia; reflexivity].
      unfold Zvalues, c'. cbn [Curve.nPointCount Curve.set_padfM Curve.padfZ].
      rewrite !lookup_take_lt by lia. rewrite <- Z0.
      f_equal. apply (prefix_lookup _ _ (Z.to_nat (Curve.nPointCount c0))); [exact P2|lia]. }
    split; [exact N'|].
    unfold points, c'. cbn [Curve.nPointCount Curve.set_padfM Curve.paoPoints].
    rewrite take_take, Nat.min_l by lia. rewrite <- N0, P1, N0, X0. reflexivity.
  - eexists false, _. split; [reflexivity|]. split; [exact W1|].
    split; [discriminate|]. split; [|apply Hout].
    intros _. split; [congruence|]. unfold points. rewrite N1, P1, N0, X0. reflexivity.
Qed.

Lemma setM_then_getM_witness :
  exists ok c',
    Curve.curve_setM granted Curve.zeroPoint 0%float true sloped_3D_line 1 9%float = (ok, c')
    /\ well_formed c'
    /\ (ok = true ->
        Curve.hasM c' = true
        /\ Curve.getM c' 1 = 9%float
        /\ (forall j, 0 <= j < Curve.nPointCount sloped_3D_line -> j <> 1 ->
              Curve.getM c' j = Curve.getM sloped_3D_line j)
        /\ (forall j, 0 <= j < Curve.nPointCount sloped_3D_line ->
              Curve.getZ c' j = Curve.getZ sloped_3D_line j)
        /\ Curve.nPointCount c' = Z.max (Curve.nPointCount sloped_3D_line) (1 + 1)
        /\ take (Z.to_nat (Curve.nPointCount sloped_3D_line)) (points c')
           = points sloped_3D_line)
    /\ (ok = false ->
        Curve.nPointCount c' = Curve.nPointCount sloped_3D_line
        /\ points c' = points sloped_3D_line)
    /\ (forall j, j < 0 \/ Curve.nPointCount c' <= j -> Curve.getM c' j = 0%float).
Proof.
  apply (setM_then_getM granted Curve.zeroPoint 0%float true sloped_3D_line 1 9%float).
  - apply well_formed_curve3D_of. reflexivity.
  - lia.
Defined.

(** X24.  [addSubLineString(poOtherLine, nStartVertex, nEndVertex)] on
    consistent curves, where an end vertex of -1 stands for the last vertex
    of the other line.  When the other line is empty or a vertex index is
    outside it, the curve is left as it is.  Otherwise the curve is left
    with its count and its content when it cannot grow, and else the count
    grows by the size of the range and the points are the former points
    followed by the range of the other line, from the start vertex to the
    end vertex, in reverse order when the start vertex is the larger.  A
    curve keeps its Z dimension, and gets one only from a line that has
    one; a curve with Z keeps the Z values of its former points, zero for
    a curve that had none; and after a line with Z the Z values are these
    followed by the range of the Z values of the line.  The same holds of
    the M values.  A curve with Z that takes a range of a line without Z
    is given no Z value for the new points. *)
Theorem addSubLineString_appends
  (alloc_ok : Z -> bool) (junkP : Curve.OGRRawPoint) (junkD : float)
  (c other : Curve.OGRSimpleCurve) (nStartVertex nEndVertex : Z) :
  well_formed c -> well_formed other ->
  let n := Curve.nPointCount other in
  let s := nStartVertex in
  let e := if nEndVertex =? -1 then n - 1 else nEndVertex in
  let old := Curve.nPointCount c in
  let c' := Curve.addSubLineString alloc_ok junkP junkD c other nStartVertex nEndVertex in
  well_formed c'
  /\ (n = 0 \/ s < 0 \/ e < 0 \/ n <= s \/ n <= e -> c' = c)
  /\ (0 <= s < n -> 0 <= e < n ->
      (Curve.nPointCount c' = old /\ points c' = points c
       /\ Zvalues c' = Zvalues c /\ Mvalues c' = Mvalues c)
      \/ (Curve.nPointCount c' = old + Z.abs (e - s) + 1
          /\ points c' = points c ++ sub_line s e (points other)
          /\ (Curve.has3D c = true -> Curve.has3D c' = true)
          /\ (Curve.has3D c' = true -> Curve.has3D c = true \/ Curve.has3D other = true)
          /\ (Curve.has3D c' = true ->
              take (Z.to_nat old) (Zvalues c')
              = values_or_zero (Curve.has3D c) (Zvalues c) old)
          /\ (Curve.has3D other = true -> Curve.has3D c' = true ->
              Zvalues c' = values_or_zero (Curve.has3D c) (Zvalues c) old
                           ++ sub_line s e (Zvalues other))
          /\ (Curve.hasM c = true -> Curve.hasM c' = true)
          /\ (Curve.hasM c' = true -> Curve.hasM c = true \/ Curve.hasM other = true)
          /\ (Curve.hasM c' = true ->
              take (Z.to_nat old) (Mvalues c')
              = values_or_zero (Curve.hasM c) (Mvalues c) old)
          /\ (Curve.hasM other = true -> Curve.hasM c' = true ->
              Mvalues c' = values_or_zero (Curve.hasM c) (Mvalues c) old
                           ++ sub_line s e (Mvalues other))))
  /\ (0 <= s < n -> 0 <= e < n ->
      old + Z.abs (e - s) + 1 <= Curve.setNumPoints_limit ->
      (forall k, alloc_ok k = true) ->
      Curve.nPointCount c' = old + Z.abs (e - s) + 1
      /\ Curve.has3D c' = Curve.has3D c || Curve.has3D other
      /\ Curve.hasM c' = Curve.hasM c || Curve.hasM other).
Proof.
  intros Hwf Wo n s e old c'. subst c'. unfold Curve.addSubLineString.
  fold n. fold e. fold s. fold old.
  pose proof Hwf as (Hcnt & _).
  destruct (Z.eqb_spec n 0) as [Hn0|Hn0].
  { split; [exact Hwf|]. split; [reflexivity|]. split; intros; lia. }
  destruct ((s <? 0) || (e <? 0) || (s >=? n) || (e >=? n)) eqn:Hbad.
  { split; [exact Hwf|]. split; [reflexivity|].
    assert (Hr : s < 0 \/ e < 0 \/ n <= s \/ n <= e).
    { repeat (apply orb_true_iff in Hbad as [Hbad|Hbad]);
        rewrite ?Z.geb_leb in Hbad; try apply Z.ltb_lt in Hbad; try apply Z.leb_le in Hbad;
        lia. }
    split; intros; lia. }
  assert (Hrange : 0 <= s < n /\ 0 <= e < n).
  { repeat (apply orb_false_iff in Hbad as [Hbad ?]).
    rewrite ?Z.geb_leb in *.
    repeat match goal with
      | H : (_ <? _) = false |- _ => apply Z.ltb_ge in H
      | H : (_ <=? _) = false |- _ => apply Z.leb_gt in H
      end. lia. }
  destruct Hrange as (Hs & He).
  set (k := Z.to_nat (Z.abs (e - s) + 1)).
  destruct (setNumPoints_spec alloc_ok junkP junkD c (Z.abs (e - s) + 1 + old) false Hwf)
    as (ok & c1 & log & E & W1 & F1 & R1 & N1 & P & _ & _ & _ & Hgr); [lia|].
  rewrite E.
  destruct (P (Z.to_nat old) ltac:(lia)) as (P1 & P2 & P3).
  destruct (flags_has c c1 F1) as (H31 & HM1).
  destruct ok.
  2: { split; [exact W1|]. split; [intros; lia|]. split.
       - intros _ _. left. split; [exact N1|].
         unfold points, Zvalues, Mvalues. rewrite N1. fold old. auto.
       - intros _ _ Hlim Ha. exfalso.
         assert (true = false); [|discriminate]. symmetry. apply Hgr; [lia|].
         unfold grants. repeat split; intros; apply Ha. }
  (* the XY array *)
  pose proof Wo as (Hcnto & Rxyo & _ & _ & _ & _ & Hcapo).
  destruct (Hcapo ltac:(lia)) as (Nxo & _).
  pose proof (room_default _ _ Rxyo Nxo) as Lxo.
  pose proof W1 as (Hcnt1 & Rxy1 & _ & _ & _ & _ & Hcap1).
  destruct (Hcap1 ltac:(lia)) as (Nx1 & _).
  destruct (copy_plane Curve.zeroPoint (default [] (Curve.paoPoints other)) s e old
              (Curve.paoPoints c1) (Curve.m_nPointCapacity c1)
              ltac:(lia) ltac:(lia) ltac:(lia) ltac:(lia) ltac:(lia) ltac:(fold k; lia) Rxy1)
    as (Rx2 & Nx2 & Px2).
  fold k in Rx2, Nx2, Px2. specialize (Px2 Nx1).
  set (c2 := Curve.set_paoPoints
               (option_map (Curve.copy_vertices Curve.zeroPoint
                              (default [] (Curve.paoPoints other)) s e old k)
                           (Curve.paoPoints c1)) c1) in *.
  assert (W2 : well_formed c2) by (apply well_formed_set_paoPoints; assumption).
  assert (P2' : take (Z.to_nat old + k) (default [] (Curve.paoPoints c2))
                = take (Z.to_nat old) (default [] (Curve.paoPoints c1))
                  ++ sub_line s e (default [] (Curve.paoPoints other))) by exact Px2.
  assert (N2 : Curve.nPointCount c2 = old + Z.of_nat k) by (unfold c2, k; simpl; lia).
  assert (Hpts : sub_line s e (default [] (Curve.paoPoints other))
                 = sub_line s e (points other)).
  { unfold points. symmetry. apply sub_line_take; lia. }
  (* the Z array, then the M array *)
  destruct (subline_Z_step alloc_ok c2 other s e old W2 Wo ltac:(lia) Hs He N2)
    as (W3 & N3 & C3 & X3 & M3 & HM3 & Z3a & Z3b & Z3c & Z3d & Z3e).
  cbv zeta in W3, N3, C3, X3, M3, HM3, Z3a, Z3b, Z3c, Z3d, Z3e.
  fold k in W3, N3, C3, X3, M3, HM3, Z3a, Z3b, Z3c, Z3d, Z3e.
  set (c3 := match Curve.padfZ other with
             | Some z =>
                 Curve.set_padfZ
                   (option_map (Curve.copy_vertices 0%float z s e old k)
                               (Curve.padfZ (snd (Curve.Make3D alloc_ok c2))))
                   (snd (Curve.Make3D alloc_ok c2))
             | None => c2
             end) in *.
  destruct (subline_M_step alloc_ok c3 other s e old W3 Wo ltac:(lia) Hs He
              ltac:(rewrite N3; exact N2))
    as (W4 & N4 & C4 & X4 & Z4 & H34 & M4a & M4b & M4c & M4d & M4e).
  cbv zeta in W4, N4, C4, X4, Z4, H34, M4a, M4b, M4c, M4d, M4e.
  fold k in W4, N4, C4, X4, Z4, H34, M4a, M4b, M4c, M4d, M4e.
  set (c4 := match Curve.padfM other with
             | Some m =>
                 Curve.set_padfM
                   (option_map (Curve.copy_vertices 0%float m s e old k)
                               (Curve.padfM (snd (Curve.AddM alloc_ok c3))))
                   (snd (Curve.AddM alloc_ok c3))
             | None => c3
             end) in *.
  change (well_formed c4
          /\ (n = 0 \/ s < 0 \/ e < 0 \/ n <= s \/ n <= e -> c4 = c)
          /\ (0 <= s < n -> 0 <= e < n ->
              (Curve.nPointCount c4 = old /\ points c4 = points c
               /\ Zvalues c4 = Zvalues c /\ Mvalues c4 = Mvalues c)
              \/ (Curve.nPointCount c4 = old + Z.abs (e - s) + 1
                  /\ points c4 = points c ++ sub_line s e (points other)
                  /\ (Curve.has3D c = true -> Curve.has3D c4 = true)
                  /\ (Curve.has3D c4 = true ->
                      Curve.has3D c = true \/ Curve.has3D other = true)
                  /\ (Curve.has3D c4 = true ->
                      take (Z.to_nat old) (Zvalues c4)
                      = values_or_zero (Curve.has3D c) (Zvalues c) old)
                  /\ (Curve.has3D other = true -> Curve.has3D c4 = true ->
                      Zvalues c4 = values_or_zero (Curve.has3D c) (Zvalues c) old
                                   ++ sub_line s e (Zvalues other))
                  /\ (Curve.hasM c = true -> Curve.hasM c4 = true)
                  /\ (Curve.hasM c4 = true ->
                      Curve.hasM c = true \/ Curve.hasM other = true)
                  /\ (Curve.hasM c4 = true ->
                      take (Z.to_nat old) (Mvalues c4)
                      = values_or_zero (Curve.hasM c) (Mvalues c) old)
                  /\ (Curve.hasM other = true -> Curve.hasM c4 = true ->
                      Mvalues c4 = values_or_zero (Curve.hasM c) (Mvalues c) old
                                   ++ sub_line s e (Mvalues other))))
          /\ (0 <= s < n -> 0 <= e < n ->
              old + Z.abs (e - s) + 1 <= Curve.setNumPoints_limit ->
              (forall k, alloc_ok k = true) ->
              Curve.nPointCount c4 = old + Z.abs (e - s) + 1
              /\ Curve.has3D c4 = Curve.has3D c || Curve.has3D other
              /\ Curve.hasM c4 = Curve.hasM c || Curve.hasM other)).
  (* what the steps leave of the curve *)
  assert (N4' : Curve.nPointCount c4 = old + Z.abs (e - s) + 1)
    by (rewrite N4, N3, N2; unfold k; lia).
  assert (Hn4 : Z.to_nat (Curve.nPointCount c4) = (Z.to_nat old + k)%nat)
    by (rewrite N4'; unfold k; lia).
  assert (H32 : Curve.has3D c2 = Curve.has3D c) by exact H31.
  assert (HM2 : Curve.hasM c2 = Curve.hasM c) by exact HM1.
  assert (BZ : (if Curve.has3D c2
                then take (Z.to_nat old) (default [] (Curve.padfZ c2))
                else replicate (Z.to_nat old) 0%float)
               = values_or_zero (Curve.has3D c) (Zvalues c) old).
  { rewrite H32. unfold values_or_zero, Zvalues. fold old.
    change (Curve.padfZ c2) with (Curve.padfZ c1). rewrite P2. reflexivity. }
  assert (BM : (if Curve.hasM c3
                then take (Z.to_nat old) (default [] (Curve.padfM c3))
                else replicate (Z.to_nat old) 0%float)
               = values_or_zero (Curve.hasM c) (Mvalues c) old).
  { rewrite HM3, HM2, M3. unfold values_or_zero, Mvalues. fold old.
    change (Curve.padfM c2) with (Curve.padfM c1). rewrite P3. reflexivity. }
  rewrite BZ in Z3c, Z3d. rewrite BM in M4c, M4d.
  assert (HZ4 : Zvalues c4 = take (Z.to_nat old + k) (default [] (Curve.padfZ c3)))
    by (unfold Zvalues; rewrite Hn4, Z4; reflexivity).
  assert (HM4 : Mvalues c4 = take (Z.to_nat old + k) (default [] (Curve.padfM c4)))
    by (unfold Mvalues; rewrite Hn4; reflexivity).
  assert (Hpre : forall (l : list float),
             take (Z.to_nat old) (take (Z.to_nat old + k) l) = take (Z.to_nat old) l)
    by (intros l; rewrite take_take; f_equal; lia).
  split; [exact W4|]. split; [intros; lia|]. split.
  - intros _ _. right. split; [exact N4'|].
    split.
    { unfold points at 1. rewrite Hn4, X4, X3, P2', Hpts. f_equal.
      unfold points. fold old. exact P1. }
    split; [intros H; rewrite H34; apply Z3a; congruence|].
    split; [rewrite H34; intros H; rewrite <- H32; apply Z3b, H|].
    split; [rewrite H34, HZ4, Hpre; exact Z3c|].
    split; [rewrite H34, HZ4; exact Z3d|].
    split; [intros H; apply M4a; congruence|].
    split; [intros H; rewrite <- HM2, <- HM3; apply M4b, H|].
    split; [rewrite HM4, Hpre; exact M4c|].
    rewrite HM4. exact M4d.
  - intros _ _ _ Ha. split; [exact N4'|]. split.
    + rewrite H34. destruct (Curve.has3D other) eqn:H3o.
      * rewrite orb_true_r. apply Z3e; [exact Ha|reflexivity].
      * rewrite orb_false_r, <- H32.
        destruct (Curve.has3D c2) eqn:Hc2; [apply Z3a; reflexivity|].
        destruct (Curve.has3D c3) eqn:Hc3; [|reflexivity].
        destruct (Z3b eq_refl); congruence.
    + destruct (Curve.hasM other) eqn:HMo.
      * rewrite orb_true_r. apply M4e; [exact Ha|reflexivity].
      * rewrite orb_false_r, <- HM2, <- HM3.
        destruct (Curve.hasM c3) eqn:Hc3; [apply M4a; reflexivity|].
        destruct (Curve.hasM c4) eqn:Hc4; [|reflexivity].
        destruct (M4b eq_refl); congruence.
Qed.

Lemma addSubLineString_appends_witness :
  let c' := Curve.addSubLineString granted Curve.zeroPoint 0%float long_line
                                   sloped_3D_line 1 0 in
  well_formed c'
  /\ Curve.nPointCount c' = 4
  /\ points c' = points long_line ++ [Curve.mkRawPoint 10 0; Curve.mkRawPoint 0 0]
  /\ Zvalues c' = [0; 0; 2; 1]%float.
Proof.
  intros c'.
  destruct (addSubLineString_appends granted Curve.zeroPoint 0%float long_line
              sloped_3D_line 1 0)
    as (W & _ & Hcases & Hfull).
  - apply well_formed_curve_of.
  - apply well_formed_curve3D_of. reflexivity.
  - fold c' in W, Hcases, Hfull.
    destruct Hfull as (N & H3 & _);
      [simpl; lia|simpl; lia|vm_compute; discriminate|reflexivity|].
    destruct Hcases as [(N' & _)|(_ & Hp & _ & _ & _ & Hz & _)]; [simpl; lia|simpl; lia| |].
    + rewrite N in N'. simpl in N'. lia.
    + split; [exact W|]. split; [exact N|]. split; [exact Hp|].
      apply Hz; [reflexivity|rewrite H3; reflexivity].
Defined.

(** ** Column types *)

(** The column types that [toColumnType] produces. *)
Lemma toColumnType_range (GetFieldTypeName : FlatGeobuf.OGRFieldType -> string)
  (name : string) (t : FlatGeobuf.OGRFieldType) (st : FlatGeobuf.OGRFieldSubType) :
  In (fst (FlatGeobuf.toColumnType GetFieldTypeName name t st))
     [FlatGeobuf.ColumnType_Bool; FlatGeobuf.ColumnType_Short; FlatGeobuf.ColumnType_Int;
      FlatGeobuf.ColumnType_Long; FlatGeobuf.ColumnType_Float; FlatGeobuf.ColumnType_Double;
      FlatGeobuf.ColumnType_String; FlatGeobuf.ColumnType_DateTime;
      FlatGeobuf.ColumnType_Binary].
Proof.
  destruct t; simpl; repeat case_bool_decide; simpl; tauto.
Qed.

(** X15.  What a field type becomes when it is written as a column by
    [toColumnType] and read back by [toOGRFieldType].  The column type of a
    written field is read back to a type that writes to the same column
    type without a warning; the type and subtype of a field come back as
    they were exactly for Integer (plain, Boolean, Int16), Integer64, Real
    (plain, Float32), String, DateTime and Binary with no other subtype;
    Date and Time come back as DateTime; the list and wide-string types
    are written as String with one warning, and only they are; and the
    column types that read back to themselves are the nine that
    [toColumnType] produces. *)
Theorem column_type_round_trip (GetFieldTypeName : FlatGeobuf.OGRFieldType -> string)
  (name : string) (t : FlatGeobuf.OGRFieldType) (st : FlatGeobuf.OGRFieldSubType)
  (ct : FlatGeobuf.ColumnType) :
  let write t st := FlatGeobuf.toColumnType GetFieldTypeName name t st in
  let read := FlatGeobuf.toOGRFieldType in
  write (fst (read (fst (write t st)))) (snd (read (fst (write t st)))) = (fst (write t st), [])
  /\ (read (fst (write t st)) = (t, st) <->
      In (t, st) [(FlatGeobuf.OFTInteger, FlatGeobuf.OFSTNone);
                  (FlatGeobuf.OFTInteger, FlatGeobuf.OFSTBoolean);
                  (FlatGeobuf.OFTInteger, FlatGeobuf.OFSTInt16);
                  (FlatGeobuf.OFTInteger64, FlatGeobuf.OFSTNone);
                  (FlatGeobuf.OFTReal, FlatGeobuf.OFSTNone);
                  (FlatGeobuf.OFTReal, FlatGeobuf.OFSTFloat32);
                  (FlatGeobuf.OFTString, FlatGeobuf.OFSTNone);
                  (FlatGeobuf.OFTDateTime, FlatGeobuf.OFSTNone);
                  (FlatGeobuf.OFTBinary, FlatGeobuf.OFSTNone)])
  /\ read (fst (write FlatGeobuf.OFTDate st)) = (FlatGeobuf.OFTDateTime, FlatGeobuf.OFSTNone)
  /\ read (fst (write FlatGeobuf.OFTTime st)) = (FlatGeobuf.OFTDateTime, FlatGeobuf.OFSTNone)
  /\ (snd (write t st) <> [] <->
      In t [FlatGeobuf.OFTIntegerList; FlatGeobuf.OFTRealList; FlatGeobuf.OFTStringList;
            FlatGeobuf.OFTWideString; FlatGeobuf.OFTWideStringList;
            FlatGeobuf.OFTInteger64List])
  /\ (snd (write t st) <> [] ->
      fst (write t st) = FlatGeobuf.ColumnType_String /\ length (snd (write t st)) = 1%nat)
  /\ (write (fst (read ct)) (snd (read ct)) = (ct, []) <->
      exists t' st', fst (write t' st') = ct).
Proof.
  intros write read. subst write read.
  split; [destruct t, st; reflexivity|].
  split.
  { split.
    - destruct t, st; simpl; intros [= ]; tauto.
    - simpl. intros H.
      repeat (destruct H as [[= <- <-]|H]; [reflexivity|]). destruct H. }
  split; [reflexivity|]. split; [reflexivity|].
  split.
  { split.
    - destruct t; simpl; repeat case_bool_decide; simpl; tauto.
    - simpl. intros H.
      repeat (destruct H as [<-|H]; [simpl; discriminate|]). destruct H. }
  split.
  { destruct t; simpl; repeat case_bool_decide; simpl; intros Hw;
      try (exfalso; apply Hw; reflexivity); split; reflexivity. }
  split.
  - intros H. eexists _, _. rewrite H. reflexivity.
  - intros (t' & st' & <-).
    pose proof (toColumnType_range GetFieldTypeName name t' st') as H.
    simpl in H.
    repeat (destruct H as [<-|H]; [reflexivity|]). destruct H.
Qed.

(** ** The feature buffer *)

(** X16.  [ensureFeatureBuf(featureSize)] on a consistent buffer.  When
    it returns [OGRERR_NONE] the buffer has room for [featureSize] bytes,
    is not smaller than before and starts with the bytes it held.  A buffer
    that is already large enough is left alone and no memory is asked for.
    The first allocation takes the larger of 32 KiB and [featureSize]; a
    later growth takes the larger of twice the size and [featureSize], and
    [featureSize] alone once twice the size no longer fits 32 bits.  When
    the allocator refuses, the call returns [OGRERR_NOT_ENOUGH_MEMORY] and
    the buffer is as before. *)
Theorem ensureFeatureBuf_grows (alloc_ok : Z -> bool) (junk : byte)
  (b : FlatGeobuf.FeatureBuffer) (featureSize : Z) :
  buffer_consistent b -> 0 <= featureSize < 2 ^ 32 ->
  let size := FlatGeobuf.m_featureBufSize in
  let wanted :=
    if size b =? 0 then Z.max 32768 featureSize
    else if size b * 2 <? 2 ^ 32 then Z.max (size b * 2) featureSize
    else featureSize in
  exists err b',
    FlatGeobuf.ensureFeatureBuf alloc_ok junk b featureSize = (err, b')
    /\ buffer_consistent b'
    /\ (err = OGRERR_NONE ->
        featureSize <= size b' /\ size b <= size b'
        /\ take (Z.to_nat (size b)) (buffer_bytes b') = buffer_bytes b)
    /\ (0 < size b -> featureSize <= size b -> err = OGRERR_NONE /\ b' = b)
    /\ (size b = 0 \/ size b < featureSize ->
        if alloc_ok wanted then err = OGRERR_NONE /\ size b' = wanted
        else err = OGRERR_NOT_ENOUGH_MEMORY /\ b' = b).
Proof.
  intros (Hsz & Hbuf) Hf size wanted. subst size wanted.
  unfold FlatGeobuf.ensureFeatureBuf, buffer_consistent, buffer_bytes.
  destruct b as [buf sz]. simpl in *.
  destruct (Z.eqb_spec sz 0) as [E0|E0].
  - subst sz. destruct buf as [bytes|]; [lia|].
    change (1024 * 32) with 32768.
    destruct (alloc_ok (Z.max 32768 featureSize)) eqn:Ha.
    + eexists _, _. split; [reflexivity|]. simpl.
      split; [split; [lia|split; [lia|apply length_replicate]]|].
      split; [intros _; split; [lia|split; [lia|reflexivity]]|].
      split; [lia|]. intros _. split; reflexivity.
    + eexists _, _. split; [reflexivity|]. simpl.
      split; [split; [lia|reflexivity]|].
      split; [discriminate|]. split; [lia|]. intros _. split; reflexivity.
  - destruct buf as [bytes|]; [|lia]. destruct Hbuf as (Hpos & Hlen).
    destruct (Z.ltb_spec sz featureSize) as [Hlt|Hge].
    + assert (Hw : Z.max (FlatGeobuf.uint32_wrap (sz * 2)) featureSize
                   = if sz * 2 <? 2 ^ 32 then Z.max (sz * 2) featureSize else featureSize).
      { unfold FlatGeobuf.uint32_wrap. destruct (Z.ltb_spec (sz * 2) (2 ^ 32)) as [H2|H2].
        - rewrite Z.mod_small by lia. reflexivity.
        - replace (sz * 2) with (sz * 2 - 2 ^ 32 + 1 * 2 ^ 32) by lia.
          rewrite Z.mod_add by lia. rewrite Z.mod_small by lia. lia. }
      rewrite Hw. set (w := if sz * 2 <? 2 ^ 32 then _ else _).
      assert (Hwr : featureSize <= w < 2 ^ 32).
      { unfold w. destruct (Z.ltb_spec (sz * 2) (2 ^ 32)); lia. }
      destruct (alloc_ok w) eqn:Ha.
      * eexists _, _. split; [reflexivity|]. simpl.
        split; [split; [lia|split; [lia|apply length_resize]]|].
        split.
        { intros _. split; [lia|]. split; [lia|].
          rewrite <- Hlen. rewrite take_resize_le by lia.
          rewrite resize_all. reflexivity. }
        split; [lia|]. intros _. split; reflexivity.
      * eexists _, _. split; [reflexivity|]. simpl.
        split; [split; [lia|split; [lia|exact Hlen]]|].
        split; [discriminate|]. split; [lia|]. intros _. split; reflexivity.
    + eexists _, _. split; [reflexivity|]. simpl.
      split; [split; [lia|split; [lia|exact Hlen]]|].
      split.
      { intros _. split; [lia|]. split; [lia|]. rewrite <- Hlen. apply firstn_all. }
      split; [intros _ _; split; reflexivity|]. lia.
Qed.

Lemma ensureFeatureBuf_grows_witness :
  exists err b',
    FlatGeobuf.ensureFeatureBuf granted "000"%byte (FlatGeobuf.mkFeatureBuffer None 0) 100
    = (err, b')
    /\ err = OGRERR_NONE
    /\ FlatGeobuf.m_featureBufSize b' = 32768.
Proof.
  destruct (ensureFeatureBuf_grows granted "000"%byte (FlatGeobuf.mkFeatureBuffer None 0) 100)
    as (err & b' & E & _ & _ & _ & H).
  - split; [simpl; lia|reflexivity].
  - lia.
  - exists err, b'. split; [exact E|]. simpl in H. apply H. left. reflexivity.
Defined.

(** ** Fields that the decoder leaves alone *)

Section DecodeSpares.
Import FlatGeobuf.

Context {DateValue : Type}.
Variable ParseDateTime : list byte -> option DateValue.
Variable OGRParseDate : list byte -> option DateValue.
Variable alloc_ok : Z -> bool.
Variable cols : list ColumnType.
Variable IsIgnored : nat -> bool.
Variable data : list byte.

#[local] Abbreviation parse_tuple :=
  (parse_tuple DateValue ParseDateTime OGRParseDate alloc_ok (Some cols) IsIgnored data).
#[local] Abbreviation parse_loop :=
  (parse_loop DateValue ParseDateTime OGRParseDate alloc_ok (Some cols) IsIgnored data).
#[local] Abbreviation Unset := (Field_Unset DateValue).
#[local] Abbreviation IsUnset := (OGR_RawField_IsUnset DateValue).

(** A tuple of an ignored column is read and stores nothing. *)
Lemma parse_tuple_ignored (offset : Z) (fields : list (OGRField DateValue))
  (st' : DecodeState DateValue) :
  parse_tuple (offset, fields) = inr st' ->
  IsIgnored (Z.to_nat (tag data offset)) = true ->
  snd st' = fields.
Proof.
  intros Hp Hig. unfold FlatGeobuf.parse_tuple in Hp. fold (tag data offset) in Hp.
  rewrite Hig in Hp.
  destruct (nth (Z.to_nat (tag data offset)) cols ColumnType_Byte);
    repeat match type of Hp with
      | context [if ?b then _ else _] => destruct b; try discriminate Hp
      end;
    injection Hp as <-; reflexivity.
Qed.

(** The fields that the loop does not write to: those of ignored
    columns, those that hold a value, and those past the columns. *)
Lemma parse_loop_spares (fuel : nat) (offset : Z) (fields fields' : list (OGRField DateValue))
  (err : OGRErr) :
  FlatGeobuf.size data < 2 ^ 32 -> 0 <= offset ->
  parse_loop fuel (offset, fields) = Some (err, fields') ->
  length fields' = length fields
  /\ forall j,
       IsIgnored j = true \/ IsUnset (nth j fields Unset) = false \/ (length cols <= j)%nat ->
       nth j fields' Unset = nth j fields Unset.
Proof.
  intros Hsize. revert offset fields.
  induction fuel as [|fuel IH]; intros offset fields Hoff Hl; [discriminate|].
  cbn [FlatGeobuf.parse_loop] in Hl.
  destruct (more_tuples DateValue data (offset, fields));
    [|injection Hl as <- <-; split; [reflexivity|intros; reflexivity]].
  destruct (parse_tuple (offset, fields)) as [e|[o1 f1]] eqn:Hp;
    [injection Hl as <- <-; split; [reflexivity|intros; reflexivity]|].
  destruct (parse_tuple_ok ParseDateTime OGRParseDate alloc_ok cols IsIgnored data
              offset fields (o1, f1) Hsize Hoff Hp)
    as (Hadv & Hlen & Hi & Hunset & Hother & _).
  simpl in Hadv, Hlen, Hother.
  pose proof (parse_tuple_ignored offset fields (o1, f1) Hp) as Hig. simpl in Hig.
  assert (Hstep : forall j,
             IsIgnored j = true \/ IsUnset (nth j fields Unset) = false
             \/ (length cols <= j)%nat ->
             nth j f1 Unset = nth j fields Unset).
  { intros j Hj.
    destruct (Nat.eq_dec j (Z.to_nat (tag data offset))) as [->|Hne];
      [|apply Hother; exact Hne].
    destruct Hj as [Hj|[Hj|Hj]].
    - rewrite (Hig Hj). reflexivity.
    - congruence.
    - pose proof (read_le_nonneg data offset 2). unfold tag in *. lia. }
  destruct (IH o1 f1 ltac:(lia) Hl) as (Hlen' & Hkeep).
  split; [congruence|].
  intros j Hj. rewrite <- (Hstep j Hj). apply Hkeep.
  rewrite (Hstep j Hj). exact Hj.
Qed.

End DecodeSpares.



(** ** What the writer puts in its file *)

Section WriterLayout.
Import FlatGeobuf.

Variable FieldValues : Type.
Variable serializeFields : FieldValues -> option (list byte).
Variable GeometryType_Unknown : Z.
Variable feature_max_buffer_size : Z.
Variable GeometryWriter_write : OGRGeometry -> Z.
Variable CreateFeatureDirect : Z -> list byte -> list byte.
Variable header_bytes : Header -> Z.
Variable Merge : OGREnvelope -> OGREnvelope -> OGREnvelope.
Variable default_envelope : OGREnvelope.
Variable bad_alloc : bool.

#[local] Abbreviation ICreateFeature :=
  (ICreateFeature FieldValues serializeFields GeometryType_Unknown feature_max_buffer_size
                  GeometryWriter_write CreateFeatureDirect header_bytes Merge default_envelope
                  true bad_alloc).
#[local] Abbreviation create_features :=
  (create_features FieldValues serializeFields GeometryType_Unknown feature_max_buffer_size
                   GeometryWriter_write CreateFeatureDirect header_bytes Merge
                   default_envelope true bad_alloc).
#[local] Abbreviation the_record :=
  (record_of FieldValues serializeFields GeometryWriter_write CreateFeatureDirect).
#[local] Abbreviation the_envelope := (envelope_of FieldValues default_envelope).
#[local] Abbreviation written :=
  (has_written FieldValues serializeFields GeometryWriter_write CreateFeatureDirect
               header_bytes Merge default_envelope).
#[local] Abbreviation items :=
  (items_from FieldValues serializeFields GeometryWriter_write CreateFeatureDirect
              default_envelope).
#[local] Abbreviation total_size :=
  (records_size FieldValues serializeFields GeometryWriter_write CreateFeatureDirect).
#[local] Abbreviation so_far :=
  (file_so_far FieldValues serializeFields GeometryWriter_write CreateFeatureDirect).
#[local] Abbreviation headed :=
  (file_with FieldValues serializeFields GeometryWriter_write CreateFeatureDirect).
#[local] Abbreviation extent := (extent_after FieldValues Merge).
#[local] Abbreviation taken := (accepted FieldValues).

Lemma records_size_snoc (fs : list (OGRFeature FieldValues)) (f : OGRFeature FieldValues) :
  total_size (fs ++ [f]) = total_size fs + Z.of_nat (length (the_record f)).
Proof.
  unfold records_size. induction fs as [|g fs IH]; simpl; [lia|].
  unfold records_size in IH. rewrite IH. lia.
Qed.

Lemma items_from_snoc (offset : Z) (fs : list (OGRFeature FieldValues))
  (f : OGRFeature FieldValues) :
  items offset (fs ++ [f])
  = items offset fs
    ++ [mkItem (Z.of_nat (length (the_record f))) (offset + total_size fs) (the_envelope f)].
Proof.
  revert offset. induction fs as [|g fs IH]; intros offset; simpl.
  - unfold records_size. simpl. rewrite Z.add_0_r. reflexivity.
  - rewrite IH. unfold records_size. simpl. do 3 f_equal.
    f_equal. lia.
Qed.

Lemma file_so_far_snoc (name : string) (gt : Z) (fs : list (OGRFeature FieldValues))
  (f : OGRFeature FieldValues) :
  so_far name gt (fs ++ [f])
  = headed (first_header name gt) fs ++ [FeatureBlock (the_record f)].
Proof.
  unfold file_so_far, file_with.
  rewrite !map_app. simpl. destruct fs; reflexivity.
Qed.

Lemma VSIFWriteL_end (b : Block) (f : VSILFILE) :
  position f = length (blocks f) ->
  blocks (VSIFWriteL b f) = blocks f ++ [b]
  /\ position (VSIFWriteL b f) = length (blocks (VSIFWriteL b f)).
Proof.
  intros H. unfold VSIFWriteL. simpl. rewrite H.
  rewrite firstn_all, drop_ge by lia. split; [reflexivity|].
  rewrite length_app. simpl. lia.
Qed.

Lemma extent_after_snoc (fs : list (OGRFeature FieldValues)) (f : OGRFeature FieldValues) :
  extent None (fs ++ [f])
  = match GetGeometryRef FieldValues f with
    | Some g => Some (match extent None fs with
                      | Some e => Merge e (getEnvelope g)
                      | None => getEnvelope g
                      end)
    | None => extent None fs
    end.
Proof. unfold extent_after. rewrite fold_left_app. reflexivity. Qed.

Lemma offset_snoc (fs : list (OGRFeature FieldValues)) (f : OGRFeature FieldValues) (v : Z) :
  match fs ++ [f] with [] => 0 | _ => v end = v.
Proof. destruct fs; reflexivity. Qed.

(** One call of [ICreateFeature] whose writes go through: a feature
    that is taken is appended, a feature that is refused leaves no trace. *)
Lemma ICreateFeature_step (name : string) (gt : Z) (index : bool)
  (fs : list (OGRFeature FieldValues)) (l l' : Layer) (f : OGRFeature FieldValues)
  (err : OGRErr) :
  written name gt index fs l ->
  ICreateFeature l f = (err, l') ->
  (err = OGRERR_NONE /\ written name gt index (fs ++ [f]) l')
  \/ (err <> OGRERR_NONE /\ l' = l).
Proof.
  intros (Hcr & Hidx & Hname & Hgt & Hns & Hcnt & Hext & Hitems & Hoff & Hmax
          & file & Hfile & Hblocks & Hpos) Hc.
  unfold FlatGeobuf.ICreateFeature in Hc. rewrite Hcr in Hc. cbn [negb] in Hc.
  destruct (serializeFields (fieldValues FieldValues f)) as [properties|] eqn:Hs;
    [|injection Hc as <- <-; right; split; [discriminate|reflexivity]].
  match type of Hc with context [if ?b then _ else _] => destruct b end;
    [injection Hc as <- <-; right; split; [discriminate|reflexivity]|].
  match type of Hc with context [if ?b then _ else _] => destruct b end;
    [injection Hc as <- <-; right; split; [discriminate|reflexivity]|].
  destruct bad_alloc;
    [injection Hc as <- <-; right; split; [discriminate|reflexivity]|].
  match type of Hc with context [if ?b then _ else _] => destruct b end;
    [injection Hc as <- <-; right; split; [discriminate|reflexivity]|].
  match type of Hc with context [if ?b then _ else _] => destruct b end;
    [injection Hc as <- <-; right; split; [discriminate|reflexivity]|].
  left.
  assert (Hrec : CreateFeatureDirect
                   match GetGeometryRef FieldValues f with
                   | Some g => if IsEmpty g then 0 else GeometryWriter_write g
                   | None => 0
                   end properties = the_record f).
  { unfold record_of. rewrite Hs. reflexivity. }
  rewrite Hrec in Hc. clear Hrec.
  set (rec := the_record f) in *.
  assert (Hz : (m_featuresCount l =? 0) = bool_decide (fs = [])).
  { rewrite Hcnt. destruct fs; reflexivity. }
  (* the file before the record is written *)
  set (h := first_header name gt).
  assert (Hh : h = mkHeader (if SupportsSeekWhileWriting name then 3735928559 else 0)
                            (if SupportsSeekWhileWriting name
                             then Some (replicate 4 PrimFloat.nan) else None)
                            (m_geometryType l) (m_indexNodeSize l)).
  { unfold h, first_header. rewrite Hgt, Hns.
    destruct (SupportsSeekWhileWriting name); reflexivity. }
  pose proof (VSIFWriteL_end MagicBlock file Hpos) as (Bm & Pm).
  pose proof (VSIFWriteL_end (HeaderBlock h) _ Pm) as (Bh & Ph).
  pose proof (VSIFWriteL_end (FeatureBlock rec) _ Ph) as (B1 & P1).
  pose proof (VSIFWriteL_end (FeatureBlock rec) file Hpos) as (B2 & P2).
  rewrite Bh, Bm in B1.
  assert (Env : the_envelope f
                = match GetGeometryRef FieldValues f with
                  | Some g => getEnvelope g
                  | None => default_envelope
                  end) by reflexivity.
  pose proof (extent_after_snoc fs f) as Hsn.
  pose proof (items_from_snoc (records_offset header_bytes name gt) fs f) as Hit.
  pose proof (records_size_snoc fs f) as Hrs.
  pose proof (file_so_far_snoc name gt fs f) as Hfs.
  pose proof (offset_snoc fs f (records_offset header_bytes name gt
                                + total_size (fs ++ [f]))) as Hos.
  assert (Hmx : fold_left (fun m f => Z.max m (Z.of_nat (length (the_record f))))
                          (fs ++ [f]) 0
                = Z.max (m_maxFeatureSize l) (Z.of_nat (length rec))).
  { rewrite fold_left_app, Hmax. reflexivity. }
  assert (Hlen : Z.of_nat (length (fs ++ [f])) = m_featuresCount l + 1).
  { rewrite length_app, Hcnt. simpl. lia. }
  fold rec in Hit.
  unfold written. rewrite Hsn, Hit, Hfs, Hos, Hrs, Hmx, Hlen. clear Hsn Hit Hfs Hos Hmx Hlen.
  unfold records_offset in *. fold h in Hoff, Hitems |- *.
  destruct l as [cr ix nm g0 eg cnt wo oah mx ns ext its fw fp]. simpl in *.
  subst cr ix nm g0 ns cnt ext its wo mx fw.
  destruct (GetGeometryRef FieldValues f) as [g|] eqn:Hg; simpl in Hc; rewrite Hz in Hc.
  all: case_bool_decide as Hfs; [subst fs|];
    [destruct (SupportsSeekWhileWriting name) eqn:Hseek|]; simpl in Hc;
    injection Hc as <- <-; (split; [reflexivity|]);
    destruct index; simpl;
    repeat (split; [try reflexivity|]);
    rewrite <- ?Hh;
    try match goal with H : ?k <> [] |- _ => destruct k; [congruence|] end;
    try (eexists; split; [reflexivity|];
         split; [etransitivity; [first [exact B1|exact B2]|]; rewrite Hblocks; reflexivity
                |first [exact P1|exact P2]]);
    unfold rec; simpl;
    repeat match goal with
      | |- _ ++ [_] = _ ++ [_] => f_equal
      | |- [_] = [_] => f_equal
      | |- _ :: _ = _ :: _ => f_equal
      | |- mkItem _ _ _ = mkItem _ _ _ => f_equal
      | |- @eq Z _ _ => lia
      | |- _ = envelope_of _ _ _ => unfold envelope_of; rewrite Hg; reflexivity
      end.
Qed.

Lemma create_features_cons (l : Layer) (f : OGRFeature FieldValues)
  (fs : list (OGRFeature FieldValues)) :
  create_features l (f :: fs)
  = (let '(err, l1) := ICreateFeature l f in
     let '(errs, l2) := create_features l1 fs in
     (err :: errs, l2)).
Proof. reflexivity. Qed.

(** The calls for a list of features, one after the other. *)
Lemma create_features_written (name : string) (gt : Z) (index : bool)
  (fs0 fs : list (OGRFeature FieldValues)) (l : Layer) :
  written name gt index fs0 l ->
  length (fst (create_features l fs)) = length fs
  /\ written name gt index (fs0 ++ taken (fst (create_features l fs)) fs)
             (snd (create_features l fs)).
Proof.
  revert fs0 l. induction fs as [|f fs IH]; intros fs0 l Hw.
  - simpl. rewrite app_nil_r. split; [reflexivity|exact Hw].
  - rewrite create_features_cons.
    destruct (ICreateFeature l f) as [err l1] eqn:Hc.
    destruct (ICreateFeature_step name gt index fs0 l l1 f err Hw Hc)
      as [(-> & Hw1)|(Hne & ->)].
    + specialize (IH (fs0 ++ [f]) l1 Hw1).
      destruct (create_features l1 fs) as [errs l2]. simpl in *.
      destruct IH as (Hlen & Hw2). split; [congruence|].
      rewrite <- app_assoc in Hw2. exact Hw2.
    + specialize (IH fs0 l Hw).
      destruct (create_features l fs) as [errs l2]. simpl in *.
      destruct IH as (Hlen & Hw2). split; [congruence|].
      rewrite bool_decide_eq_false_2 by exact Hne. exact Hw2.
Qed.

(** A new writer has written nothing. *)
Lemma new_writer_written (name : string) (eGType gt : Z) (index : bool) :
  written name gt index [] (new_writer name eGType gt index (mkFile [] 0)).
Proof.
  unfold has_written, new_writer. simpl.
  repeat (split; [try reflexivity; destruct index; reflexivity|]).
  eexists. split; [reflexivity|]. split; reflexivity.
Qed.

(** Closing a writer without spatial index. *)
Lemma CreateFinalFile_written (VSIFOpenL_ok : bool) (second_pass : Layer -> bool * Layer)
  (name : string) (gt : Z) (fs : list (OGRFeature FieldValues)) (l : Layer) :
  written name gt false fs l ->
  let closed := CreateFinalFile header_bytes VSIFOpenL_ok second_pass l in
  fst closed = true
  /\ m_featuresCount (snd closed) = Z.of_nat (length fs)
  /\ option_map blocks (m_poFpWrite (snd closed))
     = Some (if SupportsSeekWhileWriting name
             then headed (mkHeader (Z.of_nat (length fs))
                                   (Some (extent_vector (extent None fs))) gt 0) fs
             else so_far name gt fs).
Proof.
  intros (Hcr & Hidx & Hname & Hgt & Hns & Hcnt & Hext & _ & _ & _
          & file & Hfile & Hblocks & _) closed.
  subst closed. unfold FlatGeobuf.CreateFinalFile.
  rewrite Hidx, Hfile, Hname. cbn [negb orb].
  destruct (SupportsSeekWhileWriting name) eqn:Hseek; cbn [negb].
  - cbn [fst snd]. split; [reflexivity|].
    destruct l as [cr ix nm g0 eg cnt wo oah mx ns ext its fw fp]. simpl in *.
    subst. split; [reflexivity|]. f_equal.
    rewrite Hblocks. unfold file_so_far, file_with, extent_vector.
    destruct fs; reflexivity.
  - cbn [fst snd]. split; [reflexivity|]. split; [exact Hcnt|].
    rewrite Hfile. simpl. rewrite Hblocks. reflexivity.
Qed.

End WriterLayout.



(** ** What the reader finds in a file *)

Section ReaderFacts.
Import FlatGeobuf.

Variable feature_max_buffer_size : Z.
Variable VerifyFeatureBuffer : list byte -> bool.
Variable PackedRTree_size : Z -> option Z.
Variable streamSearch : ReadLayer -> OGREnvelope -> option (list (Z * Z)).
Variable Feature : Type.
Variable new_feature : Feature.
Variable decode_record : list byte -> OGRErr + Feature.
Variable passes_filters : ReadLayer -> Feature -> bool.
Variable alloc_ok : Z -> bool.
Variable m_bVerifyBuffers : bool.

#[local] Abbreviation parseFeature :=
  (parseFeature feature_max_buffer_size VerifyFeatureBuffer Feature new_feature decode_record
                alloc_ok m_bVerifyBuffers).
#[local] Abbreviation GetNextFeature :=
  (GetNextFeature feature_max_buffer_size VerifyFeatureBuffer PackedRTree_size streamSearch
                  Feature new_feature decode_record passes_filters alloc_ok m_bVerifyBuffers).
#[local] Abbreviation read :=
  (read_features feature_max_buffer_size VerifyFeatureBuffer PackedRTree_size streamSearch
                 Feature new_feature decode_record passes_filters alloc_ok m_bVerifyBuffers).
#[local] Abbreviation good :=
  (readable feature_max_buffer_size VerifyFeatureBuffer Feature decode_record alloc_ok
            m_bVerifyBuffers).
#[local] Abbreviation feature := (feature_of Feature new_feature decode_record).

Lemma byteAt_middle (pre rec post : list byte) (j : nat) :
  (j < length rec)%nat ->
  byteAt (pre ++ rec ++ post) (Z.of_nat (length pre) + Z.of_nat j) = byteAt rec (Z.of_nat j).
Proof.
  intros Hj. unfold byteAt. rewrite <- Nat2Z.inj_add, !Nat2Z.id.
  rewrite app_nth2 by lia. replace (length pre + j - length pre)%nat with j by lia.
  rewrite app_nth1 by exact Hj. reflexivity.
Qed.

Lemma read_le_middle (pre rec post : list byte) :
  (4 <= length rec)%nat ->
  read_le (pre ++ rec ++ post) (Z.of_nat (length pre)) 4 = read_le rec 0 4.
Proof.
  intros H. unfold read_le. simpl.
  rewrite !(byteAt_middle pre rec post) by lia. reflexivity.
Qed.

Lemma slice_middle (pre rec post : list byte) :
  (4 <= length rec)%nat ->
  slice (pre ++ rec ++ post) (Z.of_nat (length pre) + 4) (Z.of_nat (length rec) - 4)
  = drop 4 rec.
Proof.
  intros H. unfold slice.
  replace (Z.to_nat (Z.of_nat (length pre) + 4)) with (length pre + 4)%nat by lia.
  replace (Z.to_nat (Z.of_nat (length rec) - 4)) with (length rec - 4)%nat by lia.
  rewrite <- drop_drop, drop_app_length.
  rewrite drop_app_le by lia. rewrite take_app_length'; [reflexivity|].
  rewrite length_drop. reflexivity.
Qed.

Lemma concat_split (recs : list (list byte)) (k : nat) (rec : list byte) :
  recs !! k = Some rec ->
  concat recs = concat (take k recs) ++ rec ++ concat (drop (S k) recs)
  /\ concat (take (S k) recs) = concat (take k recs) ++ rec.
Proof.
  intros Hk. split.
  - rewrite <- (take_drop_middle recs k rec Hk) at 1.
    rewrite concat_app. reflexivity.
  - rewrite (take_S_r recs k rec Hk), concat_app. simpl. rewrite app_nil_r. reflexivity.
Qed.

(** The next record of the file, when it is one that the reader takes. *)
Lemma parseFeature_next (count : Z) (recs : list (list byte)) (k : nat) (rec : list byte)
  (r : ReadLayer) :
  at_record count recs k r -> recs !! k = Some rec -> good rec ->
  exists r',
    parseFeature r = (OGRERR_NONE, feature rec, r')
    /\ r_eof r' = false
    /\ at_record count recs (S k) (set_r_featuresPos (r_featuresPos r' + 1) r').
Proof.
  intros (Hb & Ho & Hp & Hc & He & Hf & Hq & Herr) Hk
         ((H4 & Hsz) & Hmax & Hal & Hver & (ft & Hdec)).
  destruct (concat_split recs k rec Hk) as (Hsplit & Hnext).
  set (pre := concat (take k recs)) in *. set (post := concat (drop (S k) recs)) in *.
  unfold FlatGeobuf.parseFeature. rewrite Hq. cbn [andb]. cbv zeta.
  rewrite Hb, Ho, Hsplit.
  rewrite read_le_middle by exact H4. rewrite Hsz.
  rewrite !length_app.
  destruct (Z.gtb_spec (Z.of_nat (length pre) + 4)
                       (Z.of_nat (length pre + (length rec + length post)))) as [|_]; [lia|].
  rewrite slice_middle by exact H4.
  assert (G1 : (Z.of_nat (length rec) - 4 >? 100 * 1024 * 1024)
               && (Z.of_nat (length rec) - 4 >? feature_max_buffer_size) = false).
  { destruct (Z.gtb_spec (Z.of_nat (length rec) - 4) (100 * 1024 * 1024));
      [|reflexivity].
    destruct (Z.gtb_spec (Z.of_nat (length rec) - 4) feature_max_buffer_size);
      [lia|reflexivity]. }
  rewrite G1.
  assert (G2 : (Z.of_nat (length pre) + (Z.of_nat (length rec) - 4)
                >? Z.of_nat (length pre + (length rec + length post))) = false).
  { rewrite Z.gtb_ltb. apply Z.ltb_ge. lia. }
  rewrite G2, andb_false_r, Hal. cbn [negb].
  assert (G3 : (Z.of_nat (length pre) + 4 + (Z.of_nat (length rec) - 4)
                >? Z.of_nat (length pre + (length rec + length post))) = false).
  { rewrite Z.gtb_ltb. apply Z.ltb_ge. lia. }
  rewrite G3.
  assert (G4 : m_bVerifyBuffers && negb (VerifyFeatureBuffer (drop 4 rec)) = false).
  { destruct m_bVerifyBuffers; [|reflexivity]. rewrite (Hver eq_refl). reflexivity. }
  rewrite G4. unfold feature_of. rewrite Hdec.
  eexists. split; [reflexivity|]. split; [exact He|].
  unfold at_record. simpl. rewrite Hnext, length_app.
  repeat split; try assumption; try lia.
Qed.

(** The end of the file: nothing is left to read. *)
Lemma parseFeature_end (r : ReadLayer) :
  r_queriedSpatialIndex r = false ->
  Z.of_nat (length (r_bytes r)) < r_offset r + 4 ->
  parseFeature r = (OGRERR_NONE, new_feature, set_r_eof true r).
Proof.
  intros Hq Ho. unfold FlatGeobuf.parseFeature. rewrite Hq. cbn [andb]. cbv zeta.
  destruct (Z.gtb_spec (r_offset r + 4) (Z.of_nat (length (r_bytes r)))) as [_|]; [|lia].
  reflexivity.
Qed.

Lemma GetNextFeature_S (fuel : nat) (r : ReadLayer) :
  r_poFilterGeom r = None -> r_queriedSpatialIndex r = false ->
  GetNextFeature (S fuel) r
  = if (r_featuresCount r >? 0) && (r_featuresPos r >=? r_featuresCount r)
    then Some (None, r)
    else match parseFeature r with
         | (OGRERR_NONE, feature, r) =>
             if r_eof r then Some (None, r)
             else
               let r := set_r_featuresPos (r_featuresPos r + 1) r in
               if passes_filters r feature then Some (Some feature, r)
               else GetNextFeature fuel r
         | (_, _, r) => Some (None, CPLError "Fatal error parsing feature" r)
         end.
Proof.
  intros Hf Hq. cbn [FlatGeobuf.GetNextFeature].
  unfold readIndex. rewrite Hf, Hq. reflexivity.
Qed.

(** A reader that has gone through the records it reaches returns no
    feature, reports no error, and stays where it is. *)
Lemma GetNextFeature_end (count : Z) (recs : list (list byte)) (r : ReadLayer) :
  0 <= count ->
  at_record count recs (length (reached count recs)) r ->
  exists r',
    (forall fuel, GetNextFeature (S fuel) r = Some (None, r'))
    /\ r_errors r' = []
    /\ (forall fuel, GetNextFeature (S fuel) r' = Some (None, r')).
Proof.
  intros Hcount (Hb & Ho & Hp & Hc & He & Hf & Hq & Herr).
  destruct (decide (0 < count <= Z.of_nat (length recs))) as [Hin|Hout].
  - exists r.
    assert (H : forall fuel, GetNextFeature (S fuel) r = Some (None, r)).
    { intros fuel. rewrite GetNextFeature_S by assumption.
      rewrite Hc, Hp. unfold reached.
      destruct (Z.eqb_spec count 0) as [|_]; [lia|].
      rewrite length_take.
      destruct (Z.gtb_spec count 0) as [_|]; [|lia].
      destruct (Z.geb_spec (Z.of_nat (Z.to_nat count `min` length recs)) count) as [_|];
        [reflexivity|lia]. }
    split; [exact H|]. split; [exact Herr|exact H].
  - assert (Hk : length (reached count recs) = length recs).
    { unfold reached. destruct (Z.eqb_spec count 0); [reflexivity|].
      rewrite length_take. lia. }
    rewrite Hk in Ho, Hp. rewrite firstn_all in Ho.
    assert (Hexit : (count >? 0) && (Z.of_nat (length recs) >=? count) = false).
    { destruct (Z.gtb_spec count 0); [|reflexivity].
      destruct (Z.geb_spec (Z.of_nat (length recs)) count); [lia|reflexivity]. }
    exists (set_r_eof true r).
    assert (H : forall fuel r0,
               r0 = r \/ r0 = set_r_eof true r ->
               GetNextFeature (S fuel) r0 = Some (None, set_r_eof true r)).
    { intros fuel r0 Hr0.
      assert (Hsame : r_poFilterGeom r0 = None /\ r_queriedSpatialIndex r0 = false
                      /\ r_featuresCount r0 = count
                      /\ r_featuresPos r0 = Z.of_nat (length recs)
                      /\ r_bytes r0 = concat recs
                      /\ r_offset r0 = Z.of_nat (length (concat recs))
                      /\ set_r_eof true r0 = set_r_eof true r).
      { destruct Hr0 as [->| ->]; simpl; auto 10. }
      destruct Hsame as (Hf0 & Hq0 & Hc0 & Hp0 & Hb0 & Ho0 & Hset).
      rewrite GetNextFeature_S by assumption.
      rewrite Hc0, Hp0, Hexit.
      rewrite parseFeature_end by (rewrite ?Hb0, ?Ho0; try assumption; lia).
      rewrite Hset. reflexivity. }
    split; [intros fuel; apply H; left; reflexivity|].
    split; [exact Herr|intros fuel; apply H; right; reflexivity].
Qed.

Section Reading.

Variable count : Z.
Variable recs : list (list byte).
Variable keep : Feature -> bool.
Hypothesis count_nonneg : 0 <= count.
Hypothesis recs_good : Forall good recs.
Hypothesis filters : forall r f, passes_filters r f = keep f.

#[local] Abbreviation kept rec := (keep (feature rec)).

Lemma reached_lookup (k : nat) (rec : list byte) :
  reached count recs !! k = Some rec ->
  recs !! k = Some rec /\ good rec /\ (0 < count -> Z.of_nat k < count).
Proof.
  unfold reached. intros H.
  assert (Hr : recs !! k = Some rec /\ (0 < count -> Z.of_nat k < count)).
  { destruct (Z.eqb_spec count 0) as [->|]; [split; [exact H|lia]|].
    apply lookup_take_Some in H as (H & Hk). split; [exact H|lia]. }
  destruct Hr as (Hr & Hlt). split; [exact Hr|]. split; [|exact Hlt].
  exact (Forall_lookup_1 _ _ _ _ recs_good Hr).
Qed.

(** One call: the first record from [k] on that the filter keeps, or the
    end. *)
Lemma GetNextFeature_from (n k : nat) (r : ReadLayer) (fuel : nat) :
  at_record count recs k r ->
  (k + n = length (reached count recs))%nat -> (n < fuel)%nat ->
  (exists r',
      GetNextFeature fuel r = Some (None, r')
      /\ List.filter (fun rec => kept rec) (drop k (reached count recs)) = []
      /\ r_errors r' = []
      /\ forall fuel', GetNextFeature (S fuel') r' = Some (None, r'))
  \/ (exists rec k' r',
         GetNextFeature fuel r = Some (Some (feature rec), r')
         /\ at_record count recs k' r'
         /\ (k < k' <= length (reached count recs))%nat
         /\ List.filter (fun rec => kept rec) (drop k (reached count recs))
            = rec :: List.filter (fun rec => kept rec) (drop k' (reached count recs))).
Proof.
  revert k r fuel. induction n as [|n IH]; intros k r fuel Hat Hk Hfuel.
  - left. replace k with (length (reached count recs)) in * by lia.
    destruct (GetNextFeature_end count recs r count_nonneg Hat) as (r' & H1 & H2 & H3).
    exists r'. destruct fuel as [|fuel]; [lia|].
    split; [apply H1|]. split; [rewrite drop_all; reflexivity|]. split; assumption.
  - destruct (lookup_lt_is_Some_2 (reached count recs) k ltac:(lia)) as (rec & Hrec).
    destruct (reached_lookup k rec Hrec) as (Hr & Hgood & Hlt).
    destruct (parseFeature_next count recs k rec r Hat Hr Hgood) as (r' & Hp & He & Hat').
    destruct fuel as [|fuel]; [lia|].
    pose proof Hat as (_ & _ & Hpos & Hc & _ & Hf & Hq & _).
    rewrite GetNextFeature_S by assumption.
    assert (Hexit : (r_featuresCount r >? 0) && (r_featuresPos r >=? r_featuresCount r)
                    = false).
    { rewrite Hc, Hpos. destruct (Z.gtb_spec count 0); [|reflexivity].
      destruct (Z.geb_spec (Z.of_nat k) count); [lia|reflexivity]. }
    rewrite Hexit, Hp, He. cbv zeta. rewrite filters.
    rewrite (drop_S _ _ _ Hrec). cbn [List.filter].
    destruct (keep (feature rec)) eqn:Hkeep.
    + right. exists rec, (S k), (set_r_featuresPos (r_featuresPos r' + 1) r').
      split; [reflexivity|]. split; [exact Hat'|]. split; [lia|reflexivity].
    + destruct (IH (S k) _ fuel Hat' ltac:(lia) ltac:(lia))
        as [H|(rec' & k' & r'' & H1 & H2 & H3 & H4)]; [left; exact H|].
      right. exists rec', k', r''. split; [exact H1|]. split; [exact H2|].
      split; [lia|exact H4].
Qed.

(** The calls until the end: the features of the records from [k] on
    that the filter keeps. *)
Lemma read_features_from (n k : nat) (r : ReadLayer) (calls fuel : nat) :
  at_record count recs k r ->
  (k + n = length (reached count recs))%nat -> (n < calls)%nat ->
  (length (reached count recs) < fuel)%nat ->
  exists r',
    read calls fuel r
    = Some (map feature (List.filter (fun rec => kept rec) (drop k (reached count recs))), r')
    /\ r_errors r' = []
    /\ forall fuel', GetNextFeature (S fuel') r' = Some (None, r').
Proof.
  revert k r calls. induction n as [n IH] using lt_wf_ind. intros k r calls Hat Hk Hc Hfuel.
  destruct calls as [|calls]; [lia|]. cbn [read_features].
  destruct (GetNextFeature_from n k r fuel Hat Hk ltac:(lia))
    as [(r' & -> & -> & He & Hs)|(rec & k' & r' & -> & Hat' & Hk' & ->)].
  - exists r'. split; [reflexivity|]. split; assumption.
  - destruct (IH (length (reached count recs) - k')%nat ltac:(lia) k' r' calls Hat'
                ltac:(lia) ltac:(lia) Hfuel) as (r'' & -> & He & Hs).
    exists r''. split; [reflexivity|]. split; assumption.
Qed.

Lemma filter_features (l : list (list byte)) :
  map feature (List.filter (fun rec => kept rec) l) = List.filter keep (map feature l).
Proof.
  induction l as [|rec l IH]; [reflexivity|]. simpl.
  destruct (keep (feature rec)); simpl; rewrite IH; reflexivity.
Qed.

End Reading.

End ReaderFacts.

(** Opening a file without index whose header is accepted. *)
Lemma Open_at_start (header_bytes : FlatGeobuf.Header -> Z) (header_max_buffer_size : Z)
  (VerifyHeaderBuffer : FlatGeobuf.Header -> bool) (PackedRTree_size : Z -> option Z)
  (alloc_ok : Z -> bool) (b0 : FlatGeobuf.Block) (h : FlatGeobuf.Header)
  (recs : list (list byte)) (bVerifyBuffers : bool) :
  header_bytes h <= header_max_buffer_size ->
  alloc_ok (header_bytes h) = true ->
  (bVerifyBuffers = true -> VerifyHeaderBuffer h = true) ->
  FlatGeobuf.features_count h <= FlatGeobuf.too_many_features ->
  FlatGeobuf.index_node_size h <= 0 ->
  exists r0,
    FlatGeobuf.Open header_bytes header_max_buffer_size VerifyHeaderBuffer PackedRTree_size
      alloc_ok (b0 :: FlatGeobuf.HeaderBlock h :: map FlatGeobuf.FeatureBlock recs)
      bVerifyBuffers = inr r0
    /\ at_record (FlatGeobuf.features_count h) recs 0 r0.
Proof.
  intros Hsize Hal Hver Hmany Hidx. unfold FlatGeobuf.Open. cbn [drop].
  destruct (Z.gtb_spec (header_bytes h) header_max_buffer_size) as [|_]; [lia|].
  rewrite Hal. cbn [negb].
  assert (G : bVerifyBuffers && negb (VerifyHeaderBuffer h) = false).
  { destruct bVerifyBuffers; [|reflexivity]. rewrite (Hver eq_refl). reflexivity. }
  rewrite G.
  destruct (Z.gtb_spec (FlatGeobuf.features_count h) FlatGeobuf.too_many_features)
    as [|_]; [lia|].
  destruct (Z.gtb_spec (FlatGeobuf.index_node_size h) 0) as [|_]; [lia|].
  eexists. split; [reflexivity|].
  unfold at_record, FlatGeobuf.open_layer. simpl.
  split; [|repeat split].
  f_equal. induction recs as [|rec l IH]; simpl; congruence.
Qed.



(** ** Writing a file and reading it back *)





(** The counted entries of an array, entry by entry. *)
Lemma take_as_map {A} (d : A) (l : list A) (k : nat) :
  (k <= length l)%nat -> take k l = map (fun i => nth i l d) (seq 0 k).
Proof.
  intros Hk. apply list_eq. intros i.
  destruct (decide (i < k)%nat) as [Hi|Hi].
  - rewrite lookup_take_lt by exact Hi.
    rewrite list_lookup_fmap, lookup_seq_lt by exact Hi. simpl.
    destruct (lookup_lt_is_Some_2 l i ltac:(lia)) as (q & Hq).
    rewrite Hq. f_equal. symmetry. apply nth_lookup_Some. exact Hq.
  - rewrite lookup_take_ge by lia.
    rewrite list_lookup_fmap, lookup_seq_ge by lia. reflexivity.
Qed.


